(* ===== verification/_CoqProject ===== *)
-Q . S2P
Prelude.v
Float64.v
Json.v
Utf8.v
JsonText.v
FloatText.v
GoJson.v
Message.v
MessageJson.v
Heap.v
Codec.v
Routing.v
Sim.v
SimSpec.v
Bench.v
Paths.v
Config.v
Store.v
FileTransfer.v
Pem.v
Crypto.v
WireJson.v
StoreSpec.v
FileTransferSpec.v
CryptoSpec.v
Identity.v
Mesh.v
MeshSpec.v
MeshProps.v
MeshRouting.v
MeshRelay.v
Lifecycle.v
Network.v
Sos.v
SosSpec.v
Bridge.v
BridgeSpec.v
BridgeLogic.v
BridgeSender.v
BridgeFrames.v
Daemon.v
DaemonSpec.v
Startup.v
