(* ===== verification/Prelude.v ===== *)
(** * Ripple: an offline mesh messenger, verified

    A model in Rocq of the Go daemon of Ripple (src/go-daemon): peers exchange chat
    messages, files and emergency alerts over libp2p streams and a publish-subscribe
    topic, without servers.  The Flutter application that talks to the daemon is not
    modelled.  Paths below are under src/go-daemon.

    ** The parts and how they interact

    A message ([message.Message]) is created by an application, a timer or a peer.
    The mesh node (pkg/mesh) deduplicates what arrives, gives it to the application,
    relays it (flooding the topic, or handing a bounded number of copies to chosen
    peers, as decided by pkg/routing) and acknowledges it.  The SOS manager (pkg/sos)
    and the bridge (pkg/wsbridge) sit on the node; the bridge serves the application
    over WebSockets and drives the SOS, file (pkg/filetransfer) and encryption
    (pkg/crypto) managers.  The daemon (cmd/rippled) wires them together, stores
    messages (pkg/store) and reads the terminal.  The simulator (pkg/routing/sim)
    runs the same routing decisions over moving nodes.

    ** Files

    Foundations.
    - [Prelude]: Go integers ([wrap64], [uint64]), outcomes (value, error, panic),
      bytes and strings.
    - [Float64], [FloatText]: binary64 with round to nearest even, [math.Pow],
      [Ldexp], [Sqrt], [Hypot]; decimal text of floats (strconv).
    - [Json], [Utf8], [JsonText], [GoJson]: encoding/json as an interface
      ([JSON], [JSONLaw]) and its implementation: UTF-8, scanner, printer, and the
      encoding and decoding of Go types by struct tags; hexadecimal and base64.
    - [Paths], [Pem]: path/filepath's Join and Clean, encoding/pem.
    - [Heap]: the message objects that components share by pointer.

    Components (operations in the first file, theorems in the others).
    - [Message], [MessageJson]: pkg/message.
    - [Codec]: pkg/codec, the binary frame and its split for Bluetooth.
    - [Routing]: pkg/routing.  [Sim], [SimSpec]: pkg/routing/sim.  [Bench]:
      cmd/routingbench.
    - [Mesh], [MeshSpec], [MeshProps], [MeshRouting], [MeshRelay]: pkg/mesh.
      [Lifecycle]: a node from [NewNode] to [Close], and what can reach it when.
      [Network]: several nodes joined by streams.
    - [Store], [StoreSpec]: pkg/store.
    - [FileTransfer], [FileTransferSpec]: pkg/filetransfer.
    - [Crypto], [CryptoSpec]: pkg/crypto.  [Identity]: pkg/identity.
    - [WireJson]: the struct tags of files and streams.
    - [Sos], [SosSpec]: pkg/sos.
    - [Bridge], [BridgeSpec], [BridgeLogic], [BridgeSender], [BridgeFrames]:
      pkg/wsbridge.
    - [Config]: pkg/config.  [Daemon], [DaemonSpec], [Startup]: cmd/rippled.

    A definition has the name of the Go function, method or type it translates; a
    field that clashes has a short prefix.

    ** How the code is modelled

    Integers are [Z] with their wrap-around written out.  A nil dereference, an index
    out of range, a send on a closed channel and the like are [None] (in the monads)
    or [Panic] (in [outcome]); errors are values of the component's error type.
    Stateful code is in four state monads, each over the one below: [M] (the node
    and its world), [SM] (plus the alerts), [BM] (plus the bridge's clients and
    managers), [DM] (plus the store and the terminal).  What code asks of its
    surroundings (clock, entropy, success of a network call, order of map iteration,
    whether a new goroutine runs at once) comes from an environment indexed by the
    number of questions asked, so that theorems hold for all answers.  What it does to
    them is appended to a trace.

    Concurrency is at the granularity of critical sections.  The inputs of
    [Mesh.handle] and [Bridge.bstep] arrive in any order; relay, acknowledgement and
    file goroutines are queued and run when the input says so (the relay goroutine may
    also run before its creator goes on, as the environment's scheduler decides); where
    the code leaves a lock between two steps other goroutines may change the state there
    ([intr] arguments, and the two steps [handleWS] and [greet] of a new client).  Callbacks that a component makes while another one runs are played
    right after it (only when they cannot be observed in between).  The bridge's states
    are those reached from [NewBridge] by clients, the node, [Start], [Stop] and the
    daemon setting the managers, in any order.

    ** What the theorems show

    - Delivery: [exactly_once] (for the whole life of a node, pruning of its caches
      included), [auto_ack], [incoming_stored_once].
    - Relaying: [routeToPeers_refines_plan] refines the abstract plan [spray_plan];
      [spray_budget] bounds one carrier's copies, and [budget_not_global] shows that
      the budget does not bound the network's; [relay_ttl];
      [routingCandidates_deterministic]; [predictability_unit_interval] under rounding.
    - Simulation: [Run_sound] (it ends, without a panic, with sound figures, under
      spray-and-wait and epidemic routing), [copies_conserved], and [bench_verdict]:
      the floats of the benchmark's gate compare as the exact fractions do.
    - Round trips: [codec_roundtrip], [message_wire_roundtrip], [file_roundtrip],
      [save_then_restart], [e2e_roundtrip], [keys_persist], [seed_moves_identity].
    - Robustness against peers: [Unmarshal_safe], [received_file_complete],
      [outputPath_contained]; against crashes: [SaveToJSON_crash_safe].
    - Emergency alerts: [SendAlert_spec], [HandleIncomingSOS_spec],
      [checkExpiry_spec], [rebroadcast_spec].
    - Keys: [cache_coherence].  Bluetooth frames: [MTUFriendlySplit_spec].
    - The bridge: [client_cannot_spoof], [broadcast_reaches_all],
      [encrypted_shown_decrypted], [replies_until_Stop].
    - Where the code falls short of what it means to do: [empty_payload_undecodable],
      [outputPath_escapes], [cancel_does_not_stop], [decrypt_race_stale_key],
      [key_exchange_unchecked], [early_arrival_lost],
      [flood_publishes_callback_result], and the lemmas [ack_before_start_panics], [RecordEncounter_order_sensitive],
      [tick0_delivery_lost], [forwarded_timestamp_rounded], [new_alert_shown_twice],
      [string_prefix_exact].

    ** Fuel and bounds

    Recursion that is not structural takes fuel that is shown to be enough, or is
    enough by construction: 64 steps for [math.Pow]'s exponent bits, 20 digits for an
    integer, 17 for a float, twice the length of the text for the JSON parser, the
    length of the input for splitting, trimming and PEM, the configured duration for
    the simulator.  The lists and maps are unbounded where Go's are; channel buffers
    (256 frames), the WebSocket read limit (64 KiB) and the chunk size (64 KiB) are
    those of the code.

    ** Assumptions on code that is not here

    Parameters, with hypotheses where a theorem uses them: NaCl ([NaCl], [NaClLaw]),
    libp2p's keys and go-bip39 ([Keys], [KeysLaw]), math/rand ([Rand], [RandLaw]),
    peer identifiers' printed forms ([pid_String], [peer_Decode]), the texts of
    error values, and the contents of files.  Each law has an instance that
    satisfies it, used by the examples.

    ** Not modelled

    libp2p itself (transports, gossip, discovery; what happens below a stream or a
    publication), HTTP and WebSocket framing, the flag package's parsing, log lines,
    the wording of terminal output and the layout of tables.  In pkg/mesh: the
    contents of the libp2p host's configuration.  integration/wsprobe is a test client
    over the network and keeps no state.  The node's message hook is a
    function on the message object in [Mesh]; the bridge's own hook, which reads and
    changes the bridge's state, is the separate input [InMessage]. *)

From Stdlib Require Export ZArith NArith Lia Ascii String.
From stdpp Require Export base tactics gmap sets list strings numbers sorting.

Open Scope Z_scope.

(** ** Go integers

    A Go [int] is 64 bits wide on every platform the daemon is built for, so an
    [int] and an [int64] are a [Z] kept in the signed 64-bit range and a
    [uint64] is a [Z] kept in the unsigned one.  Wrap-around is written out at
    every operation that can leave the range. *)

Definition two64 : Z := 2 ^ 64.
Definition two63 : Z := 2 ^ 63.

Definition wrap64 (z : Z) : Z := (z + two63) mod two64 - two63.
Definition uint64 (z : Z) : Z := z mod two64.

Definition is_int64 (z : Z) : Prop := - two63 <= z < two63.
Definition is_uint64 (z : Z) : Prop := 0 <= z < two64.

#[global] Instance is_int64_dec z : Decision (is_int64 z).
Proof. unfold is_int64. apply _. Defined.

Lemma two64_pos : 0 < two64.
Proof. reflexivity. Qed.

Lemma two64_two63 : two64 = 2 * two63.
Proof. reflexivity. Qed.

Lemma two63_val : two63 = 9223372036854775808.
Proof. reflexivity. Qed.

#[global] Opaque two64 two63.

Ltac int_lia :=
  pose proof two64_pos; pose proof two64_two63; pose proof two63_val;
  unfold is_int64, is_uint64 in *; try lia.

Lemma wrap64_range z : is_int64 (wrap64 z).
Proof.
  unfold wrap64. int_lia.
  pose proof (Z.mod_pos_bound (z + two63) two64). lia.
Qed.

Lemma wrap64_id z : is_int64 z -> wrap64 z = z.
Proof. intros Hz. unfold wrap64. rewrite Z.mod_small; int_lia. Qed.

Lemma uint64_range z : is_uint64 (uint64 z).
Proof. apply Z.mod_pos_bound, two64_pos. Qed.

Lemma uint64_id z : is_uint64 z -> uint64 z = z.
Proof. intros Hz. apply Z.mod_small, Hz. Qed.

Lemma wrap64_cong a b k : a = b + k * two64 -> is_int64 b -> wrap64 a = b.
Proof.
  intros -> Hb. unfold wrap64.
  replace (b + k * two64 + two63) with ((b + two63) + k * two64) by lia.
  rewrite Z.mod_add by int_lia. rewrite Z.mod_small; int_lia.
Qed.

Lemma uint64_cong a b k : a = b + k * two64 -> is_uint64 b -> uint64 a = b.
Proof.
  intros -> Hb. unfold uint64. rewrite Z.mod_add by int_lia.
  apply Z.mod_small, Hb.
Qed.

(** ** Outcomes

    The value of a Go call that returns [(T, error)]: a result, an error value,
    or a run-time panic (index or slice out of range, nil dereference). *)

Inductive outcome (E A : Type) : Type :=
| Ret (a : A)
| Fail (e : E)
| Panic.
Arguments Ret {E A} _.
Arguments Fail {E A} _.
Arguments Panic {E A}.

#[global] Instance outcome_ret {E} : MRet (outcome E) := fun A a => Ret a.
#[global] Instance outcome_bind {E} : MBind (outcome E) := fun A B k m =>
  match m with
  | Ret a => k a
  | Fail e => Fail e
  | Panic => Panic
  end.

(** [fmt.Errorf("...: %w", err)]: the error is rewrapped, a result and a panic
    pass through. *)
Definition wrap_err {E A} (f : E -> E) (m : outcome E A) : outcome E A :=
  match m with
  | Fail e => Fail (f e)
  | other => other
  end.

Lemma bind_ret_l {E A B} (a : A) (k : A -> outcome E B) : (Ret a ≫= k) = k a.
Proof. reflexivity. Qed.

Lemma bind_Ret_inv {E A B} (m : outcome E A) (k : A -> outcome E B) b :
  m ≫= k = Ret b -> exists a, m = Ret a /\ k a = Ret b.
Proof. destruct m; intros Hk; [eauto | discriminate..]. Qed.

Lemma bind_no_panic {E A B} (m : outcome E A) (k : A -> outcome E B) :
  m <> Panic -> (forall a, m = Ret a -> k a <> Panic) -> m ≫= k <> Panic.
Proof. destruct m; simpl; intros Hm Hk; [by apply Hk | discriminate | done]. Qed.

Lemma wrap_err_no_panic {E A} (f : E -> E) (m : outcome E A) :
  m <> Panic -> wrap_err f m <> Panic.
Proof. by destruct m. Qed.

Lemma wrap_err_Ret {E A} (f : E -> E) (m : outcome E A) a :
  wrap_err f m = Ret a <-> m = Ret a.
Proof. destruct m; simpl; split; congruence. Qed.

(** ** Bytes and strings

    A Go [string] is a sequence of bytes, as is Rocq's [string]; a [[]byte] is a
    [list ascii]. *)

Abbreviation bytes := (list ascii).

Definition str_bytes (s : string) : bytes := list_ascii_of_string s.
Definition bytes_str (b : bytes) : string := string_of_list_ascii b.

(** The numeric value of a byte, and the truncating conversion [byte(z)]. *)
Definition b2z (b : ascii) : Z := Z.of_N (N_of_ascii b).
Definition z2b (z : Z) : ascii := ascii_of_N (Z.to_N (z mod 256)).

Lemma b2z_range b : 0 <= b2z b < 256.
Proof. unfold b2z. pose proof (N_ascii_bounded b). lia. Qed.

Lemma b2z_z2b z : b2z (z2b z) = z mod 256.
Proof.
  unfold b2z, z2b. pose proof (Z.mod_pos_bound z 256 ltac:(lia)).
  rewrite N_ascii_embedding by lia. lia.
Qed.

Lemma b2z_z2b_small z : 0 <= z < 256 -> b2z (z2b z) = z.
Proof. intros Hz. rewrite b2z_z2b. by apply Z.mod_small. Qed.

Lemma z2b_b2z b : z2b (b2z b) = b.
Proof.
  unfold z2b. rewrite Z.mod_small by apply b2z_range.
  unfold b2z. rewrite N2Z.id. apply ascii_N_embedding.
Qed.

Lemma bytes_str_bytes s : bytes_str (str_bytes s) = s.
Proof. apply string_of_list_ascii_of_string. Qed.

Lemma str_bytes_str b : str_bytes (bytes_str b) = b.
Proof. apply list_ascii_of_string_of_list_ascii. Qed.

Lemma str_bytes_nil s : str_bytes s = [] <-> s = EmptyString.
Proof. destruct s; simpl; split; congruence. Qed.

Lemma str_bytes_app s1 s2 : str_bytes (s1 ++ s2)%string = str_bytes s1 ++ str_bytes s2.
Proof. induction s1 as [|c s1 IH]; [done |]. unfold str_bytes in *. simpl. by rewrite IH. Qed.

(** [len(s)] *)
Definition slen (s : string) : Z := Z.of_nat (length (str_bytes s)).
Definition blen (b : bytes) : Z := Z.of_nat (length b).

Lemma slen_pos s : s <> EmptyString -> 0 < slen s.
Proof. destruct s; unfold slen; simpl; [done | lia]. Qed.

Lemma slen_app s1 s2 : slen (s1 ++ s2)%string = slen s1 + slen s2.
Proof. unfold slen. rewrite str_bytes_app, length_app. lia. Qed.

(** [data[off:]] and [data[:n]]: a bound past the length panics. *)
Definition slice_from {E} (data : bytes) (off : Z) : outcome E bytes :=
  if decide (0 <= off <= blen data) then Ret (drop (Z.to_nat off) data) else Panic.
Definition slice_to {E} (data : bytes) (n : Z) : outcome E bytes :=
  if decide (0 <= n <= blen data) then Ret (take (Z.to_nat n) data) else Panic.

(** [data[a:b]] *)
Definition slice {E} (data : bytes) (a b : Z) : outcome E bytes :=
  if decide (0 <= a <= b /\ b <= blen data)
  then Ret (take (Z.to_nat (b - a)) (drop (Z.to_nat a) data)) else Panic.

(** [data[i]] *)
Definition index {E A} (data : list A) (i : Z) : outcome E A :=
  if decide (0 <= i) then
    match data !! Z.to_nat i with
    | Some a => Ret a
    | None => Panic
    end
  else Panic.

Lemma slice_from_app {E} (p q : bytes) off :
  off = blen p -> @slice_from E (p ++ q) off = Ret q.
Proof.
  intros ->. unfold slice_from, blen. rewrite decide_True.
  - by rewrite Nat2Z.id, drop_app_length.
  - rewrite length_app. lia.
Qed.

Lemma slice_to_app {E} (p q : bytes) n :
  n = blen p -> @slice_to E (p ++ q) n = Ret p.
Proof.
  intros ->. unfold slice_to, blen. rewrite decide_True.
  - by rewrite Nat2Z.id, take_app_length.
  - rewrite length_app. lia.
Qed.

Lemma slice_from_Ret {E} (data : bytes) off d :
  @slice_from E data off = Ret d ->
  0 <= off <= blen data /\ d = drop (Z.to_nat off) data.
Proof. unfold slice_from. case_decide; [by intros [= <-] | done]. Qed.

Lemma slice_from_ok {E} (data : bytes) off :
  0 <= off <= blen data ->
  @slice_from E data off = Ret (drop (Z.to_nat off) data).
Proof. intros H. unfold slice_from. by rewrite decide_True. Qed.

Lemma slice_to_ok {E} (data : bytes) n :
  0 <= n <= blen data -> @slice_to E data n = Ret (take (Z.to_nat n) data).
Proof. intros H. unfold slice_to. by rewrite decide_True. Qed.

Lemma index_ok {E A} (data : list A) i :
  0 <= i < Z.of_nat (length data) -> exists a, @index E A data i = Ret a.
Proof.
  intros H. unfold index. rewrite decide_True by lia.
  destruct (lookup_lt_is_Some_2 data (Z.to_nat i)) as [a ->]; [lia | eauto].
Qed.

Lemma blen_app p q : blen (p ++ q) = blen p + blen q.
Proof. unfold blen. rewrite length_app. lia. Qed.

Lemma blen_nonneg p : 0 <= blen p.
Proof. unfold blen. lia. Qed.

Lemma blen_drop (p : bytes) n : 0 <= n <= blen p -> blen (drop (Z.to_nat n) p) = blen p - n.
Proof. unfold blen. rewrite length_drop. lia. Qed.

Lemma slice_ok {E} (data : bytes) a b :
  0 <= a <= b -> b <= blen data ->
  @slice E data a b = Ret (take (Z.to_nat (b - a)) (drop (Z.to_nat a) data)).
Proof. intros. unfold slice. by rewrite decide_True. Qed.

Lemma slice_app {E} (p q r : bytes) a b :
  a = blen p -> b = blen p + blen q -> @slice E (p ++ q ++ r) a b = Ret q.
Proof.
  intros -> ->. rewrite slice_ok; rewrite ?blen_app; unfold blen in *; [|lia..].
  rewrite Nat2Z.id, drop_app_length.
  replace (Z.to_nat _) with (length q) by lia. by rewrite take_app_length.
Qed.

Lemma blen_cons c p : blen (c :: p) = 1 + blen p.
Proof. unfold blen. simpl. lia. Qed.

Lemma blen_str_bytes s : blen (str_bytes s) = slen s.
Proof. reflexivity. Qed.

Create HintDb ripple.
Create Rewrite HintDb ripple.
#[export] Hint Rewrite blen_app blen_cons blen_str_bytes : ripple.
#[export] Hint Resolve blen_nonneg bind_no_panic wrap_err_no_panic : ripple.

(** ** Bit arithmetic *)

(** [x | y << n] is an addition when [x] fits below bit [n]. *)
Lemma lor_shiftl_add x y n :
  0 <= n -> 0 <= x < 2 ^ n -> Z.lor x (Z.shiftl y n) = x + y * 2 ^ n.
Proof.
  intros Hn Hx.
  assert (Z.land x (Z.shiftl y n) = 0) as H0.
  { apply Z.bits_inj'. intros i Hi. rewrite Z.land_spec, Z.bits_0.
    destruct (Z.lt_ge_cases i n).
    - rewrite Z.shiftl_spec_low by lia. apply andb_false_r.
    - rewrite <- (Z.mod_small x (2 ^ n)) by done.
      by rewrite Z.mod_pow2_bits_high by lia. }
  rewrite <- Z.lxor_lor, <- Z.add_nocarry_lxor by done.
  by rewrite Z.shiftl_mul_pow2.
Qed.

(** [x ^ 0xFFFF_FFFF_FFFF_FFFF] *)
Lemma lxor_ones64 x : is_uint64 x -> Z.lxor x (two64 - 1) = two64 - 1 - x.
Proof.
  unfold is_uint64. intros Hx.
  assert (two64 = 2 ^ 64) as E by reflexivity. rewrite E in *. clear E.
  replace (2 ^ 64 - 1) with (Z.ones 64) by reflexivity.
  assert (Z.lxor x (Z.ones 64) = Z.land (Z.lnot x) (Z.ones 64)) as ->.
  { apply Z.bits_inj'. intros i Hi.
    rewrite Z.lxor_spec, Z.land_spec, Z.lnot_spec by done.
    destruct (Z.lt_ge_cases i 64).
    - rewrite Z.ones_spec_low by lia. by destruct (Z.testbit x i).
    - rewrite Z.ones_spec_high by lia.
      rewrite <- (Z.mod_small x (2 ^ 64)) by apply Hx.
      by rewrite Z.mod_pow2_bits_high by lia. }
  rewrite Z.land_ones by lia. unfold Z.lnot.
  change (Z.ones 64) with (2 ^ 64 - 1).
  symmetry. apply (Z.mod_unique_pos _ _ (-1)); lia.
Qed.
