(* ===== verification/Float64.v ===== *)
(** * IEEE 754 binary64, as Go's [float64]

    Every finite binary64 value is an integer multiple of [2^-1074], so a finite
    float is represented by that integer.  An operation computes the exact
    result and rounds it to nearest, ties to even, on 53 significant bits
    ([rnd]); results of magnitude [2^1024] and above become infinite.  The two
    zeros are identified: the program never divides by a zero it computed and
    never prints one.  The lemmas below are the ones the routing kinetics and
    the progress bar rest on: rounding is monotone, is the identity on
    representable values, and has relative error at most [2^-53]. *)

From S2P Require Import Prelude.

Module F64.

(** One, in units of [2^-1074]. *)
Definition unit_exp : Z := 1074.
Definition one_u : Z := 2 ^ unit_exp.
Definition max_u : Z := 2 ^ (1024 + unit_exp).

Inductive f64 : Type :=
| Fin (u : Z)
| Inf (neg : bool)
| NaN.

#[global] Instance f64_eq_dec : EqDecision f64.
Proof. solve_decision. Defined.

(** Nearest integer to [n / d], ties to even. *)
Definition rne (n d : Z) : Z :=
  let q := n / d in
  let r := n mod d in
  if 2 * r <? d then q
  else if d <? 2 * r then q + 1
  else if Z.even q then q else q + 1.

(** Exponent of the last place of [q] units: 0 while [q] fits 53 bits. *)
Definition ulp_exp (q : Z) : Z := Z.max 0 (Z.log2 q - 52).

(** Round the non-negative rational [n / d] (in units). *)
Definition rnd (n d : Z) : Z :=
  let s := 2 ^ ulp_exp (n / d) in s * rne n (d * s).

Definition rnd_signed (n d : Z) : Z := Z.sgn n * rnd (Z.abs n) d.

(** Overflow to infinity. *)
Definition mk (u : Z) : f64 :=
  if Z.abs u <? max_u then Fin u else Inf (u <? 0).

Definition fadd (x y : f64) : f64 :=
  match x, y with
  | Fin a, Fin b => mk (rnd_signed (a + b) 1)
  | NaN, _ | _, NaN => NaN
  | Inf s, Inf t => if Bool.eqb s t then Inf s else NaN
  | Inf s, Fin _ | Fin _, Inf s => Inf s
  end.

Definition fneg (x : f64) : f64 :=
  match x with Fin a => Fin (- a) | Inf s => Inf (negb s) | NaN => NaN end.

Definition fsub (x y : f64) : f64 := fadd x (fneg y).

Definition fmul (x y : f64) : f64 :=
  match x, y with
  | Fin a, Fin b => mk (rnd_signed (a * b) one_u)
  | NaN, _ | _, NaN => NaN
  | Inf s, Inf t => Inf (xorb s t)
  | Inf s, Fin b | Fin b, Inf s =>
      if b =? 0 then NaN else Inf (xorb s (b <? 0))
  end.

Definition fdiv (x y : f64) : f64 :=
  match x, y with
  | Fin a, Fin b =>
      if b =? 0 then
        (if a =? 0 then NaN else Inf (a <? 0))
      else mk (rnd_signed (a * Z.sgn b * one_u) (Z.abs b))
  | NaN, _ | _, NaN => NaN
  | Inf _, Inf _ => NaN
  | Inf s, Fin b => Inf (xorb s (b <? 0))
  | Fin _, Inf _ => Fin 0
  end.

(** The square root of [n] units of [2^-2148], rounded to units of [2^-1074]: the
    floor of the exact root to the last place, then a comparison with the midpoint. *)
Definition sqrt_u (n : Z) : Z :=
  let r := Z.sqrt n in
  let s := 2 ^ ulp_exp r in
  let q := r / s in
  let mid := s * s * (2 * q + 1) * (2 * q + 1) in
  if 4 * n <? mid then s * q
  else if mid <? 4 * n then s * (q + 1)
  else if Z.even q then s * q else s * (q + 1).

Definition fsqrt (x : f64) : f64 :=
  match x with
  | Fin a => if a <? 0 then NaN else mk (sqrt_u (a * one_u))
  | Inf false => Inf false
  | _ => NaN
  end.

Definition fabs (x : f64) : f64 :=
  match x with Fin a => Fin (Z.abs a) | Inf _ => Inf false | NaN => NaN end.

(** [x < y] and [x <= y]; false when either side is NaN. *)
Definition flt (x y : f64) : bool :=
  match x, y with
  | NaN, _ | _, NaN => false
  | Fin a, Fin b => a <? b
  | Fin _, Inf s => negb s
  | Inf s, Fin _ => s
  | Inf s, Inf t => s && negb t
  end.

Definition fle (x y : f64) : bool :=
  match x, y with
  | NaN, _ | _, NaN => false
  | Fin a, Fin b => a <=? b
  | Fin _, Inf s => negb s
  | Inf s, Fin _ => s
  | Inf s, Inf t => s || negb t
  end.

(** [float64(z)] for an integer, and a decimal constant [n / d]. *)
Definition of_int (z : Z) : f64 := mk (rnd_signed (z * one_u) 1).
Definition of_ratio (n d : Z) : f64 := mk (rnd_signed (n * one_u) d).

Definition zero : f64 := Fin 0.
Definition one : f64 := Fin one_u.

(** Values rounding leaves alone. *)
Definition repr (u : Z) : Prop := rnd u 1 = u.

(** ** Rounding *)

Lemma one_u_pos : 0 < one_u.
Proof. reflexivity. Qed.

Lemma one_u_lt_max : one_u < max_u.
Proof. reflexivity. Qed.

Lemma ulp_pos q : 0 < 2 ^ ulp_exp q.
Proof. apply Z.pow_pos_nonneg; unfold ulp_exp; lia. Qed.

Lemma ulp_exp_mono q1 q2 : q1 <= q2 -> ulp_exp q1 <= ulp_exp q2.
Proof. intros H%Z.log2_le_mono. unfold ulp_exp. lia. Qed.

Lemma rne_bounds n d : 0 < d -> 2 * n - d <= 2 * d * rne n d <= 2 * n + d.
Proof.
  intros Hd. unfold rne.
  pose proof (Z.div_mod n d ltac:(lia)) as Hn.
  pose proof (Z.mod_pos_bound n d Hd) as Hr.
  set (q := n / d) in *. set (r := n mod d) in *.
  destruct (Z.ltb_spec (2 * r) d); [nia |].
  destruct (Z.ltb_spec d (2 * r)); [nia |].
  destruct (Z.even q); nia.
Qed.

Lemma rne_exact m d : 0 < d -> rne (m * d) d = m.
Proof.
  intros Hd. unfold rne. rewrite Z.div_mul, Z.mod_mul by lia.
  by destruct (Z.ltb_spec (2 * 0) d); [| lia].
Qed.

(** Rounding is monotone, across denominators. *)
Lemma rne_mono n1 d1 n2 d2 :
  0 < d1 -> 0 < d2 -> n1 * d2 <= n2 * d1 -> rne n1 d1 <= rne n2 d2.
Proof.
  intros Hd1 Hd2 H.
  destruct (Z.le_gt_cases (rne n1 d1) (rne n2 d2)) as [|Hgt]; [done | exfalso].
  pose proof (rne_bounds n1 d1 Hd1) as B1.
  pose proof (rne_bounds n2 d2 Hd2) as B2.
  (* both sides sit on the midpoint between [m] and [m + 1] *)
  assert (Hm1 : 2 * n1 >= d1 * (2 * rne n2 d2 + 1)) by nia.
  assert (Hm2 : 2 * n2 <= d2 * (2 * rne n2 d2 + 1)) by nia.
  set (m := rne n2 d2) in *.
  assert (E1 : 2 * n1 = d1 * (2 * m + 1)) by nia.
  assert (E2 : 2 * n2 = d2 * (2 * m + 1)) by nia.
  assert (Hhalf : forall n d, 0 < d -> 2 * n = d * (2 * m + 1) ->
    rne n d = if Z.even m then m else m + 1).
  { clear. intros n d Hd E. unfold rne.
    assert (Hq : n / d = m).
    { symmetry. apply (Z.div_unique n d m (n - d * m)); [left; nia | lia]. }
    rewrite Z.mod_eq by lia. rewrite Hq.
    destruct (Z.ltb_spec (2 * (n - d * m)) d); [nia |].
    destruct (Z.ltb_spec d (2 * (n - d * m))); [nia | done]. }
  rewrite (Hhalf n1 d1) in Hgt by done.
  assert (Hm : m = if Z.even m then m else m + 1) by (rewrite <- (Hhalf n2 d2); done).
  destruct (Z.even m); lia.
Qed.

Lemma rne_nonneg n d : 0 < d -> 0 <= n -> 0 <= rne n d.
Proof.
  intros Hd Hn. rewrite <- (rne_exact 0 d Hd). apply rne_mono; nia.
Qed.

Lemma rnd_nonneg n d : 0 < d -> 0 <= n -> 0 <= rnd n d.
Proof.
  intros Hd Hn. unfold rnd. pose proof (ulp_pos (n / d)).
  pose proof (rne_nonneg n (d * 2 ^ ulp_exp (n / d)) ltac:(nia) Hn). nia.
Qed.

Lemma rnd_0 d : 0 < d -> rnd 0 d = 0.
Proof.
  intros Hd. unfold rnd. pose proof (ulp_pos (0 / d)).
  pose proof (rne_exact 0 (d * 2 ^ ulp_exp (0 / d)) ltac:(nia)) as E.
  rewrite Z.mul_0_l in E. rewrite E. lia.
Qed.

(** A grid point bounds the rounded value whenever it bounds the exact one. *)
Lemma rnd_le_grid n d g :
  0 < d -> (2 ^ ulp_exp (n / d) | g) -> n <= d * g -> rnd n d <= g.
Proof.
  intros Hd [k ->] Hn. unfold rnd. pose proof (ulp_pos (n / d)) as Hs.
  set (s := 2 ^ ulp_exp (n / d)) in *.
  assert (rne n (d * s) <= rne k 1) as H by (apply rne_mono; nia).
  pose proof (rne_exact k 1 ltac:(lia)) as E. rewrite Z.mul_1_r in E. nia.
Qed.

Lemma rnd_ge_grid n d g :
  0 < d -> (2 ^ ulp_exp (n / d) | g) -> d * g <= n -> g <= rnd n d.
Proof.
  intros Hd [k ->] Hn. unfold rnd. pose proof (ulp_pos (n / d)) as Hs.
  set (s := 2 ^ ulp_exp (n / d)) in *.
  assert (rne k 1 <= rne n (d * s)) as H by (apply rne_mono; nia).
  pose proof (rne_exact k 1 ltac:(lia)) as E. rewrite Z.mul_1_r in E. nia.
Qed.

Lemma pow2_divide a b : 0 <= a <= b -> (2 ^ a | 2 ^ b).
Proof.
  intros H. exists (2 ^ (b - a)). rewrite <- Z.pow_add_r by lia. f_equal; lia.
Qed.

Lemma ulp_exp_nonneg q : 0 <= ulp_exp q.
Proof. unfold ulp_exp. lia. Qed.

(** The value of [q] brackets its own last place. *)
Lemma ulp_exp_pos_bounds q :
  0 < ulp_exp q -> 2 ^ (ulp_exp q + 52) <= q < 2 ^ (ulp_exp q + 53).
Proof.
  unfold ulp_exp. intros H.
  assert (0 < q) by (destruct (Z.le_gt_cases q 0); [|done];
                     rewrite Z.log2_nonpos in H by done; lia).
  pose proof (Z.log2_spec q ltac:(done)) as B.
  replace (Z.max 0 (Z.log2 q - 52) + 52) with (Z.log2 q) by lia.
  replace (Z.max 0 (Z.log2 q - 52) + 53) with (Z.succ (Z.log2 q)) by lia.
  done.
Qed.

Lemma ulp_exp_upper q : 0 <= q -> q < 2 ^ (ulp_exp q + 53).
Proof.
  intros Hq. destruct (decide (q = 0)) as [->|].
  - apply Z.pow_pos_nonneg; unfold ulp_exp; lia.
  - pose proof (Z.log2_spec q ltac:(lia)) as [_ B].
    eapply Z.lt_le_trans; [exact B |].
    apply Z.pow_le_mono_r; unfold ulp_exp; lia.
Qed.

Theorem rnd_mono n1 d1 n2 d2 :
  0 < d1 -> 0 < d2 -> 0 <= n1 -> 0 <= n2 -> n1 * d2 <= n2 * d1 ->
  rnd n1 d1 <= rnd n2 d2.
Proof.
  intros Hd1 Hd2 Hn1 Hn2 H.
  assert (Hq : n1 / d1 <= n2 / d2).
  { apply Z.div_le_lower_bound; [done |].
    pose proof (Z.mul_div_le n1 d1 Hd1). nia. }
  pose proof (ulp_exp_mono _ _ Hq) as He.
  destruct (decide (ulp_exp (n1 / d1) = ulp_exp (n2 / d2))) as [E|NE].
  - unfold rnd. rewrite E. pose proof (ulp_pos (n2 / d2)).
    apply Z.mul_le_mono_nonneg_l; [lia | apply rne_mono; nia].
  - pose proof (ulp_exp_nonneg (n1 / d1)).
    pose proof (ulp_exp_pos_bounds (n2 / d2) ltac:(lia)) as [B2 _].
    pose proof (Z.mul_div_le n2 d2 Hd2).
    pose proof (Z.mul_succ_div_gt n1 d1 Hd1) as Hgt.
    pose proof (ulp_exp_upper (n1 / d1) ltac:(apply Z.div_pos; lia)) as B1.
    assert (2 ^ (ulp_exp (n1 / d1) + 53) <= 2 ^ (ulp_exp (n2 / d2) + 52))
      by (apply Z.pow_le_mono_r; lia).
    transitivity (2 ^ (ulp_exp (n2 / d2) + 52)).
    + apply rnd_le_grid; [done | apply pow2_divide; lia | nia].
    + apply rnd_ge_grid; [done | apply pow2_divide; lia | nia].
Qed.

Lemma repr_divide v : 0 <= v -> (2 ^ ulp_exp v | v) -> repr v.
Proof.
  intros Hv Hd. unfold repr. apply Z.le_antisymm.
  - apply rnd_le_grid; rewrite ?Z.div_1_r; [lia | done | lia].
  - apply rnd_ge_grid; rewrite ?Z.div_1_r; [lia | done | lia].
Qed.

(** Rounding lands on a representable value. *)
Theorem rnd_repr n d : 0 < d -> 0 <= n -> repr (rnd n d).
Proof.
  intros Hd Hn. pose proof (rnd_nonneg n d Hd Hn) as Hv.
  apply repr_divide; [done |].
  set (e := ulp_exp (n / d)).
  pose proof (ulp_exp_nonneg (n / d)) as He. fold e in He.
  assert (Hle : rnd n d <= 2 ^ (e + 53)).
  { apply rnd_le_grid; [done | apply pow2_divide; fold e; lia |].
    pose proof (ulp_exp_upper (n / d) ltac:(apply Z.div_pos; lia)).
    pose proof (Z.mul_succ_div_gt n d Hd). fold e in H. nia. }
  destruct (decide (rnd n d = 2 ^ (e + 53))) as [E|NE].
  - rewrite E. apply pow2_divide. unfold ulp_exp.
    rewrite Z.log2_pow2 by lia. lia.
  - assert (ulp_exp (rnd n d) <= e).
    { destruct (decide (ulp_exp (rnd n d) <= 0)); [lia |].
      pose proof (ulp_exp_pos_bounds (rnd n d) ltac:(lia)) as [B _].
      assert (Hp : 2 ^ (ulp_exp (rnd n d) + 52) < 2 ^ (e + 53)) by lia.
      apply Z.pow_lt_mono_r_iff in Hp; lia. }
    eapply Z.divide_trans; [apply (pow2_divide _ e); split; [apply ulp_exp_nonneg | done] |].
    unfold rnd, e. apply Z.divide_factor_l.
Qed.

Lemma repr_pow2 k : 0 <= k -> repr (2 ^ k).
Proof.
  intros Hk. apply repr_divide; [apply Z.pow_nonneg; lia |].
  apply pow2_divide. unfold ulp_exp. rewrite Z.log2_pow2 by done. lia.
Qed.

Lemma repr_one : repr one_u.
Proof. apply repr_pow2. discriminate. Qed.

Lemma repr_0 : repr 0.
Proof. apply rnd_0. lia. Qed.

(** Relative error: a result that left the exact integer grid overshoots by at
    most one part in [2^53]. *)
Lemma rnd_rel_error n d :
  0 < d -> 0 <= n -> 0 < ulp_exp (n / d) ->
  2 ^ 53 * (d * rnd n d) <= (2 ^ 53 + 1) * n.
Proof.
  intros Hd Hn He. pose proof (ulp_exp_pos_bounds _ He) as [B _].
  rewrite Z.pow_add_r in B by lia.
  unfold rnd. pose proof (ulp_pos (n / d)) as Hs.
  set (s := 2 ^ ulp_exp (n / d)) in *.
  pose proof (rne_bounds n (d * s) ltac:(nia)) as [_ R].
  pose proof (Z.mul_div_le n d Hd).
  assert (2 ^ 52 * (d * s) <= n) by nia.
  replace (2 ^ 53) with (2 * 2 ^ 52) by reflexivity. nia.
Qed.

(** On the exact grid an integer is its own rounding. *)
Lemma rnd_int_small t : 0 <= t -> ulp_exp t = 0 -> rnd t 1 = t.
Proof.
  intros Ht E. apply repr_divide; [done |]. rewrite E. apply Z.divide_1_l.
Qed.

(** ** The unit interval

    [in_unit x]: [x] is a finite representable value between 0 and 1, the range
    of a delivery predictability. *)

Definition in_unit (x : f64) : Prop :=
  exists p, x = Fin p /\ 0 <= p <= one_u /\ repr p.

Lemma rnd_signed_nonneg n d : 0 < d -> 0 <= n -> rnd_signed n d = rnd n d.
Proof.
  intros Hd Hn. unfold rnd_signed. rewrite Z.abs_eq by done.
  destruct (decide (n = 0)) as [->|]; [by rewrite rnd_0 |].
  rewrite Z.sgn_pos by lia. lia.
Qed.

Lemma mk_fin u : 0 <= u < max_u -> mk u = Fin u.
Proof. intros Hu. unfold mk. rewrite Z.abs_eq by lia. by destruct (Z.ltb_spec u max_u); [|lia]. Qed.

Lemma rnd_le_one n d : 0 < d -> 0 <= n -> n <= d * one_u -> rnd n d <= one_u.
Proof.
  intros Hd Hn H. pose proof one_u_pos. pose proof repr_one as R. unfold repr in R.
  rewrite <- R. apply rnd_mono; lia.
Qed.

Lemma in_unit_zero : in_unit zero.
Proof. exists 0. pose proof one_u_pos. split; [done | split; [lia | apply repr_0]]. Qed.

Lemma in_unit_one : in_unit one.
Proof. exists one_u. pose proof one_u_pos. split; [done | split; [lia | apply repr_one]]. Qed.

(** Rounding an exact value of the interval gives a value of the interval. *)
Lemma in_unit_rnd n d :
  0 < d -> 0 <= n -> n <= d * one_u ->
  mk (rnd_signed n d) = Fin (rnd n d) /\ in_unit (Fin (rnd n d)).
Proof.
  intros Hd Hn H. pose proof (rnd_nonneg n d Hd Hn).
  pose proof (rnd_le_one n d Hd Hn H). pose proof one_u_lt_max.
  rewrite rnd_signed_nonneg, mk_fin by lia.
  split; [done | exists (rnd n d); split; [done |]; split; [lia | by apply rnd_repr]].
Qed.

Lemma in_unit_complement x : in_unit x -> in_unit (fsub one x).
Proof.
  intros (p & -> & Hp & _). unfold fsub, fadd, fneg, one.
  destruct (in_unit_rnd (one_u + - p) 1) as [-> ?]; [lia.. | done].
Qed.

Lemma in_unit_mul x y : in_unit x -> in_unit y -> in_unit (fmul x y).
Proof.
  intros (p & -> & Hp & _) (q & -> & Hq & _). unfold fmul. pose proof one_u_pos.
  destruct (in_unit_rnd (p * q) one_u) as [-> ?]; [nia.. | done].
Qed.

Lemma fmul_shrinks x y : in_unit x -> in_unit y -> fle (fmul x y) x = true.
Proof.
  intros (p & -> & Hp & Rp) (q & -> & Hq & _). unfold fmul. pose proof one_u_pos.
  destruct (in_unit_rnd (p * q) one_u) as [-> _]; [nia.. |].
  simpl. apply Z.leb_le. unfold repr in Rp.
  rewrite <- Rp at 2. apply rnd_mono; nia.
Qed.

(** A sum of two values of the interval is at least either of them, and lies in
    the interval once it is capped at one. *)
Lemma fadd_unit x y :
  in_unit x -> in_unit y ->
  exists s, fadd x y = Fin s /\ repr s /\ 0 <= s /\
            fle x (fadd x y) = true /\
            (s <= one_u -> in_unit (fadd x y)).
Proof.
  intros (p & -> & Hp & Rp) (q & -> & Hq & _). unfold fadd. pose proof one_u_pos.
  pose proof (rnd_nonneg (p + q) 1 ltac:(lia) ltac:(lia)) as H0.
  assert (rnd (p + q) 1 <= 2 * one_u) as H2.
  { change (2 * one_u) with (2 ^ (1 + unit_exp)).
    pose proof (repr_pow2 (1 + unit_exp) ltac:(discriminate)) as R. unfold repr in R.
    rewrite <- R. apply rnd_mono; [lia.. |].
    change (2 ^ (1 + unit_exp)) with (2 * one_u). lia. }
  rewrite rnd_signed_nonneg by lia.
  rewrite mk_fin by (change max_u with (2 ^ 1024 * one_u); lia).
  exists (rnd (p + q) 1). split_and!; [done | apply rnd_repr; lia | done | | ].
  - simpl. apply Z.leb_le. unfold repr in Rp.
    rewrite <- Rp at 1. apply rnd_mono; lia.
  - intros. exists (rnd (p + q) 1). split; [done |]. split; [lia | apply rnd_repr; lia].
Qed.

Lemma fle_trans x y z : fle x y = true -> fle y z = true -> fle x z = true.
Proof.
  destruct x as [a|[]|], y as [b|[]|], z as [c|[]|]; simpl; try done; intros H1 H2.
  apply Z.leb_le in H1, H2. apply Z.leb_le. lia.
Qed.

(** [p + 3/4 (1 - p)] stays below one, rounding errors included: the product
    rounds to at most the exact complement. *)
Lemma three_quarters_complement p :
  0 <= p <= one_u -> repr p ->
  rnd (rnd (one_u - p) 1 * (3 * 2 ^ 1072)) one_u <= one_u - p.
Proof.
  intros Hp Rp. pose proof one_u_pos as H1.
  set (t := one_u - p). set (a := rnd t 1).
  assert (0 <= a) by (apply rnd_nonneg; lia).
  assert (Ha : repr a) by (apply rnd_repr; lia).
  assert (Hone : one_u = 4 * 2 ^ 1072) by reflexivity.
  assert (Hc : 0 < 2 ^ 1072) by reflexivity.
  set (c := 2 ^ 1072) in *.
  assert (Hle : rnd (a * (3 * c)) one_u <= a).
  { unfold repr in Ha. rewrite <- Ha at 2. apply rnd_mono; [lia | lia | nia | lia | nia]. }
  pose proof (ulp_exp_nonneg t).
  destruct (decide (ulp_exp t = 0)) as [E|NE].
  { unfold a in Hle at 2. rewrite (rnd_int_small t) in Hle by lia. done. }
  pose proof (rnd_rel_error t 1 ltac:(lia) ltac:(lia)
    ltac:(rewrite Z.div_1_r; lia)) as Ea. fold a in Ea.
  destruct (decide (ulp_exp (a * (3 * c) / one_u) = 0)) as [E2|NE2].
  - (* the product sits on the exact grid: at most [3a/4 + 1/2] *)
    unfold rnd. rewrite E2, Z.pow_0_r, Z.mul_1_l, Z.mul_1_r.
    pose proof (rne_bounds (a * (3 * c)) one_u H1) as [_ R].
    pose proof (ulp_exp_pos_bounds t ltac:(lia)) as [Bt _].
    assert (2 ^ 53 <= t).
    { etransitivity; [|exact Bt]. apply Z.pow_le_mono_r; lia. }
    change (2 ^ 53) with 9007199254740992 in *. nia.
  - pose proof (ulp_exp_nonneg (a * (3 * c) / one_u)).
    pose proof (rnd_rel_error (a * (3 * c)) one_u H1 ltac:(nia) ltac:(lia)) as Eb.
    set (b := rnd (a * (3 * c)) one_u) in *.
    change (2 ^ 53) with 9007199254740992 in *.
    rewrite Hone in Eb. nia.
Qed.

(** ** Quotients of small integers

    They are compared exactly: two different ones round to different floats. *)

Lemma rnd_rel_error_low n d :
  0 < d -> 0 <= n -> 0 < ulp_exp (n / d) -> (2 ^ 53 - 1) * n <= 2 ^ 53 * (d * rnd n d).
Proof.
  intros Hd Hn He. pose proof (ulp_exp_pos_bounds _ He) as [B _]. rewrite Z.pow_add_r in B by lia.
  unfold rnd. pose proof (ulp_pos (n / d)) as Hs. set (s := 2 ^ ulp_exp (n / d)) in *.
  pose proof (rne_bounds n (d * s) ltac:(nia)) as [R _]. pose proof (Z.mul_div_le n d Hd).
  assert (2 ^ 52 * (d * s) <= n) by nia. replace (2 ^ 53) with (2 * 2 ^ 52) by reflexivity. nia.
Qed.

Lemma rnd_scale n d k : 0 < d -> 0 <= n -> 0 < k -> rnd (n * k) (d * k) = rnd n d.
Proof. intros. apply Z.le_antisymm; apply rnd_mono; nia. Qed.

(** The quotient of two small integers, in units. *)
Definition small (a : Z) : Prop := 0 <= a < 2 ^ 25.
Definition quot_u (a b : Z) : Z := rnd (a * one_u) b.

Lemma quot_ulp a b : 0 < a -> 0 < b < 2 ^ 25 -> 0 < ulp_exp (a * one_u / b).
Proof.
  intros Ha Hb. assert (2 ^ 60 <= a * one_u / b) as H.
  { apply Z.div_le_lower_bound; [lia |]. transitivity (2 ^ 25 * 2 ^ 60).
    - apply Z.mul_le_mono_nonneg_r; [apply Z.leb_le; reflexivity | lia].
    - assert (2 ^ 25 * 2 ^ 60 <= one_u) as Hu by (apply Z.leb_le; reflexivity).
      pose proof one_u_pos. etransitivity; [exact Hu |]. clear Hu. set (u := one_u) in *. clearbody u. nia. }
  apply Z.log2_le_mono in H. rewrite Z.log2_pow2 in H by lia. unfold ulp_exp. lia.
Qed.

Lemma cross_le K l h u a b c d x y :
  0 <= K -> 0 < u -> 0 < b -> 0 < d -> l * (c * u) <= K * (d * y) -> K * (b * x) <= h * (a * u) ->
  y <= x -> l * (c * b) <= h * (a * d).
Proof.
  intros HK Hu Hb Hd Hc Ha Hyx. apply (Z.mul_le_mono_pos_r _ _ u Hu).
  transitivity (K * (d * y) * b); [nia |]. transitivity (K * (b * x) * d); [| nia].
  replace (K * (d * y) * b) with (K * d * b * y) by ring. replace (K * (b * x) * d) with (K * d * b * x) by ring.
  apply Z.mul_le_mono_nonneg_l; nia.
Qed.

Lemma quot_lt a b c d :
  small a -> 0 < b < 2 ^ 25 -> small c -> 0 < d < 2 ^ 25 -> a * d < c * b -> quot_u a b < quot_u c d.
Proof.
  unfold small. intros Ha Hb Hc Hd H. unfold quot_u. pose proof one_u_pos as Hu.
  assert (0 < c) by nia.
  pose proof (rnd_rel_error_low (c * one_u) d ltac:(lia) ltac:(nia) (quot_ulp c d ltac:(lia) Hd)) as Ec.
  set (y := rnd (c * one_u) d) in *. destruct (decide (a = 0)) as [->|Hne].
  - rewrite Z.mul_0_l, rnd_0 by lia. nia.
  - pose proof (rnd_rel_error (a * one_u) b ltac:(lia) ltac:(nia) (quot_ulp a b ltac:(lia) Hb)) as Ea.
    set (x := rnd (a * one_u) b) in *. destruct (Z.lt_ge_cases x y) as [|Hge]; [done | exfalso].
    assert (a * d < 2 ^ 25 * 2 ^ 25) by (apply Z.mul_lt_mono_nonneg; lia).
    pose proof (cross_le (2 ^ 53) _ _ one_u a b c d x y ltac:(lia) Hu ltac:(lia) ltac:(lia) Ec Ea Hge). lia.
Qed.

Lemma quot_le a b c d :
  small a -> 0 < b < 2 ^ 25 -> small c -> 0 < d < 2 ^ 25 -> (quot_u a b <= quot_u c d <-> a * d <= c * b).
Proof.
  intros Ha Hb Hc Hd. split; intros H.
  - destruct (Z.le_gt_cases (a * d) (c * b)) as [|Hgt]; [done |].
    pose proof (quot_lt c d a b Hc Hd Ha Hb Hgt). lia.
  - unfold quot_u, small in *. pose proof one_u_pos. apply rnd_mono; nia.
Qed.

Lemma quot_fin a b : small a -> 0 < b -> 0 <= quot_u a b < max_u.
Proof.
  unfold small. intros Ha Hb. pose proof one_u_pos. split; [apply rnd_nonneg; nia |].
  apply Z.le_lt_trans with (2 ^ (25 + unit_exp)); [| reflexivity].
  pose proof (repr_pow2 (25 + unit_exp) ltac:(discriminate)) as Hr. unfold repr in Hr. rewrite <- Hr.
  unfold quot_u. apply rnd_mono; [lia | lia | nia | lia |].
  change (2 ^ (25 + unit_exp)) with (2 ^ 25 * one_u). nia.
Qed.

Lemma of_int_small a : small a -> of_int a = Fin (a * one_u).
Proof.
  unfold small. intros Ha. pose proof one_u_pos as Hu. unfold of_int. rewrite rnd_signed_nonneg by nia.
  pose proof (quot_fin a 1 Ha ltac:(lia)) as Hb. unfold quot_u in Hb. rewrite mk_fin by done. f_equal.
  apply repr_divide; [nia |]. destruct (decide (a = 0)) as [->|]; [rewrite Z.mul_0_l; apply Z.divide_0_r |].
  apply Z.divide_trans with one_u; [| apply Z.divide_factor_r]. apply pow2_divide. unfold ulp_exp.
  assert (a * one_u < 2 ^ (25 + unit_exp)) as H by (change (2 ^ (25 + unit_exp)) with (2 ^ 25 * one_u); nia).
  apply Z.log2_lt_pow2 in H; [unfold unit_exp in *; lia | nia].
Qed.

Lemma fdiv_int a b : small a -> 0 < b < 2 ^ 25 -> fdiv (of_int a) (of_int b) = Fin (quot_u a b).
Proof.
  intros Ha Hb. pose proof one_u_pos as Hu. rewrite !of_int_small by (unfold small in *; lia).
  unfold fdiv. destruct (Z.eqb_spec (b * one_u) 0); [nia |].
  rewrite Z.sgn_pos, Z.mul_1_r, Z.abs_eq by nia. unfold small in *. rewrite rnd_signed_nonneg by nia.
  rewrite rnd_scale by nia. apply mk_fin, quot_fin; unfold small; lia.
Qed.

Lemma of_ratio_small a b : small a -> 0 < b -> of_ratio a b = Fin (quot_u a b).
Proof.
  unfold small. intros Ha Hb. pose proof one_u_pos. unfold of_ratio. rewrite rnd_signed_nonneg by nia.
  apply mk_fin, quot_fin; unfold small; lia.
Qed.

End F64.
