(* ===== verification/Json.v ===== *)
(** * The JSON boundary, and hexadecimal text

    [encoding/json] turns the program's structs into bytes and back.  Components
    that put a value on a wire or in a file are written against the interface
    [JSON]; what they rely on is [JSONLaw]: decoding what was encoded gives the
    value back, for the values JSON can carry ([json_valid], for instance strings
    that are well-formed UTF-8 and floats that are finite).  [GoJson] implements
    the interface with the text [encoding/json] writes and reads.

    [encoding/hex] is small enough to be modelled outright. *)

From S2P Require Import Prelude.

Class JSON (A : Type) : Type := {
  (* [None] is an encoding error, e.g. a float that is not finite *)
  json_marshal : A -> option bytes;
  json_unmarshal : bytes -> option A
}.

Class JSONLaw (A : Type) {J : JSON A} : Type := {
  json_valid : A -> Prop;
  json_roundtrip : forall a, json_valid a ->
    exists b, json_marshal a = Some b /\ json_unmarshal b = Some a
}.

(** ** encoding/hex *)

Module Hex.

Definition hextable : string := "0123456789abcdef".

Definition hexdigit (n : Z) : ascii :=
  default "0"%char (str_bytes hextable !! Z.to_nat n).

(** [hex.EncodeToString] *)
Fixpoint encode_bytes (b : bytes) : bytes :=
  match b with
  | [] => []
  | c :: b => hexdigit (Z.shiftr (b2z c) 4) :: hexdigit (Z.land (b2z c) 15) :: encode_bytes b
  end.
Definition EncodeToString (b : bytes) : string := bytes_str (encode_bytes b).

Inductive error := ErrLength | InvalidByteError (c : ascii).

Definition fromHexChar (c : ascii) : option Z :=
  let z := b2z c in
  if decide (48 <= z <= 57) then Some (z - 48)
  else if decide (97 <= z <= 102) then Some (z - 97 + 10)
  else if decide (65 <= z <= 70) then Some (z - 65 + 10)
  else None.

(** [hex.DecodeString]: pairs of digits; a bad digit is reported before an odd
    length. *)
Fixpoint decode_bytes (b : bytes) : outcome error bytes :=
  match b with
  | [] => Ret []
  | [c] => match fromHexChar c with
           | None => Fail (InvalidByteError c)
           | Some _ => Fail ErrLength
           end
  | c1 :: c2 :: b =>
      match fromHexChar c1, fromHexChar c2 with
      | None, _ => Fail (InvalidByteError c1)
      | _, None => Fail (InvalidByteError c2)
      | Some h, Some l =>
          rest ← decode_bytes b;
          Ret (z2b (Z.lor (Z.shiftl h 4) l) :: rest)
      end
  end.
Definition DecodeString (s : string) : outcome error bytes := decode_bytes (str_bytes s).

Lemma byte_hex_roundtrip c :
  fromHexChar (hexdigit (Z.shiftr (b2z c) 4)) = Some (Z.shiftr (b2z c) 4) /\
  fromHexChar (hexdigit (Z.land (b2z c) 15)) = Some (Z.land (b2z c) 15) /\
  z2b (Z.lor (Z.shiftl (Z.shiftr (b2z c) 4) 4) (Z.land (b2z c) 15)) = c.
Proof. destruct c as [[] [] [] [] [] [] [] []]; vm_compute; done. Qed.

Lemma decode_encode_bytes b : decode_bytes (encode_bytes b) = Ret b.
Proof.
  induction b as [|c b IH]; [done |].
  destruct (byte_hex_roundtrip c) as (E1 & E2 & E3).
  cbn [encode_bytes decode_bytes]. rewrite E1, E2, IH. simpl. by rewrite E3.
Qed.

Lemma decode_encode b : DecodeString (EncodeToString b) = Ret b.
Proof. unfold DecodeString, EncodeToString. rewrite str_bytes_str. apply decode_encode_bytes. Qed.

Lemma encode_length b : length (encode_bytes b) = (2 * length b)%nat.
Proof. induction b; simpl; lia. Qed.

Lemma encode_slen b : slen (EncodeToString b) = 2 * blen b.
Proof.
  unfold slen, EncodeToString, blen. rewrite str_bytes_str, encode_length. lia.
Qed.

Lemma encode_app p q : encode_bytes (p ++ q) = encode_bytes p ++ encode_bytes q.
Proof. induction p as [|c p IH]; [done|]. cbn [encode_bytes app]. by rewrite IH. Qed.

Lemma decode_no_panic s : DecodeString s <> Panic.
Proof.
  unfold DecodeString. generalize (str_bytes s). fix IH 1. intros [|c1 [|c2 b]]; simpl.
  - done.
  - by destruct (fromHexChar c1).
  - destruct (fromHexChar c1); [|done]. destruct (fromHexChar c2); [|done].
    specialize (IH b). by destruct (decode_bytes b).
Qed.

Lemma decode_length b d : decode_bytes b = Ret d -> length b = (2 * length d)%nat.
Proof.
  revert b d. fix IH 1. intros [|c1 [|c2 b]] d; simpl.
  - by intros [= <-].
  - by destruct (fromHexChar c1).
  - destruct (fromHexChar c1); [|done]. destruct (fromHexChar c2); [|done].
    destruct (decode_bytes b) as [rest| |] eqn:E; try done. intros [= <-].
    simpl. rewrite (IH b rest E). lia.
Qed.

End Hex.
