(* ===== verification/Utf8.v ===== *)
(** * UTF-8 (unicode/utf8)

    Decoding the first rune of a byte sequence and encoding a rune, as the JSON
    encoder and decoder use them.  A sequence that is not UTF-8 decodes to the
    replacement character, one byte at a time. *)

From S2P Require Import Prelude.

Definition RuneError : Z := 65533.      (* U+FFFD *)

Definition between (lo hi : Z) (c : ascii) : bool := (lo <=? b2z c) && (b2z c <=? hi).
Definition continuation (c : ascii) : bool := between 128 191 c.

(** [utf8.DecodeRune]: the rune and its width.  The second byte's range excludes
    overlong forms, surrogates and values past U+10FFFF. *)
Definition DecodeRune (b : bytes) : Z * nat :=
  match b with
  | [] => (RuneError, 0%nat)
  | c0 :: b =>
      let p0 := b2z c0 in
      if p0 <? 128 then (p0, 1%nat)
      else if p0 <? 194 then (RuneError, 1%nat)
      else if p0 <? 224 then
        match b with
        | c1 :: _ =>
            if continuation c1 then (p0 mod 32 * 64 + b2z c1 mod 64, 2%nat)
            else (RuneError, 1%nat)
        | _ => (RuneError, 1%nat)
        end
      else if p0 <? 240 then
        match b with
        | c1 :: c2 :: _ =>
            if between (if p0 =? 224 then 160 else 128) (if p0 =? 237 then 159 else 191) c1
               && continuation c2
            then (p0 mod 16 * 4096 + b2z c1 mod 64 * 64 + b2z c2 mod 64, 3%nat)
            else (RuneError, 1%nat)
        | _ => (RuneError, 1%nat)
        end
      else if p0 <? 245 then
        match b with
        | c1 :: c2 :: c3 :: _ =>
            if between (if p0 =? 240 then 144 else 128) (if p0 =? 244 then 143 else 191) c1
               && continuation c2 && continuation c3
            then (p0 mod 8 * 262144 + b2z c1 mod 64 * 4096 + b2z c2 mod 64 * 64 + b2z c3 mod 64,
                  4%nat)
            else (RuneError, 1%nat)
        | _ => (RuneError, 1%nat)
        end
      else (RuneError, 1%nat)
  end.

(** A Unicode scalar value: no surrogate. *)
Definition scalar (r : Z) : Prop := 0 <= r < 55296 \/ 57344 <= r < 1114112.
#[export] Instance scalar_dec r : Decision (scalar r).
Proof. unfold scalar. apply _. Defined.

(** [utf8.EncodeRune]: anything else is encoded as the replacement character. *)
Definition EncodeRune (r : Z) : bytes :=
  let r := if decide (scalar r) then r else RuneError in
  if r <? 128 then [z2b r]
  else if r <? 2048 then [z2b (192 + r / 64); z2b (128 + r mod 64)]
  else if r <? 65536 then
    [z2b (224 + r / 4096); z2b (128 + r / 64 mod 64); z2b (128 + r mod 64)]
  else
    [z2b (240 + r / 262144); z2b (128 + r / 4096 mod 64); z2b (128 + r / 64 mod 64);
     z2b (128 + r mod 64)].

(** The decoder found no encoding at the start of its input. *)
Definition invalid_at (b : bytes) : bool := bool_decide (DecodeRune b = (RuneError, 1%nat)).

(** [utf8.Valid]; [fuel] is the length of the input at least. *)
Fixpoint valid_loop (fuel : nat) (b : bytes) : bool :=
  match b, fuel with
  | [], _ => true
  | _, O => false
  | _, S fuel => negb (invalid_at b) && valid_loop fuel (drop (DecodeRune b).2 b)
  end.
Definition Valid (b : bytes) : bool := valid_loop (length b) b.

(** ** Lemmas *)

Lemma z2b_of_b2z c z : b2z c = z -> z2b z = c.
Proof. intros <-. apply z2b_b2z. Qed.

Ltac rune_arith := repeat (rewrite b2z_z2b_small; [| Z.to_euclidean_division_equations; lia]).
Lemma between_iff lo hi c : between lo hi c = true <-> lo <= b2z c <= hi.
Proof. unfold between. rewrite andb_true_iff, !Z.leb_le. done. Qed.

Lemma DecodeRune_EncodeRune r rest :
  scalar r -> DecodeRune (EncodeRune r ++ rest) = (r, length (EncodeRune r)).
Proof.
  intros Hr. unfold EncodeRune. rewrite (decide_True _ _ Hr). unfold scalar in Hr.
  destruct (Z.ltb_spec r 128); [| destruct (Z.ltb_spec r 2048); [| destruct (Z.ltb_spec r 65536)]];
    cbn [app DecodeRune length]; unfold continuation.
  - rune_arith. by rewrite (proj2 (Z.ltb_lt _ _)).
  - rune_arith.
    rewrite (proj2 (Z.ltb_ge _ _)) by (Z.to_euclidean_division_equations; lia).
    rewrite (proj2 (Z.ltb_ge _ _)) by (Z.to_euclidean_division_equations; lia).
    rewrite (proj2 (Z.ltb_lt _ _)) by (Z.to_euclidean_division_equations; lia).
    rewrite (proj2 (between_iff _ _ _)) by (rune_arith; Z.to_euclidean_division_equations; lia).
    f_equal. rune_arith. Z.to_euclidean_division_equations; lia.
  - rune_arith.
    do 3 rewrite (proj2 (Z.ltb_ge _ _)) by (Z.to_euclidean_division_equations; lia).
    rewrite (proj2 (Z.ltb_lt _ _)) by (Z.to_euclidean_division_equations; lia).
    rewrite (proj2 (andb_true_iff _ _)).
    + f_equal. rune_arith. Z.to_euclidean_division_equations; lia.
    + rewrite !between_iff. rune_arith.
      destruct (Z.eqb_spec (224 + r / 4096) 224), (Z.eqb_spec (224 + r / 4096) 237);
        Z.to_euclidean_division_equations; lia.
  - rune_arith.
    do 4 rewrite (proj2 (Z.ltb_ge _ _)) by (Z.to_euclidean_division_equations; lia).
    rewrite (proj2 (Z.ltb_lt _ _)) by (Z.to_euclidean_division_equations; lia).
    rewrite (proj2 (andb_true_iff _ _)).
    + f_equal. rune_arith. Z.to_euclidean_division_equations; lia.
    + rewrite andb_true_iff, !between_iff. rune_arith.
      destruct (Z.eqb_spec (240 + r / 262144) 240), (Z.eqb_spec (240 + r / 262144) 244);
        Z.to_euclidean_division_equations; lia.
Qed.

(** The bytes of a two-, three- and four-byte form, from the value they stand for. *)
Lemma EncodeRune_two c0 c1 :
  194 <= b2z c0 < 224 -> 128 <= b2z c1 <= 191 ->
  let r := b2z c0 mod 32 * 64 + b2z c1 mod 64 in scalar r /\ [c0; c1] = EncodeRune r.
Proof.
  intros H0 H1 r. assert (128 <= r < 2048) as Hr
    by (unfold r; Z.to_euclidean_division_equations; lia).
  assert (scalar r) as Hs by (unfold scalar; lia). split; [done |].
  unfold EncodeRune. rewrite (decide_True _ _ Hs), (proj2 (Z.ltb_ge _ _)), (proj2 (Z.ltb_lt _ _)) by lia.
  unfold r. f_equal; [| f_equal]; symmetry; apply z2b_of_b2z; Z.to_euclidean_division_equations; lia.
Qed.

Lemma EncodeRune_three c0 c1 c2 :
  224 <= b2z c0 < 240 -> 128 <= b2z c2 <= 191 ->
  (if b2z c0 =? 224 then 160 else 128) <= b2z c1 <= (if b2z c0 =? 237 then 159 else 191) ->
  let r := b2z c0 mod 16 * 4096 + b2z c1 mod 64 * 64 + b2z c2 mod 64 in
  scalar r /\ [c0; c1; c2] = EncodeRune r.
Proof.
  intros H0 H2 H1 r. assert (2048 <= r < 65536 /\ scalar r /\ 128 <= b2z c1 <= 191) as (Hr & Hs & H1').
  { unfold r, scalar. destruct (Z.eqb_spec (b2z c0) 224), (Z.eqb_spec (b2z c0) 237);
      Z.to_euclidean_division_equations; lia. }
  split; [done |]. unfold EncodeRune. rewrite (decide_True _ _ Hs).
  do 2 rewrite (proj2 (Z.ltb_ge _ _)) by lia. rewrite (proj2 (Z.ltb_lt _ _)) by lia.
  unfold r. clear Hs Hr H1.
  f_equal; [| f_equal; [| f_equal]]; symmetry; apply z2b_of_b2z;
    Z.to_euclidean_division_equations; lia.
Qed.

Lemma EncodeRune_four c0 c1 c2 c3 :
  240 <= b2z c0 < 245 -> 128 <= b2z c2 <= 191 -> 128 <= b2z c3 <= 191 ->
  (if b2z c0 =? 240 then 144 else 128) <= b2z c1 <= (if b2z c0 =? 244 then 143 else 191) ->
  let r := b2z c0 mod 8 * 262144 + b2z c1 mod 64 * 4096 + b2z c2 mod 64 * 64 + b2z c3 mod 64 in
  scalar r /\ [c0; c1; c2; c3] = EncodeRune r.
Proof.
  intros H0 H2 H3 H1 r. assert (65536 <= r < 1114112 /\ 128 <= b2z c1 <= 191) as (Hr & H1').
  { unfold r. destruct (Z.eqb_spec (b2z c0) 240), (Z.eqb_spec (b2z c0) 244);
      Z.to_euclidean_division_equations; lia. }
  assert (scalar r) as Hs by (unfold scalar; lia). split; [done |].
  unfold EncodeRune. rewrite (decide_True _ _ Hs). do 3 rewrite (proj2 (Z.ltb_ge _ _)) by lia.
  unfold r. clear Hs Hr H1.
  f_equal; [| f_equal; [| f_equal; [| f_equal]]]; symmetry; apply z2b_of_b2z;
    Z.to_euclidean_division_equations; lia.
Qed.

(** What the decoder accepts is the encoding of the scalar it returns. *)
Lemma DecodeRune_valid b r n :
  b <> [] -> DecodeRune b = (r, n) -> (r, n) <> (RuneError, 1%nat) ->
  scalar r /\ take n b = EncodeRune r.
Proof.
  intros Hne HD Hok. destruct b as [|c0 b]; [done |]. cbn [DecodeRune] in HD. unfold continuation in HD.
  pose proof (b2z_range c0).
  destruct (Z.ltb_spec (b2z c0) 128).
  { injection HD as <- <-. assert (scalar (b2z c0)) as Hs by (unfold scalar; lia).
    split; [done |]. unfold EncodeRune. rewrite (decide_True _ _ Hs), (proj2 (Z.ltb_lt _ _)) by done.
    simpl. by rewrite z2b_b2z. }
  destruct (Z.ltb_spec (b2z c0) 194); [congruence |].
  destruct (Z.ltb_spec (b2z c0) 224).
  { destruct b as [|c1 b]; [congruence |]. destruct (between 128 191 c1) eqn:E1; [| congruence].
    apply between_iff in E1. injection HD as <- <-. by apply EncodeRune_two. }
  destruct (Z.ltb_spec (b2z c0) 240).
  { destruct b as [|c1 [|c2 b]]; [congruence..|].
    match type of HD with (if ?x then _ else _) = _ => destruct x eqn:E1; [| congruence] end.
    rewrite andb_true_iff, !between_iff in E1. destruct E1. injection HD as <- <-.
    by apply EncodeRune_three. }
  destruct (Z.ltb_spec (b2z c0) 245); [| congruence].
  destruct b as [|c1 [|c2 [|c3 b]]]; [congruence..|].
  match type of HD with (if ?x then _ else _) = _ => destruct x eqn:E1; [| congruence] end.
  rewrite !andb_true_iff, !between_iff in E1. destruct E1 as [[E1 E2] E3]. injection HD as <- <-.
  by apply EncodeRune_four.
Qed.

Lemma EncodeRune_nonempty r : EncodeRune r <> [].
Proof.
  unfold EncodeRune. cbv zeta. destruct (decide _); repeat case_match; done.
Qed.

(** A valid byte sequence is a sequence of encoded scalars, and conversely. *)
Lemma Valid_runes b : Valid b = true -> exists rs, Forall scalar rs /\ b = concat (EncodeRune <$> rs).
Proof.
  unfold Valid. generalize (length b) as n. intros n. revert b.
  induction n as [|n IH]; intros b; destruct b as [|c b]; cbn [valid_loop]; try done.
  1-2: by exists [].
  rewrite andb_true_iff, negb_true_iff. unfold invalid_at. intros [Hi Hv].
  apply bool_decide_eq_false in Hi. destruct (DecodeRune (c :: b)) as [r w] eqn:E.
  destruct (DecodeRune_valid (c :: b) r w ltac:(done) E Hi) as [Hs Ht].
  cbn [snd] in Hv. destruct (IH _ Hv) as (rs & Hrs & Hb). exists (r :: rs). split; [by constructor |].
  rewrite <- (take_drop w (c :: b)), Ht. cbn [fmap list_fmap concat]. f_equal. exact Hb.
Qed.

Lemma runes_Valid rs : Forall scalar rs -> Valid (concat (EncodeRune <$> rs)) = true.
Proof.
  intros Hrs. unfold Valid.
  assert (forall n, (length (concat (EncodeRune <$> rs)) <= n)%nat ->
            valid_loop n (concat (EncodeRune <$> rs)) = true) as H; [| by apply H].
  induction Hrs as [|r rs Hr _ IH]; intros n Hn; [by destruct n |].
  cbn [fmap list_fmap concat] in *. rewrite length_app in Hn.
  pose proof (EncodeRune_nonempty r). pose proof (DecodeRune_EncodeRune r (concat (EncodeRune <$> rs)) Hr) as HD.
  destruct (EncodeRune r ++ concat (EncodeRune <$> rs)) as [|c b] eqn:E;
    [by destruct (EncodeRune r) |].
  destruct n as [|n]; [destruct (EncodeRune r); simpl in *; [done | lia] |].
  cbn [valid_loop]. unfold invalid_at. rewrite HD. cbn [snd].
  rewrite bool_decide_eq_false_2.
  - rewrite <- E, drop_app_length. apply IH. destruct (EncodeRune r); simpl in *; [done | lia].
  - intros [= -> Hl]. by vm_compute in Hl.
Qed.
