(* ===== verification/JsonText.v ===== *)
(** * JSON text (encoding/json: scanner, decoder of literals, encoder of strings)

    A JSON value as the text carries it, Go's compact and indented printers, and its
    parser.  Numbers keep their literal; strings are the bytes the text denotes.
    The parser's fuel bounds the calls under way; [parse] gives it twice the length
    of the text, and every second call consumes a byte. *)

From S2P Require Import Prelude Utf8 Json.

Inductive json :=
| JNull
| JBool (b : bool)
| JNum (lit : bytes)
| JStr (s : bytes)
| JArr (l : list json)
| JObj (l : list (bytes * json)).

(** ** Characters *)

Definition quote : ascii := "034"%char.
Definition backslash : ascii := "\"%char.

Definition is_space (c : ascii) : bool :=
  (b2z c =? 32) || (b2z c =? 9) || (b2z c =? 13) || (b2z c =? 10).

Fixpoint skip_ws (b : bytes) : bytes :=
  match b with
  | c :: b' => if is_space c then skip_ws b' else b
  | [] => []
  end.

Definition is_digit (c : ascii) : bool := between 48 57 c.

(** ** Strings *)

(** [htmlSafeSet]: printable, and none of double quote, ampersand, angle brackets
    and backslash. *)
Definition html_safe (c : ascii) : bool :=
  (32 <=? b2z c) &&
  negb ((b2z c =? 34) || (b2z c =? 38) || (b2z c =? 60) || (b2z c =? 62) || (b2z c =? 92)).

Definition escape_ascii (c : ascii) : bytes :=
  if html_safe c then [c]
  else if (b2z c =? 92) || (b2z c =? 34) then [backslash; c]
  else if b2z c =? 10 then [backslash; "n"%char]
  else if b2z c =? 13 then [backslash; "r"%char]
  else if b2z c =? 9 then [backslash; "t"%char]
  else backslash :: str_bytes "u00" ++ [Hex.hexdigit (b2z c / 16); Hex.hexdigit (b2z c mod 16)].

(** [appendString] with HTML escaping, between the quotes. *)
Fixpoint quote_loop (fuel : nat) (b : bytes) : bytes :=
  match fuel, b with
  | S fuel, c :: b' =>
      if b2z c <? 128 then escape_ascii c ++ quote_loop fuel b'
      else
        let '(r, size) := DecodeRune b in
        (if invalid_at b then str_bytes "\ufffd"
         else if (r =? 8232) || (r =? 8233) then str_bytes "\u202" ++ [Hex.hexdigit (r mod 16)]
         else take size b) ++ quote_loop fuel (drop size b)
  | _, _ => []
  end.
Definition quote_string (b : bytes) : bytes := quote :: quote_loop (length b) b ++ [quote].

(** The scanner's states inside a string: the raw text up to the closing quote. *)
Fixpoint scan_string (b : bytes) : option (bytes * bytes) :=
  match b with
  | [] => None
  | c :: b =>
      if b2z c =? 34 then Some ([], b)
      else if b2z c =? 92 then
        match b with
        | e :: b =>
            if bool_decide (e ∈ str_bytes "bfnrt\/") || (b2z e =? 34) then
              '(raw, rest) ← scan_string b; Some (c :: e :: raw, rest)
            else if bool_decide (e = "u"%char) then
              match b with
              | h1 :: h2 :: h3 :: h4 :: b =>
                  if bool_decide (Forall (fun h => is_Some (Hex.fromHexChar h)) [h1; h2; h3; h4])
                  then '(raw, rest) ← scan_string b;
                       Some (c :: e :: h1 :: h2 :: h3 :: h4 :: raw, rest)
                  else None
              | _ => None
              end
            else None
        | [] => None
        end
      else if b2z c <? 32 then None
      else '(raw, rest) ← scan_string b; Some (c :: raw, rest)
  end.

(** [getu4]: the escape at the start of the input. *)
Definition getu4 (b : bytes) : option Z :=
  match b with
  | c :: u :: h1 :: h2 :: h3 :: h4 :: _ =>
      if bool_decide (c = backslash) && bool_decide (u = "u"%char) then
        d1 ← Hex.fromHexChar h1; d2 ← Hex.fromHexChar h2;
        d3 ← Hex.fromHexChar h3; d4 ← Hex.fromHexChar h4;
        Some (d1 * 4096 + d2 * 256 + d3 * 16 + d4)
      else None
  | _ => None
  end.

Definition is_surrogate (r : Z) : bool := (55296 <=? r) && (r <? 57344).

(** [utf16.DecodeRune] *)
Definition surrogate_pair (r1 : Z) (r2 : option Z) : option Z :=
  match r2 with
  | Some r2 =>
      if (r1 <? 56320) && (56320 <=? r2) && (r2 <? 57344)
      then Some ((r1 - 55296) * 1024 + (r2 - 56320) + 65536) else None
  | None => None
  end.

Definition simple_escape (e : ascii) : option ascii :=
  if (b2z e =? 34) || bool_decide (e ∈ str_bytes "\/'") then Some e
  else if bool_decide (e = "b"%char) then Some "008"%char
  else if bool_decide (e = "f"%char) then Some "012"%char
  else if bool_decide (e = "n"%char) then Some "010"%char
  else if bool_decide (e = "r"%char) then Some "013"%char
  else if bool_decide (e = "t"%char) then Some "009"%char
  else None.

(** [unquoteBytes] on the text between the quotes. *)
Fixpoint unquote (fuel : nat) (b : bytes) : option bytes :=
  match fuel, b with
  | _, [] => Some []
  | O, _ => None
  | S fuel, c :: b' =>
      if b2z c =? 92 then
        match b' with
        | [] => None
        | e :: b'' =>
            if bool_decide (e = "u"%char) then
              rr ← getu4 b;
              if is_surrogate rr then
                match surrogate_pair rr (getu4 (drop 6 b)) with
                | Some dec => app (EncodeRune dec) <$> unquote fuel (drop 12 b)
                | None => app (EncodeRune RuneError) <$> unquote fuel (drop 6 b)
                end
              else app (EncodeRune rr) <$> unquote fuel (drop 6 b)
            else
              x ← simple_escape e; cons x <$> unquote fuel b''
        end
      else if (b2z c =? 34) || (b2z c <? 32) then None
      else if b2z c <? 128 then cons c <$> unquote fuel b'
      else
        let '(rr, size) := DecodeRune b in app (EncodeRune rr) <$> unquote fuel (drop size b)
  end.

(** A string literal, after its opening quote. *)
Definition parse_string (b : bytes) : option (bytes * bytes) :=
  '(raw, rest) ← scan_string b;
  s ← unquote (length raw) raw;
  Some (s, rest).

(** ** Numbers *)

Fixpoint take_digits (b : bytes) : bytes * bytes :=
  match b with
  | c :: b' =>
      if is_digit c then let '(ds, rest) := take_digits b' in (c :: ds, rest) else ([], b)
  | [] => ([], [])
  end.

Definition scan_int (b : bytes) : option (bytes * bytes) :=
  match b with
  | c :: b' =>
      if bool_decide (c = "0"%char) then Some ([c], b')
      else if is_digit c then Some (take_digits b) else None
  | [] => None
  end.

(** Digits that have to be there. *)
Definition some_digits (b : bytes) : option (bytes * bytes) :=
  match take_digits b with
  | ([], _) => None
  | dr => Some dr
  end.

Definition scan_frac (b : bytes) : option (bytes * bytes) :=
  match b with
  | c :: b' =>
      if bool_decide (c = "."%char) then '(ds, rest) ← some_digits b'; Some (c :: ds, rest)
      else Some ([], b)
  | [] => Some ([], [])
  end.

Definition is_e (c : ascii) : bool := bool_decide (c = "e"%char) || bool_decide (c = "E"%char).
Definition is_sign (c : ascii) : bool := bool_decide (c = "+"%char) || bool_decide (c = "-"%char).

Definition scan_exp (b : bytes) : option (bytes * bytes) :=
  match b with
  | c :: b' =>
      if is_e c then
        match b' with
        | s :: b'' =>
            if is_sign s then '(ds, rest) ← some_digits b''; Some (c :: s :: ds, rest)
            else '(ds, rest) ← some_digits b'; Some (c :: ds, rest)
        | [] => None
        end
      else Some ([], b)
  | [] => Some ([], [])
  end.

Definition scan_number (b : bytes) : option (bytes * bytes) :=
  let '(sign, b) :=
    match b with
    | c :: b' => if bool_decide (c = "-"%char) then ([c], b') else ([], b)
    | [] => ([], [])
    end in
  '(i, b) ← scan_int b;
  '(f, b) ← scan_frac b;
  '(e, b) ← scan_exp b;
  Some (sign ++ i ++ f ++ e, b).

(** ** The parser *)

Definition maxNestingDepth : Z := 10000.

(** The rest of an expected literal. *)
Fixpoint expect (lit b : bytes) : option bytes :=
  match lit, b with
  | [], _ => Some b
  | c :: lit, c' :: b => if bool_decide (c = c') then expect lit b else None
  | _, [] => None
  end.

Fixpoint parse_value (fuel : nat) (depth : Z) (b : bytes) : option (json * bytes) :=
  match fuel with
  | O => None
  | S fuel =>
      match skip_ws b with
      | [] => None
      | c :: b =>
          if b2z c =? 123 then           (* { *)
            if maxNestingDepth <? depth + 1 then None
            else match skip_ws b with
                 | [] => None
                 | c' :: b' =>
                     if b2z c' =? 125 then Some (JObj [], b')
                     else '(kvs, rest) ← parse_members fuel (depth + 1) b; Some (JObj kvs, rest)
                 end
          else if b2z c =? 91 then       (* [ *)
            if maxNestingDepth <? depth + 1 then None
            else match skip_ws b with
                 | [] => None
                 | c' :: b' =>
                     if b2z c' =? 93 then Some (JArr [], b')
                     else '(vs, rest) ← parse_elems fuel (depth + 1) b; Some (JArr vs, rest)
                 end
          else if b2z c =? 34 then '(s, rest) ← parse_string b; Some (JStr s, rest)
          else if bool_decide (c = "t"%char) then
            rest ← expect (str_bytes "rue") b; Some (JBool true, rest)
          else if bool_decide (c = "f"%char) then
            rest ← expect (str_bytes "alse") b; Some (JBool false, rest)
          else if bool_decide (c = "n"%char) then
            rest ← expect (str_bytes "ull") b; Some (JNull, rest)
          else '(lit, rest) ← scan_number (c :: b); Some (JNum lit, rest)
      end
  end
with parse_elems (fuel : nat) (depth : Z) (b : bytes) : option (list json * bytes) :=
  match fuel with
  | O => None
  | S fuel =>
      '(v, rest) ← parse_value fuel depth b;
      match skip_ws rest with
      | [] => None
      | c :: b =>
          if b2z c =? 44 then '(vs, rest) ← parse_elems fuel depth b; Some (v :: vs, rest)
          else if b2z c =? 93 then Some ([v], b)
          else None
      end
  end
with parse_members (fuel : nat) (depth : Z) (b : bytes) : option (list (bytes * json) * bytes) :=
  match fuel with
  | O => None
  | S fuel =>
      match skip_ws b with
      | [] => None
      | q :: b =>
          if b2z q =? 34 then
            '(k, rest) ← parse_string b;
            match skip_ws rest with
            | [] => None
            | c :: b =>
                if b2z c =? 58 then
                  '(v, rest) ← parse_value fuel depth b;
                  match skip_ws rest with
                  | [] => None
                  | c :: b =>
                      if b2z c =? 44 then
                        '(kvs, rest) ← parse_members fuel depth b; Some ((k, v) :: kvs, rest)
                      else if b2z c =? 125 then Some ([(k, v)], b)
                      else None
                  end
                else None
            end
          else None
      end
  end.

(** A whole text is one value. *)
Definition parse (b : bytes) : option json :=
  '(j, rest) ← parse_value (2 * length b) 0 b;
  match skip_ws rest with [] => Some j | _ => None end.

(** ** The printers *)

(** What is written after a bracket or comma at a nesting depth, and after a colon. *)
Record layout := mkLayout { newline : nat -> bytes; after_colon : bytes }.

Definition compact : layout := mkLayout (fun _ => []) [].
(** [MarshalIndent] with no prefix and two spaces. *)
Definition indented : layout :=
  mkLayout (fun d => "010"%char :: concat (replicate d (str_bytes "  "))) (str_bytes " ").

Fixpoint print (L : layout) (d : nat) (j : json) : bytes :=
  match j with
  | JNull => str_bytes "null"
  | JBool b => str_bytes (if b then "true" else "false")
  | JNum lit => lit
  | JStr s => quote_string s
  | JArr [] => str_bytes "[]"
  | JArr (v :: vs) =>
      "["%char :: newline L (S d) ++ print L (S d) v ++
      concat (map (fun v => ","%char :: newline L (S d) ++ print L (S d) v) vs) ++
      newline L d ++ str_bytes "]"
  | JObj [] => str_bytes "{}"
  | JObj ((k, v) :: kvs) =>
      "{"%char :: newline L (S d) ++ quote_string k ++ ":"%char :: after_colon L ++
      print L (S d) v ++
      concat (map (fun '(k, v) => ","%char :: newline L (S d) ++ quote_string k ++
                                  ":"%char :: after_colon L ++ print L (S d) v) kvs) ++
      newline L d ++ str_bytes "}"
  end.

(** ** Integers *)

Definition digit (d : Z) : ascii := z2b (48 + d).

(** [strconv.AppendInt]: an int64 has at most 19 digits, and twenty steps are made. *)
Fixpoint digits_loop (fuel : nat) (n : Z) (acc : bytes) : bytes :=
  match fuel with
  | O => acc
  | S fuel =>
      if n <? 10 then digit n :: acc
      else digits_loop fuel (n / 10) (digit (n mod 10) :: acc)
  end.
Definition format_nat (n : Z) : bytes := digits_loop 20 n [].
Definition format_int (z : Z) : bytes := if z <? 0 then "-"%char :: format_nat (- z) else format_nat z.

Definition digits_value (ds : bytes) : Z := foldl (fun acc c => acc * 10 + (b2z c - 48)) 0 ds.

(** [strconv.ParseInt] to base 10 and 64 bits, on a number literal. *)
Definition parse_int (lit : bytes) : option Z :=
  let '(neg, ds) :=
    match lit with
    | c :: ds => if bool_decide (c = "-"%char) then (true, ds) else (false, lit)
    | [] => (false, [])
    end in
  if bool_decide (ds = []) || negb (forallb is_digit ds) then None
  else
    let z := if neg : bool then - digits_value ds else digits_value ds in
    if bool_decide (is_int64 z) then Some z else None.

(** ** Values the text can carry *)

Definition is_number (lit : bytes) : bool := bool_decide (scan_number lit = Some (lit, [])).

(** At nesting depth [d]: strings are UTF-8, numbers are number literals, and the
    parser's depth limit is kept. *)
Fixpoint wf (d : Z) (j : json) : bool :=
  match j with
  | JNull | JBool _ => true
  | JNum lit => is_number lit
  | JStr s => Valid s
  | JArr l => (d + 1 <=? maxNestingDepth) && forallb (wf (d + 1)) l
  | JObj kvs => (d + 1 <=? maxNestingDepth) && forallb (fun '(k, v) => Valid k && wf (d + 1) v) kvs
  end.

Record layout_ok (L : layout) : Prop := mkLayoutOk {
  newline_space d : forallb is_space (newline L d) = true;
  colon_space : forallb is_space (after_colon L) = true
}.

(** ** String literals read back *)

(** How one rune of a valid string is written. *)
Definition escape_rune (r : Z) : bytes :=
  if r <? 128 then escape_ascii (z2b r)
  else if (r =? 8232) || (r =? 8233) then str_bytes "\u202" ++ [Hex.hexdigit (r mod 16)]
  else EncodeRune r.

Abbreviation runes rs := (concat (EncodeRune <$> rs)).

Lemma EncodeRune_ascii r : 0 <= r < 128 -> EncodeRune r = [z2b r].
Proof.
  intros Hr. assert (scalar r) as Hs by (unfold scalar; lia).
  unfold EncodeRune. by rewrite (decide_True _ _ Hs), (proj2 (Z.ltb_lt _ _)) by lia.
Qed.

Lemma EncodeRune_high r c : scalar r -> 128 <= r -> c ∈ EncodeRune r -> 128 <= b2z c.
Proof.
  intros Hs Hr. unfold EncodeRune. rewrite (decide_True _ _ Hs), (proj2 (Z.ltb_ge _ _)) by done.
  unfold scalar in Hs. repeat case_match; rewrite ?elem_of_cons, elem_of_nil;
    intros; destruct_or?; subst; try done;
    (rewrite b2z_z2b_small; Z.to_euclidean_division_equations; lia).
Qed.

(** The encoder's loop on a rune. *)
Lemma quote_loop_rune r n rest :
  scalar r ->
  quote_loop (length (EncodeRune r) + n) (EncodeRune r ++ rest)
  = escape_rune r ++ quote_loop (length (EncodeRune r) - 1 + n) rest.
Proof.
  intros Hs. pose proof (DecodeRune_EncodeRune r rest Hs) as HD.
  unfold escape_rune. destruct (Z.ltb_spec r 128).
  { rewrite EncodeRune_ascii by (unfold scalar in Hs; lia). cbn [length Nat.add app quote_loop Nat.sub].
    rewrite b2z_z2b_small by (unfold scalar in Hs; lia). by rewrite (proj2 (Z.ltb_lt _ _)). }
  destruct (EncodeRune r) as [|c b] eqn:E; [by destruct (EncodeRune_nonempty r) |].
  assert (128 <= b2z c).
  { apply (EncodeRune_high r); [done..|]. rewrite E. apply elem_of_cons. auto. }
  cbn [length Nat.add app]. unfold invalid_at. cbn [quote_loop]. rewrite (proj2 (Z.ltb_ge _ _)) by done.
  change (c :: b ++ rest) with ((c :: b) ++ rest) in *.
  unfold invalid_at. rewrite HD. rewrite bool_decide_eq_false_2.
  2:{ intros [= -> Hl]. destruct b; [| done]. by vm_compute in E. }
  rewrite take_app_length, drop_app_length. by replace (S (length b) - 1)%nat with (length b) by lia.
Qed.

Lemma quote_loop_runes rs n :
  Forall scalar rs -> (length (runes rs) <= n)%nat ->
  quote_loop n (runes rs) = concat (escape_rune <$> rs).
Proof.
  intros Hrs. revert n. induction Hrs as [|r rs Hr _ IH]; intros n Hn; [by destruct n |].
  cbn [fmap list_fmap concat] in *. rewrite length_app in Hn.
  replace n with (length (EncodeRune r) + (n - length (EncodeRune r)))%nat by lia.
  rewrite quote_loop_rune by done. f_equal. apply IH. lia.
Qed.

(** What a rune was written as is scanned and unquoted as a unit. *)
Lemma scan_unquote_ascii c t f :
  b2z c < 128 ->
  scan_string (escape_ascii c ++ t) = ('(raw, rest) ← scan_string t; Some (escape_ascii c ++ raw, rest)) /\
  unquote (S f) (escape_ascii c ++ t) = cons c <$> unquote f t.
Proof.
  intros Hc. split.
  { destruct c as [[] [] [] [] [] [] [] []]; try (exfalso; vm_compute in Hc; done);
      simpl; destruct (scan_string t) as [[]|]; reflexivity. }
  unfold escape_ascii. destruct (html_safe c) eqn:Hsafe.
  { unfold html_safe in Hsafe. rewrite andb_true_iff, negb_true_iff, !orb_false_iff in Hsafe.
    destruct Hsafe as (H1 & (((H2 & H3) & H4) & H5) & H6). cbn [app unquote].
    rewrite H6, H2, (proj2 (Z.ltb_lt (b2z c) 128)) by done.
    apply Z.leb_le in H1. by rewrite (proj2 (Z.ltb_ge _ _)). }
  destruct (Z.eqb_spec (b2z c) 92) as [E%z2b_of_b2z|]; [subst c; reflexivity |].
  destruct (Z.eqb_spec (b2z c) 34) as [E%z2b_of_b2z|]; [subst c; reflexivity |].
  destruct (Z.eqb_spec (b2z c) 10) as [E%z2b_of_b2z|]; [subst c; reflexivity |].
  destruct (Z.eqb_spec (b2z c) 13) as [E%z2b_of_b2z|]; [subst c; reflexivity |].
  destruct (Z.eqb_spec (b2z c) 9) as [E%z2b_of_b2z|]; [subst c; reflexivity |].
  cbn [orb]. set (h1 := Hex.hexdigit _). set (h2 := Hex.hexdigit _).
  assert (getu4 ((backslash :: str_bytes "u00" ++ [h1; h2]) ++ t) = Some (b2z c) /\
          is_surrogate (b2z c) = false /\ EncodeRune (b2z c) = [c]) as (E1 & E2 & E3).
  { subst h1 h2. clear -Hc. destruct c as [[] [] [] [] [] [] [] []];
      try (exfalso; vm_compute in Hc; done); vm_compute; done. }
  cbn [app str_bytes list_ascii_of_string unquote] in *.
  change (b2z backslash =? 92) with true. cbv iota.
  rewrite bool_decide_eq_true_2 by done. rewrite E1. cbn [mbind option_bind].
  rewrite E2, E3. reflexivity.
Qed.

Lemma scan_high b t :
  Forall (fun c => 128 <= b2z c) b ->
  scan_string (b ++ t) = ('(raw, rest) ← scan_string t; Some (b ++ raw, rest)).
Proof.
  induction 1 as [|c b Hc _ IH]; [simpl; by destruct (scan_string t) as [[]|] |].
  cbn [app scan_string]. do 2 rewrite (proj2 (Z.eqb_neq _ _)) by lia.
  rewrite (proj2 (Z.ltb_ge _ _)) by lia. rewrite IH. by destruct (scan_string t) as [[]|].
Qed.

Lemma scan_unquote_rune r t f :
  scalar r ->
  scan_string (escape_rune r ++ t) = ('(raw, rest) ← scan_string t; Some (escape_rune r ++ raw, rest)) /\
  unquote (S f) (escape_rune r ++ t) = app (EncodeRune r) <$> unquote f t.
Proof.
  intros Hs. unfold escape_rune. destruct (Z.ltb_spec r 128).
  { assert (b2z (z2b r) = r) as E by (rewrite b2z_z2b_small; unfold scalar in Hs; lia).
    rewrite EncodeRune_ascii by (unfold scalar in Hs; lia).
    apply (scan_unquote_ascii (z2b r) t f). lia. }
  destruct (Z.eqb_spec r 8232) as [-> | H8].
  { split; [simpl; by destruct (scan_string t) as [[]|] | reflexivity]. }
  destruct (Z.eqb_spec r 8233) as [-> | H9].
  { split; [simpl; by destruct (scan_string t) as [[]|] | reflexivity]. }
  cbn [orb]. split.
  { apply scan_high, Forall_forall. intros c. by apply EncodeRune_high. }
  pose proof (DecodeRune_EncodeRune r t Hs) as HD.
  destruct (EncodeRune r) as [|c b] eqn:E; [by destruct (EncodeRune_nonempty r) |].
  assert (128 <= b2z c).
  { apply (EncodeRune_high r); [done..|]. rewrite E. apply elem_of_cons. auto. }
  cbn [app unquote]. rewrite !(proj2 (Z.eqb_neq _ _)) by lia.
  rewrite !(proj2 (Z.ltb_ge _ _)) by lia. cbn [orb].
  change (c :: b ++ t) with ((c :: b) ++ t). rewrite HD. cbv beta iota.
  rewrite drop_app_length, E. done.
Qed.

Lemma parse_quote s rest :
  Valid s = true -> parse_string (quote_loop (length s) s ++ quote :: rest) = Some (s, rest).
Proof.
  intros (rs & Hrs & ->)%Valid_runes. rewrite quote_loop_runes by done.
  assert (forall rs, Forall scalar rs ->
    scan_string (concat (escape_rune <$> rs) ++ quote :: rest) = Some (concat (escape_rune <$> rs), rest)) as Hscan.
  { clear rs Hrs. induction 1 as [|r rs Hr _ IH]; [done |]. cbn [fmap list_fmap concat].
    rewrite <- app_assoc. destruct (scan_unquote_rune r (concat (escape_rune <$> rs) ++ quote :: rest) 0 Hr) as [-> _].
    by rewrite IH. }
  assert (forall rs f, Forall scalar rs -> (length rs <= f)%nat ->
    unquote f (concat (escape_rune <$> rs)) = Some (runes rs)) as Hun.
  { clear rs Hrs Hscan. intros rs f Hrs. revert f. induction Hrs as [|r rs Hr _ IH]; intros f Hf; [by destruct f |].
    destruct f as [|f]; [simpl in Hf; lia |]. cbn [fmap list_fmap concat].
    destruct (scan_unquote_rune r (concat (escape_rune <$> rs)) f Hr) as [_ ->].
    rewrite IH by (simpl in Hf; lia). done. }
  unfold parse_string. rewrite Hscan by done. cbn [mbind option_bind].
  rewrite Hun; [done..|]. clear Hscan Hun. induction Hrs as [|r rs Hr _ IH]; [simpl; lia |].
  cbn [fmap list_fmap concat length]. rewrite length_app.
  assert (escape_rune r <> []) as Hne.
  { unfold escape_rune, escape_ascii. pose proof (EncodeRune_nonempty r). repeat case_match; done. }
  destruct (escape_rune r); [done | simpl in *; lia].
Qed.

(** ** Numbers read back *)

(** A number literal ends here. *)
Definition stops (rest : bytes) : Prop :=
  match rest with
  | [] => True
  | c :: _ => is_digit c = false /\ c <> "."%char /\ is_e c = false
  end.

Lemma take_digits_app b ds r rest :
  take_digits b = (ds, r) -> stops rest -> take_digits (b ++ rest) = (ds, r ++ rest).
Proof.
  intros H Hs. revert ds r H. induction b as [|c b IH]; intros ds r H; cbn [take_digits app] in *.
  - injection H as <- <-. destruct rest as [|c rest]; [done |]. destruct Hs as (Hd & _).
    cbn [take_digits]. by rewrite Hd.
  - destruct (is_digit c); [| by injection H as <- <-].
    destruct (take_digits b) as [ds' r']. injection H as <- <-. by rewrite (IH ds' r').
Qed.

Lemma some_digits_app b ds r rest :
  some_digits b = Some (ds, r) -> stops rest -> some_digits (b ++ rest) = Some (ds, r ++ rest).
Proof.
  unfold some_digits. intros H Hs. destruct (take_digits b) as [[|c ds'] r'] eqn:E; [done |].
  injection H as <- <-. by rewrite (take_digits_app _ _ _ rest E Hs).
Qed.

Lemma scan_int_app b i r rest :
  scan_int b = Some (i, r) -> stops rest -> scan_int (b ++ rest) = Some (i, r ++ rest).
Proof.
  intros H Hs. destruct b as [|c b]; [done |]. cbn [scan_int app] in *.
  case_bool_decide; [by injection H as <- <- |]. destruct (is_digit c) eqn:Ed; [| done].
  injection H as H. apply (take_digits_app (c :: b) _ _ rest) in H; [| done]. cbn [app] in H. by rewrite H.
Qed.

Lemma scan_frac_app b i r rest :
  scan_frac b = Some (i, r) -> stops rest -> scan_frac (b ++ rest) = Some (i, r ++ rest).
Proof.
  intros H Hs. destruct b as [|c b]; cbn [scan_frac app] in *.
  - injection H as <- <-. destruct rest as [|c rest]; [done |]. destruct Hs as (_ & Hd & _).
    cbn [scan_frac]. by rewrite bool_decide_eq_false_2.
  - case_bool_decide; [| by injection H as <- <-].
    destruct (some_digits b) as [[ds r']|] eqn:E; [| done]. injection H as <- <-.
    by rewrite (some_digits_app _ _ _ rest E Hs).
Qed.

Lemma scan_exp_app b i r rest :
  scan_exp b = Some (i, r) -> stops rest -> scan_exp (b ++ rest) = Some (i, r ++ rest).
Proof.
  intros H Hs. destruct b as [|c b]; cbn [scan_exp app] in *.
  - injection H as <- <-. destruct rest as [|c rest]; [done |]. destruct Hs as (_ & _ & Hd).
    cbn [scan_exp]. by rewrite Hd.
  - destruct (is_e c); [| by injection H as <- <-]. destruct b as [|s b]; [done |].
    cbn [app]. destruct (is_sign s).
    + destruct (some_digits b) as [[ds r']|] eqn:E; [| done]. injection H as <- <-.
      by rewrite (some_digits_app _ _ _ rest E Hs).
    + destruct (some_digits (s :: b)) as [[ds r']|] eqn:E; [| done]. injection H as <- <-.
      apply (some_digits_app (s :: b) _ _ rest) in E; [| done]. cbn [app] in E. by rewrite E.
Qed.

Lemma scan_number_app b l r rest :
  scan_number b = Some (l, r) -> stops rest -> scan_number (b ++ rest) = Some (l, r ++ rest).
Proof.
  intros H Hs. unfold scan_number in *. destruct b as [|c b]; [done |]. cbn [app].
  assert (forall sign b, ('(i, b) ← scan_int b; '(f, b) ← scan_frac b; '(e, b) ← scan_exp b;
      Some (sign ++ i ++ f ++ e, b)) = Some (l, r) ->
    ('(i, b) ← scan_int (b ++ rest); '(f, b) ← scan_frac b; '(e, b) ← scan_exp b;
      Some (sign ++ i ++ f ++ e, b)) = Some (l, r ++ rest)) as Hrest.
  { clear H. intros sign b' H.
    destruct (scan_int b') as [[i b1]|] eqn:E1; [| done]. cbn [mbind option_bind] in H.
    destruct (scan_frac b1) as [[f b2]|] eqn:E2; [| done]. cbn [mbind option_bind] in H.
    destruct (scan_exp b2) as [[e b3]|] eqn:E3; [| done]. injection H as <- <-.
    erewrite scan_int_app by eauto. cbn [mbind option_bind].
    erewrite scan_frac_app by eauto. cbn [mbind option_bind].
    by erewrite scan_exp_app by eauto. }
  case_bool_decide; [by apply (Hrest [c]) | by apply (Hrest [] (c :: b))].
Qed.

(** What the parser skips before a token. *)
Lemma skip_ws_app w b : forallb is_space w = true -> skip_ws (w ++ b) = skip_ws b.
Proof.
  induction w as [|c w IH]; cbn [forallb app skip_ws]; [done |].
  rewrite andb_true_iff. intros [-> Hw]. auto.
Qed.

Lemma skip_ws_nonspace c b : is_space c = false -> skip_ws (c :: b) = c :: b.
Proof. intros H. cbn [skip_ws]. by rewrite H. Qed.

Lemma parse_value_ws f d w b :
  forallb is_space w = true -> parse_value f d (w ++ b) = parse_value f d b.
Proof. intros Hw. destruct f as [|f]; cbn [parse_value]; [done | by rewrite skip_ws_app]. Qed.

(** A number literal begins with a sign or a digit. *)
Lemma is_number_head lit :
  is_number lit = true -> exists c lit', lit = c :: lit' /\ (c = "-"%char \/ is_digit c = true).
Proof.
  unfold is_number. intros H%bool_decide_eq_true. destruct lit as [|c lit]; [done |].
  exists c, lit. split; [done |]. unfold scan_number in H. case_bool_decide; [auto | right].
  cbn [scan_int] in H. case_bool_decide; [by subst |]. by destruct (is_digit c).
Qed.

Lemma parse_number fuel d lit rest :
  is_number lit = true -> stops rest ->
  parse_value (S fuel) d (lit ++ rest) = Some (JNum lit, rest).
Proof.
  intros Hn Hs. destruct (is_number_head lit Hn) as (c & lit' & E & Hc).
  unfold is_number in Hn. apply bool_decide_eq_true in Hn.
  apply (scan_number_app _ _ _ rest) in Hn; [| done]. cbn [app] in Hn.
  subst lit. cbn [app] in *.
  assert (45 <= b2z c < 58) as Hr.
  { destruct Hc as [-> | Hd]; [by vm_compute | apply between_iff in Hd; lia]. }
  assert (is_space c = false) as Hsp.
  { unfold is_space. rewrite !orb_false_iff, !Z.eqb_neq. lia. }
  assert (forall x : ascii, 58 <= b2z x -> c <> x) as Hne by (intros x Hx ->; lia).
  cbn [parse_value]. rewrite (skip_ws_nonspace _ _ Hsp).
  do 3 rewrite (proj2 (Z.eqb_neq _ _)) by lia.
  do 3 rewrite bool_decide_eq_false_2 by (apply Hne; vm_compute; discriminate).
  by rewrite Hn.
Qed.

(** ** What is printed is read back *)

Lemma json_nested_ind (P : json -> Prop) :
  P JNull -> (forall b, P (JBool b)) -> (forall lit, P (JNum lit)) -> (forall s, P (JStr s)) ->
  (forall l, Forall P l -> P (JArr l)) ->
  (forall l, Forall (fun kv => P kv.2) l -> P (JObj l)) -> forall j, P j.
Proof.
  intros H1 H2 H3 H4 H5 H6. fix IH 1. intros [|b|lit|s|l|l]; [auto..| |].
  - apply H5. induction l as [|v l IHl]; constructor; [apply IH | apply IHl].
  - apply H6. induction l as [|[k v] l IHl]; constructor; [apply IH | apply IHl].
Qed.

Lemma stops_space w c rest :
  forallb is_space w = true -> stops (c :: rest) -> stops (w ++ c :: rest).
Proof.
  destruct w as [|s w]; [done |]. cbn [forallb app stops]. rewrite andb_true_iff.
  intros [Hs _] _. unfold is_space in Hs. rewrite !orb_true_iff, !Z.eqb_eq in Hs.
  destruct s as [[] [] [] [] [] [] [] []]; vm_compute in Hs; intuition discriminate.
Qed.

Lemma skip_ws_space w c rest :
  forallb is_space w = true -> is_space c = false -> skip_ws (w ++ c :: rest) = c :: rest.
Proof. intros Hw Hc. rewrite skip_ws_app by done. by apply skip_ws_nonspace. Qed.

Lemma parse_quote_string s rest :
  Valid s = true ->
  exists t, quote_string s ++ rest = quote :: t /\ parse_string t = Some (s, rest).
Proof.
  intros Hs. unfold quote_string. cbn [app]. eexists. split; [reflexivity |].
  rewrite <- app_assoc. by apply parse_quote.
Qed.

Section RoundTrip.
Context (L : layout) (HL : layout_ok L).

Definition reads (v : json) : Prop := forall d rest fuel,
  wf (Z.of_nat d) v = true -> stops rest -> (2 * length (print L d v) <= fuel)%nat ->
  parse_value fuel (Z.of_nat d) (print L d v ++ rest) = Some (v, rest).

(** The elements after the first, and the members after the first. *)
Definition elems_text (D : nat) (vs : list json) : bytes :=
  concat (map (fun v => ","%char :: newline L D ++ print L D v) vs).
Definition member_text (D : nat) (k : bytes) (v : json) : bytes :=
  newline L D ++ quote_string k ++ ":"%char :: after_colon L ++ print L D v.
Definition members_text (D : nat) (kvs : list (bytes * json)) : bytes :=
  concat (map (fun kv => ","%char :: member_text D kv.1 kv.2) kvs).

Lemma reads_ws v w d rest fuel :
  reads v -> forallb is_space w = true ->
  wf (Z.of_nat d) v = true -> stops rest -> (2 * length (print L d v) <= fuel)%nat ->
  parse_value fuel (Z.of_nat d) (w ++ print L d v ++ rest) = Some (v, rest).
Proof. intros Hv Hw Hwf Hs Hf. rewrite parse_value_ws by done. by apply Hv. Qed.

Lemma parse_elems_print D vs v w fuel rest :
  reads v -> Forall reads vs -> wf (Z.of_nat D) v = true ->
  forallb (wf (Z.of_nat D)) vs = true -> forallb is_space w = true ->
  (2 * length (print L D v ++ elems_text D vs) < fuel)%nat ->
  parse_elems fuel (Z.of_nat D)
    (newline L D ++ print L D v ++ elems_text D vs ++ w ++ "]"%char :: rest)
  = Some (v :: vs, rest).
Proof.
  intros Hv Hvs. revert v fuel Hv.
  induction Hvs as [|v' vs Hv' _ IH]; intros v fuel Hv Hwf Hwfs Hw Hf.
  - destruct fuel as [|fuel]; [lia |]. cbn [elems_text map concat app parse_elems] in *.
    unfold elems_text in Hf. rewrite length_app in Hf. cbn [map concat length] in Hf.
    rewrite reads_ws; [| done | apply HL | done | by apply stops_space | lia].
    cbn [mbind option_bind]. by rewrite skip_ws_space.
  - destruct fuel as [|fuel]; [lia |]. cbn [forallb] in Hwfs. apply andb_true_iff in Hwfs as [Hwf' Hwfs].
    unfold elems_text in *. cbn [map concat parse_elems] in *.
    rewrite !length_app in *. cbn [length] in *. rewrite !length_app in *.
    cbn [app]. rewrite reads_ws; [| done | apply HL | done | done | lia].
    cbn [mbind option_bind]. rewrite skip_ws_nonspace by done.
    change (b2z "," =? 44) with true. cbv iota. rewrite <- !app_assoc.
    rewrite IH; [done..| rewrite ?length_app; lia].
Qed.

Lemma member_text_length D k v : (length (print L D v) < length (member_text D k v))%nat.
Proof.
  unfold member_text, quote_string. rewrite !length_app. cbn [length]. rewrite !length_app. lia.
Qed.

Lemma parse_members_print D kvs k v w fuel rest :
  reads v -> Forall (fun kv => reads kv.2) kvs -> Valid k = true -> wf (Z.of_nat D) v = true ->
  forallb (fun '(k, v) => Valid k && wf (Z.of_nat D) v) kvs = true -> forallb is_space w = true ->
  (2 * length (member_text D k v ++ members_text D kvs) < fuel)%nat ->
  parse_members fuel (Z.of_nat D)
    (member_text D k v ++ members_text D kvs ++ w ++ "}"%char :: rest)
  = Some ((k, v) :: kvs, rest).
Proof.
  intros Hv Hvs. revert k v fuel Hv.
  induction Hvs as [|[k' v'] kvs Hv' _ IH]; intros k v fuel Hv Hk Hwf Hwfs Hw Hf;
    (destruct fuel as [|fuel]; [lia |]); unfold member_text at 1.
  all: rewrite <- !app_assoc; cbn [parse_members]; rewrite skip_ws_app by apply HL.
  all: edestruct (parse_quote_string k) as (t & -> & Ht); [done |].
  all: rewrite skip_ws_nonspace by done; change (b2z quote =? 34) with true; cbv iota.
  all: rewrite Ht; cbn [mbind option_bind app].
  all: rewrite skip_ws_nonspace by done; change (b2z ":" =? 58) with true; cbv iota.
  all: rewrite <- !app_assoc; rewrite length_app in Hf; pose proof (member_text_length D k v).
  - rewrite reads_ws; [| done | apply HL | done | by apply stops_space | lia].
    cbn [mbind option_bind]. change (members_text D []) with (@nil ascii). cbn [app].
    by rewrite skip_ws_space.
  - cbn [forallb] in Hwfs. rewrite !andb_true_iff in Hwfs. destruct Hwfs as [[Hk' Hwf'] Hwfs].
    change (members_text D ((k', v') :: kvs))
      with ("," %char :: member_text D k' v' ++ members_text D kvs) in *.
    cbn [length app] in *. rewrite length_app in Hf.
    rewrite reads_ws; [| done | apply HL | done | done | lia].
    cbn [mbind option_bind fst snd]. rewrite skip_ws_nonspace by done.
    change (b2z "," =? 44) with true. cbv iota. rewrite <- !app_assoc.
    rewrite IH; [done..|]. rewrite length_app. lia.
Qed.

Lemma print_head d v :
  wf (Z.of_nat d) v = true ->
  exists c t, print L d v = c :: t /\ is_space c = false /\ b2z c <> 93.
Proof.
  destruct v as [|[]|lit|s|[|v vs]|[|[k v] kvs]]; intros Hwf; try (by eexists _, _).
  destruct (is_number_head lit Hwf) as (c & l' & -> & Hc). exists c, l'. split; [done |].
  assert (45 <= b2z c < 58) as Hr.
  { destruct Hc as [-> | Hd]; [by vm_compute | apply between_iff in Hd; lia]. }
  split; [| lia]. unfold is_space. rewrite !orb_false_iff, !Z.eqb_neq. lia.
Qed.

Lemma print_members d k v kvs :
  print L d (JObj ((k, v) :: kvs))
  = "{"%char :: member_text (S d) k v ++ members_text (S d) kvs ++ newline L d ++ str_bytes "}".
Proof.
  cbn [print]. unfold member_text, members_text. rewrite <- !app_assoc. cbn [app].
  rewrite <- !app_assoc. do 6 f_equal.
  f_equal. f_equal. apply map_ext. by intros [].
Qed.

Lemma reads_array vs : Forall reads vs -> reads (JArr vs).
Proof.
  intros IH d rest fuel Hwf Hs Hf.
  cbn [wf] in Hwf. apply andb_true_iff in Hwf as [Hd Hwfs]. apply Z.leb_le in Hd.
  replace (Z.of_nat d + 1) with (Z.of_nat (S d)) in * by lia.
  destruct fuel as [|fuel]; [destruct vs; simpl in Hf; lia |].
  destruct vs as [|v vs]; cbn [print app str_bytes list_ascii_of_string] in *.
  + cbn [parse_value]. rewrite skip_ws_nonspace by done. change (b2z "[" =? 123) with false.
    change (b2z "[" =? 91) with true. cbv iota. by rewrite (proj2 (Z.ltb_ge _ _)) by lia.
  + change (concat _) with (elems_text (S d) vs) in *.
    cbn [length] in Hf. rewrite !length_app in Hf.
    inversion_clear IH as [|? ? Hv Hvs]. cbn [forallb] in Hwfs. apply andb_true_iff in Hwfs as [Hwf Hwfs].
    pose proof (parse_elems_print (S d) vs v (newline L d) fuel rest Hv Hvs Hwf Hwfs
                  (newline_space _ HL d) ltac:(rewrite length_app; lia)) as HE.
    rewrite <- !app_assoc. cbn [parse_value app].
    rewrite skip_ws_nonspace by done. change (b2z "[" =? 123) with false.
    change (b2z "[" =? 91) with true. cbv iota. rewrite (proj2 (Z.ltb_ge _ _)) by lia.
    replace (Z.of_nat d + 1) with (Z.of_nat (S d)) by lia. rewrite HE.
    destruct (print_head (S d) v) as (c & t & E & Hc & Hc'); [done |].
    rewrite skip_ws_app, E by apply HL. cbn [app]. rewrite skip_ws_nonspace by done.
    by rewrite (proj2 (Z.eqb_neq _ _)).
Qed.

Lemma reads_object kvs : Forall (fun kv => reads kv.2) kvs -> reads (JObj kvs).
Proof.
  intros IH d rest fuel Hwf Hs Hf.
  cbn [wf] in Hwf. apply andb_true_iff in Hwf as [Hd Hwfs]. apply Z.leb_le in Hd.
  replace (Z.of_nat d + 1) with (Z.of_nat (S d)) in * by lia.
  destruct fuel as [|fuel]; [destruct kvs as [|[]]; simpl in Hf; lia |].
  destruct kvs as [|[k v] kvs].
  + cbn [print app str_bytes list_ascii_of_string parse_value].
    rewrite skip_ws_nonspace by done. change (b2z "{" =? 123) with true. cbv iota.
    by rewrite (proj2 (Z.ltb_ge _ _)) by lia.
  + rewrite print_members in *. cbn [length] in Hf. rewrite !length_app in Hf.
    inversion_clear IH as [|? ? Hv Hvs]. cbn [forallb] in Hwfs.
    rewrite !andb_true_iff in Hwfs. destruct Hwfs as [[Hk Hwf] Hwfs].
    pose proof (parse_members_print (S d) kvs k v (newline L d) fuel rest Hv Hvs Hk Hwf Hwfs
                  (newline_space _ HL d) ltac:(rewrite length_app; lia)) as HE.
    cbn [app]. rewrite <- !app_assoc. cbn [parse_value app].
    rewrite skip_ws_nonspace by done. change (b2z "{" =? 123) with true. cbv iota.
    rewrite (proj2 (Z.ltb_ge _ _)) by lia.
    replace (Z.of_nat d + 1) with (Z.of_nat (S d)) by lia. change (str_bytes "}" ++ rest) with ("}"%char :: rest). rewrite HE.
    unfold member_text. rewrite <- !app_assoc, skip_ws_app by apply HL.
    unfold quote_string at 1. cbn [app]. by rewrite skip_ws_nonspace.
Qed.

Lemma print_reads j : reads j.
Proof.
  induction j as [|b|lit|s|vs IH|kvs IH] using json_nested_ind;
    [intros d rest fuel Hwf Hs Hf..| by apply reads_array | by apply reads_object].
  1-2: destruct fuel as [|fuel]; [exfalso; try destruct b; simpl in Hf; lia |]; try destruct b; done.
  - destruct fuel as [|fuel]; [| by apply parse_number].
    cbn [print wf] in *. destruct (is_number_head lit Hwf) as (c & l' & -> & _). simpl in Hf. lia.
  - destruct fuel as [|fuel]; [simpl in Hf; lia |]. cbn [print wf] in *.
    destruct (parse_quote_string s rest Hwf) as (t & -> & Ht). cbn [parse_value].
    rewrite skip_ws_nonspace by done. change (b2z quote =? 34) with true. cbn -[parse_string].
    by rewrite Ht.
Qed.
End RoundTrip.

(** An object is printed between braces. *)
Lemma print_object L d kvs : exists x, print L d (JObj kvs) = "{"%char :: x ++ ["}"%char].
Proof.
  destruct kvs as [|[k v] kvs]; [by exists [] |]. rewrite print_members.
  eexists. rewrite !app_assoc. reflexivity.
Qed.

(** A value that is printed, compactly or indented, and parsed is itself. *)
Lemma parse_print L j : layout_ok L -> wf 0 j = true -> parse (print L 0 j) = Some j.
Proof.
  intros HL Hwf. unfold parse.
  rewrite <- (app_nil_r (print L 0 j)) at 2.
  pose proof (print_reads L HL j 0%nat [] (2 * length (print L 0 j))%nat) as H.
  change (Z.of_nat 0) with 0 in H. by rewrite H.
Qed.

Lemma compact_ok : layout_ok compact.
Proof. by split. Qed.

Lemma indented_ok : layout_ok indented.
Proof.
  split; [| done]. intros d. cbn [newline indented forallb]. rewrite andb_true_iff. split; [done |].
  induction d as [|d IH]; [done |]. cbn [replicate concat]. by rewrite forallb_app, IH.
Qed.

(** ** Integers read back *)

Lemma digit_value d : 0 <= d < 10 -> is_digit (digit d) = true /\ b2z (digit d) - 48 = d.
Proof. intros Hd. unfold is_digit, digit. rewrite between_iff, b2z_z2b_small; lia. Qed.

Lemma digit_zero d : 0 <= d < 10 -> digit d = "0"%char -> d = 0.
Proof. intros Hd E. destruct (digit_value d Hd) as [_ <-]. by rewrite E. Qed.

(** No leading zeros, and the value is the number. *)
Lemma digits_loop_spec fuel n acc :
  0 <= n < 10 ^ Z.of_nat fuel -> (0 < fuel)%nat ->
  exists c ds, digits_loop fuel n acc = (c :: ds) ++ acc /\
    forallb is_digit (c :: ds) = true /\ (c = "0"%char -> ds = []) /\
    forall a, foldl (fun acc c => acc * 10 + (b2z c - 48)) a (c :: ds)
              = a * 10 ^ Z.of_nat (length (c :: ds)) + n.
Proof.
  revert n acc. induction fuel as [|fuel IH]; intros n acc Hn Hf; [lia |].
  cbn [digits_loop]. destruct (Z.ltb_spec n 10).
  { destruct (digit_value n) as [H1 H2]; [lia |]. exists (digit n), [].
    cbn [forallb app foldl length]. split_and!; [done | by rewrite H1 | done |]. intros a. lia. }
  destruct fuel as [|fuel]; [simpl in Hn; lia |].
  rewrite Nat2Z.inj_succ, Z.pow_succ_r in Hn by lia.
  destruct (IH (n / 10) (digit (n mod 10) :: acc)) as (c & ds & E & Hd & Hz & Hv);
    [split; [apply Z.div_pos; lia | apply Z.div_lt_upper_bound; lia] | lia |].
  destruct (digit_value (n mod 10)) as [H1 H2]; [apply Z.mod_pos_bound; lia |].
  exists c, (ds ++ [digit (n mod 10)]). split_and!.
  - rewrite E. change (c :: ds ++ [digit (n mod 10)]) with ((c :: ds) ++ [digit (n mod 10)]).
    by rewrite <- app_assoc.
  - change (c :: ds ++ [digit (n mod 10)]) with ((c :: ds) ++ [digit (n mod 10)]).
    rewrite forallb_app, Hd. cbn [forallb]. by rewrite H1.
  - intros ->. rewrite (Hz eq_refl) in *. exfalso.
    specialize (Hv 0). cbn [foldl] in Hv.
    change (b2z "0") with 48 in Hv. assert (0 < n / 10) by (apply Z.div_str_pos; lia). lia.
  - intros a. change (c :: ds ++ [digit (n mod 10)]) with ((c :: ds) ++ [digit (n mod 10)]).
    rewrite foldl_app, Hv. cbn [foldl]. rewrite H2, length_app.
    rewrite Nat2Z.inj_add, Z.pow_add_r by lia. change (10 ^ Z.of_nat (length [_])) with 10.
    pose proof (Z.div_mod n 10 ltac:(lia)). lia.
Qed.

Lemma take_digits_all ds : forallb is_digit ds = true -> take_digits ds = (ds, []).
Proof.
  induction ds as [|c ds IH]; [done |]. cbn [forallb take_digits].
  rewrite andb_true_iff. intros [-> H]. by rewrite IH.
Qed.

Lemma scan_digits c ds :
  forallb is_digit (c :: ds) = true -> (c = "0"%char -> ds = []) ->
  scan_int (c :: ds) = Some (c :: ds, []).
Proof.
  intros Hd Hz. cbn [scan_int]. case_bool_decide as E; [by rewrite (Hz E) |].
  rewrite take_digits_all by done. cbn [forallb] in Hd. by apply andb_true_iff in Hd as [-> _].
Qed.

Lemma format_int_number z : is_int64 z -> is_number (format_int z) = true.
Proof.
  intros Hz. assert (- 10 ^ 20 < z < 10 ^ 20) as Hr by int_lia. apply bool_decide_eq_true_2.
  unfold format_int. destruct (Z.ltb_spec z 0).
  - destruct (digits_loop_spec 20 (- z) []) as (c & ds & E & Hd & H0 & _); [simpl; lia | lia |].
    unfold format_nat. rewrite E, app_nil_r. unfold scan_number.
    rewrite bool_decide_eq_true_2 by done. rewrite scan_digits by done. cbn. by rewrite app_nil_r.
  - destruct (digits_loop_spec 20 z []) as (c & ds & E & Hd & H0 & _); [simpl; lia | lia |].
    unfold format_nat. rewrite E, app_nil_r. unfold scan_number.
    rewrite bool_decide_eq_false_2 by (intros ->; by vm_compute in Hd).
    rewrite scan_digits by done. cbn. by rewrite app_nil_r.
Qed.

Lemma parse_format_int z : is_int64 z -> parse_int (format_int z) = Some z.
Proof.
  intros Hz. assert (- 10 ^ 20 < z < 10 ^ 20) as Hr by int_lia.
  unfold format_int, parse_int. destruct (Z.ltb_spec z 0).
  - destruct (digits_loop_spec 20 (- z) []) as (c & ds & E & Hd & _ & Hv); [simpl; lia | lia |].
    unfold format_nat. rewrite E, app_nil_r, (bool_decide_eq_true_2 ("-"%char = _)) by done.
    rewrite bool_decide_eq_false_2, Hd by done. cbn [orb negb]. unfold digits_value.
    rewrite Hv, Z.mul_0_l, Z.add_0_l, Z.opp_involutive. by rewrite bool_decide_eq_true_2.
  - destruct (digits_loop_spec 20 z []) as (c & ds & E & Hd & _ & Hv); [simpl; lia | lia |].
    unfold format_nat. rewrite E, app_nil_r.
    rewrite (bool_decide_eq_false_2 (c = _)) by (intros ->; by vm_compute in Hd).
    rewrite bool_decide_eq_false_2, Hd by done. cbn [orb negb]. unfold digits_value.
    rewrite Hv, Z.mul_0_l, Z.add_0_l. by rewrite bool_decide_eq_true_2.
Qed.

(** ** No control characters in a compact text *)

Abbreviation visible := (Forall (fun c => 32 <= b2z c)).

Lemma visible_digits b ds r : take_digits b = (ds, r) -> visible ds.
Proof.
  revert ds r. induction b as [|c b IH]; intros ds r; cbn [take_digits]; [by intros [= <- _] |].
  destruct (is_digit c) eqn:E; [| by intros [= <- _]].
  destruct (take_digits b) as [ds' r']. intros [= <- _]. constructor; [| by eapply IH].
  apply between_iff in E. lia.
Qed.

Lemma visible_some_digits b ds r : some_digits b = Some (ds, r) -> visible ds.
Proof.
  unfold some_digits. destruct (take_digits b) as [[|c ds'] r'] eqn:E; [done |].
  intros [= <- _]. by eapply visible_digits.
Qed.

Lemma visible_int b i r : scan_int b = Some (i, r) -> visible i.
Proof.
  destruct b as [|c b]; [done |]. cbn [scan_int]. case_bool_decide.
  - intros [= <- _]. subst. by repeat constructor.
  - destruct (is_digit c); [| done]. intros Ht. apply (visible_digits (c :: b) i r). congruence.
Qed.

Lemma visible_frac b f r : scan_frac b = Some (f, r) -> visible f.
Proof.
  destruct b as [|c b]; cbn [scan_frac]; [by intros [= <- _] |].
  case_bool_decide; [| by intros [= <- _]]. subst.
  destruct (some_digits b) as [[ds b']|] eqn:E; [| done]. intros [= <- _].
  constructor; [by vm_compute | by eapply visible_some_digits].
Qed.

Lemma visible_exp b e r : scan_exp b = Some (e, r) -> visible e.
Proof.
  destruct b as [|c b]; cbn [scan_exp]; [by intros [= <- _] |].
  destruct (is_e c) eqn:Ec; [| by intros [= <- _]].
  assert (32 <= b2z c).
  { unfold is_e in Ec. apply orb_true_iff in Ec as [E%bool_decide_eq_true | E%bool_decide_eq_true];
      subst c; by vm_compute. }
  destruct b as [|s b]; [done |]. destruct (is_sign s) eqn:Es.
  - assert (32 <= b2z s).
    { unfold is_sign in Es. apply orb_true_iff in Es as [E%bool_decide_eq_true | E%bool_decide_eq_true];
        subst s; by vm_compute. }
    destruct (some_digits b) as [[ds b']|] eqn:E; [| done]. intros [= <- _].
    repeat constructor; [done.. | by eapply visible_some_digits].
  - destruct (some_digits (s :: b)) as [[ds b']|] eqn:E; [| done]. intros [= <- _].
    constructor; [done | by eapply visible_some_digits].
Qed.

Lemma visible_number lit : is_number lit = true -> visible lit.
Proof.
  unfold is_number. intros H%bool_decide_eq_true.
  assert (forall b l r, scan_number b = Some (l, r) -> visible l) as Hl; [| by eapply Hl].
  clear. intros b l r H. unfold scan_number in H.
  assert (forall sign b0, visible sign -> ('(i, b) ← scan_int b0; '(f, b) ← scan_frac b;
    '(e, b) ← scan_exp b; Some (sign ++ i ++ f ++ e, b)) = Some (l, r) -> visible l) as Hrest.
  { clear. intros sign b0 Hs H.
    destruct (scan_int b0) as [[i b1]|] eqn:E1; [| done]. cbn [mbind option_bind] in H.
    destruct (scan_frac b1) as [[f b2]|] eqn:E2; [| done]. cbn [mbind option_bind] in H.
    destruct (scan_exp b2) as [[e b3]|] eqn:E3; [| done]. injection H as <- _.
    rewrite !Forall_app. split_and!; eauto using visible_int, visible_frac, visible_exp. }
  destruct b as [|c b]; [done |].
  case_bool_decide; (eapply Hrest; [| exact H]); subst; by repeat constructor.
Qed.

Lemma visible_escape r : scalar r -> visible (escape_rune r).
Proof.
  intros Hs. unfold escape_rune. destruct (Z.ltb_spec r 128).
  - generalize (z2b r). intros c. apply Forall_forall. intros x Hx. apply Z.leb_le.
    assert (forallb (fun x => 32 <=? b2z x) (escape_ascii c) = true) as Hc
      by (destruct c as [[] [] [] [] [] [] [] []]; reflexivity).
    rewrite forallb_forall in Hc. by apply Hc, list_elem_of_In.
  - destruct (Z.eqb_spec r 8232) as [-> |]; [repeat constructor; by vm_compute |].
    destruct (Z.eqb_spec r 8233) as [-> |]; [repeat constructor; by vm_compute |].
    apply Forall_forall. intros c Hc. pose proof (EncodeRune_high r c Hs ltac:(lia) Hc). lia.
Qed.

Lemma visible_quote s : Valid s = true -> visible (quote_string s).
Proof.
  intros (rs & Hrs & ->)%Valid_runes. unfold quote_string. rewrite quote_loop_runes by done.
  constructor; [by vm_compute |]. apply Forall_app. split; [| by repeat constructor].
  induction Hrs as [|r rs Hr _ IH]; [constructor |]. cbn [fmap list_fmap concat].
  apply Forall_app. split; [by apply visible_escape | done].
Qed.

Lemma visible_compact j d n : wf d j = true -> visible (print compact n j).
Proof.
  revert d n. induction j as [|b|lit|s|vs IH|kvs IH] using json_nested_ind; intros d n Hwf.
  1-2: try destruct b; repeat constructor; by vm_compute.
  - by apply visible_number.
  - by apply visible_quote.
  - cbn [wf] in Hwf. apply andb_true_iff in Hwf as [_ Hwf].
    destruct IH as [|v vs Hv Hvs]; [repeat constructor; by vm_compute |].
    cbn [forallb] in Hwf. apply andb_true_iff in Hwf as [Hwf Hwfs]. cbn [print newline compact app].
    constructor; [by vm_compute |]. rewrite !Forall_app. split_and!; [by eapply Hv | |].
    + revert Hwfs. clear -Hvs. induction Hvs as [|v vs Hv _ IH]; [constructor |].
      cbn [forallb map concat]. intros [Hwf Hwfs]%andb_true_iff.
      constructor; [by vm_compute |]. apply Forall_app. split; [by eapply Hv | auto].
    + repeat constructor; by vm_compute.
  - cbn [wf] in Hwf. apply andb_true_iff in Hwf as [_ Hwf].
    destruct IH as [|[k v] kvs Hv Hvs]; [repeat constructor; by vm_compute |].
    cbn [forallb] in Hwf. rewrite !andb_true_iff in Hwf. destruct Hwf as [[Hk Hwf] Hwfs].
    cbn [print newline after_colon compact app].
    constructor; [by vm_compute |]. rewrite Forall_app. split; [by apply visible_quote |].
    { constructor; [by vm_compute |]. rewrite !Forall_app. split_and!; [by eapply Hv | |].
      + revert Hwfs. clear -Hvs. induction Hvs as [|[k v] kvs Hv _ IH]; [constructor |].
        cbn [forallb map concat]. rewrite !andb_true_iff. intros [[Hk Hwf] Hwfs].
        apply Forall_app. split; [| auto]. constructor; [by vm_compute |].
        apply Forall_app. split; [by apply visible_quote |].
        constructor; [by vm_compute |]. by eapply Hv.
      + repeat constructor; by vm_compute. }
Qed.
