(* ===== verification/FloatText.v ===== *)
(** * Decimal text of floats (strconv)

    [ParseFloat] on a JSON number literal, correctly rounded; and the shortest
    decimal that reads back as the same float, as [encoding/json] prints it. *)

From S2P Require Import Prelude Utf8 Float64 JsonText.

(** The significand and the decimal exponent of a number literal. *)
Definition literal_value (lit : bytes) : bool * Z * Z :=
  let '(neg, b) :=
    match lit with
    | c :: b => if bool_decide (c = "-"%char) then (true, b) else (false, lit)
    | [] => (false, [])
    end in
  let '(i, b) := take_digits b in
  let '(f, b) := match b with
                 | c :: b' => if bool_decide (c = "."%char) then take_digits b' else ([], b)
                 | [] => ([], [])
                 end in
  let e := match b with
           | c :: s :: b =>
               if bool_decide (s = "-"%char) then - digits_value b
               else if bool_decide (s = "+"%char) then digits_value b
               else digits_value (s :: b)
           | _ => 0
           end in
  (neg, digits_value (i ++ f), e - blen f).

(** [m * 10^e], rounded. *)
Definition of_decimal (m e : Z) : F64.f64 :=
  if 0 <=? e then F64.of_ratio (m * 10 ^ e) 1 else F64.of_ratio m (10 ^ (- e)).

(** [strconv.ParseFloat]; an overflow is an error. *)
Definition parse_float (lit : bytes) : option F64.f64 :=
  let '(neg, m, e) := literal_value lit in
  match of_decimal (if neg : bool then - m else m) e with
  | F64.Fin u => Some (F64.Fin u)
  | _ => None
  end.

(** The decimal exponent [e] with [10^e <= x < 10^(e+1)], from the binary one. *)
Definition decimal_exp (u : Z) : Z :=
  let e := (Z.log2 u - F64.unit_exp) * 1233 / 4096 in
  let le e := if 0 <=? e then 10 ^ e * F64.one_u <=? u else F64.one_u <=? u * 10 ^ (- e) in
  if negb (le e) then e - 1 else if le (e + 1) then e + 1 else e.

(** The decimals with last place [10^k] next to [u] units, the lower and the upper:
    those that read back as [u], and the nearer of the two. *)
Definition shortest_at (u k : Z) : option Z :=
  let n := if 0 <=? k then u else u * 10 ^ (- k) in
  let d := if 0 <=? k then F64.one_u * 10 ^ k else F64.one_u in
  let lo := n / d in
  let back m := bool_decide (of_decimal m k = F64.Fin u) in
  if back lo && back (lo + 1) then Some (F64.rne n d)
  else if back lo then Some lo
  else if back (lo + 1) then Some (lo + 1)
  else None.

(** With as few digits as will do: [p] of them, then one more; 17 always do. *)
Fixpoint shortest_loop (steps : nat) (u e10 p : Z) : option (Z * Z) :=
  match steps with
  | O => None
  | S steps =>
      match shortest_at u (e10 - p + 1) with
      | Some m => Some (m, e10 - p + 1)
      | None => shortest_loop steps u e10 (p + 1)
      end
  end.
Definition shortest (u : Z) : option (Z * Z) := shortest_loop 17 u (decimal_exp u) 1.

Fixpoint strip_zeros (rds : bytes) : bytes :=
  match rds with
  | c :: rds' => if bool_decide (c = "0"%char) then strip_zeros rds' else rds
  | [] => []
  end.

(** Formats f and e with the digits [ds] after a decimal point shifted by [dp]. *)
Definition format_f (ds : bytes) (dp : Z) : bytes :=
  let nd := blen ds in
  let padded := ds ++ replicate (Z.to_nat (dp - nd)) "0"%char in
  (if 0 <? dp then take (Z.to_nat dp) padded else ["0"%char]) ++
  (if dp <? nd
   then "."%char :: replicate (Z.to_nat (- dp)) "0"%char ++ drop (Z.to_nat dp) ds
   else []).

Definition format_e (ds : bytes) (dp : Z) : bytes :=
  let e := dp - 1 in
  let digits := format_nat (Z.abs e) in
  take 1 ds ++ (if 1 <? blen ds then "."%char :: drop 1 ds else []) ++
  "e"%char :: (if e <? 0 then "-"%char :: digits
               else "+"%char :: (if Z.abs e <? 10 then "0"%char :: digits else digits)).

(** [floatEncoder]: format e below [1e-6] and from [1e21] on, and no leading zero in
    a negative exponent. *)
Definition format_float (x : F64.f64) : option bytes :=
  match x with
  | F64.Fin u =>
      if u =? 0 then Some (str_bytes "0")
      else
        '(m, k) ← shortest (Z.abs u);
        let digits := format_nat m in
        let ds := rev (strip_zeros (rev digits)) in
        let dp := k + blen digits in
        let small := F64.flt (F64.Fin (Z.abs u)) (of_decimal 1 (-6)) in
        let large := F64.fle (of_decimal 1 21) (F64.Fin (Z.abs u)) in
        Some ((if u <? 0 then ["-"%char] else []) ++
              (if small || large then format_e ds dp else format_f ds dp))
  | _ => None
  end.

(** The floats whose text reads back. *)
Definition printable (x : F64.f64) : bool :=
  match format_float x with
  | Some lit => is_number lit && bool_decide (parse_float lit = Some x)
  | None => false
  end.
