(* ===== verification/GoJson.v ===== *)
(** * encoding/json on Go values

    How a Go value is encoded as a JSON value and how a JSON value is decoded into an
    existing Go value: strings, integers, booleans, floats, byte slices (base64),
    pointers, slices, string-keyed maps, and structs by their list of fields, with
    [omitempty], unknown keys skipped, and keys matched without regard to case.
    [null] leaves most values as they are.  Decoding fails on the first mismatch;
    the program discards what [Unmarshal] had filled in before its error.

    [GoValueLaw] is what a type guarantees: an encodable value ([gv_ok]) is decoded
    from its own encoding.  [go_json] turns it into the interface of [Json]. *)

From S2P Require Import Prelude Utf8 Float64 Json JsonText FloatText.

Class GoValue (A : Type) : Type := {
  gv_zero : A;
  gv_empty : A -> bool;                  (* what omitempty leaves out *)
  gv_enc : A -> option json;
  gv_dec : json -> A -> option A
}.

(** ** Scalars *)

#[export] Instance string_value : GoValue string := {
  gv_zero := EmptyString;
  gv_empty s := bool_decide (s = EmptyString);
  gv_enc s := Some (JStr (str_bytes s));
  gv_dec j old := match j with
                  | JStr s => Some (bytes_str s)
                  | JNull => Some old
                  | _ => None
                  end
}.

#[export] Instance int_value : GoValue Z := {
  gv_zero := 0;
  gv_empty z := z =? 0;
  gv_enc z := Some (JNum (format_int z));
  gv_dec j old := match j with
                  | JNum lit => parse_int lit
                  | JNull => Some old
                  | _ => None
                  end
}.

#[export] Instance bool_value : GoValue bool := {
  gv_zero := false;
  gv_empty := negb;
  gv_enc b := Some (JBool b);
  gv_dec j old := match j with
                  | JBool b => Some b
                  | JNull => Some old
                  | _ => None
                  end
}.

#[export] Instance float_value : GoValue F64.f64 := {
  gv_zero := F64.zero;
  gv_empty x := bool_decide (x = F64.zero);
  gv_enc x := JNum <$> format_float x;
  gv_dec j old := match j with
                  | JNum lit => parse_float lit
                  | JNull => Some old
                  | _ => None
                  end
}.

(** ** Base64 (encoding/base64, StdEncoding) *)

Definition base64_table : bytes :=
  str_bytes "ABCDEFGHIJKLMNOPQRSTUVWXYZabcdefghijklmnopqrstuvwxyz0123456789+/".
Definition base64_char (n : Z) : ascii := default "A"%char (base64_table !! Z.to_nat n).
Definition base64_value (c : ascii) : option Z :=
  (fun p => Z.of_nat p.1) <$> list_find (c =.) base64_table.

Fixpoint base64_encode (b : bytes) : bytes :=
  match b with
  | [] => []
  | [x] =>
      let n := b2z x * 65536 in
      [base64_char (n / 262144); base64_char (n / 4096 mod 64); "="%char; "="%char]
  | [x; y] =>
      let n := b2z x * 65536 + b2z y * 256 in
      [base64_char (n / 262144); base64_char (n / 4096 mod 64); base64_char (n / 64 mod 64); "="%char]
  | x :: y :: z :: b =>
      let n := b2z x * 65536 + b2z y * 256 + b2z z in
      base64_char (n / 262144) :: base64_char (n / 4096 mod 64) ::
      base64_char (n / 64 mod 64) :: base64_char (n mod 64) :: base64_encode b
  end.

(** Quanta of four characters; only the last may be padded. *)
Fixpoint base64_quanta (b : bytes) : option bytes :=
  match b with
  | [] => Some []
  | c1 :: c2 :: c3 :: c4 :: b =>
      n1 ← base64_value c1; n2 ← base64_value c2;
      match base64_value c3, base64_value c4 with
      | Some n3, Some n4 =>
          let n := n1 * 262144 + n2 * 4096 + n3 * 64 + n4 in
          app [z2b (n / 65536); z2b (n / 256); z2b n] <$> base64_quanta b
      | Some n3, None =>
          if bool_decide (c4 = "="%char) && bool_decide (b = []) then
            let n := n1 * 262144 + n2 * 4096 + n3 * 64 in
            Some [z2b (n / 65536); z2b (n / 256)]
          else None
      | None, _ =>
          if bool_decide (c3 = "="%char) && bool_decide (c4 = "="%char) && bool_decide (b = []) then
            Some [z2b ((n1 * 262144 + n2 * 4096) / 65536)]
          else None
      end
  | _ => None
  end.
(** Line breaks are ignored wherever they are. *)
Definition base64_decode (b : bytes) : option bytes :=
  base64_quanta (filter (fun c => c <> "010"%char /\ c <> "013"%char) b).

(** ** Slices, pointers and maps *)

(** The elements of an array are decoded into those the slice has, as far as it
    reaches. *)
Fixpoint dec_elems {A} (dec : json -> A -> option A) (zero : A) (l : list json) (old : list A)
    : option (list A) :=
  match l with
  | [] => Some []
  | j :: l =>
      x ← dec j (default zero (head old));
      cons x <$> dec_elems dec zero l (tail old)
  end.

Definition dec_byte (j : json) (old : ascii) : option ascii :=
  match j with
  | JNum lit => z ← parse_int lit; if bool_decide (0 <= z < 256) then Some (z2b z) else None
  | JNull => Some old
  | _ => None
  end.

#[export] Instance bytes_value : GoValue bytes := {
  gv_zero := [];
  gv_empty b := bool_decide (b = []);
  gv_enc b := Some (JStr (base64_encode b));
  gv_dec j old := match j with
                  | JStr s => base64_decode s
                  | JArr l => dec_elems dec_byte "000"%char l old
                  | JNull => Some []
                  | _ => None
                  end
}.

#[export] Instance pointer_value {A} `{GoValue A} : GoValue (option A) := {
  gv_zero := None;
  gv_empty p := match p with None => true | Some _ => false end;
  gv_enc p := match p with None => Some JNull | Some a => gv_enc a end;
  gv_dec j old := match j with
                  | JNull => Some None
                  | _ => Some <$> gv_dec j (default gv_zero old)
                  end
}.

(** A slice; [None] is nil. *)
Definition slice_value {A} `{GoValue A} : GoValue (option (list A)) := {|
  gv_zero := None;
  gv_empty s := match s with None | Some [] => true | _ => false end;
  gv_enc s := match s with
              | None => Some JNull
              | Some l => JArr <$> mapM gv_enc l
              end;
  gv_dec j old := match j with
                  | JNull => Some None
                  | JArr l => Some <$> dec_elems gv_dec gv_zero l (default [] old)
                  | _ => None
                  end
|}.

(** Entries are written in the order of their keys. *)
Definition key_le (a b : string * string) : Prop := String.leb a.1 b.1 = true.
#[export] Instance key_le_dec : RelDecision key_le.
Proof. intros a b. unfold key_le. apply _. Defined.

Definition enc_map (m : gmap string string) : json :=
  JObj (map (fun '(k, v) => (str_bytes k, JStr (str_bytes v))) (merge_sort key_le (map_to_list m))).

Fixpoint dec_map (kvs : list (bytes * json)) (m : gmap string string) : option (gmap string string) :=
  match kvs with
  | [] => Some m
  | (k, j) :: kvs => v ← gv_dec j gv_zero; dec_map kvs (<[bytes_str k := v]> m)
  end.

#[export] Instance map_value : GoValue (gmap string string) := {
  gv_zero := ∅;
  gv_empty m := bool_decide (m = ∅);
  gv_enc m := Some (enc_map m);
  gv_dec j old := match j with
                  | JNull => Some ∅
                  | JObj kvs => dec_map kvs old
                  | _ => None
                  end
}.

(** A map that may be nil. *)
Definition nil_map_value : GoValue (option (gmap string string)) := {|
  gv_zero := None;
  gv_empty m := match m with None => true | Some m => bool_decide (m = ∅) end;
  gv_enc m := Some (match m with None => JNull | Some m => enc_map m end);
  gv_dec j old := match j with
                  | JNull => Some None
                  | JObj kvs => Some <$> dec_map kvs (default ∅ old)
                  | _ => None
                  end
|}.

(** ** Structs *)

(** [f_enc]: an error, or nothing for an omitted field. *)
Record field (S : Type) := mkFieldRaw {
  f_name : string;
  f_enc : S -> option (option json);
  f_dec : json -> S -> option S
}.
Arguments mkFieldRaw {S} _ _ _.
Arguments f_name {S} _.
Arguments f_enc {S} _ _.
Arguments f_dec {S} _ _ _.

Definition mkField {S A} (V : GoValue A) (name : string) (omitempty : bool)
    (get : S -> A) (set : A -> S -> S) : field S :=
  mkFieldRaw name
    (fun s => if omitempty && gv_empty (get s) then Some None else Some <$> gv_enc (get s))
    (fun j s => (fun a => set a s) <$> gv_dec j (get s)).

(** [foldName]: letters in lower case, the Kelvin sign as k, the long s as s. *)
Definition lower (c : ascii) : ascii := if between 65 90 c then z2b (b2z c + 32) else c.
Fixpoint fold_name (b : bytes) : bytes :=
  match b with
  | [] => []
  | c1 :: b1 =>
      match b1 with
      | c2 :: b2 =>
          if (b2z c1 =? 197) && (b2z c2 =? 191) then "s"%char :: fold_name b2
          else match b2 with
               | c3 :: b3 =>
                   if (b2z c1 =? 226) && (b2z c2 =? 132) && (b2z c3 =? 170)
                   then "k"%char :: fold_name b3
                   else lower c1 :: fold_name b1
               | [] => lower c1 :: fold_name b1
               end
      | [] => [lower c1]
      end
  end.

Fixpoint enc_fields {S} (fs : list (field S)) (s : S) : option (list (bytes * json)) :=
  match fs with
  | [] => Some []
  | f :: fs =>
      e ← f_enc f s;
      kvs ← enc_fields fs s;
      Some (match e with Some j => (str_bytes (f_name f), j) :: kvs | None => kvs end)
  end.

(** The names are in lower case and distinct, so that an exact match is found too. *)
Definition find_field {S} (fs : list (field S)) (k : bytes) : option (field S) :=
  snd <$> list_find (fun f => str_bytes (f_name f) = fold_name k) fs.

Fixpoint dec_fields {S} (fs : list (field S)) (kvs : list (bytes * json)) (s : S) : option S :=
  match kvs with
  | [] => Some s
  | (k, j) :: kvs =>
      match find_field fs k with
      | Some f => s ← f_dec f j s; dec_fields fs kvs s
      | None => dec_fields fs kvs s
      end
  end.

Definition struct_value {S} (zero : S) (fs : list (field S)) : GoValue S := {|
  gv_zero := zero;
  gv_empty _ := false;
  gv_enc s := JObj <$> enc_fields fs s;
  gv_dec j old := match j with
                  | JNull => Some old
                  | JObj kvs => dec_fields fs kvs old
                  | _ => None
                  end
|}.

(** ** Marshal, MarshalIndent and Unmarshal *)

Definition go_json {A} (L : layout) (V : GoValue A) : JSON A := {|
  json_marshal a := print L 0 <$> gv_enc a;
  json_unmarshal b := j ← parse b; gv_dec j gv_zero
|}.

(** ** Values read back *)

(** [gv_depth]: how deeply the encoding nests. *)
Class GoValueLaw {A} (V : GoValue A) : Type := {
  gv_ok : A -> Prop;
  gv_depth : Z;
  gv_roundtrip a : gv_ok a -> exists j, gv_enc a = Some j /\
    (forall d, d + gv_depth <= maxNestingDepth -> wf d j = true) /\ gv_dec j gv_zero = Some a;
  gv_depth_nonneg : 0 <= gv_depth
}.

Definition utf8 (s : string) : Prop := Valid (str_bytes s) = true.

Lemma ascii_valid b : Forall (fun c => b2z c < 128) b -> Valid b = true.
Proof.
  intros Hb. replace b with (concat (EncodeRune <$> (b2z <$> b))).
  - apply runes_Valid, Forall_fmap. eapply Forall_impl; [exact Hb |].
    intros c Hc. pose proof (b2z_range c). unfold compose, scalar. lia.
  - induction Hb as [|c b Hc _ IH]; [done |]. cbn [fmap list_fmap concat] in *. rewrite IH.
    rewrite EncodeRune_ascii by (pose proof (b2z_range c); lia). by rewrite z2b_b2z.
Qed.

#[export] Instance string_law : GoValueLaw string_value.
Proof.
  refine {| gv_ok := utf8; gv_depth := 0 |}.
  - intros s Hs. eexists. split; [reflexivity |]. split; [done |]. simpl. by rewrite bytes_str_bytes.
  - done.
Defined.

#[export] Instance int_law : GoValueLaw int_value.
Proof.
  refine {| gv_ok := is_int64; gv_depth := 0 |}.
  - intros z Hz. eexists. split; [reflexivity |]. split; [intros; by apply format_int_number |].
    by apply parse_format_int.
  - done.
Defined.

#[export] Instance bool_law : GoValueLaw bool_value.
Proof.
  refine {| gv_ok := fun _ => True; gv_depth := 0 |}; [eauto | done].
Defined.

#[export] Instance float_law : GoValueLaw float_value.
Proof.
  refine {| gv_ok x := printable x = true; gv_depth := 0 |}.
  - intros x Hx. unfold printable in Hx. simpl. destruct (format_float x) as [lit|]; [| done].
    apply andb_true_iff in Hx as [Hn Hp%bool_decide_eq_true]. eexists. by split.
  - done.
Defined.

Lemma base64_char_value n : 0 <= n < 64 ->
  base64_value (base64_char n) = Some n /\ b2z (base64_char n) < 128 /\
  base64_char n <> "010"%char /\ base64_char n <> "013"%char.
Proof.
  intros Hn. cut (forall k, (k < 64)%nat ->
    base64_value (base64_char (Z.of_nat k)) = Some (Z.of_nat k) /\ b2z (base64_char (Z.of_nat k)) < 128 /\
    base64_char (Z.of_nat k) <> "010"%char /\ base64_char (Z.of_nat k) <> "013"%char).
  { intros H. specialize (H (Z.to_nat n)). rewrite Z2Nat.id in H by lia. apply H. lia. }
  assert (Forall (fun k => base64_value (base64_char (Z.of_nat k)) = Some (Z.of_nat k) /\
     b2z (base64_char (Z.of_nat k)) < 128 /\ base64_char (Z.of_nat k) <> "010"%char /\
     base64_char (Z.of_nat k) <> "013"%char) (seq 0 64)) as H.
  { repeat constructor; try (vm_compute; discriminate). }
  rewrite Forall_seq in H. intros k Hk. apply (H k). lia.
Qed.

Lemma z2b_mod_b2z c z : b2z c = z mod 256 -> z2b z = c.
Proof. intros E. rewrite <- (z2b_b2z c), E. unfold z2b. by rewrite Z.mod_mod. Qed.

Ltac byte_arith :=
  apply z2b_mod_b2z; Z.to_euclidean_division_equations; lia.

(** The four characters of a group of three bytes. *)
Lemma base64_sextets n : 0 <= n < 16777216 ->
  base64_value (base64_char (n / 262144)) = Some (n / 262144) /\
  base64_value (base64_char (n / 4096 mod 64)) = Some (n / 4096 mod 64) /\
  base64_value (base64_char (n / 64 mod 64)) = Some (n / 64 mod 64) /\
  base64_value (base64_char (n mod 64)) = Some (n mod 64).
Proof.
  intros Hn. split_and!; apply base64_char_value; Z.to_euclidean_division_equations; lia.
Qed.

Lemma base64_triple x y z t :
  base64_quanta (base64_encode (x :: y :: z :: t)) = app [x; y; z] <$> base64_quanta (base64_encode t).
Proof.
  pose proof (b2z_range x). pose proof (b2z_range y). pose proof (b2z_range z).
  cbn [base64_encode base64_quanta]. set (n := b2z x * 65536 + b2z y * 256 + b2z z).
  assert (0 <= n < 16777216) by (unfold n; lia).
  destruct (base64_sextets n) as (E1 & E2 & E3 & E4); [done |]. rewrite E1, E2, ?E3, ?E4.
  cbn [mbind option_bind].
  replace (n / 262144 * 262144 + n / 4096 mod 64 * 4096 + n / 64 mod 64 * 64 + n mod 64) with n
    by (Z.to_euclidean_division_equations; lia).
  assert (z2b (n / 65536) = x) as -> by (unfold n; byte_arith).
  assert (z2b (n / 256) = y) as -> by (unfold n; byte_arith).
  assert (z2b n = z) as -> by (unfold n; byte_arith). done.
Qed.

Lemma base64_one x : base64_quanta (base64_encode [x]) = Some [x].
Proof.
  pose proof (b2z_range x). cbn [base64_encode base64_quanta]. set (n := b2z x * 65536).
  assert (0 <= n < 16777216) by (unfold n; lia).
  destruct (base64_sextets n) as (E1 & E2 & E3 & E4); [done |]. rewrite E1, E2, ?E3, ?E4.
  cbn [mbind option_bind]. change (base64_value "=") with (@None Z). cbn -[Z.mul Z.add Z.div Z.modulo z2b].
  do 2 f_equal. unfold n. byte_arith.
Qed.

Lemma base64_two x y : base64_quanta (base64_encode [x; y]) = Some [x; y].
Proof.
  pose proof (b2z_range x). pose proof (b2z_range y).
  cbn [base64_encode base64_quanta]. set (n := b2z x * 65536 + b2z y * 256).
  assert (0 <= n < 16777216) by (unfold n; lia).
  destruct (base64_sextets n) as (E1 & E2 & E3 & E4); [done |]. rewrite E1, E2, ?E3, ?E4.
  cbn [mbind option_bind]. change (base64_value "=") with (@None Z). cbn -[Z.mul Z.add Z.div Z.modulo z2b].
  do 2 f_equal; [| f_equal]; unfold n; byte_arith.
Qed.

Lemma base64_encode_chars b :
  Forall (fun c => b2z c < 128 /\ c <> "010"%char /\ c <> "013"%char) (base64_encode b).
Proof.
  assert (forall n, 0 <= n < 64 -> b2z (base64_char n) < 128 /\
            base64_char n <> "010"%char /\ base64_char n <> "013"%char) as Hc
    by (intros n Hn; apply base64_char_value, Hn).
  revert b. fix IH 1. intros [|x [|y [|z b]]]; cbn [base64_encode]; [constructor| | |].
  1-2: repeat constructor; try apply Hc; try discriminate;
    pose proof (b2z_range x); try pose proof (b2z_range y); Z.to_euclidean_division_equations; lia.
  do 4 (constructor; [apply Hc; pose proof (b2z_range x); pose proof (b2z_range y);
    pose proof (b2z_range z); Z.to_euclidean_division_equations; lia |]).
  apply IH.
Qed.

Lemma base64_roundtrip b : base64_decode (base64_encode b) = Some b.
Proof.
  assert (forall l, Forall (fun c => b2z c < 128 /\ c <> "010"%char /\ c <> "013"%char) l ->
            filter (fun c => c <> "010"%char /\ c <> "013"%char) l = l) as Hf.
  { induction 1 as [|c l (_ & Hc) _ IH]; [done |]. by rewrite filter_cons_True, IH. }
  unfold base64_decode. rewrite Hf by apply base64_encode_chars. clear Hf.
  revert b. fix IH 1. intros [|x [|y [|z b]]]; [done | apply base64_one | apply base64_two |].
  by rewrite base64_triple, IH.
Qed.

#[export] Instance bytes_law : GoValueLaw bytes_value.
Proof.
  refine {| gv_ok := fun _ => True; gv_depth := 0 |}.
  - intros b _. eexists. split; [reflexivity |]. split; [| apply base64_roundtrip].
    intros d _. apply ascii_valid. eapply Forall_impl; [apply base64_encode_chars | naive_solver].
  - done.
Defined.

(** A pointer to a value that is not itself written as [null]. *)
Definition pointer_law {A} (V : GoValue A) (HV : GoValueLaw V) (Hnull : forall a, gv_enc a <> Some JNull)
    : GoValueLaw (@pointer_value A V).
Proof.
  refine {| gv_ok p := match p with None => True | Some a => gv_ok a end; gv_depth := @gv_depth A V HV |}.
  - intros [a|] Ha; [| by exists JNull].
    destruct (gv_roundtrip a Ha) as (j & He & Hw & Hd). exists j. split_and!; [done.. |].
    simpl. destruct j; [by destruct (Hnull a) |..]; by rewrite Hd.
  - apply gv_depth_nonneg.
Defined.

Lemma pointer_empty {A} (V : GoValue A) p : @gv_empty _ (@pointer_value A V) p = true -> p = None.
Proof. by destruct p. Qed.

Definition slice_law {A} (V : GoValue A) (HV : GoValueLaw V) : GoValueLaw (@slice_value A V).
Proof.
  refine {| gv_ok s := match s with None => True | Some l => Forall gv_ok l end;
            gv_depth := 1 + @gv_depth A V HV |}.
  - intros [l|] Hl; [| by exists JNull].
    assert (exists js, mapM gv_enc l = Some js /\
      (forall d, d + @gv_depth A V HV <= maxNestingDepth -> forallb (wf d) js = true) /\
      dec_elems gv_dec gv_zero js [] = Some l) as (js & He & Hw & Hd).
    { induction Hl as [|a l Ha _ (js & He & Hw & Hd)]; [by exists [] |].
      destruct (gv_roundtrip a Ha) as (j & Hej & Hwj & Hdj). exists (j :: js).
      split_and!.
      - simpl. by rewrite Hej, He.
      - intros d Hdp. simpl. by rewrite Hwj, Hw.
      - simpl. by rewrite Hdj, Hd. }
    exists (JArr js). simpl. rewrite He, Hd. split_and!; [done | | done].
    intros d Hdp. pose proof (@gv_depth_nonneg A V HV). simpl.
    rewrite andb_true_iff, Z.leb_le. split; [lia | apply Hw; lia].
  - pose proof (@gv_depth_nonneg A V HV). lia.
Defined.

Lemma dec_enc_map_list (l : list (string * string)) m :
  dec_map (map (fun '(k, v) => (str_bytes k, JStr (str_bytes v))) l) m
  = Some (foldl (fun m kv => <[kv.1 := kv.2]> m) m l).
Proof.
  revert m. induction l as [|[k v] l IH]; intros m; [done |].
  simpl. rewrite !bytes_str_bytes. apply IH.
Qed.

Lemma foldl_insert (l : list (string * string)) (m : gmap string string) :
  NoDup l.*1 -> foldl (fun m kv => <[kv.1 := kv.2]> m) m l = list_to_map l ∪ m.
Proof.
  revert m. induction l as [|[k v] l IH]; intros m Hl; simpl in *; [by rewrite (left_id_L ∅ (∪)) |].
  apply NoDup_cons in Hl as [Hk Hl]. rewrite IH by done.
  rewrite <- insert_union_r by by apply not_elem_of_list_to_map. by rewrite insert_union_l.
Qed.

Lemma dec_enc_map (m : gmap string string) kvs :
  enc_map m = JObj kvs -> dec_map kvs ∅ = Some m.
Proof.
  intros [= <-]. pose proof (merge_sort_Permutation key_le (map_to_list m)) as HP.
  rewrite dec_enc_map_list, foldl_insert.
  - rewrite (right_id_L ∅ (∪)). f_equal. rewrite <- (list_to_map_to_list m) at 2.
    apply list_to_map_proper; [| done]. rewrite HP. apply NoDup_fst_map_to_list.
  - rewrite HP. apply NoDup_fst_map_to_list.
Qed.

Definition map_utf8 (m : gmap string string) : Prop := map_Forall (fun k v => utf8 k /\ utf8 v) m.

Lemma enc_map_wf m d : map_utf8 m -> d + 1 <= maxNestingDepth -> wf d (enc_map m) = true.
Proof.
  intros Hm Hd. simpl. rewrite andb_true_iff, Z.leb_le. split; [done |].
  apply forallb_forall. intros [k' j] Hin. apply in_map_iff in Hin as ([k v] & [= <- <-] & Hin).
  apply list_elem_of_In in Hin. rewrite merge_sort_Permutation in Hin.
  apply elem_of_map_to_list in Hin. destruct (Hm k v Hin) as [Hk Hv]. unfold utf8 in *. cbn [wf]. by rewrite Hk, Hv.
Qed.

#[export] Instance map_law : GoValueLaw map_value.
Proof.
  refine {| gv_ok := map_utf8; gv_depth := 1 |}; [| done].
  intros m Hm. eexists. split; [reflexivity |]. split; [intros d; by apply enc_map_wf |].
  simpl. by apply dec_enc_map.
Defined.

Definition nil_map_law : GoValueLaw nil_map_value.
Proof.
  refine {| gv_ok m := match m with None => True | Some m => map_utf8 m end; gv_depth := 1 |}; [| done].
  intros [m|] Hm; [| by exists JNull].
  exists (enc_map m). split_and!; [done | intros d; by apply enc_map_wf |].
  simpl. by rewrite (dec_enc_map m _ eq_refl).
Defined.

(** ** Structs read back *)

Section Struct.
Context {S : Type}.

(** Encoding the field of [a] and decoding it turns [s] into [s']. *)
Definition field_step (depth : Z) (f : field S) (a s s' : S) : Prop :=
  (exists j, f_enc f a = Some (Some j) /\
     (forall d, d + depth <= maxNestingDepth -> wf d j = true) /\ f_dec f j s = Some s') \/
  (f_enc f a = Some None /\ s' = s).

Inductive fields_step (depth : Z) (a : S) : list (field S) -> S -> S -> Prop :=
| fields_nil s : fields_step depth a [] s s
| fields_cons f fs s s1 s' :
    field_step depth f a s s1 -> fields_step depth a fs s1 s' -> fields_step depth a (f :: fs) s s'.

Lemma mkField_step {A} (V : GoValue A) `{!GoValueLaw V} depth name om (get : S -> A) set a s :
  gv_ok (get a) -> gv_depth <= depth -> get s = gv_zero -> set gv_zero s = s ->
  om = false \/ (gv_empty (get a) = true -> get a = gv_zero) ->
  field_step depth (mkField V name om get set) a s (set (get a) s).
Proof.
  intros Hok Hdep Hget Hset Hom. unfold field_step. simpl.
  destruct (om && gv_empty (get a)) eqn:E.
  - right. apply andb_true_iff in E as [-> He]. destruct Hom as [? | Hom]; [done |].
    by rewrite (Hom He).
  - left. destruct (gv_roundtrip _ Hok) as (j & -> & Hw & Hd). exists j. split; [done |].
    split; [intros; apply Hw; lia |]. by rewrite Hget, Hd.
Qed.

Lemma fields_read_back depth all fs a s s' :
  (forall f, f ∈ fs -> find_field all (str_bytes (f_name f)) = Some f /\ utf8 (f_name f)) ->
  fields_step depth a fs s s' ->
  exists kvs, enc_fields fs a = Some kvs /\
    (forall d, d + depth <= maxNestingDepth ->
       forallb (fun '(k, v) => Valid k && wf d v) kvs = true) /\
    dec_fields all kvs s = Some s'.
Proof.
  intros Hall Hs. induction Hs as [s | f fs s s1 s' Hf _ IH]; [by exists [] |].
  destruct IH as (kvs & He & Hw & Hd); [set_solver |].
  destruct (Hall f) as [Hfind Hu]; [set_solver |].
  destruct Hf as [(j & Hej & Hwj & Hdj) | [Hej ->]].
  - exists ((str_bytes (f_name f), j) :: kvs). simpl. rewrite Hej. simpl. rewrite He. split; [done |].
    split; [| by rewrite Hfind, Hdj].
    intros d Hdp. unfold utf8 in Hu. by rewrite Hu, Hwj, Hw.
  - exists kvs. simpl. rewrite Hej. simpl. by rewrite He.
Qed.
End Struct.

(** A struct is read back if each of its fields is, and the names can be told apart. *)
Lemma struct_roundtrip {S} (zero : S) fs depth a :
  forallb (fun f => bool_decide (f_name <$> find_field fs (str_bytes (f_name f)) = Some (f_name f)) &&
                    Valid (str_bytes (f_name f))) fs = true ->
  NoDup (f_name <$> fs) -> fields_step depth a fs zero a -> 0 <= depth ->
  let V := struct_value zero fs in
  exists j, @gv_enc S V a = Some j /\
    (forall d, d + (1 + depth) <= maxNestingDepth -> wf d j = true) /\
    @gv_dec S V j (@gv_zero S V) = Some a.
Proof.
  intros Hn Hnd Hs Hdep V.
  destruct (fields_read_back depth fs fs a zero a) as (kvs & He & Hw & Hd); [| done |].
  { intros f Hf. rewrite forallb_forall in Hn. specialize (Hn f (proj1 (list_elem_of_In _ _) Hf)).
    apply andb_true_iff in Hn as [Hn%bool_decide_eq_true Hu]. split; [| done].
    apply fmap_Some in Hn as (f' & Hf' & Hname). rewrite Hf'. f_equal.
    unfold find_field in Hf'. apply fmap_Some in Hf' as ([i g] & Hg & ->).
    apply list_find_Some in Hg as (Hg & _). simpl in *.
    apply list_elem_of_lookup in Hf as [k Hk].
    assert (i = k) as -> by (eapply (NoDup_lookup (f_name <$> fs)); [done | by rewrite list_lookup_fmap, Hg
      | by rewrite list_lookup_fmap, Hk; simpl; rewrite <- Hname]).
    congruence. }
  exists (JObj kvs). simpl. rewrite He. split_and!; [done | | done].
  intros d Hdp. simpl. rewrite andb_true_iff, Z.leb_le. split; [lia | apply Hw; lia].
Qed.

(** ** The interface *)

Definition go_json_law {A} (L : layout) (V : GoValue A) (HL : layout_ok L) (HV : GoValueLaw V)
    (Hdepth : bool_decide (gv_depth <= maxNestingDepth) = true) : @JSONLaw A (go_json L V).
Proof.
  refine {| json_valid := gv_ok |}. intros a Ha. destruct (gv_roundtrip a Ha) as (j & He & Hw & Hd).
  exists (print L 0 j). simpl. rewrite He. split; [done |].
  apply bool_decide_eq_true in Hdepth.
  by rewrite parse_print by (apply HL || apply Hw; lia).
Defined.

(** ** Values that always encode *)

Lemma mkField_encodes {S A} (V : GoValue A) name omit (get : S -> A) set :
  (forall a, is_Some (gv_enc a)) -> forall s, is_Some (f_enc (mkField V name omit get set) s).
Proof. intros HV s. simpl. destruct (omit && _); [eauto |]. by apply fmap_is_Some. Qed.

Lemma enc_fields_encodes {S} (fs : list (field S)) s :
  Forall (fun f => is_Some (f_enc f s)) fs -> is_Some (enc_fields fs s).
Proof. induction 1 as [|f fs [e He] _ [kvs Hk]]; simpl; [eauto |]. rewrite He, Hk. eauto. Qed.
