(* ===== verification/Message.v ===== *)
(** * The message envelope (pkg/message/message.go)

    The envelope every frame of the mesh carries, its structured payloads, the
    constructors and the TTL bookkeeping.  A constructor takes the values the
    code reads from its environment as arguments: the entropy [rand.Read] fills,
    and the readings of [time.Now] in the order they are taken. *)

From S2P Require Import Prelude Float64 Json.

(** ** Constants *)

Abbreviation MessageType := string.

Definition TypeChat : MessageType := "chat".
Definition TypeFile : MessageType := "file".
Definition TypeSOS : MessageType := "sos".
Definition TypeDeliveryAck : MessageType := "delivery_ack".
Definition TypePeerInfo : MessageType := "peer_info".
Definition TypeKeyExchange : MessageType := "key_exchange".

Abbreviation DeliveryStatus := string.

Definition DeliverySent : DeliveryStatus := "sent".
Definition DeliveryReceived : DeliveryStatus := "received".
Definition DeliveryDelivered : DeliveryStatus := "delivered".
Definition DeliveryRead : DeliveryStatus := "read".
Definition DeliveryFailed : DeliveryStatus := "failed".

Abbreviation SOSUrgency := string.

Definition SOSUrgencyLow : SOSUrgency := "low".
Definition SOSUrgencyMedium : SOSUrgency := "medium".
Definition SOSUrgencyHigh : SOSUrgency := "high".
Definition SOSUrgencyCritical : SOSUrgency := "critical".

(** ** Data *)

Record Message := mkMessage {
  ID : string;
  MType : MessageType;      (* the field [Type] *)
  Sender : string;
  SenderNick : string;
  Recipient : string;       (* empty: broadcast *)
  Payload : string;
  Timestamp : Z;
  TTL : Z;
  HopCount : Z;
  SprayBudget : Z;
  CopiesMade : Z;
  Nonce : string;
  KeyID : string
}.

Record DeliveryInfo := mkDeliveryInfo {
  di_MessageID : string;
  di_Status : DeliveryStatus;
  di_RecipientPeer : string;
  di_OriginalSender : string;
  di_Timestamp : Z;
  di_HopCount : Z;
  di_Error : string
}.

Record SOSPayload := mkSOSPayload {
  sos_Urgency : SOSUrgency;
  sos_Message : string;
  sos_Latitude : F64.f64;
  sos_Longitude : F64.f64;
  sos_Accuracy : F64.f64;
  sos_Timestamp : Z;
  sos_AutoExpire : Z;
  sos_AckRequired : bool
}.

Record FileMessagePayload := mkFileMessagePayload {
  fm_FileID : string;
  fm_FileName : string;
  fm_FileSize : Z;
  fm_MimeType : string;
  fm_ChunkCount : Z;
  fm_ChunkIdx : Z;
  fm_ChunkSize : Z;
  fm_Status : string;
  fm_Progress : F64.f64;
  fm_OutputPath : string
}.

Record KeyExchangePayload := mkKeyExchangePayload {
  kx_PublicKeyHex : string;
  kx_Nickname : string;
  kx_Timestamp : Z
}.

#[global] Instance Message_eq_dec : EqDecision Message.
Proof. solve_decision. Defined.
#[global] Instance DeliveryInfo_eq_dec : EqDecision DeliveryInfo.
Proof. solve_decision. Defined.
#[global] Instance SOSPayload_eq_dec : EqDecision SOSPayload.
Proof. solve_decision. Defined.
#[global] Instance FileMessagePayload_eq_dec : EqDecision FileMessagePayload.
Proof. solve_decision. Defined.
#[global] Instance KeyExchangePayload_eq_dec : EqDecision KeyExchangePayload.
Proof. solve_decision. Defined.

(** Field assignments. *)
Definition set_TTL (z : Z) (m : Message) : Message :=
  mkMessage (ID m) (MType m) (Sender m) (SenderNick m) (Recipient m) (Payload m)
    (Timestamp m) z (HopCount m) (SprayBudget m) (CopiesMade m) (Nonce m) (KeyID m).
Definition set_HopCount (z : Z) (m : Message) : Message :=
  mkMessage (ID m) (MType m) (Sender m) (SenderNick m) (Recipient m) (Payload m)
    (Timestamp m) (TTL m) z (SprayBudget m) (CopiesMade m) (Nonce m) (KeyID m).
Definition set_CopiesMade (z : Z) (m : Message) : Message :=
  mkMessage (ID m) (MType m) (Sender m) (SenderNick m) (Recipient m) (Payload m)
    (Timestamp m) (TTL m) (HopCount m) (SprayBudget m) z (Nonce m) (KeyID m).
Definition set_Recipient (s : string) (m : Message) : Message :=
  mkMessage (ID m) (MType m) (Sender m) (SenderNick m) s (Payload m)
    (Timestamp m) (TTL m) (HopCount m) (SprayBudget m) (CopiesMade m) (Nonce m) (KeyID m).
Definition set_crypto (payload nonce keyid : string) (m : Message) : Message :=
  mkMessage (ID m) (MType m) (Sender m) (SenderNick m) (Recipient m) payload
    (Timestamp m) (TTL m) (HopCount m) (SprayBudget m) (CopiesMade m) nonce keyid.

(** The zero value of [Message]. *)
Definition zeroMessage : Message :=
  mkMessage EmptyString EmptyString EmptyString EmptyString EmptyString EmptyString
    0 0 0 0 0 EmptyString EmptyString.

(** ** Identifiers, TTL and encryption flags *)

(** [newID]: sixteen bytes of entropy in hex. *)
Definition newID (entropy : bytes) : string := Hex.EncodeToString entropy.

Definition IsExpired (m : Message) : bool := TTL m <=? 0.

Definition DecrementTTL (m : Message) : Message :=
  let m' := if 0 <? TTL m then set_TTL (TTL m - 1) m else m in
  set_HopCount (wrap64 (HopCount m + 1)) m'.

Definition IsEncrypted (m : Message) : bool := negb (bool_decide (Nonce m = EmptyString)).

(** ** Constructors *)

Definition NewChat (entropy : bytes) (now : Z)
    (sender senderNick recipient text : string) : Message :=
  mkMessage (newID entropy) TypeChat sender senderNick recipient text
    now 16 0 0 0 EmptyString EmptyString.

(** [string(payloadBytes)] after [payloadBytes, _ := json.Marshal(v)]. *)
Definition marshal_string {A} `{JSON A} (v : A) : string :=
  bytes_str (default [] (json_marshal v)).

Section Payloads.
Context `{!JSON DeliveryInfo, !JSON SOSPayload, !JSON FileMessagePayload,
          !JSON KeyExchangePayload}.

Definition NewDeliveryAck (entropy : bytes) (now1 now2 : Z)
    (sender ackForID recipient : string) (status : DeliveryStatus)
    (hopCount : Z) (errMsg : string) : Message :=
  let info := mkDeliveryInfo ackForID status recipient sender now1 hopCount errMsg in
  mkMessage (newID entropy) TypeDeliveryAck sender EmptyString recipient
    (marshal_string info) now2 4 0 0 0 EmptyString EmptyString.

Definition NewDeliveryStatus (entropy : bytes) (now1 now2 : Z)
    (sender recipient originalMsgID : string) (status : DeliveryStatus) : Message :=
  NewDeliveryAck entropy now1 now2 sender originalMsgID recipient status 0 EmptyString.

Definition NewFileMetadata (now : Z)
    (sender senderNick recipient fileID fileName mimeType : string)
    (fileSize chunkCount : Z) : Message :=
  let payload := mkFileMessagePayload fileID fileName fileSize mimeType chunkCount
                   0 0 "started" F64.zero EmptyString in
  mkMessage fileID TypeFile sender senderNick recipient (marshal_string payload)
    now 16 0 0 0 EmptyString EmptyString.

Definition NewFileProgress (entropy : bytes) (now : Z)
    (sender recipient fileID : string) (chunkIdx chunkCount : Z)
    (progress : F64.f64) : Message :=
  let payload := mkFileMessagePayload fileID EmptyString 0 EmptyString chunkCount
                   chunkIdx 0 "progress" progress EmptyString in
  mkMessage (newID entropy) TypeFile sender EmptyString recipient (marshal_string payload)
    now 4 0 0 0 EmptyString EmptyString.

Definition NewFileComplete (entropy : bytes) (now : Z)
    (sender recipient fileID fileName outputPath : string) : Message :=
  let payload := mkFileMessagePayload fileID fileName 0 EmptyString 0
                   0 0 "complete" F64.zero outputPath in
  mkMessage (newID entropy) TypeFile sender EmptyString recipient (marshal_string payload)
    now 4 0 0 0 EmptyString EmptyString.

(** [time.Now().UnixMilli()] for the payload, [UnixNano()] for the envelope. *)
Definition NewSOS (entropy : bytes) (now_ms now : Z)
    (sender senderNick message : string) (urgency : SOSUrgency)
    (lat lon accuracy : F64.f64) : Message :=
  let payload := mkSOSPayload urgency message lat lon accuracy now_ms 60 true in
  mkMessage (newID entropy) TypeSOS sender senderNick EmptyString (marshal_string payload)
    now 64 0 0 0 EmptyString EmptyString.

Inductive ParseError := NotSOSType | BadSOSPayload.

Definition ParseSOSPayload (m : Message) : outcome ParseError SOSPayload :=
  if negb (bool_decide (MType m = TypeSOS)) then Fail NotSOSType
  else match json_unmarshal (str_bytes (Payload m)) with
       | Some p => Ret p
       | None => Fail BadSOSPayload
       end.

Definition NewKeyExchange (entropy : bytes) (now1 now2 : Z)
    (sender senderNick pubkeyHex : string) : Message :=
  let payload := mkKeyExchangePayload pubkeyHex senderNick now1 in
  mkMessage (newID entropy) TypeKeyExchange sender senderNick EmptyString
    (marshal_string payload) now2 8 0 0 0 EmptyString EmptyString.
End Payloads.

(** ** The JSON wire form *)

Inductive DeserializeError := BadJSON | MissingID.

Definition Serialize `{JSON Message} (m : Message) : option bytes := json_marshal m.

Definition DeserializeMessage `{JSON Message} (data : bytes)
    : outcome DeserializeError Message :=
  match json_unmarshal data with
  | None => Fail BadJSON
  | Some m => if bool_decide (ID m = EmptyString) then Fail MissingID else Ret m
  end.

(** ** Lemmas *)

Lemma newID_length entropy : slen (newID entropy) = 2 * blen entropy.
Proof. apply Hex.encode_slen. Qed.

Lemma newID_nonempty entropy : entropy <> [] -> newID entropy <> EmptyString.
Proof.
  intros Hne E. pose proof (newID_length entropy) as L. rewrite E in L.
  destruct entropy; [done |]. unfold slen, blen in L. simpl in L. lia.
Qed.

Lemma DecrementTTL_TTL m : TTL (DecrementTTL m) = if 0 <? TTL m then TTL m - 1 else TTL m.
Proof. unfold DecrementTTL. by destruct (0 <? TTL m). Qed.

Lemma DecrementTTL_fields m :
  ID (DecrementTTL m) = ID m /\ MType (DecrementTTL m) = MType m /\
  Sender (DecrementTTL m) = Sender m /\ Recipient (DecrementTTL m) = Recipient m /\
  Payload (DecrementTTL m) = Payload m /\ CopiesMade (DecrementTTL m) = CopiesMade m /\
  Nonce (DecrementTTL m) = Nonce m /\
  HopCount (DecrementTTL m) = wrap64 (HopCount m + 1).
Proof. unfold DecrementTTL. by destruct (0 <? TTL m). Qed.

Section Wire.
Context `{JL : JSONLaw Message}.

Lemma deserialize_serialize m :
  json_valid m -> ID m <> EmptyString ->
  exists b, Serialize m = Some b /\ DeserializeMessage b = Ret m.
Proof.
  intros Hv Hid. destruct (json_roundtrip m Hv) as (b & Hb & Hu).
  exists b. split; [done |]. unfold DeserializeMessage. rewrite Hu.
  by rewrite bool_decide_eq_false_2.
Qed.

Lemma DeserializeMessage_ID b m : DeserializeMessage b = Ret m -> ID m <> EmptyString.
Proof.
  unfold DeserializeMessage. destruct (json_unmarshal b); [|done].
  case_bool_decide; [done |]. by intros [= <-].
Qed.
End Wire.
