(* ===== verification/MessageJson.v ===== *)
(** * The JSON forms of the message package (struct tags of pkg/message/message.go)

    Each struct with its fields in order, their names and [omitempty], and what makes
    a value of it survive the wire: strings that are UTF-8, integers in range, floats
    that print.  The instances are [encoding/json] for these types. *)

From S2P Require Import Prelude Utf8 Float64 Json JsonText FloatText GoJson Message.

(** [message.Message] *)
Definition Message_fields : list (field Message) := [
  mkField string_value "id" false ID
    (fun y '(mkMessage _ x1 x2 x3 x4 x5 x6 x7 x8 x9 x10 x11 x12) => mkMessage y x1 x2 x3 x4 x5 x6 x7 x8 x9 x10 x11 x12);
  mkField string_value "type" false MType
    (fun y '(mkMessage x0 _ x2 x3 x4 x5 x6 x7 x8 x9 x10 x11 x12) => mkMessage x0 y x2 x3 x4 x5 x6 x7 x8 x9 x10 x11 x12);
  mkField string_value "sender" false Sender
    (fun y '(mkMessage x0 x1 _ x3 x4 x5 x6 x7 x8 x9 x10 x11 x12) => mkMessage x0 x1 y x3 x4 x5 x6 x7 x8 x9 x10 x11 x12);
  mkField string_value "sender_nick" true SenderNick
    (fun y '(mkMessage x0 x1 x2 _ x4 x5 x6 x7 x8 x9 x10 x11 x12) => mkMessage x0 x1 x2 y x4 x5 x6 x7 x8 x9 x10 x11 x12);
  mkField string_value "recipient" true Recipient
    (fun y '(mkMessage x0 x1 x2 x3 _ x5 x6 x7 x8 x9 x10 x11 x12) => mkMessage x0 x1 x2 x3 y x5 x6 x7 x8 x9 x10 x11 x12);
  mkField string_value "payload" false Payload
    (fun y '(mkMessage x0 x1 x2 x3 x4 _ x6 x7 x8 x9 x10 x11 x12) => mkMessage x0 x1 x2 x3 x4 y x6 x7 x8 x9 x10 x11 x12);
  mkField int_value "ts" false Timestamp
    (fun y '(mkMessage x0 x1 x2 x3 x4 x5 _ x7 x8 x9 x10 x11 x12) => mkMessage x0 x1 x2 x3 x4 x5 y x7 x8 x9 x10 x11 x12);
  mkField int_value "ttl" false TTL
    (fun y '(mkMessage x0 x1 x2 x3 x4 x5 x6 _ x8 x9 x10 x11 x12) => mkMessage x0 x1 x2 x3 x4 x5 x6 y x8 x9 x10 x11 x12);
  mkField int_value "hops" false HopCount
    (fun y '(mkMessage x0 x1 x2 x3 x4 x5 x6 x7 _ x9 x10 x11 x12) => mkMessage x0 x1 x2 x3 x4 x5 x6 x7 y x9 x10 x11 x12);
  mkField int_value "spray_budget" true SprayBudget
    (fun y '(mkMessage x0 x1 x2 x3 x4 x5 x6 x7 x8 _ x10 x11 x12) => mkMessage x0 x1 x2 x3 x4 x5 x6 x7 x8 y x10 x11 x12);
  mkField int_value "copies_made" true CopiesMade
    (fun y '(mkMessage x0 x1 x2 x3 x4 x5 x6 x7 x8 x9 _ x11 x12) => mkMessage x0 x1 x2 x3 x4 x5 x6 x7 x8 x9 y x11 x12);
  mkField string_value "nonce" true Nonce
    (fun y '(mkMessage x0 x1 x2 x3 x4 x5 x6 x7 x8 x9 x10 _ x12) => mkMessage x0 x1 x2 x3 x4 x5 x6 x7 x8 x9 x10 y x12);
  mkField string_value "key_id" true KeyID
    (fun y '(mkMessage x0 x1 x2 x3 x4 x5 x6 x7 x8 x9 x10 x11 _) => mkMessage x0 x1 x2 x3 x4 x5 x6 x7 x8 x9 x10 x11 y)
].
Definition Message_value : GoValue Message := struct_value zeroMessage Message_fields.

(** [message.DeliveryInfo] *)
Definition DeliveryInfo_fields : list (field DeliveryInfo) := [
  mkField string_value "msg_id" false di_MessageID
    (fun y '(mkDeliveryInfo _ x1 x2 x3 x4 x5 x6) => mkDeliveryInfo y x1 x2 x3 x4 x5 x6);
  mkField string_value "status" false di_Status
    (fun y '(mkDeliveryInfo x0 _ x2 x3 x4 x5 x6) => mkDeliveryInfo x0 y x2 x3 x4 x5 x6);
  mkField string_value "recipient_peer" false di_RecipientPeer
    (fun y '(mkDeliveryInfo x0 x1 _ x3 x4 x5 x6) => mkDeliveryInfo x0 x1 y x3 x4 x5 x6);
  mkField string_value "original_sender" false di_OriginalSender
    (fun y '(mkDeliveryInfo x0 x1 x2 _ x4 x5 x6) => mkDeliveryInfo x0 x1 x2 y x4 x5 x6);
  mkField int_value "ts" false di_Timestamp
    (fun y '(mkDeliveryInfo x0 x1 x2 x3 _ x5 x6) => mkDeliveryInfo x0 x1 x2 x3 y x5 x6);
  mkField int_value "hops" false di_HopCount
    (fun y '(mkDeliveryInfo x0 x1 x2 x3 x4 _ x6) => mkDeliveryInfo x0 x1 x2 x3 x4 y x6);
  mkField string_value "error" true di_Error
    (fun y '(mkDeliveryInfo x0 x1 x2 x3 x4 x5 _) => mkDeliveryInfo x0 x1 x2 x3 x4 x5 y)
].
Definition DeliveryInfo_value : GoValue DeliveryInfo := struct_value 
    (mkDeliveryInfo EmptyString EmptyString EmptyString EmptyString 0 0 EmptyString) DeliveryInfo_fields.

(** [message.SOSPayload] *)
Definition SOSPayload_fields : list (field SOSPayload) := [
  mkField string_value "urgency" false sos_Urgency
    (fun y '(mkSOSPayload _ x1 x2 x3 x4 x5 x6 x7) => mkSOSPayload y x1 x2 x3 x4 x5 x6 x7);
  mkField string_value "message" false sos_Message
    (fun y '(mkSOSPayload x0 _ x2 x3 x4 x5 x6 x7) => mkSOSPayload x0 y x2 x3 x4 x5 x6 x7);
  mkField float_value "lat" true sos_Latitude
    (fun y '(mkSOSPayload x0 x1 _ x3 x4 x5 x6 x7) => mkSOSPayload x0 x1 y x3 x4 x5 x6 x7);
  mkField float_value "lon" true sos_Longitude
    (fun y '(mkSOSPayload x0 x1 x2 _ x4 x5 x6 x7) => mkSOSPayload x0 x1 x2 y x4 x5 x6 x7);
  mkField float_value "accuracy" true sos_Accuracy
    (fun y '(mkSOSPayload x0 x1 x2 x3 _ x5 x6 x7) => mkSOSPayload x0 x1 x2 x3 y x5 x6 x7);
  mkField int_value "ts" false sos_Timestamp
    (fun y '(mkSOSPayload x0 x1 x2 x3 x4 _ x6 x7) => mkSOSPayload x0 x1 x2 x3 x4 y x6 x7);
  mkField int_value "expire_minutes" false sos_AutoExpire
    (fun y '(mkSOSPayload x0 x1 x2 x3 x4 x5 _ x7) => mkSOSPayload x0 x1 x2 x3 x4 x5 y x7);
  mkField bool_value "ack_required" false sos_AckRequired
    (fun y '(mkSOSPayload x0 x1 x2 x3 x4 x5 x6 _) => mkSOSPayload x0 x1 x2 x3 x4 x5 x6 y)
].
Definition SOSPayload_value : GoValue SOSPayload := struct_value 
    (mkSOSPayload EmptyString EmptyString F64.zero F64.zero F64.zero 0 0 false) SOSPayload_fields.

(** [message.FileMessagePayload] *)
Definition FileMessagePayload_fields : list (field FileMessagePayload) := [
  mkField string_value "file_id" false fm_FileID
    (fun y '(mkFileMessagePayload _ x1 x2 x3 x4 x5 x6 x7 x8 x9) => mkFileMessagePayload y x1 x2 x3 x4 x5 x6 x7 x8 x9);
  mkField string_value "filename" false fm_FileName
    (fun y '(mkFileMessagePayload x0 _ x2 x3 x4 x5 x6 x7 x8 x9) => mkFileMessagePayload x0 y x2 x3 x4 x5 x6 x7 x8 x9);
  mkField int_value "file_size" false fm_FileSize
    (fun y '(mkFileMessagePayload x0 x1 _ x3 x4 x5 x6 x7 x8 x9) => mkFileMessagePayload x0 x1 y x3 x4 x5 x6 x7 x8 x9);
  mkField string_value "mime_type" false fm_MimeType
    (fun y '(mkFileMessagePayload x0 x1 x2 _ x4 x5 x6 x7 x8 x9) => mkFileMessagePayload x0 x1 x2 y x4 x5 x6 x7 x8 x9);
  mkField int_value "chunk_count" false fm_ChunkCount
    (fun y '(mkFileMessagePayload x0 x1 x2 x3 _ x5 x6 x7 x8 x9) => mkFileMessagePayload x0 x1 x2 x3 y x5 x6 x7 x8 x9);
  mkField int_value "chunk_idx" true fm_ChunkIdx
    (fun y '(mkFileMessagePayload x0 x1 x2 x3 x4 _ x6 x7 x8 x9) => mkFileMessagePayload x0 x1 x2 x3 x4 y x6 x7 x8 x9);
  mkField int_value "chunk_size" true fm_ChunkSize
    (fun y '(mkFileMessagePayload x0 x1 x2 x3 x4 x5 _ x7 x8 x9) => mkFileMessagePayload x0 x1 x2 x3 x4 x5 y x7 x8 x9);
  mkField string_value "status" true fm_Status
    (fun y '(mkFileMessagePayload x0 x1 x2 x3 x4 x5 x6 _ x8 x9) => mkFileMessagePayload x0 x1 x2 x3 x4 x5 x6 y x8 x9);
  mkField float_value "progress" true fm_Progress
    (fun y '(mkFileMessagePayload x0 x1 x2 x3 x4 x5 x6 x7 _ x9) => mkFileMessagePayload x0 x1 x2 x3 x4 x5 x6 x7 y x9);
  mkField string_value "output_path" true fm_OutputPath
    (fun y '(mkFileMessagePayload x0 x1 x2 x3 x4 x5 x6 x7 x8 _) => mkFileMessagePayload x0 x1 x2 x3 x4 x5 x6 x7 x8 y)
].
Definition FileMessagePayload_value : GoValue FileMessagePayload := struct_value 
    (mkFileMessagePayload EmptyString EmptyString 0 EmptyString 0 0 0 EmptyString F64.zero EmptyString) FileMessagePayload_fields.

(** [message.KeyExchangePayload] *)
Definition KeyExchangePayload_fields : list (field KeyExchangePayload) := [
  mkField string_value "public_key" false kx_PublicKeyHex
    (fun y '(mkKeyExchangePayload _ x1 x2) => mkKeyExchangePayload y x1 x2);
  mkField string_value "nickname" false kx_Nickname
    (fun y '(mkKeyExchangePayload x0 _ x2) => mkKeyExchangePayload x0 y x2);
  mkField int_value "ts" false kx_Timestamp
    (fun y '(mkKeyExchangePayload x0 x1 _) => mkKeyExchangePayload x0 x1 y)
].
Definition KeyExchangePayload_value : GoValue KeyExchangePayload := struct_value (mkKeyExchangePayload EmptyString EmptyString 0) KeyExchangePayload_fields.

#[export] Instance Message_json : JSON Message := go_json compact Message_value.
#[export] Instance DeliveryInfo_json : JSON DeliveryInfo := go_json compact DeliveryInfo_value.
#[export] Instance SOSPayload_json : JSON SOSPayload := go_json compact SOSPayload_value.
#[export] Instance FileMessagePayload_json : JSON FileMessagePayload :=
  go_json compact FileMessagePayload_value.
#[export] Instance KeyExchangePayload_json : JSON KeyExchangePayload :=
  go_json compact KeyExchangePayload_value.

(** ** What survives *)

Definition Message_ok (m : Message) : Prop :=
  utf8 (ID m) /\ utf8 (MType m) /\ utf8 (Sender m) /\ utf8 (SenderNick m) /\
  utf8 (Recipient m) /\ utf8 (Payload m) /\ is_int64 (Timestamp m) /\ is_int64 (TTL m) /\
  is_int64 (HopCount m) /\ is_int64 (SprayBudget m) /\ is_int64 (CopiesMade m) /\
  utf8 (Nonce m) /\ utf8 (KeyID m).

Definition DeliveryInfo_ok (d : DeliveryInfo) : Prop :=
  utf8 (di_MessageID d) /\ utf8 (di_Status d) /\ utf8 (di_RecipientPeer d) /\
  utf8 (di_OriginalSender d) /\ is_int64 (di_Timestamp d) /\ is_int64 (di_HopCount d) /\
  utf8 (di_Error d).

Definition SOSPayload_ok (p : SOSPayload) : Prop :=
  utf8 (sos_Urgency p) /\ utf8 (sos_Message p) /\ printable (sos_Latitude p) = true /\
  printable (sos_Longitude p) = true /\ printable (sos_Accuracy p) = true /\
  is_int64 (sos_Timestamp p) /\ is_int64 (sos_AutoExpire p).

Definition KeyExchangePayload_ok (k : KeyExchangePayload) : Prop :=
  utf8 (kx_PublicKeyHex k) /\ utf8 (kx_Nickname k) /\ is_int64 (kx_Timestamp k).

Definition FileMessagePayload_ok (f : FileMessagePayload) : Prop :=
  utf8 (fm_FileID f) /\ utf8 (fm_FileName f) /\ is_int64 (fm_FileSize f) /\ utf8 (fm_MimeType f) /\
  is_int64 (fm_ChunkCount f) /\ is_int64 (fm_ChunkIdx f) /\ is_int64 (fm_ChunkSize f) /\
  utf8 (fm_Status f) /\ printable (fm_Progress f) = true /\ utf8 (fm_OutputPath f).

(** Reads a struct back field by field: [H] has what its fields need. *)
Ltac struct_law H :=
  apply struct_roundtrip;
    [vm_compute; reflexivity | by apply (bool_decide_unpack _); vm_compute | | lia];
  match type of H with ?ok ?a => unfold ok in H; destruct a end; cbn in H; destruct_and? H;
  repeat (eapply fields_cons;
    [eapply mkField_step;
      [first [assumption | exact I] | cbn; lia | reflexivity | reflexivity
      | first [left; reflexivity
              | right; first [apply bool_decide_eq_true_1 | apply Z.eqb_eq | apply pointer_empty]]]
    |]);
  apply fields_nil.

#[export] Instance Message_law : GoValueLaw Message_value.
Proof.
  refine {| gv_ok := Message_ok; gv_depth := 1 + 0 |}; [| lia]. intros m Hm. struct_law Hm.
Defined.

#[export] Instance DeliveryInfo_law : GoValueLaw DeliveryInfo_value.
Proof.
  refine {| gv_ok := DeliveryInfo_ok; gv_depth := 1 + 0 |}; [| lia]. intros d Ha. struct_law Ha.
Defined.

#[export] Instance SOSPayload_law : GoValueLaw SOSPayload_value.
Proof.
  refine {| gv_ok := SOSPayload_ok; gv_depth := 1 + 0 |}; [| lia]. intros p Ha. struct_law Ha.
Defined.

#[export] Instance FileMessagePayload_law : GoValueLaw FileMessagePayload_value.
Proof.
  refine {| gv_ok := FileMessagePayload_ok; gv_depth := 1 + 0 |}; [| lia]. intros f Ha. struct_law Ha.
Defined.

#[export] Instance KeyExchangePayload_law : GoValueLaw KeyExchangePayload_value.
Proof.
  refine {| gv_ok := KeyExchangePayload_ok; gv_depth := 1 + 0 |}; [| lia]. intros k Ha. struct_law Ha.
Defined.

(** ** The interface of [Json] *)

#[export] Instance Message_json_law : JSONLaw Message :=
  go_json_law compact Message_value compact_ok Message_law eq_refl.
#[export] Instance DeliveryInfo_json_law : JSONLaw DeliveryInfo :=
  go_json_law compact DeliveryInfo_value compact_ok DeliveryInfo_law eq_refl.
#[export] Instance SOSPayload_json_law : JSONLaw SOSPayload :=
  go_json_law compact SOSPayload_value compact_ok SOSPayload_law eq_refl.
#[export] Instance FileMessagePayload_json_law : JSONLaw FileMessagePayload :=
  go_json_law compact FileMessagePayload_value compact_ok FileMessagePayload_law eq_refl.
#[export] Instance KeyExchangePayload_json_law : JSONLaw KeyExchangePayload :=
  go_json_law compact KeyExchangePayload_value compact_ok KeyExchangePayload_law eq_refl.

(** A message always encodes: it holds texts, integers and nothing else. *)
Lemma Serialize_some (m : Message) : is_Some (Serialize m).
Proof.
  assert (is_Some (enc_fields Message_fields m)) as [kvs Hk].
  { apply enc_fields_encodes. repeat constructor; apply mkField_encodes; intros a; simpl; eauto. }
  change (is_Some (print compact 0 <$> (JObj <$> enc_fields Message_fields m))). rewrite Hk. eauto.
Qed.

(** ** Properties *)

(** C13: a message sent over a stream or published on the topic is the message the
    receiver decodes, in every field: for messages whose texts are UTF-8 and whose
    identifier is not empty, the JSON text of [Serialize] goes through
    [DeserializeMessage] unchanged.  Without an identifier it is rejected. *)
Theorem message_wire_roundtrip m :
  Message_ok m ->
  exists b, Serialize m = Some b /\
    DeserializeMessage b = if bool_decide (ID m = EmptyString) then Fail MissingID else Ret m.
Proof.
  intros Hm. destruct (@json_roundtrip _ _ Message_json_law m Hm) as (b & Hb & Hu).
  exists b. split; [exact Hb |]. unfold DeserializeMessage. by rewrite Hu.
Qed.

Lemma message_wire_roundtrip_witness :
  exists b, Serialize (NewChat (str_bytes "id") 7 "A" "ann" "B" "hello") = Some b /\
    DeserializeMessage b = Ret (NewChat (str_bytes "id") 7 "A" "ann" "B" "hello").
Proof.
  apply (message_wire_roundtrip (NewChat (str_bytes "id") 7 "A" "ann" "B" "hello")).
  split_and!; (reflexivity || (simpl; int_lia)).
Defined.
