(* ===== verification/Heap.v ===== *)
(** * Shared messages

    The program passes messages around as [*message.Message]: the store, the mesh
    callback and the relaying goroutine hold the same object, and several of them
    write to it.  The heap keeps the objects ever allocated; a pointer is an index
    into it, or [nil]. *)

From S2P Require Import Prelude Message.

Abbreviation heap := (list Message).
Abbreviation loc := nat.
Abbreviation ptr := (option nat).

Definition alloc (m : Message) (h : heap) : loc * heap := (length h, h ++ [m]).

(** Following a pointer: [nil] (or a pointer to nowhere) panics. *)
Definition deref (h : heap) (p : ptr) : option Message := p ≫= fun l => h !! l.

(** [f] applied in place to the object at [l]. *)
Definition modify (f : Message -> Message) (l : loc) (h : heap) : heap := alter f l h.

(** The values behind a slice of pointers, as [json.Marshal] reads them. *)
Definition deref_all (h : heap) (ps : list ptr) : list (option Message) := deref h <$> ps.

(** The objects [json.Unmarshal] creates for a slice of pointers. *)
Fixpoint alloc_all (ms : list (option Message)) (h : heap) : list ptr * heap :=
  match ms with
  | [] => ([], h)
  | None :: ms => let '(ps, h) := alloc_all ms h in (None :: ps, h)
  | Some m :: ms =>
      let '(l, h) := alloc m h in
      let '(ps, h) := alloc_all ms h in (Some l :: ps, h)
  end.

(** ** Lemmas *)

Lemma alloc_lookup m h l h' : alloc m h = (l, h') -> h' !! l = Some m.
Proof. intros [= <- <-]. by rewrite list_lookup_middle. Qed.

Lemma alloc_old m h l h' k :
  alloc m h = (l, h') -> (k < length h)%nat -> h' !! k = h !! k.
Proof. intros [= <- <-] Hk. by rewrite lookup_app_l. Qed.

Lemma alloc_all_spec ms h ps h' :
  alloc_all ms h = (ps, h') -> h `prefix_of` h' /\ deref_all h' ps = ms.
Proof.
  revert h ps h'. induction ms as [|[m|] ms IH]; intros h ps h'; simpl.
  - by intros [= <- <-].
  - destruct (alloc_all ms (h ++ [m])) as [ps1 h1] eqn:E. intros [= <- <-].
    destruct (IH _ _ _ E) as [[k ->] Hd]. split.
    + exists (m :: k). by rewrite <- app_assoc.
    + simpl. rewrite Hd. f_equal. rewrite <- app_assoc. simpl. by rewrite list_lookup_middle.
  - destruct (alloc_all ms h) as [ps1 h1] eqn:E. intros [= <- <-].
    destruct (IH _ _ _ E) as [Hp Hd]. by rewrite <- Hd.
Qed.

Lemma deref_prefix h h' p m : h `prefix_of` h' -> deref h p = Some m -> deref h' p = Some m.
Proof. intros Hp. destruct p as [l|]; simpl; [| done]. intros Hl. by eapply prefix_lookup_Some. Qed.

Lemma mapM_deref h l (ms : list Message) :
  mapM (deref h) l = Some ms -> deref_all h l = Some <$> ms.
Proof.
  unfold deref_all. revert ms. induction l as [|p l IH]; intros ms; simpl; [by intros [= <-] |].
  destruct (deref h p) as [m|]; [| done]. simpl.
  destruct (mapM (deref h) l) as [ms'|]; [| done]. intros [= <-]. simpl. f_equal. by apply IH.
Qed.
