(* ===== verification/Codec.v ===== *)
(** * The binary wire codec (pkg/codec/codec.go)

    [Marshal] and [Unmarshal] with their helpers, byte for byte, including every
    slice and index expression of the decoder, whose bounds the Go run time
    checks.  The fields of a frame follow each other as: flags, long-form type,
    id, sender, nick, recipient, payload, timestamp, TTL, hops, nonce, key id. *)

From S2P Require Import Prelude Float64 JsonText Message.

(** ** Errors *)

Inductive CodecError :=
| DataTooShort
| UnexpectedEOF                                  (* io.ErrUnexpectedEOF *)
| FieldError (field : string) (e : CodecError)   (* fmt.Errorf("codec: f: %w", err) *)
| UnknownTypeCode (c : Z)
| MissingMessageID
| InvalidTimestamp.

(** ** Type short-codes and flags *)

Definition typeShortChat : Z := 0.
Definition typeShortFile : Z := 1.
Definition typeShortSOS : Z := 2.
Definition typeShortDeliveryAck : Z := 3.
Definition typeShortPeerInfo : Z := 4.
Definition typeShortKeyExchange : Z := 5.
Definition typeShortLongForm : Z := 15.

Definition typeToShort : gmap string Z := list_to_map
  [(TypeChat, typeShortChat); (TypeFile, typeShortFile); (TypeSOS, typeShortSOS);
   (TypeDeliveryAck, typeShortDeliveryAck); (TypePeerInfo, typeShortPeerInfo);
   (TypeKeyExchange, typeShortKeyExchange)].

Definition shortToType : gmap Z string := list_to_map
  [(typeShortChat, TypeChat); (typeShortFile, TypeFile); (typeShortSOS, TypeSOS);
   (typeShortDeliveryAck, TypeDeliveryAck); (typeShortPeerInfo, TypePeerInfo);
   (typeShortKeyExchange, TypeKeyExchange)].

Definition maxShortLen : Z := 15.

Definition flagHasNick : Z := 1.
Definition flagHasRecipient : Z := 2.
Definition flagHasNonce : Z := 4.
Definition flagHasKeyID : Z := 8.

(** ** Varint helpers *)

Definition MaxVarintLen64 : nat := 10.

(** [binary.PutUvarint] into a buffer with [room] bytes left: writing past the
    end panics. *)
Fixpoint PutUvarint (room : nat) (x : Z) : outcome CodecError bytes :=
  match room with
  | O => Panic
  | S room =>
      if 128 <=? x then
        rest ← PutUvarint room (Z.shiftr x 7);
        Ret (z2b (Z.lor (x mod 256) 128) :: rest)
      else Ret [z2b x]
  end.

Definition putUvarint (v : Z) : outcome CodecError bytes := PutUvarint MaxVarintLen64 v.

(** [binary.Uvarint]: the value and the number of bytes read; zero bytes for a
    buffer that ends early, a negative count for an overflow. *)
Fixpoint Uvarint_loop (buf : bytes) (i x s : Z) : Z * Z :=
  match buf with
  | [] => (0, 0)
  | b :: buf =>
      if i =? 10 then (0, - (i + 1))
      else if b2z b <? 128 then
        if (i =? 9) && (1 <? b2z b) then (0, - (i + 1))
        else (Z.lor x (uint64 (Z.shiftl (b2z b) s)), i + 1)
      else Uvarint_loop buf (i + 1)
             (Z.lor x (uint64 (Z.shiftl (Z.land (b2z b) 127) s))) (s + 7)
  end.
Definition Uvarint (buf : bytes) : Z * Z := Uvarint_loop buf 0 0 0.

Definition zigzag (v : Z) : Z := uint64 (Z.lxor (wrap64 (Z.shiftl v 1)) (Z.shiftr v 63)).
Definition unzigzag (v : Z) : Z :=
  wrap64 (Z.lxor (Z.shiftr v 1) (uint64 (- Z.land v 1))).

(** ** String helpers *)

Definition putString (s : string) : bytes :=
  if decide (s = EmptyString) then []
  else
    let b := str_bytes s in
    if blen b <=? 255 then z2b (blen b) :: b
    else
      let n := blen b mod 65536 in
      z2b 255 :: z2b (Z.shiftr n 8) :: z2b n :: b.

Definition getString (data : bytes) : outcome CodecError (string * Z) :=
  if blen data =? 0 then Ret (EmptyString, 0)
  else
    b0 ← index data 0;
    if b2z b0 =? 255 then
      if blen data <? 3 then Fail UnexpectedEOF
      else
        hi ← index data 1;
        lo ← index data 2;
        let n := Z.lor (b2z lo) (Z.shiftl (b2z hi) 8) in
        if blen data <? 3 + n then Fail UnexpectedEOF
        else
          s ← slice data 3 (3 + n);
          Ret (bytes_str s, 3 + n)
    else
      let n := b2z b0 in
      if n =? 0 then Ret (EmptyString, 1)
      else if blen data <? 1 + n then Fail UnexpectedEOF
      else
        s ← slice data 1 (1 + n);
        Ret (bytes_str s, 1 + n).

(** ** Marshal *)

Definition nonempty (s : string) : bool := negb (bool_decide (s = EmptyString)).

(** The flags byte: presence bits, then the type code in the upper nibble. *)
Definition marshalFlags (m : Message) : Z :=
  let flags := 0 in
  let flags := if nonempty (SenderNick m) then Z.lor flags flagHasNick else flags in
  let flags := if nonempty (Recipient m) then Z.lor flags flagHasRecipient else flags in
  let flags := if nonempty (Nonce m) then Z.lor flags flagHasNonce else flags in
  let flags := if nonempty (KeyID m) then Z.lor flags flagHasKeyID else flags in
  let typeCode := default 0 (typeToShort !! MType m) in
  let short := bool_decide (is_Some (typeToShort !! MType m)) in
  if short && (slen (MType m) <=? maxShortLen)
  then Z.lor (Z.shiftl typeCode 4 mod 256) (Z.land flags 15)
  else Z.lor (Z.shiftl typeShortLongForm 4) (Z.land flags 15).

Definition Marshal (m : Message) : outcome CodecError bytes :=
  let buf := [z2b (marshalFlags m)] in
  let buf := match typeToShort !! MType m with
             | None => buf ++ putString (MType m)
             | Some _ => buf
             end in
  let buf := buf ++ putString (ID m) in
  let buf := buf ++ putString (Sender m) in
  let buf := if nonempty (SenderNick m) then buf ++ putString (SenderNick m) else buf in
  let buf := if nonempty (Recipient m) then buf ++ putString (Recipient m) else buf in
  let buf := if nonempty (Payload m) then buf ++ putString (Payload m) else buf in
  ts ← putUvarint (zigzag (Timestamp m));
  let buf := buf ++ ts in
  let ttl := if 255 <? TTL m then 255 else TTL m in
  let hops := if 255 <? HopCount m then 255 else HopCount m in
  let buf := buf ++ [z2b ttl; z2b hops] in
  let buf := if nonempty (Nonce m) then buf ++ putString (Nonce m) else buf in
  let buf := if nonempty (KeyID m) then buf ++ putString (KeyID m) else buf in
  Ret buf.

(** ** Unmarshal *)

(** [s, n, err = getString(data[off:])], the error wrapped with the field's name,
    then [off += n]. *)
Definition readField (name : string) (data : bytes) (off : Z)
    : outcome CodecError (string * Z) :=
  d ← slice_from data off;
  '(s, n) ← wrap_err (FieldError name) (getString d);
  Ret (s, off + n).

Definition readOptional (present : bool) (name : string) (data : bytes) (off : Z)
    : outcome CodecError (string * Z) :=
  if present then readField name data off else Ret (EmptyString, off).

Definition readType (typeCode : Z) (data : bytes) (off : Z)
    : outcome CodecError (string * Z) :=
  if typeCode =? typeShortLongForm then readField "type" data off
  else match shortToType !! typeCode with
       | None => Fail (UnknownTypeCode typeCode)
       | Some t => Ret (t, off)
       end.

Definition Unmarshal (data : bytes) : outcome CodecError Message :=
  if blen data <? 2 then Fail DataTooShort
  else
    flags ← index data 0;
    let off := 1 in
    let typeCode := Z.land (Z.shiftr (b2z flags) 4) 15 in
    let boolFlags := Z.land (b2z flags) 15 in
    let has fl := negb (Z.land boolFlags fl =? 0) in
    '(mtype, off) ← readType typeCode data off;
    '(id, off) ← readField "id" data off;
    if decide (id = EmptyString) then Fail MissingMessageID
    else
      '(sender, off) ← readField "sender" data off;
      '(nick, off) ← readOptional (has flagHasNick) "sender_nick" data off;
      '(recipient, off) ← readOptional (has flagHasRecipient) "recipient" data off;
      '(payload, off) ← readField "payload" data off;
      d ← slice_from data off;
      let '(ts, n) := Uvarint d in
      if n <=? 0 then Fail InvalidTimestamp
      else
        let off := off + n in
        if blen data <? off + 2 then Fail UnexpectedEOF
        else
          ttl ← index data off;
          hops ← index data (off + 1);
          let off := off + 2 in
          '(nonce, off) ← readOptional (has flagHasNonce) "nonce" data off;
          '(keyid, _) ← readOptional (has flagHasKeyID) "key_id" data off;
          Ret (mkMessage id mtype sender nick recipient payload (unzigzag ts)
                 (b2z ttl) (b2z hops) 0 0 nonce keyid).

(** ** Payload helpers, sizes and debugging names *)

Definition MarshalChatPayload (text : string) : bytes := str_bytes text.
Definition UnmarshalChatPayload (data : bytes) : string := bytes_str data.

Definition Size (m : Message) : outcome CodecError Z :=
  match Marshal m with
  | Ret b => Ret (blen b)
  | Fail _ => Ret 0
  | Panic => Panic
  end.

Definition IsBinaryFormat (data : bytes) : bool :=
  match data with
  | [] => false
  | c :: _ => negb (bool_decide (c = "{"%char))
  end.

Definition ShortTypeName (data : bytes) : string :=
  match data with
  | [] => "?"
  | c :: _ =>
      let typeCode := Z.land (Z.shiftr (b2z c) 4) 15 in
      if typeCode =? typeShortChat then "chat"
      else if typeCode =? typeShortFile then "file"
      else if typeCode =? typeShortSOS then "sos"
      else if typeCode =? typeShortDeliveryAck then "ack"
      else if typeCode =? typeShortPeerInfo then "peer"
      else if typeCode =? typeShortKeyExchange then "keyx"
      else if typeCode =? typeShortLongForm then "long"
      else "?"
  end.

(** [fmt]'s [%d] and the concatenations of [Sprintf]. *)
Definition decimal (n : Z) : string := bytes_str (format_int n).

Definition Dump (data : bytes) : string :=
  match data with
  | [] => "<empty>"
  | _ =>
      if IsBinaryFormat data
      then "[binary: " +:+ ShortTypeName data +:+ ", " +:+ decimal (blen data) +:+ " bytes]"
      else "[json: " +:+ decimal (blen data) +:+ " bytes]"
  end.

Definition SizeRatio (m : Message) : outcome CodecError F64.f64 :=
  let jsonSize := slen (ID m) + slen (Sender m) + slen (SenderNick m) + slen (Recipient m) +
    slen (Payload m) + slen (Nonce m) + slen (KeyID m) + 80 in
  binarySize ← Size m;
  if binarySize =? 0 then Ret F64.one
  else Ret (F64.fdiv (F64.of_int jsonSize) (F64.of_int binarySize)).

(** [m.ID[:min(8, len(m.ID))]] is never out of range. *)
Definition Strings (msgs : list Message) : string :=
  let part m := MType m +:+ ":" +:+ bytes_str (take 8 (str_bytes (ID m))) in
  String.concat ", " (part <$> msgs).

(** ** BLE framing *)

Definition mtu : nat := 20.

(** The loop from [i]; one unit of fuel per iteration. *)
Fixpoint split_loop (fuel : nat) (data : bytes) (i : nat) : list bytes :=
  match fuel with
  | O => []
  | S fuel =>
      if decide (i < length data)%nat then
        let stop := (i + mtu)%nat in
        let stop := if decide (length data < stop)%nat then length data else stop in
        take (stop - i) (drop i data) :: split_loop fuel data (i + mtu)
      else []
  end.

Definition MTUFriendlySplit (data : bytes) : list bytes :=
  if decide (length data <= mtu)%nat then [data]
  else split_loop (length data) data 0.

(** ** Vocabulary of the statements below *)

(** The strings one length prefix can carry. *)
Definition codable (s : string) : Prop := slen s <= 65535 /\ slen s <> 255.

#[global] Instance codable_dec s : Decision (codable s).
Proof. unfold codable. apply _. Defined.

Definition typeCodeOf (t : string) : Z := default typeShortLongForm (typeToShort !! t).

Definition longType (m : Message) : bytes :=
  match typeToShort !! MType m with
  | None => putString (MType m)
  | Some _ => []
  end.

Definition clampByte (z : Z) : Z := if 255 <? z then 255 else z.

(** What of a message the frame carries: TTL and hop count saturate at one byte,
    and the routing fields are not encoded. *)
Definition wire_view (m : Message) : Message :=
  mkMessage (ID m) (MType m) (Sender m) (SenderNick m) (Recipient m) (Payload m)
    (Timestamp m) (Z.min 255 (TTL m)) (Z.min 255 (HopCount m)) 0 0 (Nonce m) (KeyID m).

Record wire_ok (m : Message) : Prop := {
  ok_type : MType m <> EmptyString /\ codable (MType m);
  ok_id : ID m <> EmptyString /\ codable (ID m);
  ok_sender : Sender m <> EmptyString /\ codable (Sender m);
  ok_payload : Payload m <> EmptyString /\ codable (Payload m);
  ok_optional : codable (SenderNick m) /\ codable (Recipient m) /\
                codable (Nonce m) /\ codable (KeyID m);
  ok_timestamp : is_int64 (Timestamp m);
  ok_counts : 0 <= TTL m /\ 0 <= HopCount m
}.

(** The message with another payload. *)
Definition with_payload (p : string) (m : Message) : Message :=
  mkMessage (ID m) (MType m) (Sender m) (SenderNick m) (Recipient m) p (Timestamp m) (TTL m)
    (HopCount m) (SprayBudget m) (CopiesMade m) (Nonce m) (KeyID m).

Definition sample_message : Message :=
  mkMessage "a1b2" TypeChat "peer1" "Alice" "peer2" "Hello" (-7) 300 7 4 2 "n0" "k0".

Definition empty_chat : Message :=
  mkMessage "a1b2" TypeChat "peer1" "Alice" "peer2" EmptyString 1700000000000000000 16 0 0 0
    EmptyString EmptyString.

(** ** Varints *)

Lemma land_127 z : Z.land z 127 = z mod 128.
Proof. change 127 with (Z.ones 7). by rewrite Z.land_ones. Qed.

Lemma varint_byte x :
  b2z (z2b (Z.lor (x mod 256) 128)) = x mod 128 + 128.
Proof.
  pose proof (Z.mod_pos_bound x 256 ltac:(lia)).
  assert (Z.lor (x mod 256) 128 = x mod 128 + 128) as ->.
  { replace (x mod 128) with ((x mod 256) mod 128)
      by (apply Z.mod_mod_divide; by exists 2).
    generalize dependent (x mod 256). intros y Hy.
    assert (forall n : nat, (n < 256)%nat ->
      Z.lor (Z.of_nat n) 128 = Z.of_nat n mod 128 + 128) as A.
    { intros n Hn. apply Z.eqb_eq.
      assert (forallb (fun n => Z.lor (Z.of_nat n) 128 =? Z.of_nat n mod 128 + 128)
                (seq 0 256) = true) as F by (vm_compute; reflexivity).
      rewrite forallb_forall in F. apply F, in_seq. lia. }
    specialize (A (Z.to_nat y) ltac:(lia)). by rewrite Z2Nat.id in A by lia. }
  apply b2z_z2b_small. pose proof (Z.mod_pos_bound x 128 ltac:(lia)). lia.
Qed.

Lemma Uvarint_loop_PutUvarint room y i x rest :
  0 <= i -> Z.of_nat room = 10 - i -> 0 <= x < 2 ^ (7 * i) ->
  0 <= y < 2 ^ (64 - 7 * i) ->
  exists b, PutUvarint room y = Ret b /\ b <> [] /\ blen b <= 10 - i /\
    Uvarint_loop (b ++ rest) i x (7 * i) = (x + y * 2 ^ (7 * i), i + blen b).
Proof.
  revert y i x. induction room as [|room IH]; intros y i x Hi Hroom Hx Hy.
  { assert (i = 10) by lia. subst i. change (2 ^ (64 - 7 * 10)) with 0 in Hy. lia. }
  pose proof (Z.pow_pos_nonneg 2 (7 * i) ltac:(lia) ltac:(lia)) as Hp.
  assert (Hi9 : i <= 9) by lia.
  assert (H64 : 2 ^ (64 - 7 * i) * 2 ^ (7 * i) = two64).
  { rewrite <- Z.pow_add_r by lia. by replace (64 - 7 * i + 7 * i) with 64 by lia. }
  assert (Hfit : forall z, 0 <= z <= y -> uint64 (Z.shiftl z (7 * i)) = z * 2 ^ (7 * i)).
  { intros z Hz. rewrite Z.shiftl_mul_pow2 by lia. apply uint64_id. unfold is_uint64. nia. }
  cbn [PutUvarint]. destruct (Z.leb_spec 128 y) as [Hbig|Hsmall].
  - assert (i <= 8).
    { destruct (decide (i = 9)) as [->|]; [|lia].
      change (2 ^ (64 - 7 * 9)) with 2 in Hy. lia. }
    pose proof (Z.mod_pos_bound y 128 ltac:(lia)) as Hm.
    pose proof (Z.div_mod y 128 ltac:(lia)) as Hdm.
    assert (Hmy : 0 <= y mod 128 <= y) by (split; [lia | apply Z.mod_le; lia]).
    rewrite Z.shiftr_div_pow2 by lia. change (2 ^ 7) with 128.
    assert (2 ^ (7 * (i + 1)) = 128 * 2 ^ (7 * i)) as E7.
    { replace (7 * (i + 1)) with (7 + 7 * i) by lia. by rewrite Z.pow_add_r by lia. }
    destruct (IH (y / 128) (i + 1) (x + y mod 128 * 2 ^ (7 * i)))
      as (b & -> & Hne & Hlen & Hloop); [lia | lia | rewrite E7; nia | | ].
    { split; [apply Z.div_pos; lia |]. apply Z.div_lt_upper_bound; [lia |].
      change 128 with (2 ^ 7). rewrite <- Z.pow_add_r by lia.
      replace (7 + (64 - 7 * (i + 1))) with (64 - 7 * i) by lia. lia. }
    eexists. split; [reflexivity |]. split; [done |].
    split; [rewrite blen_cons; lia |].
    cbn [app Uvarint_loop]. rewrite varint_byte.
    rewrite (proj2 (Z.eqb_neq _ _)) by lia.
    rewrite (proj2 (Z.ltb_ge _ _)) by lia.
    rewrite land_127. replace (y mod 128 + 128) with (y mod 128 + 1 * 128) by lia.
    rewrite Z.mod_add, Z.mod_mod by lia.
    rewrite Hfit, <- Z.shiftl_mul_pow2, lor_shiftl_add by (done || lia).
    replace (7 * i + 7) with (7 * (i + 1)) by lia. rewrite Hloop, E7, blen_cons.
    f_equal; [|lia].
    rewrite Hdm at 3. ring.
  - eexists. split; [reflexivity |]. split; [done |].
    split; [rewrite blen_cons; change (blen []) with 0; lia |].
    cbn [app Uvarint_loop]. rewrite b2z_z2b_small by lia.
    rewrite (proj2 (Z.eqb_neq i 10)) by lia. rewrite (proj2 (Z.ltb_lt y 128)) by done.
    assert ((i =? 9) && (1 <? y) = false) as ->.
    { destruct (Z.eqb_spec i 9) as [->|]; [|done].
      change (2 ^ (64 - 7 * 9)) with 2 in Hy. apply Z.ltb_ge. lia. }
    rewrite Hfit, <- Z.shiftl_mul_pow2, lor_shiftl_add by (done || lia).
    by rewrite blen_cons, Z.shiftl_mul_pow2 by lia.
Qed.

Lemma putUvarint_Uvarint v rest :
  is_uint64 v ->
  exists b, putUvarint v = Ret b /\ 1 <= blen b <= 10 /\
    Uvarint (b ++ rest) = (v, blen b).
Proof.
  intros Hv. destruct (Uvarint_loop_PutUvarint MaxVarintLen64 v 0 0 rest)
    as (b & Hb & Hne & Hlen & Hloop); [done | done | done | exact Hv |].
  exists b. split; [exact Hb |]. split; [destruct b; [done | rewrite blen_cons in *;
    pose proof (blen_nonneg b); lia] |].
  unfold Uvarint. change 0 with (7 * 0) at 3. rewrite Hloop.
  f_equal; lia.
Qed.

(** ** Zigzag *)

Lemma zigzag_nonneg v : 0 <= v < two63 -> zigzag v = 2 * v.
Proof.
  intros Hv. unfold zigzag. rewrite !Z.shiftr_div_pow2, Z.shiftl_mul_pow2 by lia.
  rewrite (Z.div_small v (2 ^ 63)) by exact Hv. rewrite Z.lxor_0_r.
  unfold wrap64. set (w := (_ mod _)).
  assert (exists k, w = v * 2 ^ 1 + two63 + k * two64) as [k ->].
  { exists (- ((v * 2 ^ 1 + two63) / two64)). unfold w.
    rewrite Z.mod_eq by int_lia. lia. }
  apply (uint64_cong _ _ k); int_lia.
Qed.

Lemma zigzag_neg v : - two63 <= v < 0 -> zigzag v = - 2 * v - 1.
Proof.
  intros Hv. unfold zigzag. rewrite !Z.shiftr_div_pow2, Z.shiftl_mul_pow2 by lia.
  assert (v / 2 ^ 63 = -1) as ->.
  { symmetry. apply (Z.div_unique _ _ _ (v + two63)); [left; int_lia |].
    change (2 ^ 63) with two63. lia. }
  rewrite Z.lxor_m1_r. unfold Z.lnot, wrap64. set (w := (_ mod _)).
  assert (exists k, w = v * 2 ^ 1 + two63 + k * two64) as [k ->].
  { exists (- ((v * 2 ^ 1 + two63) / two64)). unfold w.
    rewrite Z.mod_eq by int_lia. lia. }
  apply (uint64_cong _ _ (- k)); int_lia.
Qed.

Lemma zigzag_range v : is_uint64 (zigzag v).
Proof. apply uint64_range. Qed.

Lemma unzigzag_zigzag v : is_int64 v -> unzigzag (zigzag v) = v.
Proof.
  intros Hv. unfold unzigzag. rewrite Z.shiftr_div_pow2 by lia.
  change (2 ^ 1) with 2. change 1 with (Z.ones 1).
  rewrite Z.land_ones by lia. change (2 ^ 1) with 2.
  destruct (Z.lt_ge_cases v 0) as [Hneg|Hpos].
  - rewrite zigzag_neg by int_lia.
    replace (- 2 * v - 1) with (1 + (- v - 1) * 2) by lia.
    rewrite Z.div_add, Z.mod_add by lia. change (1 / 2) with 0. change (1 mod 2) with 1.
    rewrite (uint64_cong (Z.opp 1) (two64 - 1) (-1)) by int_lia.
    rewrite Z.add_0_l, lxor_ones64 by int_lia.
    apply (wrap64_cong _ _ 1); int_lia.
  - rewrite zigzag_nonneg by int_lia.
    replace (2 * v) with (0 + v * 2) by lia.
    rewrite Z.div_add, Z.mod_add by lia. change (0 / 2) with 0. change (0 mod 2) with 0.
    change (uint64 (Z.opp 0)) with 0. rewrite Z.lxor_0_r, Z.add_0_l.
    by apply wrap64_id.
Qed.

(** ** Length-prefixed strings *)

Lemma index_0 {E A} (a : A) l : @index E A (a :: l) 0 = Ret a.
Proof. reflexivity. Qed.
Lemma index_1 {E A} (a b : A) l : @index E A (a :: b :: l) 1 = Ret b.
Proof. reflexivity. Qed.
Lemma index_2 {E A} (a b c : A) l : @index E A (a :: b :: c :: l) 2 = Ret c.
Proof. reflexivity. Qed.

Lemma be16 n : 0 <= n < 65536 ->
  Z.lor (b2z (z2b n)) (Z.shiftl (b2z (z2b (Z.shiftr n 8))) 8) = n.
Proof.
  intros Hn. rewrite (b2z_z2b n), Z.shiftr_div_pow2 by lia. change (2 ^ 8) with 256.
  rewrite b2z_z2b_small.
  - rewrite lor_shiftl_add by (lia || (change (2 ^ 8) with 256; apply Z.mod_pos_bound; lia)).
    change (2 ^ 8) with 256. pose proof (Z.div_mod n 256). lia.
  - split; [apply Z.div_pos; lia | apply Z.div_lt_upper_bound; lia].
Qed.

(** What the decoder reads back from each of the two prefix forms. *)
Lemma getString_short s rest :
  0 < slen s <= 254 ->
  getString (putString s ++ rest) = Ret (s, 1 + slen s).
Proof.
  intros Hs. unfold putString. rewrite decide_False by (intros ->; unfold slen in Hs; simpl in Hs; lia).
  rewrite blen_str_bytes. rewrite (proj2 (Z.leb_le _ _)) by lia.
  unfold getString. pose proof (blen_nonneg rest).
  cbn [app]. rewrite blen_cons, blen_app, blen_str_bytes.
  rewrite (proj2 (Z.eqb_neq _ 0)) by lia. rewrite index_0, bind_ret_l, b2z_z2b_small by lia.
  rewrite !(proj2 (Z.eqb_neq _ _)) by lia. rewrite (proj2 (Z.ltb_ge _ _)) by lia.
  change (z2b (slen s) :: str_bytes s ++ rest) with ([z2b (slen s)] ++ str_bytes s ++ rest).
  rewrite slice_app by reflexivity. simpl. by rewrite bytes_str_bytes.
Qed.

Lemma getString_long s rest :
  256 <= slen s ->
  getString (putString s ++ rest) =
    let n := slen s mod 65536 in
    Ret (bytes_str (take (Z.to_nat n) (str_bytes s)), 3 + n).
Proof.
  intros Hs. unfold putString. rewrite decide_False by (intros ->; unfold slen in Hs; simpl in Hs; lia).
  rewrite blen_str_bytes. rewrite (proj2 (Z.leb_gt _ _)) by lia.
  pose proof (Z.mod_pos_bound (slen s) 65536 ltac:(lia)).
  pose proof (Z.mod_le (slen s) 65536 ltac:(lia) ltac:(lia)).
  cbv zeta. set (n := slen s mod 65536) in *.
  unfold getString. pose proof (blen_nonneg rest).
  cbn [app]. rewrite !blen_cons, blen_app, blen_str_bytes.
  rewrite (proj2 (Z.eqb_neq _ 0)) by lia.
  rewrite index_0, bind_ret_l. change (b2z (z2b 255) =? 255) with true.
  rewrite index_1, index_2, !bind_ret_l, be16 by lia.
  rewrite !(proj2 (Z.ltb_ge _ _)) by lia.
  rewrite slice_ok by (rewrite ?blen_cons, ?blen_app, ?blen_str_bytes; lia).
  change (Z.to_nat 3) with 3%nat. cbn [skipn].
  replace (3 + n - 3) with n by lia.
  rewrite drop_0, take_app_le; [done |]. unfold slen in *. lia.
Qed.

(** A string whose length is exactly 255 takes the short form, whose prefix byte
    is the sentinel of the long form. *)
Lemma getString_255 s rest :
  slen s = 255 -> getString (putString s ++ rest) <> Ret (s, 256).
Proof.
  intros Hs. unfold putString. rewrite decide_False by (intros ->; done).
  rewrite blen_str_bytes, Hs. change (255 <=? 255) with true. cbv iota zeta.
  unfold getString. cbn [app].
  rewrite !blen_cons, blen_app, blen_str_bytes, Hs. pose proof (blen_nonneg rest).
  rewrite (proj2 (Z.eqb_neq _ 0)) by lia.
  rewrite index_0, bind_ret_l. change (b2z (z2b 255) =? 255) with true.
  rewrite (proj2 (Z.ltb_ge _ _)) by lia.
  destruct (str_bytes s) as [|c1 [|c2 l]] eqn:El;
    [by unfold slen in Hs; rewrite El in Hs ..|].
  cbn [app]. rewrite index_1, index_2, !bind_ret_l.
  set (n := Z.lor _ _).
  assert (n = b2z c2 + b2z c1 * 256) as Hn.
  { unfold n. by rewrite lor_shiftl_add by (lia || apply b2z_range). }
  clearbody n. pose proof (b2z_range c1). pose proof (b2z_range c2).
  destruct (Z.ltb_spec (1 + (255 + blen rest)) (3 + n)) as [|Hlen]; [done |].
  rewrite slice_ok; [|lia|].
  2:{ rewrite !blen_cons, blen_app. unfold slen in Hs. rewrite El in Hs.
      unfold blen in *. simpl in Hs. lia. }
  cbn [mbind outcome_bind]. intros [= E E2].
  assert (n = 253) by lia. subst n.
  apply (f_equal str_bytes) in E. rewrite str_bytes_str, El in E.
  apply (f_equal length) in E. unfold slen in Hs. rewrite El in Hs.
  rewrite length_take in E. simpl in E, Hs. lia.
Qed.

Lemma putString_length s : s <> EmptyString -> codable s ->
  blen (putString s) = (if slen s <=? 255 then 1 else 3) + slen s.
Proof.
  intros Hne [_ _]. unfold putString. rewrite decide_False by done.
  rewrite blen_str_bytes. destruct (slen s <=? 255); rewrite !blen_cons, blen_str_bytes; lia.
Qed.

Lemma getString_putString s rest :
  s <> EmptyString -> codable s ->
  getString (putString s ++ rest) = Ret (s, blen (putString s)).
Proof.
  intros Hne [Hlen H255]. rewrite putString_length by done.
  pose proof (slen_pos s Hne). destruct (Z.leb_spec (slen s) 255).
  - apply getString_short. lia.
  - rewrite getString_long by lia. cbv zeta. rewrite Z.mod_small by lia.
    rewrite take_ge by (unfold slen; lia). by rewrite bytes_str_bytes.
Qed.

Lemma getString_no_panic data : getString data <> Panic.
Proof.
  unfold getString. destruct (Z.eqb_spec (blen data) 0); [done |].
  pose proof (blen_nonneg data).
  destruct (index_ok (E := CodecError) data 0) as [b0 ->]; [unfold blen in *; lia |].
  rewrite bind_ret_l. pose proof (b2z_range b0).
  destruct (Z.eqb_spec (b2z b0) 255).
  - destruct (Z.ltb_spec (blen data) 3); [done |].
    destruct (index_ok (E := CodecError) data 1) as [b1 ->]; [unfold blen in *; lia |].
    destruct (index_ok (E := CodecError) data 2) as [b2 ->]; [unfold blen in *; lia |].
    rewrite !bind_ret_l. rewrite lor_shiftl_add by (lia || apply b2z_range).
    pose proof (b2z_range b1). pose proof (b2z_range b2).
    destruct (Z.ltb_spec (blen data) (3 + (b2z b2 + b2z b1 * 2 ^ 8))); [done |].
    by rewrite slice_ok by lia.
  - destruct (b2z b0 =? 0); [done |].
    destruct (Z.ltb_spec (blen data) (1 + b2z b0)); [done |].
    by rewrite slice_ok by lia.
Qed.

Lemma getString_consumed data s n : getString data = Ret (s, n) -> 0 <= n <= blen data.
Proof.
  unfold getString. destruct (Z.eqb_spec (blen data) 0); [intros [= <- <-]; lia |].
  pose proof (blen_nonneg data).
  intros (b0 & Hb0 & Hk)%bind_Ret_inv. pose proof (b2z_range b0).
  destruct (Z.eqb_spec (b2z b0) 255).
  - destruct (Z.ltb_spec (blen data) 3); [done |].
    apply bind_Ret_inv in Hk as (b1 & _ & (b2 & _ & Hk)%bind_Ret_inv).
    rewrite lor_shiftl_add in Hk by (lia || apply b2z_range).
    pose proof (b2z_range b1). pose proof (b2z_range b2). simpl in Hk.
    destruct (Z.ltb_spec (blen data) (3 + (b2z b2 + b2z b1 * 2 ^ 8))); [done |].
    apply bind_Ret_inv in Hk as (d & _ & [= <- <-]). lia.
  - simpl in Hk. destruct (b2z b0 =? 0); [injection Hk as <- <-; lia |].
    destruct (Z.ltb_spec (blen data) (1 + b2z b0)); [done |].
    apply bind_Ret_inv in Hk as (d & _ & [= <- <-]). lia.
Qed.

(** ** Reading a field at an offset *)

Lemma readField_here name data p s q :
  data = p ++ putString s ++ q -> s <> EmptyString -> codable s ->
  readField name data (blen p) = Ret (s, blen (p ++ putString s)).
Proof.
  intros -> Hne Hc. unfold readField. rewrite slice_from_app by done.
  rewrite bind_ret_l, getString_putString by done. by rewrite blen_app.
Qed.

Lemma nonempty_true s : nonempty s = true <-> s <> EmptyString.
Proof. unfold nonempty. case_bool_decide; simpl; split; congruence. Qed.

Lemma putString_empty : putString EmptyString = [].
Proof. reflexivity. Qed.

Lemma app_if_nonempty (buf : bytes) s :
  (if nonempty s then buf ++ putString s else buf) = buf ++ putString s.
Proof.
  unfold nonempty. case_bool_decide as E; simpl; [|done].
  by rewrite E, putString_empty, app_nil_r.
Qed.

Lemma readOptional_here name data p s q :
  data = p ++ putString s ++ q -> codable s ->
  readOptional (nonempty s) name data (blen p) = Ret (s, blen (p ++ putString s)).
Proof.
  intros Hd Hc. unfold readOptional. destruct (nonempty s) eqn:En.
  - apply nonempty_true in En. by eapply readField_here.
  - destruct (decide (s = EmptyString)) as [->|Hne].
    + by rewrite putString_empty, app_nil_r.
    + apply nonempty_true in Hne. congruence.
Qed.

Lemma readField_no_panic name data off :
  0 <= off <= blen data -> readField name data off <> Panic.
Proof.
  intros Hoff. unfold readField. rewrite slice_from_ok by done. rewrite bind_ret_l.
  apply bind_no_panic; [apply wrap_err_no_panic, getString_no_panic | by intros []].
Qed.

Lemma readField_offset name data off s off' :
  readField name data off = Ret (s, off') -> 0 <= off <= off' /\ off' <= blen data.
Proof.
  unfold readField. intros (d & Hd & ([s' n] & Hs & [= <- <-])%bind_Ret_inv)%bind_Ret_inv.
  apply slice_from_Ret in Hd as [Hoff ->]. apply wrap_err_Ret, getString_consumed in Hs.
  rewrite blen_drop in Hs by done. lia.
Qed.

Lemma readOptional_no_panic b name data off :
  0 <= off <= blen data -> readOptional b name data off <> Panic.
Proof. intros. destruct b; [by apply readField_no_panic | done]. Qed.

Lemma readOptional_offset b name data off s off' :
  0 <= off <= blen data ->
  readOptional b name data off = Ret (s, off') -> 0 <= off <= off' /\ off' <= blen data.
Proof. intros Hoff. destruct b; [apply readField_offset | intros [= <- <-]; lia]. Qed.

Lemma readType_no_panic c data off :
  0 <= off <= blen data -> readType c data off <> Panic.
Proof.
  intros. unfold readType. destruct (c =? typeShortLongForm); [by apply readField_no_panic |].
  by destruct (shortToType !! c).
Qed.

Lemma readType_offset c data off s off' :
  0 <= off <= blen data ->
  readType c data off = Ret (s, off') -> 0 <= off <= off' /\ off' <= blen data.
Proof.
  intros Hoff. unfold readType. destruct (c =? typeShortLongForm); [apply readField_offset |].
  destruct (shortToType !! c); [|done]. intros [= <- <-]. lia.
Qed.

(** [binary.Uvarint] never reports more bytes than the buffer holds. *)
Lemma Uvarint_loop_consumed buf i x s v n :
  Uvarint_loop buf i x s = (v, n) -> n <= i + blen buf \/ n <= 0.
Proof.
  revert i x s. induction buf as [|b buf IH]; intros i x s; cbn [Uvarint_loop].
  - intros [= _ <-]. lia.
  - rewrite blen_cons. pose proof (blen_nonneg buf).
    destruct (Z.eqb_spec i 10); [intros [= _ <-]; lia |].
    destruct (b2z b <? 128).
    + destruct ((i =? 9) && (1 <? b2z b)) eqn:E; intros [= _ <-]; [|lia].
      apply andb_prop in E as [E _]. lia.
    + intros H1%IH. lia.
Qed.

(** ** The flags byte *)

Lemma flags_bits (c b1 b2 b3 b4 : Z) :
  0 <= c < 16 -> b1 = 0 \/ b1 = 1 -> b2 = 0 \/ b2 = 2 -> b3 = 0 \/ b3 = 4 -> b4 = 0 \/ b4 = 8 ->
  let fl := Z.lor (Z.lor (Z.lor (Z.lor 0 b1) b2) b3) b4 in
  let f := Z.lor (Z.shiftl c 4 mod 256) (Z.land fl 15) in
  0 <= f < 256 /\ Z.land (Z.shiftr f 4) 15 = c /\
  Z.land (Z.land f 15) 1 = b1 /\ Z.land (Z.land f 15) 2 = b2 /\
  Z.land (Z.land f 15) 4 = b3 /\ Z.land (Z.land f 15) 8 = b4.
Proof.
  intros Hc H1 H2 H3 H4.
  assert (c = 0 \/ c = 1 \/ c = 2 \/ c = 3 \/ c = 4 \/ c = 5 \/ c = 6 \/ c = 7 \/
          c = 8 \/ c = 9 \/ c = 10 \/ c = 11 \/ c = 12 \/ c = 13 \/ c = 14 \/ c = 15)
    as Hcc by lia.
  destruct H1 as [-> | ->], H2 as [-> | ->], H3 as [-> | ->], H4 as [-> | ->];
  repeat (destruct Hcc as [-> | Hcc]; [vm_compute; intuition discriminate |]);
  subst c; vm_compute; intuition discriminate.
Qed.

Lemma if_or (b : bool) (x : Z) : (if b then x else 0) = 0 \/ (if b then x else 0) = x.
Proof. destruct b; auto. Qed.

Lemma typeToShort_cases t c : typeToShort !! t = Some c ->
  shortToType !! c = Some t /\ slen t <= maxShortLen /\ 0 <= c < 6.
Proof.
  intros H%elem_of_list_to_map_2. unfold maxShortLen.
  repeat (apply elem_of_cons in H as [[= -> ->]|H]; [by vm_compute |]).
  by apply elem_of_nil in H.
Qed.

Lemma marshalFlags_bits m :
  0 <= marshalFlags m < 256 /\
  let f := marshalFlags m in
  Z.land (Z.shiftr f 4) 15 = typeCodeOf (MType m) /\
  negb (Z.land (Z.land f 15) flagHasNick =? 0) = nonempty (SenderNick m) /\
  negb (Z.land (Z.land f 15) flagHasRecipient =? 0) = nonempty (Recipient m) /\
  negb (Z.land (Z.land f 15) flagHasNonce =? 0) = nonempty (Nonce m) /\
  negb (Z.land (Z.land f 15) flagHasKeyID =? 0) = nonempty (KeyID m).
Proof.
  assert (Hc : 0 <= typeCodeOf (MType m) < 16).
  { unfold typeCodeOf, typeShortLongForm. destruct (typeToShort !! MType m) eqn:E; simpl; [|lia].
    apply typeToShort_cases in E. lia. }
  assert (Hf : marshalFlags m = Z.lor (Z.shiftl (typeCodeOf (MType m)) 4 mod 256)
    (Z.land (Z.lor (Z.lor (Z.lor (Z.lor 0 (if nonempty (SenderNick m) then 1 else 0))
      (if nonempty (Recipient m) then 2 else 0)) (if nonempty (Nonce m) then 4 else 0))
      (if nonempty (KeyID m) then 8 else 0)) 15)).
  { unfold marshalFlags, typeCodeOf. destruct (typeToShort !! MType m) as [c|] eqn:E.
    - rewrite bool_decide_eq_true_2 by eauto.
      rewrite (proj2 (Z.leb_le _ _)) by (apply typeToShort_cases in E; lia).
      simpl. by destruct (nonempty (SenderNick m)), (nonempty (Recipient m)),
        (nonempty (Nonce m)), (nonempty (KeyID m)).
    - rewrite bool_decide_eq_false_2 by (by intros []).
      by destruct (nonempty (SenderNick m)), (nonempty (Recipient m)),
        (nonempty (Nonce m)), (nonempty (KeyID m)). }
  rewrite Hf.
  destruct (flags_bits (typeCodeOf (MType m)) (if nonempty (SenderNick m) then 1 else 0)
    (if nonempty (Recipient m) then 2 else 0) (if nonempty (Nonce m) then 4 else 0)
    (if nonempty (KeyID m) then 8 else 0) Hc) as (B & E0 & E1 & E2 & E3 & E4);
    [apply if_or.. |].
  split; [exact B |]. cbv zeta. unfold flagHasNick, flagHasRecipient, flagHasNonce, flagHasKeyID.
  rewrite E0, E1, E2, E3, E4. split; [done |].
  by destruct (nonempty (SenderNick m)), (nonempty (Recipient m)),
    (nonempty (Nonce m)), (nonempty (KeyID m)).
Qed.

(** ** The frame layout *)

Lemma Marshal_layout m :
  exists ts, putUvarint (zigzag (Timestamp m)) = Ret ts /\ 1 <= blen ts <= 10 /\
    (forall rest, Uvarint (ts ++ rest) = (zigzag (Timestamp m), blen ts)) /\
    Marshal m = Ret ([z2b (marshalFlags m)] ++ longType m ++ putString (ID m) ++
      putString (Sender m) ++ putString (SenderNick m) ++ putString (Recipient m) ++
      putString (Payload m) ++ ts ++ [z2b (clampByte (TTL m)); z2b (clampByte (HopCount m))] ++
      putString (Nonce m) ++ putString (KeyID m)).
Proof.
  destruct (putUvarint_Uvarint (zigzag (Timestamp m)) [] (zigzag_range _)) as (ts & Hts & Hlen & _).
  exists ts. split; [done |]. split; [done |]. split.
  { intros rest. destruct (putUvarint_Uvarint (zigzag (Timestamp m)) rest (zigzag_range _))
      as (ts' & Hts' & _ & HU). congruence. }
  unfold Marshal. rewrite Hts, !app_if_nonempty. cbn [mbind outcome_bind]. rewrite !app_if_nonempty. f_equal.
  unfold longType, clampByte. destruct (typeToShort !! MType m); by rewrite <- ?app_assoc.
Qed.

Lemma clampByte_min z : 0 <= z -> b2z (z2b (clampByte z)) = Z.min 255 z.
Proof.
  intros Hz. unfold clampByte. destruct (Z.ltb_spec 255 z);
    rewrite b2z_z2b_small; lia.
Qed.

Lemma readType_here m data p rest :
  data = p ++ longType m ++ rest ->
  MType m <> EmptyString -> codable (MType m) ->
  readType (typeCodeOf (MType m)) data (blen p) = Ret (MType m, blen (p ++ longType m)).
Proof.
  intros Hd Hne Hc. unfold readType, longType, typeCodeOf in *.
  destruct (typeToShort !! MType m) as [c|] eqn:E; simpl in *.
  - apply typeToShort_cases in E as (-> & _ & Hr). unfold typeShortLongForm.
    rewrite (proj2 (Z.eqb_neq _ _)) by lia. by rewrite app_nil_r.
  - by apply (readField_here _ _ _ _ rest).
Qed.

(** [data[len(p)]] past a known prefix. *)
Lemma index_here {E A} (p q : list A) a off :
  off = Z.of_nat (length p) -> @index E A (p ++ a :: q) off = Ret a.
Proof.
  intros ->. unfold index. rewrite decide_True by lia.
  by rewrite Nat2Z.id, list_lookup_middle.
Qed.

(** One step of the decoder on a frame [data = p ++ putString s ++ q]: read the
    field, then move it to the prefix. *)
Ltac read_step Hd :=
  first [ erewrite (readField_here _ _ _ _ _ Hd) by done
        | erewrite (readOptional_here _ _ _ _ _ Hd) by done
        | erewrite (readType_here _ _ _ _ Hd) by done ];
  rewrite bind_ret_l; rewrite app_assoc in Hd.

(** Decoding the frame of a well-formed message, field by field. *)
Lemma Unmarshal_layout m ts data :
  wire_ok m -> 1 <= blen ts ->
  (forall rest, Uvarint (ts ++ rest) = (zigzag (Timestamp m), blen ts)) ->
  data = [z2b (marshalFlags m)] ++ longType m ++ putString (ID m) ++
      putString (Sender m) ++ putString (SenderNick m) ++ putString (Recipient m) ++
      putString (Payload m) ++ ts ++ [z2b (clampByte (TTL m)); z2b (clampByte (HopCount m))] ++
      putString (Nonce m) ++ putString (KeyID m) ->
  Unmarshal data = Ret (wire_view m).
Proof.
  intros [[Ht Ct] [Hi Ci] [Hs Cs] [Hp Cp] (Cn & Cr & Co & Ck) Hts [H0 H1]] Lts HU Hd.
  destruct (marshalFlags_bits m) as (Bf & E0 & E1 & E2 & E3 & E4).
  assert (Hlen : 2 <= blen data).
  { rewrite Hd. unfold blen. rewrite !length_app. simpl. lia. }
  unfold Unmarshal. rewrite (proj2 (Z.ltb_ge _ _)) by lia.
  rewrite Hd at 1. cbn [app]. rewrite index_0, bind_ret_l, b2z_z2b_small by done. cbv zeta.
  rewrite E0, E1, E2, E3, E4. clear E0 E1 E2 E3 E4 Hlen.
  change (readType ?c data 1) with (readType c data (blen [z2b (marshalFlags m)])).
  do 2 read_step Hd. rewrite decide_False by done.
  do 4 read_step Hd. rewrite Hd at 1. rewrite slice_from_app, bind_ret_l, HU by done.
  rewrite (proj2 (Z.leb_gt _ _)), <- blen_app by lia. rewrite app_assoc in Hd.
  match type of Hd with data = ?p ++ _ => set (P := p) in * end.
  rewrite (proj2 (Z.ltb_ge _ _)) by (rewrite Hd; autorewrite with ripple; unfold blen; lia).
  assert (@index CodecError _ data (blen P) = Ret (z2b (clampByte (TTL m)))) as ->
    by (rewrite Hd; by apply index_here).
  assert (@index CodecError _ data (blen P + 1) = Ret (z2b (clampByte (HopCount m)))) as ->.
  { rewrite Hd. change (P ++ _) with (P ++ [z2b (clampByte (TTL m))] ++
      z2b (clampByte (HopCount m)) :: putString (Nonce m) ++ putString (KeyID m)).
    rewrite app_assoc. apply index_here.
    rewrite length_app. unfold blen. simpl. lia. }
  rewrite !bind_ret_l. rewrite app_assoc in Hd.
  change 2 with (blen [z2b (clampByte (TTL m)); z2b (clampByte (HopCount m))]) at 1.
  rewrite <- blen_app. rewrite <- (app_nil_r (putString (KeyID m))) in Hd.
  do 2 read_step Hd. unfold wire_view. by rewrite !clampByte_min, unzigzag_zigzag by done.
Qed.

Lemma Marshal_total m : exists data, Marshal m = Ret data /\ 2 <= blen data.
Proof.
  destruct (Marshal_layout m) as (ts & _ & _ & _ & ->). eexists. split; [done |].
  unfold blen. rewrite !length_app. simpl. lia.
Qed.

(** A frame with no payload: what follows the recipient is the timestamp, and
    the decoder takes its first byte for a length. *)
Lemma getString_varint_prefix v tail :
  is_uint64 v -> 128 <= v -> blen tail = 2 ->
  forall ts, putUvarint v = Ret ts -> getString (ts ++ tail) = Fail UnexpectedEOF.
Proof.
  intros Hv Hbig Htail ts Hts.
  destruct (putUvarint_Uvarint v [] Hv) as (ts' & Hts' & Hlen & _).
  assert (ts' = ts) by congruence. subst ts'. clear Hts'.
  unfold putUvarint, MaxVarintLen64 in Hts. remember 9%nat as room eqn:Hr.
  cbn [PutUvarint] in Hts. rewrite (proj2 (Z.leb_le _ _)) in Hts by done.
  apply bind_Ret_inv in Hts as (rest & Hrest & [= <-]).
  pose proof (Z.mod_pos_bound v 128 ltac:(lia)).
  assert (1 <= Z.shiftr v 7) as Hsh.
  { rewrite Z.shiftr_div_pow2 by lia. apply Z.div_le_lower_bound; lia. }
  assert (exists c rest', rest = c :: rest' /\ 1 <= b2z c) as (c & rest' & -> & Hc).
  { subst room. cbn [PutUvarint] in Hrest. destruct (128 <=? Z.shiftr v 7) eqn:E.
    - apply bind_Ret_inv in Hrest as (r & _ & [= <-]). do 2 eexists. split; [done |].
      rewrite varint_byte. pose proof (Z.mod_pos_bound (Z.shiftr v 7) 128). lia.
    - injection Hrest as <-. do 2 eexists. split; [done |].
      rewrite b2z_z2b_small; lia. }
  rewrite !blen_cons in Hlen. unfold getString. cbn [app].
  rewrite !blen_cons, blen_app. pose proof (blen_nonneg rest').
  rewrite (proj2 (Z.eqb_neq _ 0)) by lia. rewrite index_0, bind_ret_l, varint_byte.
  destruct (Z.eqb_spec (v mod 128 + 128) 255).
  - rewrite (proj2 (Z.ltb_ge _ _)) by lia. rewrite index_1, bind_ret_l.
    destruct (rest' ++ tail) as [|d l] eqn:Erest.
    { apply (f_equal blen) in Erest. rewrite blen_app in Erest.
      change (blen []) with 0 in Erest. lia. }
    rewrite index_2, bind_ret_l. rewrite lor_shiftl_add by (lia || apply b2z_range).
    pose proof (b2z_range d). rewrite (proj2 (Z.ltb_lt _ _)) by lia. done.
  - rewrite (proj2 (Z.eqb_neq _ _)) by lia. rewrite (proj2 (Z.ltb_lt _ _)) by lia. done.
Qed.

(** Sequencing a read that cannot panic and leaves the offset inside the frame with
    a continuation that is safe at any such offset. *)
Lemma read_then_safe data (f : Z -> outcome CodecError (string * Z))
    (k : string * Z -> outcome CodecError Message) off (P : Message -> Prop) :
  0 <= off <= blen data ->
  (0 <= off <= blen data -> f off <> Panic) ->
  (forall s o, f off = Ret (s, o) -> 0 <= off <= o /\ o <= blen data) ->
  (forall s o, 0 <= o <= blen data -> k (s, o) <> Panic /\ forall m, k (s, o) = Ret m -> P m) ->
  f off ≫= k <> Panic /\ forall m, f off ≫= k = Ret m -> P m.
Proof.
  intros Hoff Hnp Hret Hk. specialize (Hnp Hoff).
  destruct (f off) as [[s o]| |] eqn:E; [|done..].
  destruct (Hret s o eq_refl). rewrite bind_ret_l. apply Hk. lia.
Qed.

Lemma readField_then_safe data name (k : string * Z -> outcome CodecError Message) off
    (P : Message -> Prop) :
  0 <= off <= blen data ->
  (forall s o, 0 <= o <= blen data -> k (s, o) <> Panic /\ forall m, k (s, o) = Ret m -> P m) ->
  readField name data off ≫= k <> Panic /\
  forall m, readField name data off ≫= k = Ret m -> P m.
Proof.
  intros Hoff. apply (read_then_safe data (readField name data));
    [done | apply readField_no_panic | apply readField_offset].
Qed.

Lemma readOptional_then_safe data b name (k : string * Z -> outcome CodecError Message) off
    (P : Message -> Prop) :
  0 <= off <= blen data ->
  (forall s o, 0 <= o <= blen data -> k (s, o) <> Panic /\ forall m, k (s, o) = Ret m -> P m) ->
  readOptional b name data off ≫= k <> Panic /\
  forall m, readOptional b name data off ≫= k = Ret m -> P m.
Proof.
  intros Hoff. apply (read_then_safe data (readOptional b name data));
    [done | apply readOptional_no_panic | intros s o; by apply readOptional_offset].
Qed.

(** ** What a decoder needs at least *)

Lemma putString_max s : blen (putString s) <= (if slen s <=? 255 then 1 else 3) + slen s.
Proof.
  unfold putString. pose proof (blen_nonneg (str_bytes s)) as H. rewrite blen_str_bytes in *.
  case_decide; [change (blen []) with 0; destruct (slen s <=? 255); lia |].
  destruct (slen s <=? 255); rewrite !blen_cons, blen_str_bytes; lia.
Qed.

Lemma slice_Ret {E} (data : bytes) a b d : @slice E data a b = Ret d -> blen d = b - a.
Proof.
  unfold slice. case_decide; [| done]. intros [= <-].
  unfold blen in *. rewrite length_take, length_drop. lia.
Qed.

(** A string that was read took no fewer bytes than the encoder needs for it, and at
    least one. *)
Lemma getString_min data s n : getString data = Ret (s, n) ->
  blen (putString s) <= n /\ (0 < blen data -> 1 <= n).
Proof.
  unfold getString. destruct (Z.eqb_spec (blen data) 0); [intros [= <- <-]; change (blen (putString EmptyString)) with 0; lia |].
  intros (b0 & _ & Hk)%bind_Ret_inv. pose proof (b2z_range b0). pose proof (putString_max s) as Hmax.
  destruct (Z.eqb_spec (b2z b0) 255).
  - destruct (blen data <? 3); [done |].
    apply bind_Ret_inv in Hk as (b1 & _ & (b2 & _ & Hk)%bind_Ret_inv). cbv zeta in Hk.
    rewrite lor_shiftl_add in Hk by (lia || apply b2z_range).
    pose proof (b2z_range b1). pose proof (b2z_range b2).
    destruct (_ <? _); [done |]. apply bind_Ret_inv in Hk as (d & Hd & [= <- <-]).
    apply slice_Ret in Hd. rewrite <- blen_str_bytes, str_bytes_str in Hmax.
    destruct (_ <=? 255); lia.
  - cbv zeta in Hk. destruct (Z.eqb_spec (b2z b0) 0); [injection Hk as <- <-; change (blen (putString EmptyString)) with 0; lia |].
    destruct (_ <? _); [done |]. apply bind_Ret_inv in Hk as (d & Hd & [= <- <-]).
    apply slice_Ret in Hd. rewrite <- blen_str_bytes, str_bytes_str in Hmax.
    rewrite (proj2 (Z.leb_le _ _)) in Hmax by lia. lia.
Qed.

Lemma readField_min name data off s off' : readField name data off = Ret (s, off') ->
  off + blen (putString s) <= off' <= blen data /\ (off < blen data -> off + 1 <= off').
Proof.
  intros H. pose proof (readField_offset _ _ _ _ _ H) as [H1 H2]. revert H. unfold readField.
  intros (d & Hd & ([s' n] & Hs & [= <- <-])%bind_Ret_inv)%bind_Ret_inv.
  apply slice_from_Ret in Hd as [Hoff ->]. apply wrap_err_Ret, getString_min in Hs.
  rewrite blen_drop in Hs by done. lia.
Qed.

Lemma readOptional_min b name data off s off' : 0 <= off <= blen data ->
  readOptional b name data off = Ret (s, off') -> off + blen (putString s) <= off' <= blen data.
Proof.
  intros Hoff. destruct b; [intros H; apply (readField_min _ _ _ _ _ H) |].
  intros [= <- <-]. change (blen (putString EmptyString)) with 0. lia.
Qed.

(** A varint of [n] bytes is below [2 ^ (7 * n)]. *)
Lemma lor_bound x y k : 0 <= k -> 0 <= x < 2 ^ k -> 0 <= y < 2 ^ k -> 0 <= Z.lor x y < 2 ^ k.
Proof.
  intros Hk Hx Hy. split; [apply Z.lor_nonneg; lia |].
  destruct (Z.eq_dec (Z.lor x y) 0) as [-> | Hz]; [apply Z.pow_pos_nonneg; lia |].
  assert (0 <= Z.lor x y) by (apply Z.lor_nonneg; lia).
  apply Z.log2_lt_pow2; [lia |]. rewrite Z.log2_lor by lia.
  assert (forall z, 0 <= z < 2 ^ k -> 0 < k -> Z.log2 z < k) as Hlog.
  { intros z Hzb Hk0. destruct (Z.eq_dec z 0) as [-> |]; [done |]. apply Z.log2_lt_pow2; lia. }
  destruct (Z.eq_dec k 0) as [-> |]; [| apply Z.max_lub_lt; apply Hlog; lia].
  change (2 ^ 0) with 1 in *. exfalso. apply Hz. replace x with 0 by lia. by replace y with 0 by lia.
Qed.

Lemma Uvarint_loop_value buf i x v n :
  Uvarint_loop buf i x (7 * i) = (v, n) -> 0 <= i -> is_uint64 x -> x < 2 ^ (7 * i) -> 0 < n ->
  is_uint64 v /\ v < 2 ^ (7 * n).
Proof.
  revert i x. induction buf as [|b buf IH]; intros i x; cbn [Uvarint_loop]; [intros [= <- <-]; lia |].
  intros H Hi Hx Hlt Hn. pose proof (b2z_range b).
  assert (forall c, 0 <= c < 128 -> is_uint64 (Z.lor x (uint64 (Z.shiftl c (7 * i)))) /\
    Z.lor x (uint64 (Z.shiftl c (7 * i))) < 2 ^ (7 * (i + 1))) as Hstep.
  { intros c Hc. set (y := uint64 _). assert (is_uint64 y) as Hy by apply uint64_range.
    assert (y < 2 ^ (7 * (i + 1))) as Hy2.
    { unfold y, uint64. rewrite Z.shiftl_mul_pow2 by lia. eapply Z.le_lt_trans; [apply Z.mod_le; [nia | int_lia] |].
      replace (7 * (i + 1)) with (7 + 7 * i) by lia. rewrite Z.pow_add_r by lia. change (2 ^ 7) with 128.
      pose proof (Z.pow_pos_nonneg 2 (7 * i)). nia. }
    assert (x < 2 ^ (7 * (i + 1))) as Hx2
      by (eapply Z.lt_le_trans; [exact Hlt |]; apply Z.pow_le_mono_r; lia).
    split; [apply (lor_bound x y 64); [lia | exact Hx | exact Hy] |].
    apply lor_bound; [lia | | ]; unfold is_uint64 in *; lia. }
  destruct (i =? 10); [injection H as <- <-; lia |].
  destruct (Z.ltb_spec (b2z b) 128).
  - destruct (_ && _); injection H as <- <-; [lia |]. apply Hstep. lia.
  - replace (7 * i + 7) with (7 * (i + 1)) in H by lia.
    destruct (Hstep (Z.land (b2z b) 127)) as [Hu Hl]; [rewrite land_127; apply Z.mod_pos_bound; lia |].
    apply (IH (i + 1) _ H); [lia | done..].
Qed.

Lemma PutUvarint_min room x b n : PutUvarint room x = Ret b -> 1 <= n -> 0 <= x < 2 ^ (7 * n) -> blen b <= n.
Proof.
  revert x b n. induction room as [|room IH]; intros x b n; cbn [PutUvarint]; [done |].
  destruct (Z.leb_spec 128 x).
  - intros (rest & Hrest & [= <-])%bind_Ret_inv Hn Hx. rewrite blen_cons.
    assert (2 <= n) by (destruct (decide (n = 1)) as [-> |]; [change (2 ^ (7 * 1)) with 128 in Hx; lia | lia]).
    enough (blen rest <= n - 1) by lia. apply (IH _ _ _ Hrest); [lia |].
    rewrite Z.shiftr_div_pow2 by lia. split; [apply Z.div_pos; lia |]. apply Z.div_lt_upper_bound; [lia |].
    change 128 with (2 ^ 7). rewrite <- Z.pow_add_r by lia. replace (7 + 7 * (n - 1)) with (7 * n) by lia. lia.
  - intros [= <-] Hn _. rewrite blen_cons. change (blen []) with 0. lia.
Qed.

Lemma zigzag_unzigzag v : is_uint64 v -> zigzag (unzigzag v) = v.
Proof.
  intros Hv. unfold unzigzag. rewrite Z.shiftr_div_pow2 by lia.
  change (2 ^ 1) with 2. change 1 with (Z.ones 1). rewrite Z.land_ones by lia. change (2 ^ 1) with 2.
  pose proof (Z.div_mod v 2 ltac:(lia)). pose proof (Z.mod_pos_bound v 2 ltac:(lia)).
  destruct (decide (v mod 2 = 0)) as [Hm | Hm].
  - rewrite Hm. change (uint64 (Z.opp 0)) with 0. rewrite Z.lxor_0_r, wrap64_id by int_lia.
    rewrite zigzag_nonneg by int_lia. lia.
  - assert (v mod 2 = 1) as -> by lia.
    rewrite (uint64_cong (Z.opp 1) (two64 - 1) (-1)), lxor_ones64 by int_lia.
    rewrite (wrap64_cong _ (- (v / 2) - 1) 1), zigzag_neg by int_lia. lia.
Qed.

(** A timestamp that was read took no fewer bytes than the encoder's. *)
Lemma Uvarint_min t ts buf v n :
  putUvarint (zigzag t) = Ret ts -> Uvarint buf = (v, n) -> 0 < n -> unzigzag v = t -> blen ts <= n.
Proof.
  intros Hts HU Hn Hv.
  destruct (Uvarint_loop_value buf 0 0 v n HU) as [Hr Hlt]; [lia | int_lia | done | done |].
  apply (PutUvarint_min _ _ _ _ Hts); [lia |]. rewrite <- Hv, zigzag_unzigzag by done.
  unfold is_uint64 in Hr. lia.
Qed.

(** The decoder from the payload on, and what it reads before. *)
Definition read_rest (m : Message) (data : bytes) (off : Z) : outcome CodecError Message :=
  '(payload, off) ← readField "payload" data off;
  d ← slice_from data off;
  let '(ts, n) := Uvarint d in
  if n <=? 0 then Fail InvalidTimestamp
  else
    let off := off + n in
    if blen data <? off + 2 then Fail UnexpectedEOF
    else
      ttl ← index data off;
      hops ← index data (off + 1);
      let off := off + 2 in
      '(nonce, off) ← readOptional (nonempty (Nonce m)) "nonce" data off;
      '(keyid, _) ← readOptional (nonempty (KeyID m)) "key_id" data off;
      Ret (mkMessage (ID m) (MType m) (Sender m) (SenderNick m) (Recipient m) payload (unzigzag ts)
             (b2z ttl) (b2z hops) 0 0 nonce keyid).

Lemma Unmarshal_head m data tail :
  wire_ok (with_payload "x" m) -> 1 <= blen tail ->
  data = [z2b (marshalFlags m)] ++ longType m ++ putString (ID m) ++
      putString (Sender m) ++ putString (SenderNick m) ++ putString (Recipient m) ++ tail ->
  exists p, data = p ++ tail /\ Unmarshal data = read_rest m data (blen p).
Proof.
  intros [[Ht Ct] [Hi Ci] [Hs Cs] _ (Cn & Cr & _) _ _] Htail Hd. cbn in Ht, Ct, Hi, Ci, Hs, Cs, Cn, Cr.
  destruct (marshalFlags_bits m) as (Bf & E0 & E1 & E2 & E3 & E4).
  assert (Hlen : 2 <= blen data) by (rewrite Hd, !blen_app; change (blen [_]) with 1;
    pose proof (blen_nonneg (longType m)); pose proof (blen_nonneg (putString (ID m)));
    pose proof (blen_nonneg (putString (Sender m))); pose proof (blen_nonneg (putString (SenderNick m)));
    pose proof (blen_nonneg (putString (Recipient m))); lia).
  exists ((((([z2b (marshalFlags m)] ++ longType m) ++ putString (ID m)) ++ putString (Sender m)) ++
    putString (SenderNick m)) ++ putString (Recipient m)).
  split; [by rewrite Hd, <- ?app_assoc |].
  unfold Unmarshal. rewrite (proj2 (Z.ltb_ge _ _)) by lia.
  rewrite Hd at 1. cbn [app]. rewrite index_0, bind_ret_l, b2z_z2b_small by done. cbv zeta.
  rewrite E0, E1, E2, E3, E4. clear E0 E1 E2 E3 E4 Hlen.
  change (readType ?c data 1) with (readType c data (blen [z2b (marshalFlags m)])).
  do 2 read_step Hd. rewrite decide_False by done. do 3 read_step Hd. reflexivity.
Qed.

(** What it has read fits into the frame, with a byte at least for the payload. *)
Lemma read_rest_min m data off m' ts :
  read_rest m data off = Ret m' -> 0 <= off < blen data -> putUvarint (zigzag (Timestamp m')) = Ret ts ->
  off + 1 + blen ts + 2 + blen (putString (Nonce m')) + blen (putString (KeyID m')) <= blen data.
Proof.
  unfold read_rest. intros ([pl o1] & H1 & (d & _ & H2)%bind_Ret_inv)%bind_Ret_inv Hoff Hts.
  apply readField_min in H1. destruct (Uvarint d) as [v n] eqn:HU.
  destruct (Z.leb_spec n 0); [done |]. cbv zeta in H2. destruct (Z.ltb_spec (blen data) (o1 + n + 2)); [done |].
  apply bind_Ret_inv in H2 as (ttl & _ & (hops & _ & ([nonce o3] & H3 & ([key o4] & H4 & [= <-])%bind_Ret_inv)%bind_Ret_inv)%bind_Ret_inv).
  cbn [Timestamp Nonce KeyID] in *. pose proof (blen_nonneg (putString pl)).
  apply readOptional_min in H3; [| lia]. pose proof (blen_nonneg (putString nonce)).
  apply readOptional_min in H4; [| lia].
  pose proof (Uvarint_min (unzigzag v) ts d v n Hts HU ltac:(lia) eq_refl). lia.
Qed.

(** ** Properties *)

(** C4: decoding an encoded message gives the message back, for every message the
    frame can carry ([wire_ok]): all fields but the two routing counters, which
    are not encoded, with TTL and hop count saturated at 255.  Encoding itself
    never fails. *)
Theorem codec_roundtrip m :
  wire_ok m -> exists data, Marshal m = Ret data /\ Unmarshal data = Ret (wire_view m).
Proof.
  intros Hok. destruct (Marshal_layout m) as (ts & _ & Hlen & HU & Hm).
  eexists. split; [exact Hm |]. eapply (Unmarshal_layout m ts); eauto. lia.
Qed.

Lemma codec_roundtrip_witness :
  wire_ok sample_message /\
  exists data, Marshal sample_message = Ret data /\
               Unmarshal data = Ret (wire_view sample_message).
Proof.
  assert (wire_ok sample_message) as Hok
    by (split; repeat split; try discriminate; vm_compute; discriminate).
  split; [exact Hok | exact (codec_roundtrip sample_message Hok)].
Defined.

(** C10: the decoder is total on arbitrary bytes: no input makes one of its slice or
    index expressions go out of range, and a message it does return has an id, a
    TTL and a hop count in one byte, and unset routing counters. *)
Theorem Unmarshal_safe data :
  Unmarshal data <> Panic /\
  (forall m, Unmarshal data = Ret m ->
     ID m <> EmptyString /\ 0 <= TTL m < 256 /\ 0 <= HopCount m < 256 /\
     SprayBudget m = 0 /\ CopiesMade m = 0).
Proof.
  unfold Unmarshal. destruct (Z.ltb_spec (blen data) 2) as [|Hlen]; [by split |].
  destruct (index_ok (E := CodecError) data 0) as [fl ->]; [unfold blen in *; lia |].
  rewrite bind_ret_l. cbv zeta.
  apply (read_then_safe data (readType _ data)); [lia | apply readType_no_panic |
    intros; eapply readType_offset; eauto; lia | intros t o1 H1].
  apply (readField_then_safe data "id"); [lia | intros id o2 H2].
  case_decide as Hid; [by split |].
  apply (readField_then_safe data "sender"); [lia | intros sender o3 H3].
  apply (readOptional_then_safe data _ "sender_nick"); [lia | intros nick o4 H4].
  apply (readOptional_then_safe data _ "recipient"); [lia | intros recipient o5 H5].
  apply (readField_then_safe data "payload"); [lia | intros payload o6 H6].
  rewrite slice_from_ok by done. rewrite bind_ret_l.
  destruct (Uvarint _) as [ts n] eqn:HU. apply Uvarint_loop_consumed in HU.
  rewrite blen_drop in HU by done.
  destruct (Z.leb_spec n 0); [by split |].
  destruct (Z.ltb_spec (blen data) (o6 + n + 2)); [by split |].
  destruct (index_ok (E := CodecError) data (o6 + n)) as [ttl ->]; [unfold blen in *; lia |].
  destruct (index_ok (E := CodecError) data (o6 + n + 1)) as [hops ->]; [unfold blen in *; lia |].
  rewrite !bind_ret_l.
  apply (readOptional_then_safe data _ "nonce"); [lia | intros nonce o7 H7].
  apply (readOptional_then_safe data _ "key_id"); [lia | intros keyid o8 H8].
  split; [done |]. intros m [= <-]. split; [done |]. simpl.
  pose proof (b2z_range ttl). pose proof (b2z_range hops). lia.
Qed.

(** A length-prefixed string reads back exactly when its length is not 255 and
    fits 16 bits.  At 255 bytes the short form's prefix is the long form's
    sentinel; past 65535 bytes the length is truncated. *)
Theorem string_prefix_exact s rest :
  s <> EmptyString ->
  getString (putString s ++ rest) = Ret (s, blen (putString s)) <-> codable s.
Proof.
  intros Hne. split; [|by apply getString_putString].
  intros H. split.
  - destruct (Z.le_gt_cases (slen s) 65535) as [|Hbig]; [done | exfalso].
    rewrite getString_long in H by lia. cbv zeta in H. injection H as E _.
    apply (f_equal slen) in E. unfold slen, bytes_str in E.
    rewrite str_bytes_str, length_take in E.
    pose proof (Z.mod_pos_bound (slen s) 65536). unfold slen in *. lia.
  - intros H255. revert H. unfold putString at 2. rewrite decide_False by done.
    rewrite blen_str_bytes, H255. change (255 <=? 255) with true. cbv iota zeta.
    rewrite blen_cons, blen_str_bytes, H255. by apply getString_255.
Qed.

Lemma string_prefix_exact_witness :
  "peer2" <> EmptyString /\
  (getString (putString "peer2" ++ []) = Ret ("peer2", blen (putString "peer2")) <-> codable "peer2").
Proof. split; [discriminate | apply (string_prefix_exact "peer2" []); discriminate]. Defined.

(** C40: a message without a payload cannot be decoded.  The comment in [Marshal] says
    an empty payload is encoded as a zero length, but nothing is written, and the
    decoder takes the timestamp for the payload.  Whatever it then makes of the frame,
    it is not the message: it never reads the message's timestamp, nonce and key id.
    Without a nonce and a key id, and with any timestamp of at least 64, the frame is
    rejected. *)
Theorem empty_payload_undecodable m :
  wire_ok (with_payload "x" m) -> Payload m = EmptyString ->
  exists data, Marshal m = Ret data /\
    (forall m', Unmarshal data = Ret m' ->
       ~ (Timestamp m' = Timestamp m /\ Nonce m' = Nonce m /\ KeyID m' = KeyID m)) /\
    (Nonce m = EmptyString -> KeyID m = EmptyString -> 64 <= Timestamp m ->
       Unmarshal data = Fail (FieldError "payload" UnexpectedEOF)).
Proof.
  intros Hok Hp. destruct (Marshal_layout m) as (ts & Hts & Lts & HU & Hm). rewrite Hm. eexists. split; [done |].
  rewrite Hp, putString_empty. cbn [app]. set (tail := ts ++ _).
  match goal with |- context [Unmarshal ?d] => set (data := d) end.
  assert (blen tail = blen ts + (2 + (blen (putString (Nonce m)) + blen (putString (KeyID m))))) as Htail
    by (unfold tail; rewrite !blen_app, !blen_cons, blen_app; lia).
  pose proof (blen_nonneg (putString (Nonce m))). pose proof (blen_nonneg (putString (KeyID m))).
  destruct (Unmarshal_head m data tail Hok) as (p & Hd & Hun); [lia | by unfold data; rewrite <- ?app_assoc |].
  rewrite Hun. split.
  - intros m' Hr (Ht' & Hn' & Hk'). rewrite <- Ht' in Hts.
    pose proof (read_rest_min m data (blen p) m' ts Hr) as Hmin. rewrite Hn', Hk', Hd, blen_app in Hmin.
    pose proof (blen_nonneg p). specialize (Hmin ltac:(lia) Hts). lia.
  - intros Hn Hk Hbig. unfold read_rest, readField.
    assert (@slice_from CodecError data (blen p) = Ret tail) as -> by (rewrite Hd; by apply slice_from_app).
    rewrite bind_ret_l. unfold tail. rewrite Hn, Hk, putString_empty, !app_nil_r.
    rewrite (getString_varint_prefix (zigzag (Timestamp m))); [done | apply zigzag_range | | done..].
    pose proof (ok_timestamp _ Hok). cbn in *. rewrite zigzag_nonneg; int_lia.
Qed.

Lemma empty_payload_undecodable_witness :
  wire_ok (with_payload "x" empty_chat) /\
  exists data, Marshal empty_chat = Ret data /\
               Unmarshal data = Fail (FieldError "payload" UnexpectedEOF).
Proof.
  assert (wire_ok (with_payload "x" empty_chat)) as Hok
    by (split; repeat split; try discriminate; vm_compute; discriminate).
  split; [exact Hok |].
  destruct (empty_payload_undecodable empty_chat Hok eq_refl) as (data & Hm & _ & Hu).
  exists data. split; [exact Hm |]. apply Hu; [reflexivity | reflexivity |]. vm_compute. discriminate.
Defined.

(** ** BLE frames *)

Lemma split_loop_spec fuel data i :
  (length data <= i + fuel * mtu)%nat ->
  concat (split_loop fuel data i) = drop i data /\
  (forall f, f ∈ split_loop fuel data i -> 0 < length f <= mtu)%nat.
Proof.
  revert i. unfold mtu. induction fuel as [|fuel IH]; intros i Hi; cbn [split_loop].
  { rewrite drop_ge by lia. split; [done |]. intros f Hf. by apply elem_of_nil in Hf. }
  destruct (decide (i < length data)%nat) as [Hlt|Hge].
  - destruct (IH (i + 20)%nat) as [IH1 IH2]; [lia |]. cbn [concat]. unfold mtu.
    rewrite IH1. cbv zeta. set (stop := if decide _ then _ else _).
    assert (Hstop : (i < stop <= length data /\ stop - i <= 20 /\
      (stop = i + 20 \/ (stop = length data /\ length data < i + 20)))%nat)
      by (unfold stop; case_decide; lia).
    split.
    + destruct Hstop as (? & _ & [-> | [-> ?]]).
      * replace (i + 20 - i)%nat with 20%nat by lia.
        rewrite <- (drop_drop data). apply take_drop.
      * rewrite (drop_ge _ (i + 20)), app_nil_r by lia.
        apply take_ge. rewrite length_drop. lia.
    + intros f [-> | Hf]%elem_of_cons; [|by apply IH2].
      rewrite length_take, length_drop. lia.
  - rewrite drop_ge by lia. split; [done |]. intros f Hf. by apply elem_of_nil in Hf.
Qed.

(** C30: splitting into BLE frames loses nothing: the frames in order make up the
    data, every frame fits the 20-byte MTU, and no frame of a split is empty. *)
Theorem MTUFriendlySplit_spec data :
  concat (MTUFriendlySplit data) = data /\
  (forall f, f ∈ MTUFriendlySplit data -> (length f <= mtu)%nat) /\
  (forall f, f ∈ MTUFriendlySplit data -> data <> [] -> f <> []).
Proof.
  unfold MTUFriendlySplit. case_decide as Hlen.
  - split; [apply app_nil_r |]. split; by intros f ->%list_elem_of_singleton.
  - destruct (split_loop_spec (length data) data 0) as [H1 H2]; [unfold mtu; lia |].
    split; [exact H1 |]. split; intros f Hf%H2; [lia |]. intros _ ->. simpl in Hf. lia.
Qed.
