(* ===== verification/Routing.v ===== *)
(** * The routing decision layer (pkg/routing/routing.go)

    PROPHET predictability kinetics on binary64 floats, and the forwarding
    decisions (spray-and-wait, epidemic) the mesh and the simulator share.  Go may
    fuse a multiplication and an addition on some processors; the model rounds
    every operation, as the amd64 baseline does.

    [range] over a Go map visits the entries in an unspecified order, so an
    operation that iterates over one takes the visited entries as a list. *)

From S2P Require Import Prelude Float64.
Import F64.

(** ** Kinetics *)

Definition PInit : f64 := of_ratio 3 4.
Definition Beta : f64 := of_ratio 1 4.
Definition Gamma : f64 := of_ratio 98 100.
Definition AgeUnits : Z := 1.
Definition MaxPredict : f64 := one.

Record EncounterStat := mkStat {
  Peer : string;
  LastSeen : Z;
  Encounters : Z;
  Predictability : f64
}.

(** The zero value, and [EncounterStat{Peer: p}]. *)
Definition zeroStat : EncounterStat := mkStat EmptyString 0 0 zero.
Definition newStat (peer : string) : EncounterStat := mkStat peer 0 0 zero.

Definition set_Predictability (p : f64) (s : EncounterStat) : EncounterStat :=
  mkStat (Peer s) (LastSeen s) (Encounters s) p.

Definition UpdatePredictabilityOnEncounter (s : EncounterStat) : EncounterStat :=
  set_Predictability
    (fadd (Predictability s) (fmul (fsub one (Predictability s)) PInit)) s.

(** [math.Pow] of the standard library on the arguments this program passes: a base
    in [[1/2, 1)], which [Frexp] leaves alone, and a positive integral exponent.
    The answer is accumulated as [a1 * 2^ae] while the base is squared. *)
Fixpoint pow_loop (fuel : nat) (i : Z) (a1 : f64) (ae : Z) (x1 : f64) (xe : Z) : f64 * Z :=
  match fuel with
  | O => (a1, ae)
  | S fuel =>
      if i =? 0 then (a1, ae)
      else if (xe <? - 4096) || (4096 <? xe) then (a1, ae + xe)
      else
        let '(a1, ae) := if Z.odd i then (fmul a1 x1, ae + xe) else (a1, ae) in
        let x1 := fmul x1 x1 in
        let xe := 2 * xe in
        let '(x1, xe) := if flt x1 (of_ratio 1 2) then (fadd x1 x1, xe - 1) else (x1, xe) in
        pow_loop fuel (Z.shiftr i 1) a1 ae x1 xe
  end.

(** [math.Ldexp] for a non-positive exponent. *)
Definition ldexp_down (x : f64) (e : Z) : f64 :=
  match x with
  | Fin u => mk (rnd_signed u (2 ^ (- e)))
  | other => other
  end.

(** [float64(units)] as an integer. *)
Definition float_units (units : Z) : Z :=
  match of_int units with Fin u => u / one_u | _ => 0 end.

Definition Pow (x : f64) (units : Z) : f64 :=
  let yi := float_units units in
  if yi =? 1 then x
  else if 2 ^ 63 <=? yi then zero
  else
    let '(a1, ae) := pow_loop 64 yi one 0 x 0 in
    ldexp_down a1 ae.

Definition AgePredictability (units : Z) (s : EncounterStat) : EncounterStat :=
  if units <=? 0 then s
  else
    let p := fmul (Predictability s) (Pow Gamma units) in
    set_Predictability (if flt p (of_ratio 1 (10 ^ 9)) then zero else p) s.

Definition TransitGain (pACold pAB pBC : f64) : f64 :=
  fmul (fmul (fmul (fsub one pACold) pAB) pBC) Beta.

(** One iteration of the transitivity loop. *)
Definition transit_step (pAB : f64) (s : EncounterStat) (entry : string * EncounterStat)
    : EncounterStat :=
  let '(id, other) := entry in
  if bool_decide (id = Peer s) || fle (Predictability other) zero then s
  else
    let p := fadd (Predictability s)
               (TransitGain (Predictability s) pAB (Predictability other)) in
    set_Predictability (if flt MaxPredict p then MaxPredict else p) s.

(** [peerStats] in the order the range statement visits it. *)
Definition RecordEncounter (now : Z) (peerStats : list (string * EncounterStat))
    (s : EncounterStat) : EncounterStat :=
  let s := mkStat (Peer s) now (wrap64 (Encounters s + 1)) (Predictability s) in
  let s := UpdatePredictabilityOnEncounter s in
  let pAB := Predictability s in
  foldl (transit_step pAB) s peerStats.

Definition Aging (now : Z) (s : EncounterStat) : Z :=
  if now <=? LastSeen s then 0
  else Z.quot (wrap64 (now - LastSeen s)) AgeUnits.

(** ** Messages and decisions *)

Inductive MsgKind := KindChat | KindAck | KindSOS.

Record MessageState := mkState {
  st_ID : string;
  st_Src : string;
  st_Dst : string;
  st_Kind : MsgKind;
  st_CreatedAt : Z;
  st_TTL : Z;
  st_CopiesMade : Z;
  st_DeliveredAt : Z
}.

Definition Expired (now : Z) (m : MessageState) : bool :=
  negb (st_DeliveredAt m =? 0) || (st_TTL m <=? wrap64 (now - st_CreatedAt m)).

Inductive SprayAction := ActionDeliver | ActionSpray | ActionHandoff | ActionKeep | ActionDup.

#[global] Instance SprayAction_eq_dec : EqDecision SprayAction.
Proof. solve_decision. Defined.

(** The interface [Forwarder]. *)
Class Forwarder := mkForwarder {
  Decide : MessageState -> string -> string -> EncounterStat -> EncounterStat -> bool ->
           SprayAction
}.

Definition SprayAndWait_Decide (L : Z) (msg : MessageState) (me peer : string)
    (myStat peerStat : EncounterStat) (peerHoldsCopy : bool) : SprayAction :=
  if bool_decide (peer = st_Dst msg) then ActionDeliver
  else if peerHoldsCopy then ActionDup
  else if st_CopiesMade msg <? L then ActionSpray
  else if flt (Predictability myStat) (Predictability peerStat) then ActionHandoff
  else ActionKeep.

Definition SprayAndWait (L : Z) : Forwarder := mkForwarder (SprayAndWait_Decide L).

Definition Epidemic_Decide (msg : MessageState) (me peer : string)
    (myStat peerStat : EncounterStat) (peerHoldsCopy : bool) : SprayAction :=
  if bool_decide (peer = st_Dst msg) then ActionDeliver
  else if peerHoldsCopy then ActionDup
  else ActionSpray.

Definition Epidemic : Forwarder := mkForwarder Epidemic_Decide.

Definition CreatesCopy (a : SprayAction) : bool := bool_decide (a = ActionSpray).
Definition MovesCopy (a : SprayAction) : bool :=
  bool_decide (a = ActionHandoff) || bool_decide (a = ActionDeliver).
Definition KeepsCopy (a : SprayAction) : bool :=
  bool_decide (a = ActionKeep) || bool_decide (a = ActionSpray) || bool_decide (a = ActionDup).

(** A peer's table with two entries, used below. *)
Definition table_cd : list (string * EncounterStat) :=
  [("c"%string, mkStat "c" 0 1 (of_ratio 81 100));
   ("d"%string, mkStat "d" 0 1 (of_ratio 53 100))].

(** ** Predictabilities stay in the unit interval *)

Definition wf_stat (s : EncounterStat) : Prop := in_unit (Predictability s).

Lemma PInit_val : PInit = Fin (3 * 2 ^ 1072).
Proof. vm_compute. reflexivity. Qed.

Lemma in_unit_const n d u :
  of_ratio n d = Fin u -> 0 <= u <= one_u -> bool_decide (rnd u 1 = u) = true ->
  in_unit (of_ratio n d).
Proof. intros -> Hu Hr. exists u. split; [done |]. split; [done |]. by apply bool_decide_eq_true in Hr. Qed.

Lemma in_unit_PInit : in_unit PInit.
Proof. eapply in_unit_const; [vm_compute; reflexivity | split; vm_compute; discriminate | vm_compute; reflexivity]. Qed.
Lemma in_unit_Beta : in_unit Beta.
Proof. eapply in_unit_const; [vm_compute; reflexivity | split; vm_compute; discriminate | vm_compute; reflexivity]. Qed.
Lemma in_unit_Gamma : in_unit Gamma.
Proof. eapply in_unit_const; [vm_compute; reflexivity | split; vm_compute; discriminate | vm_compute; reflexivity]. Qed.

#[export] Hint Opaque PInit Beta Gamma fmul fadd fsub in_unit : ripple.
#[export] Hint Resolve in_unit_PInit in_unit_Beta in_unit_Gamma in_unit_zero in_unit_one
  in_unit_complement in_unit_mul : ripple.

Lemma fle_refl_unit x : in_unit x -> fle x x = true.
Proof. intros (p & -> & _). apply Z.leb_refl. Qed.

Lemma fle_zero_unit x : in_unit x -> fle zero x = true.
Proof. intros (p & -> & Hp & _). apply Z.leb_le. lia. Qed.

Lemma encounter_update_spec s :
  wf_stat s ->
  wf_stat (UpdatePredictabilityOnEncounter s) /\
  fle (Predictability s) (Predictability (UpdatePredictabilityOnEncounter s)) = true.
Proof.
  unfold wf_stat, UpdatePredictabilityOnEncounter. intros Hs. cbn [Predictability set_Predictability].
  set (x := Predictability s) in *.
  assert (Hg : in_unit (fmul (fsub one x) PInit))
    by (apply in_unit_mul, in_unit_PInit; by apply in_unit_complement).
  destruct (fadd_unit x _ Hs Hg) as (u & Eu & _ & H0 & Hle & Hunit).
  split; [|exact Hle]. apply Hunit. clear Hunit Hle Hg.
  destruct Hs as (p & -> & Hp & Rp). rewrite PInit_val in Eu.
  unfold fsub, fadd at 2, fneg, one in Eu. pose proof one_u_pos.
  destruct (in_unit_rnd (one_u + - p) 1) as [E1 (a & [= <-] & Ha & _)]; [lia.. |].
  rewrite E1 in Eu. unfold fmul in Eu.
  assert (one_u = 4 * 2 ^ 1072) as Hone by reflexivity.
  assert (0 < 2 ^ 1072) by reflexivity.
  pose proof (three_quarters_complement p Hp Rp) as Hc.
  replace (one_u - p) with (one_u + - p) in Hc by lia.
  set (c := 2 ^ 1072) in *.
  destruct (in_unit_rnd (rnd (one_u + - p) 1 * (3 * c)) one_u) as [E2 (b & [= <-] & Hb & _)];
    [lia | nia | nia |].
  rewrite E2 in Eu. unfold fadd in Eu.
  destruct (in_unit_rnd (p + rnd (rnd (one_u + - p) 1 * (3 * c)) one_u) 1)
    as [E3 (v & [= <-] & Hv & _)]; [lia.. |].
  rewrite E3 in Eu. by injection Eu as <-; lia.
Qed.

Lemma in_unit_double x :
  in_unit x -> flt x (of_ratio 1 2) = true -> in_unit (fadd x x).
Proof.
  intros (p & -> & Hp & _) Hlt.
  assert (of_ratio 1 2 = Fin (2 ^ 1073)) as E by (vm_compute; reflexivity).
  rewrite E in Hlt. simpl in Hlt. apply Z.ltb_lt in Hlt.
  assert (one_u = 2 * 2 ^ 1073) as Hone by reflexivity.
  unfold fadd. destruct (in_unit_rnd (p + p) 1) as [-> H]; [lia.. | exact H].
Qed.

Lemma pow_loop_unit fuel i a1 ae x1 xe :
  in_unit a1 -> ae <= 0 -> in_unit x1 -> xe <= 0 ->
  in_unit (pow_loop fuel i a1 ae x1 xe).1 /\ (pow_loop fuel i a1 ae x1 xe).2 <= 0.
Proof.
  revert i a1 ae x1 xe. induction fuel as [|fuel IH]; intros i a1 ae x1 xe Ha Hae Hx Hxe;
    cbn [pow_loop]; [done |].
  destruct (i =? 0); [done |].
  destruct ((xe <? - 4096) || (4096 <? xe)); [simpl; split; [done | lia] |].
  destruct (Z.odd i), (flt (fmul x1 x1) (of_ratio 1 2)) eqn:Hlt;
    (apply IH; [try (by apply in_unit_mul); done | lia
      | try (apply in_unit_double; [|done]); by apply in_unit_mul | lia]).
Qed.

Lemma ldexp_down_unit x e : in_unit x -> e <= 0 -> in_unit (ldexp_down x e).
Proof.
  intros (p & -> & Hp & _) He. unfold ldexp_down.
  assert (0 < 2 ^ (- e)) by (apply Z.pow_pos_nonneg; lia).
  destruct (in_unit_rnd p (2 ^ (- e))) as [-> H']; [lia | lia | nia | exact H'].
Qed.

Lemma Pow_unit x units : in_unit x -> in_unit (Pow x units).
Proof.
  intros Hx. unfold Pow. destruct (_ =? 1); [done |]. destruct (_ <=? _); [auto with ripple |].
  destruct (pow_loop_unit 64 (float_units units) one 0 x 0) as [H1 H2]; [auto with ripple; lia.. |].
  destruct (pow_loop 64 (float_units units) one 0 x 0). by apply ldexp_down_unit.
Qed.

Lemma age_spec units s :
  wf_stat s ->
  wf_stat (AgePredictability units s) /\
  fle (Predictability (AgePredictability units s)) (Predictability s) = true.
Proof.
  unfold wf_stat, AgePredictability. intros Hs.
  destruct (units <=? 0); [split; [done | by apply fle_refl_unit] |].
  pose proof (Pow_unit Gamma units in_unit_Gamma) as Hp. set (w := Pow Gamma units) in *.
  cbn [Predictability set_Predictability].
  destruct (flt _ _); [split; [auto with ripple | by apply fle_zero_unit] |].
  split; [auto with ripple | by apply fmul_shrinks].
Qed.

Lemma transit_step_spec pAB s e :
  in_unit pAB -> wf_stat s -> wf_stat e.2 ->
  wf_stat (transit_step pAB s e) /\
  fle (Predictability s) (Predictability (transit_step pAB s e)) = true.
Proof.
  unfold wf_stat. intros Hp Hs He. destruct e as [id other]. unfold transit_step. simpl in He.
  destruct (_ || _); [split; [done | by apply fle_refl_unit] |].
  assert (Hg : in_unit (TransitGain (Predictability s) pAB (Predictability other)))
    by (apply in_unit_mul; [repeat apply in_unit_mul|]; eauto using in_unit_Beta, in_unit_complement).
  destruct (fadd_unit _ _ Hs Hg) as (u & Eu & _ & H0 & Hle & Hunit).
  cbn [Predictability set_Predictability]. rewrite Eu in *.
  unfold MaxPredict, one. cbn [flt]. destruct (Z.ltb_spec one_u u).
  - split; [auto with ripple |]. destruct Hs as (p & -> & Hps & _). apply Z.leb_le. lia.
  - split; [apply Hunit; lia | done].
Qed.

Lemma transit_fold_spec pAB l s :
  in_unit pAB -> wf_stat s -> Forall (fun e => wf_stat e.2) l ->
  wf_stat (foldl (transit_step pAB) s l) /\
  fle (Predictability s) (Predictability (foldl (transit_step pAB) s l)) = true.
Proof.
  intros Hp Hs Hl. revert s Hs. induction Hl as [|e l He Hl IH]; intros s Hs; simpl.
  - split; [done | by apply fle_refl_unit].
  - destruct (transit_step_spec pAB s e) as [H1 H2]; [done.. |].
    destruct (IH _ H1) as [H3 H4]. split; [done | by eapply fle_trans].
Qed.

Lemma foldl_transit_fields pAB l s :
  Peer (foldl (transit_step pAB) s l) = Peer s /\
  LastSeen (foldl (transit_step pAB) s l) = LastSeen s /\
  Encounters (foldl (transit_step pAB) s l) = Encounters s.
Proof.
  revert s. induction l as [|[id o] l IH]; intros s; cbn [foldl]; [done |].
  destruct (IH (transit_step pAB s (id, o))) as (-> & -> & ->).
  unfold transit_step. by destruct (_ || _).
Qed.

Lemma table_cd_orders :
  flt (Predictability (RecordEncounter 0 table_cd zeroStat))
      (Predictability (RecordEncounter 0 (rev table_cd) zeroStat)) &&
  negb (flt (Predictability (RecordEncounter 0 (rev table_cd) zeroStat))
            (Predictability (RecordEncounter 0 table_cd zeroStat))) = true.
Proof. vm_compute. reflexivity. Qed.

(** ** Properties *)

(** C21: a delivery predictability never leaves the interval from 0 to 1, binary64
    rounding included.  Recording an encounter, with the peer's own table visited
    in any order, keeps it there and never lowers it; ageing by any number of time
    units keeps it there and never raises it. *)
Theorem predictability_unit_interval s now units peerStats :
  wf_stat s -> Forall (fun e => wf_stat e.2) peerStats ->
  (wf_stat (RecordEncounter now peerStats s) /\
   fle (Predictability s) (Predictability (RecordEncounter now peerStats s)) = true) /\
  (wf_stat (AgePredictability units s) /\
   fle (Predictability (AgePredictability units s)) (Predictability s) = true).
Proof.
  intros Hs Hl. split; [|by apply age_spec].
  unfold RecordEncounter. set (s1 := mkStat _ _ _ _).
  destruct (encounter_update_spec s1 Hs) as [H1 H2].
  destruct (transit_fold_spec (Predictability (UpdatePredictabilityOnEncounter s1))
    peerStats _ H1 H1 Hl) as [H3 H4].
  split; [done |]. by eapply fle_trans.
Qed.

Lemma predictability_unit_interval_witness :
  wf_stat zeroStat /\
  fle (Predictability zeroStat)
      (Predictability (RecordEncounter 5 [("c"%string, newStat "c")] zeroStat)) = true.
Proof.
  assert (wf_stat zeroStat) as H0 by apply in_unit_zero.
  split; [exact H0 |].
  assert (Forall (fun e => wf_stat e.2) [("c"%string, newStat "c")]) as Hl
    by (constructor; [exact in_unit_zero | constructor]).
  exact (proj2 (proj1 (predictability_unit_interval zeroStat 5 1 _ H0 Hl))).
Defined.

(** The complete decision table of spray-and-wait.  The destination always
    receives; a peer known to hold a copy gets none; a new copy is created exactly
    while fewer than [L] exist; after that the copy moves only to a peer with a
    strictly better chance.  An action either moves the carrier's copy or keeps
    it, never both, and a copy is created only by an action that keeps it. *)
Theorem SprayAndWait_decisions L msg me peer my theirs holds :
  let a := @Decide (SprayAndWait L) msg me peer my theirs holds in
  (a = ActionDeliver <-> peer = st_Dst msg) /\
  (a = ActionDup <-> peer <> st_Dst msg /\ holds = true) /\
  (a = ActionSpray <-> peer <> st_Dst msg /\ holds = false /\ st_CopiesMade msg < L) /\
  (a = ActionHandoff <-> peer <> st_Dst msg /\ holds = false /\ L <= st_CopiesMade msg /\
     flt (Predictability my) (Predictability theirs) = true) /\
  KeepsCopy a = negb (MovesCopy a) /\ (CreatesCopy a = true -> KeepsCopy a = true).
Proof.
  simpl. unfold SprayAndWait_Decide.
  case_bool_decide; [| destruct holds; [| destruct (Z.ltb_spec (st_CopiesMade msg) L);
    [| destruct (flt _ _) eqn:Hf]]];
  (split_and!; [..| done | done]); split; intros; destruct_and?; try done; try split_and!; try done; lia.
Qed.

(** The transitivity update depends on the order in which the peer's table is
    visited.  With one table and two visiting orders the resulting predictability
    differs in the last place, and a handoff decision taken against it comes out
    differently.  [range] over a Go map fixes no order, so the documented
    determinism of the simulator (every map iteration that feeds a decision is
    sorted) does not hold here. *)
Lemma RecordEncounter_order_sensitive :
  exists s1 s2 msg,
    s1 = RecordEncounter 0 table_cd zeroStat /\
    s2 = RecordEncounter 0 (rev table_cd) zeroStat /\
    rev table_cd ≡ₚ table_cd /\
    Predictability s1 <> Predictability s2 /\
    (@Decide (SprayAndWait 1) msg "a" "b" s1 s2 false <>
     @Decide (SprayAndWait 1) msg "a" "b" s2 s1 false).
Proof.
  exists (RecordEncounter 0 table_cd zeroStat), (RecordEncounter 0 (rev table_cd) zeroStat),
    (mkState "m" "s" "d" KindChat 0 9 1 0).
  pose proof table_cd_orders as H.
  set (s1 := RecordEncounter 0 table_cd zeroStat) in *.
  set (s2 := RecordEncounter 0 (rev table_cd) zeroStat) in *.
  apply andb_prop in H as [Hlt Hgt]. apply negb_true_iff in Hgt.
  split; [reflexivity |]. split; [reflexivity |]. split; [symmetry; apply Permutation_rev |].
  split; [intros E; rewrite E in Hlt; congruence |].
  unfold Decide, SprayAndWait, SprayAndWait_Decide. rewrite Hlt, Hgt. discriminate.
Qed.
