(* ===== verification/Sim.v ===== *)
(** * The contact simulator (pkg/routing/sim/sim.go)

    A run is a function of its configuration, of the generator [math/rand] provides
    (a table of 607 words, left as an interface), and of the order in which [range]
    visits a map.  Messages are shared objects: a buffer entry holds a pointer to the
    one [MessageState] all physical copies share, an index into [s_heap].

    [None] is a run-time panic (an index out of range, or [Intn] of a non-positive
    number). *)

From S2P Require Import Prelude Float64 JsonText Routing.
Import F64.

(** ** Randomness *)

(** [math/rand]: a seeded source, [Float64] in [[0,1)] and [Intn]. *)
Class Rand (R : Type) : Type := {
  NewSource : Z -> R;
  rand_Float64 : R -> f64 * R;
  rand_Intn : Z -> R -> Z * R
}.

Class RandLaw (R : Type) `{!Rand R} : Prop := {
  Intn_range : forall n r, 0 < n -> 0 <= (rand_Intn n r).1 < n
}.

(** A counter, for the examples. *)
#[export] Instance counter_rand : Rand Z := {
  NewSource seed := seed;
  rand_Float64 r := (of_ratio (r mod 7) 7, r + 1);
  rand_Intn n r := (r mod n, r + 1)
}.

(** ** Data *)

Record Config := mkConfig {
  cfg_Nodes : Z;
  cfg_AreaSize : f64;
  cfg_RadioRange : f64;
  cfg_MinSpeed : f64;
  cfg_MaxSpeed : f64;
  cfg_Messages : Z;
  cfg_InjectionFrom : Z;
  cfg_InjectionTo : Z;
  cfg_TTL : Z;
  cfg_Duration : Z;
  cfg_Seed : Z;
  cfg_Forwarder : option Forwarder
}.

Definition DefaultConfig : Config :=
  mkConfig 30 (of_int 25) (of_ratio 45 10) (of_int 1) (of_int 3) 40 10 400 100 500 42 None.

Record Outcome := mkOutcome {
  out_Config : Config;
  out_Delivered : Z;
  out_Total : Z;
  out_Latency : list Z;
  out_Hops : list Z;
  out_Copies : Z
}.

Record pos := mkPos { pos_x : f64; pos_y : f64 }.

(** [msg] is a pointer. *)
Record bufEntry := mkEntry { be_msg : nat; be_hops : Z }.

Record snode := mkSNode {
  sn_id : string;
  sn_pos : pos;
  sn_target : pos;
  sn_speed : f64;
  sn_stats : gmap string EncounterStat;
  sn_buf : list bufEntry;
  sn_has : gset string
}.

Record delivery := mkDelivery { dl_latency : Z; dl_hops : Z }.

Inductive SimError := ETooFewNodes (n : Z) | EWindow (from to : Z) | ENoForwarder.

(** The variables of [Run]. *)
Record Field {R : Type} := mkField {
  s_nodes : list snode;
  s_heap : list MessageState;
  s_states : gmap string nat;
  s_delivered : gmap string delivery;
  s_injected : Z;
  s_msgSeq : Z;
  s_rng : R;
  s_reads : nat                        (* how many maps have been ranged over *)
}.
Arguments Field : clear implicits.

Definition set_nodes {R} (n : list snode) (s : Field R) : Field R :=
  mkField R n (s_heap s) (s_states s) (s_delivered s) (s_injected s) (s_msgSeq s) (s_rng s) (s_reads s).
Definition set_heap {R} (h : list MessageState) (s : Field R) : Field R :=
  mkField R (s_nodes s) h (s_states s) (s_delivered s) (s_injected s) (s_msgSeq s) (s_rng s) (s_reads s).
Definition set_delivered {R} (d : gmap string delivery) (s : Field R) : Field R :=
  mkField R (s_nodes s) (s_heap s) (s_states s) d (s_injected s) (s_msgSeq s) (s_rng s) (s_reads s).

Definition set_stats (st : gmap string EncounterStat) (n : snode) : snode :=
  mkSNode (sn_id n) (sn_pos n) (sn_target n) (sn_speed n) st (sn_buf n) (sn_has n).
Definition set_buf (b : list bufEntry) (h : gset string) (n : snode) : snode :=
  mkSNode (sn_id n) (sn_pos n) (sn_target n) (sn_speed n) (sn_stats n) b h.
Definition set_pos (p : pos) (n : snode) : snode :=
  mkSNode (sn_id n) p (sn_target n) (sn_speed n) (sn_stats n) (sn_buf n) (sn_has n).

Definition set_st_Copies (c : Z) (m : MessageState) : MessageState :=
  mkState (st_ID m) (st_Src m) (st_Dst m) (st_Kind m) (st_CreatedAt m) (st_TTL m) c (st_DeliveredAt m).
Definition set_st_Delivered (t : Z) (m : MessageState) : MessageState :=
  mkState (st_ID m) (st_Src m) (st_Dst m) (st_Kind m) (st_CreatedAt m) (st_TTL m) (st_CopiesMade m) t.

(** ** Formatting and arithmetic *)

(** [%0wd] of a number that is not negative. *)
Definition pad (w : nat) (n : Z) : bytes :=
  let ds := format_nat n in replicate (w - length ds) "0"%char ++ ds.
Definition node_id (i : nat) : string := bytes_str ("n"%char :: pad 2 (Z.of_nat i)).
Definition msg_id (n : Z) : string := bytes_str ("m"%char :: pad 3 n).

Definition maxInt (a b : Z) : Z := if b <? a then a else b.

(** [math.Hypot] *)
Definition Hypot (p q : f64) : f64 :=
  let p := fabs p in
  let q := fabs q in
  if bool_decide (p = Inf false) || bool_decide (q = Inf false) then Inf false
  else if bool_decide (p = NaN) || bool_decide (q = NaN) then NaN
  else
    let '(p, q) := if flt p q then (q, p) else (p, q) in
    if bool_decide (p = zero) then zero
    else
      let q := fdiv q p in
      fmul p (fsqrt (fadd one (fmul q q))).

Definition dist (p q : pos) : f64 :=
  Hypot (fsub (pos_x p) (pos_x q)) (fsub (pos_y p) (pos_y q)).

(** The sum of a slice of 64-bit integers. *)
Definition sum64 (xs : list Z) : Z := foldl (fun s x => wrap64 (s + x)) 0 xs.
Definition meanInt64 (xs : list Z) : f64 :=
  if bool_decide (xs = []) then zero
  else fdiv (of_int (sum64 xs)) (of_int (Z.of_nat (length xs))).
Definition meanInt (xs : list Z) : f64 := meanInt64 xs.

Definition DeliveredFraction (o : Outcome) : f64 :=
  if out_Total o =? 0 then zero else fdiv (of_int (out_Delivered o)) (of_int (out_Total o)).
Definition AvgLatency (o : Outcome) : f64 := meanInt64 (out_Latency o).
Definition AvgHops (o : Outcome) : f64 := meanInt (out_Hops o).
Definition AvgCopiesPerMessage (o : Outcome) : f64 :=
  if out_Total o =? 0 then zero else fdiv (of_int (out_Copies o)) (of_int (out_Total o)).

(** ** Nodes *)

Definition statFor (snap : gmap string EncounterStat) (dst : string) : EncounterStat :=
  match snap !! dst with Some st => st | None => newStat dst end.

(** [give] and [hasCopy]; [id] is the message's identifier. *)
Definition give (id : string) (e : bufEntry) (n : snode) : snode :=
  set_buf (sn_buf n ++ [e]) ({[id]} ∪ sn_has n) n.
Definition hasCopy (n : snode) (id : string) : bool := bool_decide (id ∈ sn_has n).

(** [e.msg.ID] *)
Definition entry_id (h : list MessageState) (e : bufEntry) : option string :=
  st_ID <$> h !! be_msg e.

(** The loop of [dropFrom]: the buffer without the first entry for [id], if any. *)
Fixpoint drop_first (h : list MessageState) (id : string) (buf : list bufEntry)
    : option (list bufEntry) :=
  match buf with
  | [] => None
  | e :: buf =>
      if bool_decide (entry_id h e = Some id) then Some buf
      else cons e <$> drop_first h id buf
  end.

Definition dropFrom (h : list MessageState) (id : string) (n : snode) : snode :=
  match drop_first h id (sn_buf n) with
  | Some buf => set_buf buf (sn_has n ∖ {[id]}) n
  | None => n
  end.

Section Sim.
Context {R : Type} `{!Rand R}.
Context (visit : nat -> gmap string EncounterStat -> list (string * EncounterStat)).

(** ** Mobility *)

Definition newWaypoint (cfg : Config) (n : snode) (rng : R) : snode * R :=
  let '(x, rng) := rand_Float64 rng in
  let '(y, rng) := rand_Float64 rng in
  let '(v, rng) := rand_Float64 rng in
  (mkSNode (sn_id n) (sn_pos n)
     (mkPos (fmul x (cfg_AreaSize cfg)) (fmul y (cfg_AreaSize cfg)))
     (fadd (cfg_MinSpeed cfg) (fmul v (fsub (cfg_MaxSpeed cfg) (cfg_MinSpeed cfg))))
     (sn_stats n) (sn_buf n) (sn_has n), rng).

Definition move_step (cfg : Config) (n : snode) (rng : R) : snode * R :=
  let dx := fsub (pos_x (sn_target n)) (pos_x (sn_pos n)) in
  let dy := fsub (pos_y (sn_target n)) (pos_y (sn_pos n)) in
  let d := Hypot dx dy in
  if flt d (of_ratio 1 (10 ^ 9)) then newWaypoint cfg n rng
  else
    let move := if flt d (sn_speed n) then d else sn_speed n in
    (set_pos (mkPos (fadd (pos_x (sn_pos n)) (fmul (fdiv dx d) move))
                    (fadd (pos_y (sn_pos n)) (fmul (fdiv dy d) move))) n, rng).

Fixpoint move_all (cfg : Config) (ns : list snode) (rng : R) : list snode * R :=
  match ns with
  | [] => ([], rng)
  | n :: ns =>
      let '(n, rng) := move_step cfg n rng in
      let '(ns, rng) := move_all cfg ns rng in
      (n :: ns, rng)
  end.

Definition pickPair (rng : R) (n : Z) : option (Z * Z * R) :=
  if (n <=? 0) || (n - 1 <=? 0) then None
  else
    let '(a, rng) := rand_Intn n rng in
    let '(b, rng) := rand_Intn (n - 1) rng in
    Some (a, if a <=? b then b + 1 else b, rng).

(** ** Contacts *)

(** Nodes at index [i]; a negative index panics. *)
Definition node_at (s : Field R) (i : nat) : option snode := s_nodes s !! i.

Definition upd_node (i : nat) (f : snode -> snode) (s : Field R) : Field R :=
  set_nodes (alter f i (s_nodes s)) s.
Definition upd_msg (l : nat) (f : MessageState -> MessageState) (s : Field R) : Field R :=
  set_heap (alter f l (s_heap s)) s.

Definition updateEncounter (i j : nat) (tick : Z) (s : Field R) : option (Field R) :=
  a ← node_at s i; b ← node_at s j;
  let st := default zeroStat (sn_stats a !! sn_id b) in
  let st := RecordEncounter tick (visit (s_reads s) (sn_stats b)) st in
  Some (mkField R (alter (fun n => set_stats (<[sn_id b := st]> (sn_stats n)) n) i (s_nodes s))
    (s_heap s) (s_states s) (s_delivered s) (s_injected s) (s_msgSeq s) (s_rng s) (S (s_reads s))).

(** One entry of the snapshot is offered by node [i] to node [j]. *)
Definition offer (F : Forwarder) (tick : Z) (aSnap bSnap : gmap string EncounterStat)
    (i j : nat) (e : bufEntry) (s : Field R) : option (Field R) :=
  msg ← s_heap s !! be_msg e;
  if negb (st_DeliveredAt msg =? 0) then Some s
  else
    a ← node_at s i; b ← node_at s j;
    let id := st_ID msg in
    let given := give id (mkEntry (be_msg e) (wrap64 (be_hops e + 1))) in
    match Decide msg (sn_id a) (sn_id b) (statFor aSnap (st_Dst msg)) (statFor bSnap (st_Dst msg))
            (hasCopy b id) with
    | ActionDeliver =>
        let s := upd_msg (be_msg e) (set_st_Delivered tick) s in
        let s := set_delivered
          (<[id := mkDelivery (wrap64 (tick - st_CreatedAt msg)) (be_hops e)]> (s_delivered s)) s in
        Some (upd_node i (dropFrom (s_heap s) id) s)
    | ActionSpray =>
        let s := upd_msg (be_msg e) (set_st_Copies (wrap64 (st_CopiesMade msg + 1))) s in
        Some (upd_node j given s)
    | ActionHandoff =>
        let s := upd_node j given s in
        Some (upd_node i (dropFrom (s_heap s) id) s)
    | _ => Some s
    end.

Fixpoint offer_all (F : Forwarder) (tick : Z) (aSnap bSnap : gmap string EncounterStat)
    (i j : nat) (snapshot : list bufEntry) (s : Field R) : option (Field R) :=
  match snapshot with
  | [] => Some s
  | e :: snapshot =>
      s ← offer F tick aSnap bSnap i j e s;
      offer_all F tick aSnap bSnap i j snapshot s
  end.

Definition exchange (F : Forwarder) (tick : Z) (i j : nat) (snapshot : list bufEntry)
    (s : Field R) : option (Field R) :=
  a ← node_at s i; b ← node_at s j;
  offer_all F tick (sn_stats a) (sn_stats b) i j snapshot s.

(** The body of the loop over the contacts. *)
Definition meet (F : Forwarder) (tick : Z) (c : nat * nat) (s : Field R) : option (Field R) :=
  let '(i, j) := c in
  s ← updateEncounter i j tick s;
  s ← updateEncounter j i tick s;
  a ← node_at s i; b ← node_at s j;
  let aSnap := sn_buf a in
  let bSnap := sn_buf b in
  s ← exchange F tick i j aSnap s;
  exchange F tick j i bSnap s.

Fixpoint meet_all (F : Forwarder) (tick : Z) (cs : list (nat * nat)) (s : Field R)
    : option (Field R) :=
  match cs with
  | [] => Some s
  | c :: cs => s ← meet F tick c s; meet_all F tick cs s
  end.

(** The nodes in range of node [i], of those after it. *)
Fixpoint in_range (cfg : Config) (p : pos) (i j : nat) (ns : list snode) : list (nat * nat) :=
  match ns with
  | [] => []
  | n :: ns =>
      if fle (dist p (sn_pos n)) (cfg_RadioRange cfg)
      then (i, j) :: in_range cfg p i (S j) ns else in_range cfg p i (S j) ns
  end.
Fixpoint contacts (cfg : Config) (i : nat) (ns : list snode) : list (nat * nat) :=
  match ns with
  | [] => []
  | n :: ns => in_range cfg (sn_pos n) i (S i) ns ++ contacts cfg (S i) ns
  end.

(** ** Ageing and sweeping *)

(** The predictabilities of a node in the order of the sorted identifiers. *)
Definition age_node (n : snode) : snode :=
  let ids := merge_sort String.leb ((map_to_list (sn_stats n)).*1) in
  set_stats (foldl (fun stats id => alter (AgePredictability AgeUnits) id stats) (sn_stats n) ids) n.

Definition age_all (cs : list (nat * nat)) (ns : list snode) : list snode :=
  imap (fun i n => if bool_decide (i ∈ cs.*1 ++ cs.*2) then n else age_node n) ns.

Definition kept (h : list MessageState) (tick : Z) (e : bufEntry) : bool :=
  match h !! be_msg e with
  | Some m => negb (st_DeliveredAt m =? 0) || negb (Expired tick m)
  | None => false
  end.
Definition sweep_node (h : list MessageState) (tick : Z) (n : snode) : snode :=
  let buf := filter (fun e => kept h tick e = true) (sn_buf n) in
  set_buf buf (list_to_set (omap (entry_id h) buf)) n.

(** ** Run *)

Definition stride (cfg : Config) : Z :=
  if 1 <? cfg_Messages cfg
  then maxInt 1 (Z.quot (wrap64 (cfg_InjectionTo cfg - cfg_InjectionFrom cfg)) (cfg_Messages cfg - 1))
  else 1.

Definition injects (cfg : Config) (tick : Z) (s : Field R) : bool :=
  (s_injected s <? cfg_Messages cfg) && (cfg_InjectionFrom cfg <=? tick) &&
  (Z.rem (wrap64 (tick - cfg_InjectionFrom cfg)) (stride cfg) =? 0).

Definition inject (cfg : Config) (tick : Z) (s : Field R) : option (Field R) :=
  if negb (injects cfg tick s) then Some s
  else
    '(src, dst, rng) ← pickPair (s_rng s) (cfg_Nodes cfg);
    from ← node_at s (Z.to_nat src); to ← node_at s (Z.to_nat dst);
    let id := msg_id (s_msgSeq s) in
    let st := mkState id (sn_id from) (sn_id to) KindChat tick (cfg_TTL cfg) 1 0 in
    let l := length (s_heap s) in
    Some (mkField R (alter (give id (mkEntry l 0)) (Z.to_nat src) (s_nodes s)) (s_heap s ++ [st])
      (<[id := l]> (s_states s)) (s_delivered s) (wrap64 (s_injected s + 1))
      (wrap64 (s_msgSeq s + 1)) rng (s_reads s)).

Definition run_tick (cfg : Config) (F : Forwarder) (tick : Z) (s : Field R) : option (Field R) :=
  s ← inject cfg tick s;
  let '(ns, rng) := move_all cfg (s_nodes s) (s_rng s) in
  let s := mkField R ns (s_heap s) (s_states s) (s_delivered s) (s_injected s) (s_msgSeq s) rng
             (s_reads s) in
  let cs := contacts cfg 0 (s_nodes s) in
  s ← meet_all F tick cs s;
  let s := set_nodes (age_all cs (s_nodes s)) s in
  Some (set_nodes (sweep_node (s_heap s) tick <$> s_nodes s) s).

(** The first [n] ticks from [tick] on. *)
Fixpoint run_ticks (cfg : Config) (F : Forwarder) (n : nat) (tick : Z) (s : Field R)
    : option (Field R) :=
  match n with
  | O => Some s
  | S n => s ← run_tick cfg F tick s; run_ticks cfg F n (tick + 1) s
  end.

Fixpoint make_nodes (cfg : Config) (i : nat) (k : nat) (rng : R) : list snode * R :=
  match k with
  | O => ([], rng)
  | S k =>
      let '(x, rng) := rand_Float64 rng in
      let '(y, rng) := rand_Float64 rng in
      let '(n, rng) := newWaypoint cfg
        (mkSNode (node_id i) (mkPos (fmul x (cfg_AreaSize cfg)) (fmul y (cfg_AreaSize cfg)))
           (mkPos zero zero) zero ∅ [] ∅) rng in
      let '(ns, rng) := make_nodes cfg (S i) k rng in
      (n :: ns, rng)
  end.

Definition start_field (cfg : Config) : Field R :=
  let '(ns, rng) := make_nodes cfg 0 (Z.to_nat (cfg_Nodes cfg)) (NewSource (cfg_Seed cfg)) in
  mkField R ns [] ∅ ∅ 0 0 rng 0.

(** One message of the accounting loop. *)
Definition account (s : Field R) (o : Outcome) (id : string) : option Outcome :=
  l ← s_states s !! id; st ← s_heap s !! l;
  let copies := wrap64 (out_Copies o + st_CopiesMade st) in
  if 0 <? st_DeliveredAt st then
    let d := default (mkDelivery 0 0) (s_delivered s !! id) in
    Some (mkOutcome (out_Config o) (wrap64 (out_Delivered o + 1)) (out_Total o)
      (out_Latency o ++ [dl_latency d]) (out_Hops o ++ [dl_hops d]) copies)
  else Some (mkOutcome (out_Config o) (out_Delivered o) (out_Total o) (out_Latency o) (out_Hops o) copies).

Fixpoint account_all (s : Field R) (o : Outcome) (ids : list string) : option Outcome :=
  match ids with
  | [] => Some o
  | id :: ids => o ← account s o id; account_all s o ids
  end.

Definition accounting (cfg : Config) (s : Field R) : option Outcome :=
  account_all s (mkOutcome cfg 0 (s_injected s) [] [] 0)
    (merge_sort String.leb ((map_to_list (s_states s)).*1)).

Definition Run (cfg : Config) : outcome SimError Outcome :=
  if cfg_Nodes cfg <? 2 then Fail (ETooFewNodes (cfg_Nodes cfg))
  else if cfg_InjectionTo cfg <=? cfg_InjectionFrom cfg
  then Fail (EWindow (cfg_InjectionFrom cfg) (cfg_InjectionTo cfg))
  else
    match cfg_Forwarder cfg with
    | None => Fail ENoForwarder
    | Some F =>
        match s ← run_ticks cfg F (Z.to_nat (cfg_Duration cfg)) 0 (start_field cfg);
              accounting cfg s with
        | Some out => Ret out
        | None => Panic
        end
    end.

End Sim.

(** ** Examples *)

(** Three nodes in range of each other, two messages. *)
Definition sample_cfg : Config :=
  mkConfig 3 (of_int 10) (of_int 20) (of_int 1) (of_int 3) 2 1 5 20 10 7 (Some (SprayAndWait 2)).
Definition sample_visit (k : nat) (m : gmap string EncounterStat) : list (string * EncounterStat) :=
  map_to_list m.

(** Two nodes at the same place at tick 0, the first with a message for the second. *)
Definition tick0_node (id : string) (buf : list bufEntry) (has : gset string) : snode :=
  mkSNode id (mkPos zero zero) (mkPos zero zero) zero ∅ buf has.
Definition tick0_field : Field Z :=
  mkField Z [tick0_node "n00" [mkEntry 0 0] {["m000"%string]}; tick0_node "n01" [] ∅]
    [mkState "m000" "n00" "n01" KindChat 0 20 1 0] {["m000"%string := 0%nat]} ∅ 1 1 0 0.
