(* ===== verification/SimSpec.v ===== *)
(** * Properties of the simulator

    A run of a valid configuration ends with an outcome whose figures are sound; in
    every reachable state the physical copies of a message are accounted for, and
    spray-and-wait keeps them within its budget. *)

From S2P Require Import Prelude Float64 JsonText Routing Sim.

(** ** Vocabulary *)

(** What a forwarder promises the simulator: a copy is made or moved only to a peer
    that has none.  That keeps the copies within [L] when it makes one only below [L],
    or when [L] is no less than the number of nodes (and nothing is injected at tick 0,
    whose deliveries the simulator forgets). *)
Class Budgeted (cfg : Config) (F : Forwarder) (L : Z) : Prop := {
  spray_fresh m me peer a b h : Decide m me peer a b h = ActionSpray -> h = false;
  handoff_fresh m me peer a b h : Decide m me peer a b h = ActionHandoff -> h = false;
  spray_bound : (forall m me peer a b h, Decide m me peer a b h = ActionSpray -> st_CopiesMade m < L) \/
    0 < cfg_InjectionFrom cfg /\ cfg_Nodes cfg <= L
}.

(** A node's queue: its entries and the identifiers mirrored. *)
Abbreviation queue := (list bufEntry * gset string)%type.
Definition node_queue (n : snode) : queue := (sn_buf n, sn_has n).

(** The copies of message [k] in a queue, and in the whole field. *)
Definition holds (k : nat) (buf : list bufEntry) : nat := length (filter (fun e => be_msg e = k) buf).
Definition copies (k : nat) (qs : list queue) : nat := sum_list ((fun q => holds k q.1) <$> qs).

Definition wf_queue (h : list MessageState) (q : queue) : Prop :=
  NoDup (be_msg <$> q.1) /\ Forall (fun e => be_msg e < length h)%nat q.1 /\
  forall id, id ∈ q.2 <-> exists e, e ∈ q.1 /\ entry_id h e = Some id.

(** A message can be acted on only until its time to live is over. *)
Definition fresh (ttl t : Z) (m : MessageState) : Prop :=
  st_DeliveredAt m = 0 -> t - st_CreatedAt m <= Z.max 0 ttl.

Record wf_msg (L ttl t : Z) (k : nat) (m : MessageState) : Prop := mkWfMsg {
  wm_id : st_ID m = msg_id (Z.of_nat k);
  wm_copies : 1 <= st_CopiesMade m <= Z.max 1 L;
  wm_created : 0 <= st_CreatedAt m <= t;
  wm_ttl : st_TTL m = ttl;
  wm_delivered : st_DeliveredAt m = 0 \/ st_CreatedAt m <= st_DeliveredAt m <= t
}.

(** By the start of tick [t] the sweeps have taken an undelivered message out. *)
Definition gone (t : Z) (m : MessageState) : Prop :=
  st_CreatedAt m < t /\ st_TTL m <= t - 1 - st_CreatedAt m.

(** Until a message is delivered its copies are exactly those it counts, or it is gone. *)
Definition exact (t : Z) (k : nat) (qs : list queue) (m : MessageState) : Prop :=
  st_DeliveredAt m = 0 ->
  (gone t m -> copies k qs = 0%nat) /\ (~ gone t m -> Z.of_nat (copies k qs) = st_CopiesMade m).

(** The state between two steps of tick [t], in terms of the queues. *)
Record Inv (cfg : Config) (L t : Z) (qs : list queue) (h : list MessageState)
    (states : gmap string nat) (dl : gmap string delivery) (injected seq : Z) : Prop := mkInv {
  inv_nodes : Z.of_nat (length qs) = cfg_Nodes cfg;
  inv_queues : Forall (wf_queue h) qs;
  inv_msgs : forall k m, h !! k = Some m -> wf_msg L (cfg_TTL cfg) t k m;
  inv_copies : forall k m, h !! k = Some m -> Z.of_nat (copies k qs) <= st_CopiesMade m;
  inv_fresh : forall q e m, q ∈ qs -> e ∈ q.1 -> h !! be_msg e = Some m -> fresh (cfg_TTL cfg) t m;
  inv_states : forall id k, states !! id = Some k <-> exists m, h !! k = Some m /\ st_ID m = id;
  inv_delivered : forall k m, h !! k = Some m -> 0 < st_DeliveredAt m ->
    exists d, dl !! st_ID m = Some d /\ 0 <= dl_latency d <= Z.max 0 (cfg_TTL cfg);
  inv_injected : injected = Z.of_nat (length h) /\ seq = Z.of_nat (length h) /\
    Z.of_nat (length h) <= Z.max 0 (cfg_Messages cfg);
  inv_size : size states = length h;
  inv_since : forall k m, h !! k = Some m -> cfg_InjectionFrom cfg <= st_CreatedAt m;
  inv_exact : forall k m, h !! k = Some m -> 0 < st_CreatedAt m -> exact t k qs m
}.

Definition InvF {R} (cfg : Config) (L t : Z) (s : Field R) : Prop :=
  Inv cfg L t (node_queue <$> s_nodes s) (s_heap s) (s_states s) (s_delivered s)
    (s_injected s) (s_msgSeq s).

(** The integers of a configuration, and that the copies can be counted. *)
Definition wf_config (cfg : Config) (L : Z) : Prop :=
  is_int64 (cfg_Nodes cfg) /\ is_int64 (cfg_Messages cfg) /\ is_int64 (cfg_Duration cfg) /\
  is_int64 (cfg_TTL cfg) /\ is_int64 (cfg_InjectionFrom cfg) /\ is_int64 (cfg_InjectionTo cfg) /\
  is_int64 L /\ is_int64 (cfg_Messages cfg * Z.max 1 L).

(** ** Identifiers *)

Lemma digits_value_zeros k ds : digits_value (replicate k "0"%char ++ ds) = digits_value ds.
Proof. unfold digits_value. rewrite foldl_app. f_equal. by induction k. Qed.

Lemma pad_value w n : 0 <= n < 10 ^ 20 -> digits_value (pad w n) = n.
Proof.
  intros Hn. unfold pad. rewrite digits_value_zeros. unfold format_nat, digits_value.
  destruct (digits_loop_spec 20 n []) as (c & ds & E & _ & _ & Hv); [done | lia |].
  rewrite E, app_nil_r, Hv. lia.
Qed.

Lemma msg_id_inj a b : 0 <= a < 10 ^ 20 -> 0 <= b < 10 ^ 20 -> msg_id a = msg_id b -> a = b.
Proof.
  intros Ha Hb E. apply (f_equal str_bytes) in E. unfold msg_id in E. rewrite !str_bytes_str in E.
  injection E as E. apply (f_equal digits_value) in E. by rewrite !pad_value in E.
Qed.

(** ** Counting *)

Lemma holds_app k l1 l2 : holds k (l1 ++ l2) = (holds k l1 + holds k l2)%nat.
Proof. unfold holds. by rewrite filter_app, length_app. Qed.

Lemma holds_cons k e l : holds k (e :: l) = ((if decide (be_msg e = k) then 1 else 0) + holds k l)%nat.
Proof. unfold holds. rewrite filter_cons. by destruct (decide _). Qed.

Lemma holds_none k l : k ∉ be_msg <$> l -> holds k l = 0%nat.
Proof.
  induction l as [|e l IH]; [done |]. rewrite fmap_cons, not_elem_of_cons, holds_cons.
  intros [H1 H2]. rewrite decide_False by congruence. by apply IH.
Qed.

Lemma sum_alter {A} (f : A -> nat) (g : A -> A) i l x :
  l !! i = Some x -> (sum_list (f <$> alter g i l) + f x = sum_list (f <$> l) + f (g x))%nat.
Proof.
  revert i. induction l as [|y l IH]; intros [|i]; simpl; [done.. | |].
  - intros [= ->]. lia.
  - intros Hi. specialize (IH i Hi). unfold alter, fmap in *. lia.
Qed.

Lemma copies_alter k g i qs q :
  qs !! i = Some q ->
  (copies k (alter g i qs) + holds k q.1 = copies k qs + holds k (g q).1)%nat.
Proof. apply (sum_alter (fun q => holds k q.1)). Qed.

Lemma copies_map (rel : nat -> nat -> Prop) k g (qs : list queue) :
  rel 0%nat 0%nat -> (forall a b c d, rel a b -> rel c d -> rel (a + c) (b + d))%nat ->
  (forall q, rel (holds k (g q).1) (holds k q.1)) -> rel (copies k (g <$> qs)) (copies k qs).
Proof.
  intros H0 Hadd Hg. unfold copies. induction qs as [|q qs IH]; [done |]. rewrite !fmap_cons.
  cbn [sum_list_with]. unfold id in *. cbv beta. by apply Hadd.
Qed.

Lemma copies_le k g (qs : list queue) :
  (forall q, holds k (g q).1 <= holds k q.1)%nat -> (copies k (g <$> qs) <= copies k qs)%nat.
Proof. apply (copies_map le); lia. Qed.

Lemma copies_same k g (qs : list queue) :
  (forall q, holds k (g q).1 = holds k q.1) -> copies k (g <$> qs) = copies k qs.
Proof. apply (copies_map eq); lia. Qed.

Lemma copies_gone k g (qs : list queue) : (forall q, holds k (g q).1 = 0%nat) -> copies k (g <$> qs) = 0%nat.
Proof. apply (copies_map (fun a _ => a = 0%nat)); lia. Qed.

(** A queue holds one copy at most, so the copies are at most the queues. *)
Lemma holds_in k (l : list bufEntry) : k ∈ be_msg <$> l -> (0 < holds k l)%nat.
Proof.
  induction l as [|e l IH]; [by intros ?%not_elem_of_nil |]. rewrite fmap_cons, elem_of_cons, holds_cons.
  intros [-> | H]; [rewrite decide_True by done; lia | specialize (IH H); lia].
Qed.

Lemma holds_NoDup k (l : list bufEntry) : NoDup (be_msg <$> l) -> (holds k l <= 1)%nat.
Proof.
  induction l as [|e l IH]; [cbv; lia |]. rewrite fmap_cons, holds_cons. intros [H1 H2]%NoDup_cons.
  destruct (decide (be_msg e = k)) as [<-|]; [rewrite holds_none by done; lia | auto].
Qed.

Lemma copies_length k (qs : list queue) :
  Forall (fun q => NoDup (be_msg <$> q.1)) qs -> (copies k qs <= length qs)%nat.
Proof.
  induction 1 as [|q qs Hq _ IH]; [done |]. apply (holds_NoDup k) in Hq.
  unfold copies in *. rewrite fmap_cons. cbn [sum_list sum_list_with length]. unfold id in *. lia.
Qed.

Lemma copies_below k (qs : list queue) j q :
  Forall (fun q => NoDup (be_msg <$> q.1)) qs -> qs !! j = Some q -> k ∉ be_msg <$> q.1 ->
  (copies k qs < length qs)%nat.
Proof.
  intros Hqs Hq Hk. apply holds_none in Hk.
  pose proof (copies_alter k (fun _ => ([mkEntry k 0], ∅)) j qs q Hq) as Hc. rewrite Hk in Hc.
  cbn [fst] in Hc. rewrite holds_cons, decide_True in Hc by done.
  enough (copies k (alter (fun _ => ([mkEntry k 0], ∅)) j qs) <= length qs)%nat by lia.
  rewrite <- (length_alter (fun _ => ([mkEntry k 0], ∅)) qs j). apply copies_length, list.Forall_lookup.
  intros i x. destruct (decide (i = j)) as [->|].
  - rewrite list_lookup_alter_eq, Hq. intros [= <-]. apply NoDup_singleton.
  - rewrite list_lookup_alter_ne by done. intros Hx. exact (list.Forall_lookup_1 _ _ _ _ Hqs Hx).
Qed.

Lemma copies_at k (qs : list queue) i q : qs !! i = Some q -> k ∈ be_msg <$> q.1 -> (0 < copies k qs)%nat.
Proof.
  intros Hq Hk%holds_in. pose proof (copies_alter k (fun _ => ([], ∅)) i qs q Hq). cbn in *. lia.
Qed.

(** ** Queues *)

(** A heap with the same identifiers. *)
Definition same_ids (h h' : list MessageState) : Prop :=
  length h' = length h /\ forall k, st_ID <$> h' !! k = st_ID <$> h !! k.

Lemma same_ids_alter f k h : (forall m, st_ID (f m) = st_ID m) -> same_ids h (alter f k h).
Proof.
  intros Hf. split; [apply length_alter |]. intros k'. destruct (decide (k = k')) as [<-|].
  - rewrite list_lookup_alter_eq. destruct (h !! k); simpl; [by rewrite Hf | done].
  - by rewrite list_lookup_alter_ne.
Qed.

Lemma wf_queue_same h h' q : same_ids h h' -> wf_queue h q -> wf_queue h' q.
Proof.
  intros [Hl Hid] (H1 & H2 & H3). split; [done |]. split; [by rewrite Hl |].
  intros id. rewrite H3. unfold entry_id. setoid_rewrite Hid. done.
Qed.

Definition give_queue (id : string) (e : bufEntry) (q : queue) : queue := (q.1 ++ [e], {[id]} ∪ q.2).
Definition drop_queue (h : list MessageState) (id : string) (q : queue) : queue :=
  match drop_first h id q.1 with Some buf => (buf, q.2 ∖ {[id]}) | None => q end.

Lemma node_queue_give id e n : node_queue (give id e n) = give_queue id e (node_queue n).
Proof. done. Qed.

Lemma node_queue_drop h id n : node_queue (dropFrom h id n) = drop_queue h id (node_queue n).
Proof. unfold dropFrom, drop_queue. simpl. by destruct (drop_first h id (sn_buf n)). Qed.

Lemma wf_queue_give h q e id :
  wf_queue h q -> (be_msg e < length h)%nat -> entry_id h e = Some id -> id ∉ q.2 ->
  wf_queue h (give_queue id e q).
Proof.
  intros (H1 & H2 & H3) He Hid Hn. split_and!; simpl.
  - rewrite fmap_app. apply NoDup_app. split_and!; [done | | apply NoDup_singleton].
    intros k Hk ->%list_elem_of_singleton. apply list_elem_of_fmap in Hk as (e' & Ee & He').
    apply Hn, H3. exists e'. split; [done |]. unfold entry_id in *. by rewrite <- Ee.
  - apply Forall_app. by split; [| apply Forall_singleton].
  - intros id'. rewrite elem_of_union, elem_of_singleton, H3. setoid_rewrite elem_of_app.
    setoid_rewrite list_elem_of_singleton. split.
    + intros [-> | (e' & ? & ?)]; eauto.
    + intros (e' & [? | ->] & ?); [eauto | left; congruence].
Qed.

(** The identifiers of a heap tell its messages apart. *)
Definition ids_inj (h : list MessageState) : Prop :=
  forall k k' m m', h !! k = Some m -> h !! k' = Some m' -> st_ID m = st_ID m' -> k = k'.

Lemma drop_first_spec h k m buf :
  ids_inj h -> h !! k = Some m -> NoDup (be_msg <$> buf) ->
  match drop_first h (st_ID m) buf with
  | Some buf' => exists e pre post, buf = pre ++ e :: post /\ buf' = pre ++ post /\ be_msg e = k
  | None => k ∉ be_msg <$> buf
  end.
Proof.
  intros Hinj Hk. induction buf as [|e buf IH]; cbn [drop_first]; [intros _; apply not_elem_of_nil |].
  rewrite fmap_cons, NoDup_cons. intros [_ Hnd]. specialize (IH Hnd).
  case_bool_decide as He.
  - exists e, [], buf. split_and!; [done.. |]. unfold entry_id in He.
    destruct (h !! be_msg e) as [m'|] eqn:E; [| done]. injection He as He. by eapply Hinj.
  - assert (be_msg e <> k) as Hne by (intros <-; apply He; unfold entry_id; by rewrite Hk).
    destruct (drop_first h (st_ID m) buf) as [buf'|]; simpl.
    + destruct IH as (e' & pre & post & -> & -> & <-). by exists e', (e :: pre), post.
    + rewrite not_elem_of_cons. by split.
Qed.

(** Dropping keeps a queue well formed, takes out the entry for [k], and no other. *)
Lemma drop_queue_spec h k m q :
  ids_inj h -> h !! k = Some m -> wf_queue h q ->
  let q' := drop_queue h (st_ID m) q in
  wf_queue h q' /\ (forall e, e ∈ q'.1 -> e ∈ q.1) /\
  (forall k', k' <> k -> k' ∈ be_msg <$> q.1 -> k' ∈ be_msg <$> q'.1) /\
  (forall k', k' <> k -> holds k' q'.1 = holds k' q.1) /\
  (k ∈ be_msg <$> q.1 -> (holds k q'.1 + 1 = holds k q.1)%nat).
Proof.
  intros Hinj Hk Hq. pose proof Hq as (H1 & H2 & H3). unfold drop_queue.
  pose proof (drop_first_spec h k m q.1 Hinj Hk H1) as Hd.
  destruct (drop_first h (st_ID m) q.1) as [buf|]; [| split_and!; done || lia].
  destruct Hd as (e & pre & post & Eq & -> & <-). rewrite Eq in H1, H2. cbn [fst snd].
  assert (forall k', holds k' q.1 = ((if decide (be_msg e = k') then 1 else 0) + holds k' (pre ++ post))%nat) as Hc.
  { intros k'. rewrite Eq, !holds_app, holds_cons. lia. }
  assert (Hsub : forall x, x ∈ pre ++ post -> x ∈ q.1) by (intros x; rewrite Eq; set_solver).
  rewrite fmap_app, fmap_cons in H1.
  split; [split_and!; cbn [fst snd] |].
  - rewrite fmap_app. apply NoDup_app in H1 as (A & B & C). apply NoDup_app.
    apply NoDup_cons in C as [C1 C2]. split_and!; [done | set_solver | done].
  - apply Forall_app in H2 as [A B]. apply Forall_cons in B as [_ B]. by apply Forall_app.
  - intros id. rewrite elem_of_difference, elem_of_singleton, H3. split.
    + intros [(x & Hx & Hid) Hne]. exists x. split; [| done]. rewrite Eq in Hx.
      apply elem_of_app in Hx as [|[->|]%elem_of_cons]; [set_solver | | set_solver].
      exfalso. apply Hne. unfold entry_id in Hid. rewrite Hk in Hid. by injection Hid as <-.
    + intros (x & Hx & Hid). split; [eauto |]. intros ->. unfold entry_id in Hid.
      destruct (h !! be_msg x) as [mx|] eqn:Ex; [| done]. injection Hid as Hid.
      assert (be_msg x = be_msg e) as E by by eapply Hinj.
      apply NoDup_app in H1 as (_ & B & C). apply NoDup_cons in C as [C1 _].
      apply elem_of_app in Hx as [Hx|Hx].
      * apply (B (be_msg x)); [by apply list_elem_of_fmap_2 |]. rewrite E. left.
      * apply C1. rewrite <- E. by apply list_elem_of_fmap_2.
  - split_and!; [done | | intros k' Hne; rewrite Hc, decide_False by congruence; lia |].
    + intros k' Hne. rewrite Eq, !fmap_app, fmap_cons. set_solver.
    + intros _. rewrite Hc, decide_True by done. lia.
Qed.

(** ** The invariant under each action *)

Section Actions.
Context (cfg : Config) (L : Z) (Hcfg : wf_config cfg L).

Lemma Inv_ids_inj t qs h states dl i sq : Inv cfg L t qs h states dl i sq -> ids_inj h.
Proof.
  intros HI k k' m m' Hk Hk' E. destruct HI as [_ _ Hm _ _ _ _ (_ & _ & Hlen) _ _ _].
  destruct Hcfg as (_ & Hmsg & _). apply lookup_lt_Some in Hk as Hl, Hk' as Hl'.
  rewrite (wm_id _ _ _ _ _ (Hm _ _ Hk)), (wm_id _ _ _ _ _ (Hm _ _ Hk')) in E.
  assert (two63 < 10 ^ 20) by reflexivity.
  apply Nat2Z.inj, msg_id_inj; [int_lia.. | exact E].
Qed.

Lemma Inv_length t qs h states dl i sq :
  Inv cfg L t qs h states dl i sq -> Z.of_nat (length h) < two63.
Proof.
  intros [_ _ _ _ _ _ _ (_ & _ & Hlen) _ _ _]. destruct Hcfg as (_ & Hmsg & _). int_lia.
Qed.

(** One action: message [k] becomes [m'], the queues become [qs'], and what is
    recorded of [k]'s delivery may change. *)
Lemma Inv_act t qs qs' h states dl dl' inj sq k m m' :
  Inv cfg L t qs h states dl inj sq -> h !! k = Some m ->
  st_ID m' = st_ID m -> wf_msg L (cfg_TTL cfg) t k m' ->
  (fresh (cfg_TTL cfg) t m -> fresh (cfg_TTL cfg) t m') ->
  length qs' = length qs -> Forall (wf_queue (<[k := m']> h)) qs' ->
  (forall q e, q ∈ qs' -> e ∈ q.1 -> exists q0 e0, q0 ∈ qs /\ e0 ∈ q0.1 /\ be_msg e0 = be_msg e) ->
  (forall k', k' <> k -> copies k' qs' = copies k' qs) ->
  Z.of_nat (copies k qs') <= Z.of_nat (copies k qs) + (st_CopiesMade m' - st_CopiesMade m) ->
  st_CreatedAt m' = st_CreatedAt m ->
  (0 < st_CreatedAt m -> st_DeliveredAt m' = 0 -> st_DeliveredAt m = 0 /\ (0 < copies k qs)%nat /\
     Z.of_nat (copies k qs') = Z.of_nat (copies k qs) + (st_CopiesMade m' - st_CopiesMade m)) ->
  (forall id, id <> st_ID m -> dl' !! id = dl !! id) ->
  (0 < st_DeliveredAt m' -> exists d, dl' !! st_ID m = Some d /\ 0 <= dl_latency d <= Z.max 0 (cfg_TTL cfg)) ->
  Inv cfg L t qs' (<[k := m']> h) states dl' inj sq.
Proof.
  intros HI Hm Hid Hwf Hfr Hlen Hqs Hin Hc Hck Hcr Hex Hdl Hdv. pose proof (Inv_ids_inj _ _ _ _ _ _ _ HI) as Hinj.
  destruct HI as [I1 I2 I3 I4 I5 I6 I7 I8 I9 I10 I11]. apply lookup_lt_Some in Hm as Hk.
  assert (forall k2 m2, <[k := m']> h !! k2 = Some m2 -> k2 = k /\ m2 = m' \/ k2 <> k /\ h !! k2 = Some m2) as Hh.
  { intros k2 m2 H2. apply list_lookup_insert_Some in H2 as [(<- & -> & _) | [? ?]]; auto. }
  split.
  - by rewrite Hlen.
  - done.
  - intros k2 m2 H2. destruct (Hh _ _ H2) as [[-> ->] | [_ H3]]; auto.
  - intros k2 m2 H2. destruct (Hh _ _ H2) as [[-> ->] | [Hne H3]].
    + specialize (I4 _ _ Hm). lia.
    + rewrite Hc by done. by apply I4.
  - intros q e m2 Hq He H2. destruct (Hin _ _ Hq He) as (q0 & e0 & Hq0 & He0 & Ee).
    rewrite <- Ee in H2. destruct (Hh _ _ H2) as [[E ->] | [_ H3]]; [| by eapply I5].
    apply Hfr. eapply I5; [exact Hq0 | exact He0 | by rewrite E].
  - intros id k2. rewrite I6. destruct (decide (k2 = k)) as [->|].
    + rewrite list_lookup_insert_eq by done. split; intros (x & Hx & <-); [exists m' | exists m];
        (split; [done | congruence]).
    + by rewrite list_lookup_insert_ne.
  - intros k2 m2 H2 Hpos. destruct (Hh _ _ H2) as [[-> ->] | [Hne H3]].
    + rewrite Hid. auto.
    + rewrite Hdl; [by eapply I7 |]. intros E. by apply Hne, (Hinj _ _ _ _ H3 Hm).
  - by rewrite length_insert.
  - by rewrite length_insert.
  - intros k2 m2 H2. destruct (Hh _ _ H2) as [[-> ->] | [Hne H3]]; [rewrite Hcr |]; by eapply I10.
  - intros k2 m2 H2 Hpos2. destruct (Hh _ _ H2) as [[-> ->] | [Hne H3]].
    + rewrite Hcr in Hpos2. intros Hd'. destruct (Hex Hpos2 Hd') as (Hd & Hpos & E).
      destruct (I11 _ _ Hm Hpos2 Hd) as [Hg Hn].
      pose proof (wm_ttl _ _ _ _ _ Hwf) as Ht'. pose proof (wm_ttl _ _ _ _ _ (I3 _ _ Hm)) as Ht.
      assert (gone t m' <-> gone t m) as -> by (unfold gone; by rewrite Hcr, Ht', Ht).
      split; intros Hgone; [specialize (Hg Hgone) | specialize (Hn Hgone)]; lia.
    + unfold exact. rewrite Hc by done. by apply I11.
Qed.

(** Entries of the queues after queue [i] is changed by [g]. *)
Lemma alter_entries (qs : list queue) i (g : queue -> queue) (P : bufEntry -> Prop) :
  (forall q e, q ∈ qs -> e ∈ q.1 -> P e) ->
  (forall q e, qs !! i = Some q -> e ∈ (g q).1 -> P e) ->
  forall q e, q ∈ alter g i qs -> e ∈ q.1 -> P e.
Proof.
  intros H1 H2 q e Hq He. apply list_elem_of_lookup in Hq as [k Hk].
  destruct (decide (k = i)) as [->|].
  - rewrite list_lookup_alter_eq in Hk. destruct (qs !! i) as [q0|] eqn:E; [| done].
    injection Hk as <-. by eapply H2.
  - rewrite list_lookup_alter_ne in Hk by done. eapply H1; [by eapply list_elem_of_lookup_2 | done].
Qed.

Lemma Forall_alter_at {A} (P : A -> Prop) g i (l : list A) :
  Forall P l -> (forall x, l !! i = Some x -> P (g x)) -> Forall P (alter g i l).
Proof.
  intros Hl Hg. apply list.Forall_lookup. intros k x. destruct (decide (k = i)) as [->|].
  - rewrite list_lookup_alter_eq. destruct (l !! i) eqn:E; intros [= <-]. by apply Hg.
  - rewrite list_lookup_alter_ne by done. by apply list.Forall_lookup_1.
Qed.

(** Entry [e] is held by queue [i], and its message [m] is still undelivered. *)
Record held (t : Z) (qs : list queue) (h : list MessageState) (i : nat) (e : bufEntry)
    (m : MessageState) (q : queue) : Prop := mkHeld {
  hd_queue : qs !! i = Some q;
  hd_entry : be_msg e ∈ be_msg <$> q.1;
  hd_msg : h !! be_msg e = Some m;
  hd_open : st_DeliveredAt m = 0
}.

Lemma held_latency t qs h states dl inj sq i e m q :
  Inv cfg L t qs h states dl inj sq -> held t qs h i e m q ->
  wf_msg L (cfg_TTL cfg) t (be_msg e) m /\ 0 <= t - st_CreatedAt m <= Z.max 0 (cfg_TTL cfg).
Proof.
  intros HI [Hq He Hm Hd]. pose proof (inv_msgs _ _ _ _ _ _ _ _ _ HI _ _ Hm) as Hw. split; [done |].
  apply list_elem_of_fmap in He as (e0 & Ee & He0).
  pose proof (wm_created _ _ _ _ _ Hw).
  assert (fresh (cfg_TTL cfg) t m) as Hf
    by (eapply (inv_fresh _ _ _ _ _ _ _ _ _ HI); [by eapply list_elem_of_lookup_2 | exact He0 | by rewrite <- Ee]).
  specialize (Hf Hd). lia.
Qed.

(** The queues are well formed over the changed heap too. *)
Lemma queues_same t qs h states dl inj sq k m m' :
  Inv cfg L t qs h states dl inj sq -> h !! k = Some m -> st_ID m' = st_ID m ->
  Forall (wf_queue (<[k := m']> h)) qs /\ ids_inj (<[k := m']> h) /\ <[k := m']> h !! k = Some m'.
Proof.
  intros HI Hm Hid. apply lookup_lt_Some in Hm as Hk.
  assert (same_ids h (<[k := m']> h)) as Hs.
  { split; [apply length_insert |]. intros k'. destruct (decide (k = k')) as [<-|].
    - rewrite list_lookup_insert_eq, Hm by done. simpl. by rewrite Hid.
    - by rewrite list_lookup_insert_ne. }
  split_and!.
  - eapply Forall_impl; [exact (inv_queues _ _ _ _ _ _ _ _ _ HI) |]. intros. by eapply wf_queue_same.
  - intros k1 k2 m1 m2 H1 H2 E. pose proof (Inv_ids_inj _ _ _ _ _ _ _ HI) as Hinj. destruct Hs as [_ Hs].
    pose proof (Hs k1) as E1. pose proof (Hs k2) as E2. rewrite H1 in E1. rewrite H2 in E2. simpl in E1, E2.
    destruct (h !! k1) eqn:N1; [| done]. destruct (h !! k2) eqn:N2; [| done].
    simpl in E1, E2. eapply Hinj; [exact N1 | exact N2 | congruence].
  - by rewrite list_lookup_insert_eq.
Qed.

(** A copy is handed over for good: the message is delivered. *)
Lemma Inv_deliver t qs h states dl inj sq i e m q :
  is_int64 t -> Inv cfg L t qs h states dl inj sq -> held t qs h i e m q ->
  let h' := <[be_msg e := set_st_Delivered t m]> h in
  Inv cfg L t (alter (drop_queue h' (st_ID m)) i qs) h' states
    (<[st_ID m := mkDelivery (wrap64 (t - st_CreatedAt m)) (be_hops e)]> dl) inj sq.
Proof.
  intros Ht HI Hh h'. destruct (held_latency _ _ _ _ _ _ _ _ _ _ _ HI Hh) as [Hw Hlat].
  destruct Hh as [Hq He Hm Hd].
  destruct (queues_same _ _ _ _ _ _ _ _ _ (set_st_Delivered t m) HI Hm eq_refl) as (Hall & Hinj & Hm').
  destruct (drop_queue_spec h' (be_msg e) _ q Hinj Hm' (list.Forall_lookup_1 _ _ _ _ Hall Hq)) as (D1 & D2 & _ & D4 & D5).
  pose proof (copies_at _ _ _ _ Hq He) as Hpos.
  assert (forall k, (copies k (alter (drop_queue h' (st_ID m)) i qs) + holds k q.1
    = copies k qs + holds k (drop_queue h' (st_ID m) q).1)%nat) as Hc by (intros k; by apply copies_alter).
  eapply Inv_act; [exact HI | exact Hm | done | | | apply length_alter | | | | | done | | |].
  - destruct Hw. split; simpl; try done. lia.
  - intros _ _. simpl. lia.
  - apply Forall_alter_at; [done |]. intros x Hx. by simplify_eq.
  - apply alter_entries; [eauto |]. intros x e' Hx He'. simplify_eq. exists q, e'.
    split_and!; [by eapply list_elem_of_lookup_2 | by apply D2 | done].
  - intros k Hne. specialize (Hc k). specialize (D4 k Hne). simpl in *. lia.
  - specialize (Hc (be_msg e)). specialize (D5 He). simpl in *. lia.
  - intros Hcr. simpl. destruct Hw as [_ _ [_ Hle] _ _]. lia.
  - intros id Hne. by rewrite lookup_insert_ne.
  - intros _. rewrite lookup_insert_eq. eexists. split; [done |]. simpl. rewrite wrap64_id; [done |].
    destruct Hcfg as (_ & _ & _ & Httl & _). int_lia.
Qed.

(** What queue [j] is given: a copy it does not have. *)
Lemma give_queue_spec t qs h states dl inj sq j e hops m m' q :
  Inv cfg L t qs h states dl inj sq -> qs !! j = Some q -> h !! be_msg e = Some m ->
  st_ID m' = st_ID m -> st_ID m ∉ q.2 ->
  wf_queue (<[be_msg e := m']> h) (give_queue (st_ID m) (mkEntry (be_msg e) hops) q) /\
  forall k, holds k (give_queue (st_ID m) (mkEntry (be_msg e) hops) q).1
            = (holds k q.1 + if decide (k = be_msg e) then 1 else 0)%nat.
Proof.
  intros HI Hq Hm Hid Hn. destruct (queues_same _ _ _ _ _ _ _ _ _ m' HI Hm Hid) as (Hall & Hinj & Hm').
  split.
  - apply wf_queue_give; [by eapply list.Forall_lookup_1 | | | done].
    + simpl. rewrite length_insert. by eapply lookup_lt_Some.
    + unfold entry_id. simpl. rewrite Hm'. simpl. by rewrite Hid.
  - intros k. simpl. rewrite holds_app, holds_cons. simpl. change (holds k []) with 0%nat.
    destruct (decide (be_msg e = k)), (decide (k = be_msg e)); congruence || lia.
Qed.

(** A new copy is made. *)
Lemma Inv_spray t qs h states dl inj sq i j e hops m q r :
  Inv cfg L t qs h states dl inj sq -> held t qs h i e m q ->
  qs !! j = Some r -> st_ID m ∉ r.2 -> st_CopiesMade m < L ->
  Inv cfg L t (alter (give_queue (st_ID m) (mkEntry (be_msg e) hops)) j qs)
    (<[be_msg e := set_st_Copies (wrap64 (st_CopiesMade m + 1)) m]> h) states dl inj sq.
Proof.
  intros HI Hh Hr Hn HL. destruct (held_latency _ _ _ _ _ _ _ _ _ _ _ HI Hh) as [Hw Hlat].
  destruct Hh as [Hq He Hm Hd]. set (m' := set_st_Copies _ m).
  assert (st_CopiesMade m' = st_CopiesMade m + 1) as Hc'.
  { simpl. destruct Hcfg as (_ & _ & _ & _ & _ & _ & HL64 & _). destruct Hw as [_ [Hc0 _] _ _ _].
    apply wrap64_id. int_lia. }
  destruct (give_queue_spec _ _ _ _ _ _ _ _ _ hops _ m' _ HI Hr Hm eq_refl Hn) as [G1 G2].
  destruct (queues_same _ _ _ _ _ _ _ _ _ m' HI Hm eq_refl) as (Hall & _).
  pose proof (copies_at _ _ _ _ Hq He) as Hpos.
  pose proof (fun k => copies_alter k (give_queue (st_ID m) (mkEntry (be_msg e) hops)) j qs r Hr) as Hc.
  setoid_rewrite G2 in Hc. apply list_elem_of_fmap in He as (e0 & Ee & He0).
  eapply Inv_act; [exact HI | exact Hm | done | | done | apply length_alter | | | | | done | | done |].
  - destruct Hw. split; try done. lia.
  - apply Forall_alter_at; [done |]. intros x Hx. by simplify_eq.
  - apply alter_entries; [eauto |]. intros x e' Hx He'. simplify_eq.
    apply elem_of_app in He' as [He' | ->%list_elem_of_singleton].
    + exists r, e'. split_and!; [by eapply list_elem_of_lookup_2 | done..].
    + exists q, e0. split_and!; [by eapply list_elem_of_lookup_2 | done | done].
  - intros k Hne. specialize (Hc k). rewrite decide_False in Hc by done. lia.
  - specialize (Hc (be_msg e)). rewrite decide_True in Hc by done. rewrite Hc'. lia.
  - intros _ _. specialize (Hc (be_msg e)). rewrite decide_True in Hc by done.
    rewrite Hc'. split_and!; done || lia.
  - intros Hdel. change (0 < st_DeliveredAt m) in Hdel. lia.
Qed.

(** A copy moves. *)
Lemma Inv_handoff t qs h states dl inj sq i j e hops m q r :
  Inv cfg L t qs h states dl inj sq -> held t qs h i e m q ->
  i <> j -> qs !! j = Some r -> st_ID m ∉ r.2 ->
  Inv cfg L t (alter (drop_queue h (st_ID m)) i
    (alter (give_queue (st_ID m) (mkEntry (be_msg e) hops)) j qs)) h states dl inj sq.
Proof.
  intros HI Hh Hij Hr Hn. destruct (held_latency _ _ _ _ _ _ _ _ _ _ _ HI Hh) as [Hw Hlat].
  destruct Hh as [Hq He Hm Hd].
  destruct (give_queue_spec _ _ _ _ _ _ _ _ _ hops _ m _ HI Hr Hm eq_refl Hn) as [G1 G2].
  destruct (queues_same _ _ _ _ _ _ _ _ _ m HI Hm eq_refl) as (Hall & Hinj & Hm').
  set (qs1 := alter _ j qs). assert (qs1 !! i = Some q) as Hq1 by (unfold qs1; by rewrite list_lookup_alter_ne).
  rewrite (list_insert_id h) in * by done.
  destruct (drop_queue_spec h (be_msg e) _ q Hinj Hm (list.Forall_lookup_1 _ _ _ _ Hall Hq)) as (D1 & D2 & _ & D4 & D5).
  pose proof (copies_at _ _ _ _ Hq He) as Hpos. specialize (D5 He).
  assert (forall k, copies k (alter (drop_queue h (st_ID m)) i qs1) = copies k qs) as Hcopies.
  { intros k. pose proof (copies_alter k (drop_queue h (st_ID m)) i qs1 q Hq1) as Hc1.
    pose proof (copies_alter k (give_queue (st_ID m) (mkEntry (be_msg e) hops)) j qs r Hr) as Hc2.
    rewrite G2 in Hc2. fold qs1 in Hc2. specialize (D4 k). destruct (decide (k = be_msg e)) as [->|]; lia. }
  apply list_elem_of_fmap in He as (e0 & Ee & He0).
  rewrite <- (list_insert_id h (be_msg e) m) at 2 by done.
  eapply Inv_act; [exact HI | exact Hm | done | done | done | by unfold qs1; rewrite !length_alter | | | | | done | | done |].
  - rewrite list_insert_id by done. apply Forall_alter_at.
    + apply Forall_alter_at; [done |]. intros x Hx. by simplify_eq.
    + intros x Hx. by simplify_eq.
  - apply alter_entries.
    + apply alter_entries; [eauto |]. intros x e' Hx He'. simplify_eq.
      apply elem_of_app in He' as [He' | ->%list_elem_of_singleton].
      * exists r, e'. split_and!; [by eapply list_elem_of_lookup_2 | done..].
      * exists q, e0. split_and!; [by eapply list_elem_of_lookup_2 | done | done].
    + intros x e' Hx He'. simplify_eq. exists q, e'.
      split_and!; [by eapply list_elem_of_lookup_2 | by apply D2 | done].
  - intros k _. apply Hcopies.
  - rewrite Hcopies. lia.
  - intros _ _. rewrite Hcopies. split_and!; done || lia.
  - intros Hdel. lia.
Qed.
End Actions.

(** ** Meetings *)

Lemma alter_as_insert {A} (f : A -> A) k (l : list A) x : l !! k = Some x -> alter f k l = <[k := f x]> l.
Proof.
  intros Hk. apply lookup_lt_Some in Hk as Hl. apply list_eq. intros j. destruct (decide (j = k)) as [->|].
  - by rewrite list_lookup_alter_eq, list_lookup_insert_eq, Hk.
  - by rewrite list_lookup_alter_ne, list_lookup_insert_ne.
Qed.

Section Meetings.
Context {R : Type} `{!Rand R}.
Context (visit : nat -> gmap string EncounterStat -> list (string * EncounterStat)).
Context (cfg : Config) (L : Z) (Hcfg : wf_config cfg L) (F : Forwarder) (HF : Budgeted cfg F L).

(** Node [i] holds a copy of message [k]. *)
Definition onboard (k i : nat) (s : Field R) : Prop :=
  exists n, node_at s i = Some n /\ k ∈ be_msg <$> sn_buf n.

(** [s'] has the nodes of [s], and those of message [k]'s copies that [P] asks for. *)
Definition retains (P : nat -> nat -> Prop) (s s' : Field R) : Prop :=
  length (s_nodes s') = length (s_nodes s) /\ forall k i, P k i -> onboard k i s -> onboard k i s'.

Lemma node_at_length (s s' : Field R) i n :
  length (s_nodes s') = length (s_nodes s) -> node_at s i = Some n -> is_Some (node_at s' i).
Proof. unfold node_at. intros Hl Hn. apply lookup_lt_is_Some. rewrite Hl. by eapply lookup_lt_Some. Qed.

Lemma queue_at (s : Field R) i n :
  node_at s i = Some n -> (node_queue <$> s_nodes s) !! i = Some (node_queue n).
Proof. unfold node_at. intros Hn. by rewrite list_lookup_fmap, Hn. Qed.

Lemma queues_alter (s : Field R) i f g :
  (forall n, node_queue (f n) = g (node_queue n)) ->
  node_queue <$> alter f i (s_nodes s) = alter g i (node_queue <$> s_nodes s).
Proof. intros Hf. apply list_fmap_alter, list.Forall_forall. auto. Qed.

Lemma retains_alter (P : nat -> nat -> Prop) (s : Field R) h d i f :
  (forall n k, node_at s i = Some n -> P k i -> k ∈ be_msg <$> sn_buf n -> k ∈ be_msg <$> sn_buf (f n)) ->
  retains P s (set_nodes (alter f i (s_nodes s)) (set_heap h (set_delivered d s))).
Proof.
  intros Hf. split; [apply length_alter |]. intros k j HP (n & Hn & Hk). unfold onboard, node_at in *. simpl.
  destruct (decide (j = i)) as [->|].
  - rewrite list_lookup_alter_eq, Hn. eexists. split; [done |]. by apply Hf.
  - rewrite list_lookup_alter_ne by done. eauto.
Qed.

Lemma give_keeps id e n k : k ∈ be_msg <$> sn_buf n -> k ∈ be_msg <$> sn_buf (give id e n).
Proof. simpl. rewrite fmap_app. set_solver. Qed.

Lemma drop_keeps h k0 m n k : ids_inj h -> h !! k0 = Some m -> wf_queue h (node_queue n) -> k <> k0 ->
  k ∈ be_msg <$> sn_buf n -> k ∈ be_msg <$> sn_buf (dropFrom h (st_ID m) n).
Proof.
  intros Hi Hl Hw Hne Hk. change (sn_buf (dropFrom h (st_ID m) n)) with (node_queue (dropFrom h (st_ID m) n)).1.
  rewrite node_queue_drop. by apply (drop_queue_spec h k0 m).
Qed.

(** A copy that can be acted on: carrier, message and the facts about them. *)
Lemma onboard_held t i e (s : Field R) : InvF cfg L t s -> onboard (be_msg e) i s ->
  exists a m, node_at s i = Some a /\ s_heap s !! be_msg e = Some m /\
    (st_DeliveredAt m = 0 -> held t (node_queue <$> s_nodes s) (s_heap s) i e m (node_queue a)).
Proof.
  intros HI (a & Ha & He). pose proof (queue_at _ _ _ Ha) as Hqa.
  assert (is_Some (s_heap s !! be_msg e)) as [m Hm].
  { apply lookup_lt_is_Some. pose proof (inv_queues _ _ _ _ _ _ _ _ _ HI) as Hw.
    apply (list.Forall_lookup_1 _ _ _ _ Hw) in Hqa. destruct Hqa as (_ & Hq & _).
    apply list_elem_of_fmap in He as (e0 & -> & He0). rewrite list.Forall_forall in Hq. by apply Hq. }
  exists a, m. split_and!; [done | done | by split].
Qed.

Section Offer.
Context (t : Z) (i j : nat) (e : bufEntry) (s : Field R) (m : MessageState) (a b : snode).
Context (Ht : is_int64 t) (HI : InvF cfg L t s) (Hij : i <> j).
Context (Ha : node_at s i = Some a) (Hb : node_at s j = Some b) (Hm : s_heap s !! be_msg e = Some m).
Context (Hh : held t (node_queue <$> s_nodes s) (s_heap s) i e m (node_queue a)).
Abbreviation others := (fun k l => k <> be_msg e \/ l <> i).
Abbreviation copy := (mkEntry (be_msg e) (wrap64 (be_hops e + 1))).

Lemma offer_deliver :
  let s1 := upd_msg (be_msg e) (set_st_Delivered t) s in
  let s2 := set_delivered
    (<[st_ID m := mkDelivery (wrap64 (t - st_CreatedAt m)) (be_hops e)]> (s_delivered s1)) s1 in
  let s' := upd_node i (dropFrom (s_heap s2) (st_ID m)) s2 in
  InvF cfg L t s' /\ retains others s s'.
Proof.
  intros s1 s2 s'. pose proof (queue_at _ _ _ Ha) as Hqa.
  pose proof (queues_same cfg L Hcfg _ _ _ _ _ _ _ _ _ (set_st_Delivered t m) HI Hm eq_refl) as (Hall & Hin' & Hm').
  unfold s', s2, s1, upd_msg, upd_node, set_heap, set_delivered, set_nodes. simpl.
  rewrite (alter_as_insert _ _ _ _ Hm). set (h' := <[be_msg e := set_st_Delivered t m]> (s_heap s)) in *.
  split.
  - unfold InvF. simpl. rewrite (queues_alter s i _ (drop_queue h' (st_ID m))) by (intros; apply node_queue_drop).
    by eapply Inv_deliver.
  - apply (retains_alter _ s h' (<[st_ID m := mkDelivery (wrap64 (t - st_CreatedAt m)) (be_hops e)]> (s_delivered s))).
    intros n k Hn [Hne | Hne] Hk; [| done].
    apply (drop_keeps h' (be_msg e) (set_st_Delivered t m)); try done.
    apply queue_at in Hn. exact (list.Forall_lookup_1 _ _ _ _ Hall Hn).
Qed.

Lemma offer_spray : st_ID m ∉ sn_has b -> st_CopiesMade m < L ->
  let s' := upd_node j (give (st_ID m) copy)
    (upd_msg (be_msg e) (set_st_Copies (wrap64 (st_CopiesMade m + 1))) s) in
  InvF cfg L t s' /\ retains others s s'.
Proof.
  intros Hhas HL s'. pose proof (queue_at _ _ _ Hb) as Hqb.
  unfold s', upd_msg, upd_node, set_heap, set_nodes. simpl. rewrite (alter_as_insert _ _ _ _ Hm). split.
  - unfold InvF. simpl. rewrite (queues_alter s j _ (give_queue (st_ID m) copy)) by done.
    by eapply (Inv_spray cfg L Hcfg t _ _ _ _ _ _ i j e).
  - apply (retains_alter _ s _ (s_delivered s)). intros n k _ _. apply give_keeps.
Qed.

Lemma offer_handoff : st_ID m ∉ sn_has b ->
  let s' := upd_node i (dropFrom (s_heap s) (st_ID m)) (upd_node j (give (st_ID m) copy) s) in
  InvF cfg L t s' /\ retains others s s'.
Proof.
  intros Hhas s'. pose proof (queue_at _ _ _ Hb) as Hqb.
  pose proof (Inv_ids_inj cfg L Hcfg _ _ _ _ _ _ _ HI) as Hinj.
  unfold s', upd_node, set_nodes. simpl. split.
  - unfold InvF. simpl.
    rewrite (list_fmap_alter node_queue _ (drop_queue (s_heap s) (st_ID m)))
      by (apply list.Forall_forall; intros; apply node_queue_drop).
    rewrite (queues_alter s j _ (give_queue (st_ID m) copy)) by done.
    by eapply (Inv_handoff cfg L Hcfg t _ _ _ _ _ _ i j e).
  - pose proof (retains_alter others s (s_heap s) (s_delivered s) j
      (give (st_ID m) copy) (fun n k _ _ => give_keeps _ _ n k)) as [R1 R2].
    destruct (retains_alter others
      (set_nodes (alter (give (st_ID m) copy) j (s_nodes s))
        (set_heap (s_heap s) (set_delivered (s_delivered s) s))) (s_heap s) (s_delivered s) i
      (dropFrom (s_heap s) (st_ID m))) as [R3 R4].
    { intros n k Hn [Hne | Hne] Hk; [| done]. apply (drop_keeps (s_heap s) (be_msg e) m); try done.
      unfold node_at in Hn. simpl in Hn. rewrite list_lookup_alter_ne in Hn by done. apply queue_at in Hn.
      exact (list.Forall_lookup_1 _ _ _ _ (inv_queues _ _ _ _ _ _ _ _ _ HI) Hn). }
    split; [etransitivity; [exact R3 | exact R1] |]. intros k l HP Ho. apply R4, R2; done.
Qed.

(** A forwarder that keeps its promise stays within [L]. *)
Lemma offer_bound m0 me peer x y : Decide m0 me peer x y false = ActionSpray -> m0 = m ->
  st_ID m ∉ sn_has b -> st_CopiesMade m < L.
Proof.
  intros Hd -> Hhas. destruct (spray_bound (Budgeted := HF)) as [Hb' | [Hfrom HL]]; [by eapply Hb' |].
  destruct Hh as [Hq He _ Hopen]. pose proof (copies_at _ _ _ _ Hq He) as Hpos.
  pose proof (inv_since _ _ _ _ _ _ _ _ _ HI _ _ Hm) as Hsince.
  destruct (inv_exact _ _ _ _ _ _ _ _ _ HI _ _ Hm ltac:(lia) Hopen) as [Hg E].
  specialize (E ltac:(intros Hgone; specialize (Hg Hgone); lia)).
  pose proof (inv_queues _ _ _ _ _ _ _ _ _ HI) as Hqs. pose proof (inv_nodes _ _ _ _ _ _ _ _ _ HI) as Hn.
  pose proof (queue_at _ _ _ Hb) as Hqb.
  destruct (list.Forall_lookup_1 _ _ _ _ Hqs Hqb) as (_ & _ & Hmirror).
  assert (copies (be_msg e) (node_queue <$> s_nodes s) < length (node_queue <$> s_nodes s))%nat; [| lia].
  apply (copies_below _ _ j (node_queue b)); [| done |].
  - eapply Forall_impl; [exact Hqs |]. by intros q (? & _).
  - intros (e' & Ee & He')%list_elem_of_fmap. apply Hhas, Hmirror. exists e'. split; [done |].
    unfold entry_id. by rewrite <- Ee, Hm.
Qed.
End Offer.

Lemma offer_ok t aSnap bSnap i j e (s : Field R) :
  is_int64 t -> InvF cfg L t s -> i <> j -> onboard (be_msg e) i s -> is_Some (node_at s j) ->
  exists s', offer F t aSnap bSnap i j e s = Some s' /\ InvF cfg L t s' /\
    retains (fun k l => k <> be_msg e \/ l <> i) s s'.
Proof.
  intros Ht HI Hij Ho [b Hb]. destruct (onboard_held _ _ _ _ HI Ho) as (a & m & Ha & Hm & Hh).
  assert (retains (fun k l => k <> be_msg e \/ l <> i) s s) as Hsame by by split.
  unfold offer. rewrite Hm. cbn [mbind option_bind].
  destruct (Z.eqb_spec (st_DeliveredAt m) 0) as [Hd|Hd]; cbn [negb]; [| eauto].
  specialize (Hh Hd). rewrite Ha, Hb. cbn [mbind option_bind].
  destruct (Decide m (sn_id a) (sn_id b) _ _ _) eqn:Hdec; try (by eauto).
  - eexists. split; [reflexivity |].
    by eapply (offer_deliver t i e s m a).
  - pose proof (spray_fresh _ _ _ _ _ _ Hdec) as Hhas. unfold hasCopy in *. rewrite Hhas in Hdec.
    apply bool_decide_eq_false in Hhas. eexists. split; [reflexivity |].
    eapply (offer_spray t i j e s m a b); [done.. |]. by eapply (offer_bound t i j e s m a b).
  - pose proof (handoff_fresh _ _ _ _ _ _ Hdec) as Hhas. apply bool_decide_eq_false in Hhas.
    eexists. split; [reflexivity |]. by eapply (offer_handoff t i j e s m a b).
Qed.

Lemma retains_trans P Q (s1 s2 s3 : Field R) :
  retains P s1 s2 -> retains Q s2 s3 -> retains (fun k i => P k i /\ Q k i) s1 s3.
Proof. intros [A1 A2] [B1 B2]. split; [congruence |]. intros k i [HP HQ] Ho. auto. Qed.

Lemma offer_all_ok t aSnap bSnap i j snapshot (s : Field R) :
  is_int64 t -> InvF cfg L t s -> i <> j -> NoDup (be_msg <$> snapshot) ->
  Forall (fun e => onboard (be_msg e) i s) snapshot -> is_Some (node_at s j) ->
  exists s', offer_all F t aSnap bSnap i j snapshot s = Some s' /\ InvF cfg L t s' /\
    retains (fun _ l => l <> i) s s'.
Proof.
  intros Ht. revert s. induction snapshot as [|e snapshot IH]; intros s HI Hij Hnd Hall Hj;
    cbn [offer_all]; [exists s; split_and!; [done | done | by split] |].
  apply NoDup_cons in Hnd as [Hne Hnd]. apply Forall_cons in Hall as [He Hall].
  destruct (offer_ok t aSnap bSnap i j e s Ht HI Hij He Hj) as (s1 & -> & HI1 & Hr1). cbn [mbind option_bind].
  destruct (IH s1 HI1 Hij Hnd) as (s2 & -> & HI2 & Hr2).
  - apply list.Forall_forall. intros e' He'. rewrite list.Forall_forall in Hall.
    apply Hr1; [| by apply Hall]. left. intros E. apply Hne. rewrite <- E. by apply list_elem_of_fmap_2.
  - destruct Hj as [b Hb]. eapply node_at_length; [apply Hr1 | exact Hb].
  - exists s2. split_and!; [done.. |]. destruct Hr1, Hr2. split; [congruence |]. auto.
Qed.

Lemma exchange_ok t i j a snapshot (s : Field R) :
  is_int64 t -> InvF cfg L t s -> i <> j -> node_at s i = Some a -> NoDup (be_msg <$> snapshot) ->
  Forall (fun e => be_msg e ∈ be_msg <$> sn_buf a) snapshot -> is_Some (node_at s j) ->
  exists s', exchange F t i j snapshot s = Some s' /\ InvF cfg L t s' /\
    retains (fun _ l => l <> i) s s'.
Proof.
  intros Ht HI Hij Ha Hnd Hall [b Hb]. unfold exchange. rewrite Ha, Hb. cbn [mbind option_bind].
  apply offer_all_ok; try done. eapply Forall_impl; [exact Hall |]. intros e He. by exists a.
Qed.

(** A step that changes no queue, only statistics. *)
Lemma encounter_ok t i j a b (s : Field R) :
  InvF cfg L t s -> node_at s i = Some a -> node_at s j = Some b ->
  exists s', updateEncounter visit i j t s = Some s' /\ InvF cfg L t s' /\
    node_queue <$> s_nodes s' = node_queue <$> s_nodes s.
Proof.
  intros HI Ha Hb. unfold updateEncounter. rewrite Ha, Hb. cbn [mbind option_bind].
  eexists. split; [reflexivity |]. cbn [s_nodes].
  assert (forall f, (forall n, node_queue (f n) = node_queue n) ->
    node_queue <$> alter f i (s_nodes s) = node_queue <$> s_nodes s) as Hq.
  { intros f Hf. rewrite (list_fmap_alter node_queue f id) by (apply list.Forall_forall; auto).
    apply list_eq. intros k. destruct (decide (k = i)) as [->|].
    - rewrite list_lookup_alter_eq. by destruct ((node_queue <$> s_nodes s) !! i).
    - by rewrite list_lookup_alter_ne. }
  rewrite Hq by done. split; [| done]. unfold InvF in *. cbn [s_nodes]. by rewrite Hq.
Qed.

Lemma node_of_queue (s s' : Field R) i n :
  node_queue <$> s_nodes s' = node_queue <$> s_nodes s -> node_at s i = Some n ->
  exists n', node_at s' i = Some n' /\ sn_buf n' = sn_buf n.
Proof.
  intros E Hn. apply (f_equal (.!! i)) in E. rewrite !list_lookup_fmap in E. unfold node_at in *.
  rewrite Hn in E. destruct (s_nodes s' !! i) as [n'|]; [| done]. injection E as E _. eauto.
Qed.

Lemma buf_NoDup t (s : Field R) i n :
  InvF cfg L t s -> node_at s i = Some n -> NoDup (be_msg <$> sn_buf n).
Proof.
  intros HI Hn. apply queue_at in Hn.
  exact (proj1 (list.Forall_lookup_1 _ _ _ _ (inv_queues _ _ _ _ _ _ _ _ _ HI) Hn)).
Qed.

Lemma meet_ok t i j (s : Field R) :
  is_int64 t -> InvF cfg L t s -> i <> j ->
  (i < length (s_nodes s))%nat -> (j < length (s_nodes s))%nat ->
  exists s', meet visit F t (i, j) s = Some s' /\ InvF cfg L t s' /\
    length (s_nodes s') = length (s_nodes s).
Proof.
  intros Ht HI Hij [a Ha]%lookup_lt_is_Some [b Hb]%lookup_lt_is_Some. unfold meet.
  destruct (encounter_ok t i j a b s HI Ha Hb) as (s1 & -> & HI1 & Q1). cbn [mbind option_bind].
  destruct (node_of_queue _ _ _ _ Q1 Ha) as (a1 & Ha1 & Ea1), (node_of_queue _ _ _ _ Q1 Hb) as (b1 & Hb1 & Eb1).
  destruct (encounter_ok t j i b1 a1 s1 HI1 Hb1 Ha1) as (s2 & -> & HI2 & Q2). cbn [mbind option_bind].
  destruct (node_of_queue _ _ _ _ Q2 Ha1) as (a2 & Ha2 & Ea2), (node_of_queue _ _ _ _ Q2 Hb1) as (b2 & Hb2 & Eb2).
  rewrite Ha2, Hb2. cbn [mbind option_bind].
  destruct (exchange_ok t i j a2 (sn_buf a2) s2) as (s3 & -> & HI3 & [L3 R3]); try done.
  { exact (buf_NoDup _ _ _ _ HI2 Ha2). } { apply list.Forall_forall. intros e He. by apply list_elem_of_fmap_2. }
  cbn [mbind option_bind]. destruct (node_at_length s2 s3 j b2 L3 Hb2) as [b3 Hb3].
  destruct (exchange_ok t j i b3 (sn_buf b2) s3) as (s4 & -> & HI4 & [L4 _]); try done.
  - exact (buf_NoDup _ _ _ _ HI2 Hb2).
  - apply list.Forall_forall. intros e He.
    destruct (R3 (be_msg e) j) as (b' & Hb' & Hin); [done | exists b2; split; [done |]; by apply list_elem_of_fmap_2 |].
    congruence.
  - exact (node_at_length s2 s3 i a2 L3 Ha2).
  - exists s4. split_and!; [done.. |]. rewrite L4, L3.
    apply (f_equal length) in Q1, Q2. rewrite !length_fmap in *. congruence.
Qed.

Definition valid_contact (n : nat) (c : nat * nat) : Prop := (c.1 < c.2 < n)%nat.

Lemma meet_all_ok t cs (s : Field R) :
  is_int64 t -> InvF cfg L t s -> Forall (valid_contact (length (s_nodes s))) cs ->
  exists s', meet_all visit F t cs s = Some s' /\ InvF cfg L t s' /\
    length (s_nodes s') = length (s_nodes s).
Proof.
  intros Ht. revert s. induction cs as [|[i j] cs IH]; intros s HI Hcs; cbn [meet_all]; [by exists s |].
  apply Forall_cons in Hcs as [[Hij Hj] Hcs]. simpl in Hij, Hj.
  destruct (meet_ok t i j s Ht HI ltac:(lia) ltac:(lia) Hj) as (s1 & -> & HI1 & L1). cbn [mbind option_bind].
  destruct (IH s1 HI1) as (s2 & -> & HI2 & L2); [by rewrite L1 |].
  exists s2. split_and!; [done.. | congruence].
Qed.

Lemma in_range_valid p i j ns n :
  (i < j)%nat -> (j + length ns <= n)%nat -> Forall (valid_contact n) (in_range cfg p i j ns).
Proof.
  revert j. induction ns as [|x ns IH]; intros j Hij Hn; cbn [in_range length] in *; [done |].
  assert (Forall (valid_contact n) (in_range cfg p i (S j) ns)) by (apply IH; lia).
  destruct (F64.fle _ _); [| done]. constructor; [| done]. unfold valid_contact. simpl. lia.
Qed.

Lemma contacts_valid i ns n : (i + length ns <= n)%nat -> Forall (valid_contact n) (contacts cfg i ns).
Proof.
  revert i. induction ns as [|x ns IH]; intros i Hn; cbn [contacts length] in *; [done |].
  apply Forall_app. split; [apply in_range_valid; lia | apply IH; lia].
Qed.
End Meetings.

(** ** A tick *)

Section Tick.
Context {R : Type} `{!Rand R, !RandLaw R}.
Context (visit : nat -> gmap string EncounterStat -> list (string * EncounterStat)).
Context (cfg : Config) (L : Z) (Hcfg : wf_config cfg L) (F : Forwarder) (HF : Budgeted cfg F L).

Lemma wf_queue_extend h x q : wf_queue h q -> wf_queue (h ++ [x]) q.
Proof.
  intros (H1 & H2 & H3). assert (forall e, e ∈ q.1 -> entry_id (h ++ [x]) e = entry_id h e) as He.
  { intros e He. unfold entry_id. rewrite list.Forall_forall in H2. by rewrite lookup_app_l by auto. }
  split_and!; [done | |].
  - eapply Forall_impl; [exact H2 |]. intros e. rewrite length_app. simpl. lia.
  - intros id. rewrite H3. split; intros (e & Hin & Hid); exists e; (split; [done |]).
    + by rewrite He.
    + by rewrite He in Hid.
Qed.

Lemma pickPair_ok rng n :
  2 <= n -> exists a b rng', pickPair rng n = Some (a, b, rng') /\ 0 <= a < n /\ 0 <= b < n.
Proof.
  intros Hn. unfold pickPair. rewrite (proj2 (Z.leb_gt n 0)), (proj2 (Z.leb_gt (n - 1) 0)) by lia. simpl.
  pose proof (Intn_range n rng ltac:(lia)) as Ha. destruct (rand_Intn n rng) as [a r1].
  pose proof (Intn_range (n - 1) r1 ltac:(lia)) as Hb. destruct (rand_Intn (n - 1) r1) as [b r2].
  simpl in Ha, Hb. do 3 eexists. split; [reflexivity |]. split; [done |]. destruct (Z.leb_spec a b); lia.
Qed.

(** A message enters the field. *)
Section Inject.
Context (t : Z) (qs : list queue) (h : list MessageState) (states : gmap string nat)
        (dl : gmap string delivery) (inj sq : Z) (i : nat) (q : queue) (st : MessageState).
Context (HI : Inv cfg L t qs h states dl inj sq) (Hq : qs !! i = Some q) (Hid : st_ID st = msg_id sq).
Context (Hroom : inj < cfg_Messages cfg).
Abbreviation entry := (mkEntry (length h) 0).
Abbreviation qs' := (alter (give_queue (st_ID st) entry) i qs).

(** A message of the new heap is an old one with another identifier, or the new one. *)
Lemma inject_lookup k m : (h ++ [st]) !! k = Some m ->
  h !! k = Some m /\ st_ID m <> st_ID st \/ k = length h /\ m = st.
Proof.
  pose proof (Inv_length cfg L Hcfg _ _ _ _ _ _ _ HI) as Hbig.
  destruct HI as [_ _ I3 _ _ _ _ (_ & Hsq & _) _ _ _].
  intros [Hk | [Hle Hk]]%lookup_app_Some.
  - left. split; [done |]. rewrite (wm_id _ _ _ _ _ (I3 _ _ Hk)), Hid, Hsq. apply lookup_lt_Some in Hk.
    assert (two63 < 10 ^ 20) as H63 by reflexivity. intros E. apply msg_id_inj in E; int_lia.
  - right. apply list_lookup_singleton_Some in Hk as [? <-]. split; [lia | done].
Qed.

Lemma inject_old x e : x ∈ qs -> e ∈ x.1 -> (be_msg e < length h)%nat.
Proof.
  intros Hx He. pose proof (inv_queues _ _ _ _ _ _ _ _ _ HI) as I2. rewrite list.Forall_forall in I2.
  destruct (I2 _ Hx) as (_ & H2 & _). rewrite list.Forall_forall in H2. by apply H2.
Qed.

Lemma inject_new : (h ++ [st]) !! length h = Some st.
Proof. by apply list_lookup_middle. Qed.

Lemma inject_old_id k m : h !! k = Some m -> st_ID m <> st_ID st.
Proof.
  intros Hk. destruct (inject_lookup k m) as [[_ ?] | [-> _]]; [by apply lookup_app_l_Some | done |].
  apply lookup_lt_Some in Hk. lia.
Qed.

Lemma inject_fresh : st_ID st ∉ q.2.
Proof.
  intros Hin. pose proof (inv_queues _ _ _ _ _ _ _ _ _ HI) as I2.
  destruct (list.Forall_lookup_1 _ _ _ _ I2 Hq) as (_ & _ & H3).
  apply H3 in Hin as (e & He & Ee). unfold entry_id in Ee.
  destruct (h !! be_msg e) as [m|] eqn:Em; [| done]. injection Ee as Ee. by apply inject_old_id in Em.
Qed.

Lemma inject_states : states !! st_ID st = None.
Proof.
  apply eq_None_not_Some. intros [k Hk]. apply (inv_states _ _ _ _ _ _ _ _ _ HI) in Hk as (m & Hm & E).
  by apply inject_old_id in Hm.
Qed.

Lemma inject_entries x e : x ∈ qs' -> e ∈ x.1 -> (exists y, y ∈ qs /\ e ∈ y.1) \/ be_msg e = length h.
Proof.
  revert x e. apply alter_entries; [eauto |]. intros x e Hx He. simplify_eq.
  apply elem_of_app in He as [He | ->%list_elem_of_singleton]; [left | by right].
  exists q. split; [by eapply list_elem_of_lookup_2 | done].
Qed.

Lemma inject_wf : Forall (wf_queue (h ++ [st])) qs'.
Proof.
  pose proof (inv_queues _ _ _ _ _ _ _ _ _ HI) as I2.
  apply Forall_alter_at; [eapply Forall_impl; [exact I2 |]; intros; by apply wf_queue_extend |].
  intros x Hx. simplify_eq. apply wf_queue_give; [| | | apply inject_fresh].
  - apply wf_queue_extend. by eapply list.Forall_lookup_1.
  - simpl. rewrite length_app. simpl. lia.
  - unfold entry_id. simpl. by rewrite inject_new.
Qed.

Lemma inject_no_copies : copies (length h) qs = 0%nat.
Proof.
  unfold copies. assert (Forall (fun q => holds (length h) q.1 = 0%nat) qs) as Hall.
  { apply list.Forall_forall. intros x Hx. apply holds_none. intros Hin.
    apply list_elem_of_fmap in Hin as (e & Ee & He). pose proof (inject_old _ _ Hx He). lia. }
  clear -Hall. induction Hall as [|x l Hx _ IH]; [done |]. cbn. by rewrite Hx.
Qed.

Lemma inject_copies k m : (h ++ [st]) !! k = Some m ->
  copies k qs' = (if decide (k = length h) then 1 else copies k qs)%nat.
Proof.
  intros Hk. pose proof (copies_alter k (give_queue (st_ID st) entry) i qs q Hq) as Hcp.
  simpl in Hcp. rewrite holds_app, holds_cons in Hcp. change (holds k []) with 0%nat in Hcp. simpl in Hcp.
  destruct (inject_lookup _ _ Hk) as [[Hk0 _] | [-> ->]].
  - apply lookup_lt_Some in Hk0. rewrite decide_False in Hcp by lia. rewrite decide_False by lia. lia.
  - rewrite decide_True in Hcp by done. rewrite decide_True by done. pose proof inject_no_copies. lia.
Qed.

Lemma inject_index id k : <[st_ID st := length h]> states !! id = Some k <->
  exists m, (h ++ [st]) !! k = Some m /\ st_ID m = id.
Proof.
  destruct (decide (id = st_ID st)) as [->|Hne].
  - rewrite lookup_insert_eq. split.
    + intros [= <-]. exists st. split; [exact inject_new | reflexivity].
    + intros (m & Hm & E). destruct (inject_lookup _ _ Hm) as [[_ ?] | [-> _]]; [congruence | reflexivity].
  - rewrite lookup_insert_ne, (inv_states _ _ _ _ _ _ _ _ _ HI) by done.
    split; intros (m & Hm & E); exists m; (split; [| done]).
    + by apply lookup_app_l_Some.
    + destruct (inject_lookup _ _ Hm) as [[? _] | [_ ->]]; [done | congruence].
Qed.

Lemma Inv_inject :
  st_CopiesMade st = 1 -> st_CreatedAt st = t -> st_TTL st = cfg_TTL cfg ->
  st_DeliveredAt st = 0 -> 0 <= t -> cfg_InjectionFrom cfg <= t ->
  Inv cfg L t qs' (h ++ [st]) (<[st_ID st := length h]> states) dl (wrap64 (inj + 1)) (wrap64 (sq + 1)).
Proof.
  intros Hc Hcr Httl Hdel Ht Hfrom. pose proof (Inv_length cfg L Hcfg _ _ _ _ _ _ _ HI) as Hbig.
  pose proof HI as [I1 _ I3 I4 I5 _ I7 (I8 & I8' & I8'') I9 I10 I11]. split.
  - by rewrite length_alter.
  - apply inject_wf.
  - intros k m Hk. destruct (inject_lookup _ _ Hk) as [[Hk0 _] | [-> ->]]; [by apply I3 |].
    split; [by rewrite Hid, I8' | lia | lia | done | by left].
  - intros k m Hk. rewrite (inject_copies k m Hk).
    destruct (inject_lookup _ _ Hk) as [[Hk0 _] | [-> ->]]; [| rewrite decide_True by done; lia].
    specialize (I4 _ _ Hk0). apply lookup_lt_Some in Hk0. rewrite decide_False by lia. lia.
  - intros x e m Hx He Hk. destruct (inject_lookup _ _ Hk) as [[Hk0 _] | [Hl ->]]; [| intros _; lia].
    destruct (inject_entries x e Hx He) as [(y & Hy & Hey) | E]; [by eapply I5 |].
    apply lookup_lt_Some in Hk0. lia.
  - apply inject_index.
  - intros k m Hk Hpos. destruct (inject_lookup _ _ Hk) as [[Hk0 _] | [_ ->]]; [by eapply I7 | lia].
  - destruct Hcfg as (_ & Hmsg & _). rewrite length_app. simpl. rewrite I8, I8' in *.
    rewrite !wrap64_id by int_lia. lia.
  - rewrite map_size_insert_None, length_app by apply inject_states. simpl. lia.
  - intros k m Hk. destruct (inject_lookup _ _ Hk) as [[Hk0 _] | [-> ->]]; [by eapply I10 | lia].
  - intros k m Hk Hpos. unfold exact. rewrite (inject_copies k m Hk).
    destruct (inject_lookup _ _ Hk) as [[Hk0 _] | [-> ->]].
    + pose proof (lookup_lt_Some _ _ _ Hk0). rewrite decide_False by lia. by apply I11.
    + rewrite decide_True by done. intros _. split; [unfold gone; lia | lia].
Qed.
End Inject.

Lemma inject_ok t (s : Field R) :
  2 <= cfg_Nodes cfg -> 0 <= t -> InvF cfg L t s ->
  exists s', inject cfg t s = Some s' /\ InvF cfg L t s'.
Proof.
  intros Hn Ht HI. unfold inject. destruct (injects cfg t s) eqn:Hinj; cbn [negb]; [| by exists s].
  destruct (pickPair_ok (s_rng s) (cfg_Nodes cfg) Hn) as (a & b & r & -> & Ha & Hb). cbn [mbind option_bind].
  assert (forall x, 0 <= x < cfg_Nodes cfg -> exists n, node_at s (Z.to_nat x) = Some n) as Hat.
  { intros x Hx. apply lookup_lt_is_Some. pose proof (inv_nodes _ _ _ _ _ _ _ _ _ HI) as Hl.
    rewrite length_fmap in Hl. lia. }
  destruct (Hat a Ha) as [from Hfrom], (Hat b Hb) as [to Hto]. rewrite Hfrom, Hto. cbn [mbind option_bind].
  eexists. split; [reflexivity |].
  unfold injects in Hinj. apply andb_prop in Hinj as [Hinj _]. apply andb_prop in Hinj as [Hlt Hsince].
  apply Z.leb_le in Hsince.
  apply Z.ltb_lt in Hlt. unfold InvF. cbn [s_nodes s_heap s_states s_delivered s_injected s_msgSeq].
  match goal with |- context [s_heap s ++ [?x]] => set (st := x) end.
  rewrite (queues_alter s (Z.to_nat a) _ (give_queue (st_ID st) (mkEntry (length (s_heap s)) 0))) by done.
  change (msg_id (s_msgSeq s)) with (st_ID st).
  eapply Inv_inject; [exact HI | by apply queue_at | reflexivity | exact Hlt | reflexivity.. | exact Ht | exact Hsince].
Qed.

Lemma move_queues ns rng : node_queue <$> (move_all cfg ns rng).1 = node_queue <$> ns.
Proof.
  revert rng. induction ns as [|n ns IH]; intros rng; cbn [move_all]; [done |].
  destruct (move_step cfg n rng) as [n' r] eqn:E. specialize (IH r). destruct (move_all cfg ns r) as [ns' r'].
  cbn [fst] in *. rewrite !fmap_cons, IH. f_equal. unfold move_step, newWaypoint in E.
  destruct (F64.flt _ _).
  - destruct (rand_Float64 rng) as [x r1]. destruct (rand_Float64 r1) as [y r2].
    destruct (rand_Float64 r2) as [v r3]. by injection E as <- <-.
  - by injection E as <- <-.
Qed.

Lemma age_queues cs ns : node_queue <$> age_all cs ns = node_queue <$> ns.
Proof.
  unfold age_all. rewrite fmap_imap. apply list_eq. intros i. rewrite list_lookup_imap, list_lookup_fmap.
  destruct (ns !! i); [| done]. simpl. by destruct (bool_decide _).
Qed.

Definition sweep_queue (h : list MessageState) (t : Z) (q : queue) : queue :=
  let buf := filter (fun e => kept h t e = true) q.1 in
  (buf, list_to_set (omap (entry_id h) buf)).

Lemma holds_filter k (P : bufEntry -> Prop) `{!forall e, Decision (P e)} l :
  (holds k (filter P l) <= holds k l)%nat.
Proof.
  induction l as [|e l IH]; [done |]. rewrite filter_cons. case_decide; rewrite !holds_cons; lia.
Qed.

(** A sweep keeps all copies of a message, or none: those of an undelivered one exactly
    while its time to live is not over. *)
Lemma sweep_kept h t k qs : kept h t (mkEntry k 0) = true -> copies k (sweep_queue h t <$> qs) = copies k qs.
Proof.
  intros Hkept. apply copies_same. intros [buf has]. simpl. clear -Hkept.
  induction buf as [|e buf IH]; [done |]. rewrite filter_cons, holds_cons.
  destruct (decide (be_msg e = k)) as [<-|Hne].
  - rewrite decide_True by exact Hkept. by rewrite holds_cons, decide_True, IH.
  - case_decide; [rewrite holds_cons, decide_False by done |]; apply IH.
Qed.

Lemma sweep_dropped h t k qs : kept h t (mkEntry k 0) = false -> copies k (sweep_queue h t <$> qs) = 0%nat.
Proof.
  intros Hkept. apply copies_gone. intros [buf has]. simpl. apply holds_none.
  intros (e & -> & [Hx _]%list_elem_of_filter)%list_elem_of_fmap. unfold kept in *. simpl in Hkept. congruence.
Qed.

Lemma sweep_exact h t k m qs :
  is_int64 t -> is_int64 (st_TTL m) -> 0 <= st_CreatedAt m <= t -> h !! k = Some m ->
  exact t k qs m -> exact (t + 1) k (sweep_queue h t <$> qs) m.
Proof.
  intros Ht Httl Hcr Hk He Hd. destruct (He Hd) as [Hg Hn].
  assert (kept h t (mkEntry k 0) = negb (st_TTL m <=? t - st_CreatedAt m)) as Hkept.
  { unfold kept. simpl. rewrite Hk. unfold Expired. rewrite Hd. simpl. by rewrite wrap64_id by int_lia. }
  destruct (Z.leb_spec (st_TTL m) (t - st_CreatedAt m)) as [Hexp|Hexp]; cbn [negb] in Hkept.
  - rewrite sweep_dropped by done. split; [done |]. unfold gone. lia.
  - rewrite sweep_kept by done. split; [unfold gone; lia |]. intros _. apply Hn. unfold gone. lia.
Qed.

(** The end of a tick: entries that are swept out, and the clock moves on. *)
Lemma Inv_sweep t qs h states dl inj sq :
  is_int64 t -> Inv cfg L t qs h states dl inj sq ->
  Inv cfg L (t + 1) (sweep_queue h t <$> qs) h states dl inj sq.
Proof.
  intros Ht [I1 I2 I3 I4 I5 I6 I7 I8 I9 I10 I11]. split; try done.
  - by rewrite length_fmap.
  - apply Forall_fmap. eapply Forall_impl; [exact I2 |]. intros q (H1 & H2 & H3). split_and!; simpl.
    + eapply sublist_NoDup; [exact H1 | apply fmap_sublist, sublist_filter].
    + apply list.Forall_forall. intros e [_ He]%list_elem_of_filter. rewrite list.Forall_forall in H2. auto.
    + intros id. rewrite elem_of_list_to_set, list_elem_of_omap. done.
  - intros k m Hk. destruct (I3 _ _ Hk). split; try done; lia.
  - intros k m Hk. specialize (I4 _ _ Hk).
    pose proof (copies_le k (sweep_queue h t) qs (fun q => holds_filter k _ q.1)). lia.
  - intros q e m Hq He Hk. apply list_elem_of_fmap in Hq as (q0 & -> & Hq0). simpl in He.
    apply list_elem_of_filter in He as [Hkept He]. intros Hd. unfold kept in Hkept. rewrite Hk, Hd in Hkept.
    simpl in Hkept. unfold Expired in Hkept. rewrite Hd in Hkept. simpl in Hkept.
    apply negb_true_iff, Z.leb_gt in Hkept. pose proof (I3 _ _ Hk) as [_ _ Hcr Httl _].
    rewrite wrap64_id in Hkept by int_lia. lia.
  - intros k m Hk Hpos. pose proof (I3 _ _ Hk) as [_ _ Hcr Httl _]. apply sweep_exact; [done | | lia | done | by apply I11].
    rewrite Httl. apply Hcfg.
Qed.

Lemma run_tick_ok t (s : Field R) :
  2 <= cfg_Nodes cfg -> 0 <= t -> is_int64 t -> InvF cfg L t s ->
  exists s', run_tick visit cfg F t s = Some s' /\ InvF cfg L (t + 1) s'.
Proof.
  intros Hn Ht Ht64 HI. unfold run_tick. destruct (inject_ok t s Hn Ht HI) as (s1 & -> & HI1).
  cbn [mbind option_bind]. pose proof (move_queues (s_nodes s1) (s_rng s1)) as Hm.
  destruct (move_all cfg (s_nodes s1) (s_rng s1)) as [ns r]. cbn [fst] in Hm.
  set (s2 := mkField R ns _ _ _ _ _ _ _).
  assert (InvF cfg L t s2) as HI2 by (unfold InvF in *; cbn [s_nodes s2]; by rewrite Hm).
  destruct (meet_all_ok visit cfg L Hcfg F HF t (contacts cfg 0 (s_nodes s2)) s2 Ht64 HI2
    (contacts_valid cfg 0 (s_nodes s2) _ (le_n _))) as (s3 & -> & HI3 & _). cbn [mbind option_bind].
  eexists. split; [reflexivity |]. unfold InvF in *. cbn [s_nodes set_nodes s_heap s_states s_delivered s_injected s_msgSeq].
  rewrite <- list_fmap_compose.
  assert (node_queue ∘ sweep_node (s_heap s3) t = sweep_queue (s_heap s3) t ∘ node_queue) as -> by done.
  rewrite list_fmap_compose, age_queues. by apply Inv_sweep.
Qed.

Lemma run_ticks_ok n t (s : Field R) :
  2 <= cfg_Nodes cfg -> 0 <= t -> t + Z.of_nat n < two63 -> InvF cfg L t s ->
  exists s', run_ticks visit cfg F n t s = Some s' /\ InvF cfg L (t + Z.of_nat n) s'.
Proof.
  intros Hn. revert t s. induction n as [|n IH]; intros t s Ht Hb HI; cbn [run_ticks].
  - exists s. split; [done |]. by rewrite Z.add_0_r.
  - destruct (run_tick_ok t s Hn Ht) as (s1 & -> & HI1); [int_lia | done |]. cbn [mbind option_bind].
    destruct (IH (t + 1) s1) as (s2 & -> & HI2); [lia | lia | done |].
    exists s2. split; [done |]. by replace (t + Z.of_nat (S n)) with (t + 1 + Z.of_nat n) by lia.
Qed.

Lemma make_nodes_queues i k rng :
  node_queue <$> (make_nodes cfg i k rng).1 = replicate k ([], ∅).
Proof.
  revert i rng. induction k as [|k IH]; intros i rng; cbn [make_nodes]; [done |].
  destruct (rand_Float64 rng) as [x r1]. destruct (rand_Float64 r1) as [y r2].
  unfold newWaypoint. destruct (rand_Float64 r2) as [a r3]. destruct (rand_Float64 r3) as [b r4].
  destruct (rand_Float64 r4) as [v r5]. specialize (IH (S i) r5). destruct (make_nodes cfg (S i) k r5) as [ns r].
  cbn [fst] in *. by rewrite fmap_cons, IH.
Qed.

Lemma start_ok : 0 <= cfg_Nodes cfg -> InvF cfg L 0 (start_field cfg : Field R).
Proof.
  clear F HF. intros Hn. unfold start_field.
  pose proof (make_nodes_queues 0 (Z.to_nat (cfg_Nodes cfg)) (NewSource (cfg_Seed cfg))) as Hq.
  destruct (make_nodes _ _ _ _) as [ns r]. cbn [fst] in Hq. unfold InvF. cbn [s_nodes s_heap s_states s_delivered s_injected s_msgSeq].
  rewrite Hq. split; try done.
  - rewrite length_replicate. lia.
  - apply Forall_replicate. split_and!; [apply NoDup_nil_2 | done |]. intros id. set_solver.
  - intros id k. rewrite lookup_empty. split; [done |]. by intros (m & Hm & _).
  - split_and!; simpl; lia.
Qed.
End Tick.

(** ** Accounting *)

Section Accounting.
Context {R : Type} (cfg : Config) (L t : Z) (s : Field R) (Hcfg : wf_config cfg L) (HI : InvF cfg L t s).

(** The figures after the first messages have been counted. *)
Record sound (n : Z) (o : Outcome) : Prop := mkSound {
  so_total : out_Total o = s_injected s;
  so_latency : Z.of_nat (length (out_Latency o)) = out_Delivered o;
  so_hops : Z.of_nat (length (out_Hops o)) = out_Delivered o;
  so_delivered : 0 <= out_Delivered o <= n;
  so_range : Forall (fun l => 0 <= l <= Z.max 0 (cfg_TTL cfg)) (out_Latency o);
  so_copies : n <= out_Copies o <= n * Z.max 1 L
}.

Lemma account_ok n o id :
  0 <= n < s_injected s -> sound n o -> is_Some (s_states s !! id) ->
  exists o', account s o id = Some o' /\ sound (n + 1) o' /\ out_Config o' = out_Config o.
Proof.
  intros Hn [S1 S2 S3 S4 S5 S6] [l Hl]. unfold account. rewrite Hl.
  apply (inv_states _ _ _ _ _ _ _ _ _ HI) in Hl as (m & Hm & Hid). cbn [mbind option_bind]. rewrite Hm.
  cbn [mbind option_bind]. destruct (inv_msgs _ _ _ _ _ _ _ _ _ HI _ _ Hm) as [_ Hc _ _ _].
  destruct (inv_injected _ _ _ _ _ _ _ _ _ HI) as (Hi1 & _ & Hi2).
  pose proof (Inv_length cfg L Hcfg _ _ _ _ _ _ _ HI) as H63.
  destruct Hcfg as (_ & _ & _ & _ & _ & _ & _ & Hcopies).
  assert ((n + 1) * Z.max 1 L < two63) as Hbound.
  { assert (n + 1 <= cfg_Messages cfg) by lia.
    assert ((n + 1) * Z.max 1 L <= cfg_Messages cfg * Z.max 1 L) by (apply Z.mul_le_mono_nonneg_r; lia).
    int_lia. }
  rewrite (wrap64_id (out_Copies o + _)) by int_lia.
  destruct (Z.ltb_spec 0 (st_DeliveredAt m)) as [Hd|Hd].
  - destruct (inv_delivered _ _ _ _ _ _ _ _ _ HI _ _ Hm Hd) as (d & Hdl & Hr). rewrite Hid in Hdl.
    rewrite Hdl. eexists. split; [reflexivity |]. change (default (mkDelivery 0 0) (Some d)) with d.
    rewrite (wrap64_id (out_Delivered o + 1)) by int_lia.
    split; [| done]. split; simpl; try done; try (rewrite length_app; simpl; lia); try lia.
    apply Forall_app. by split; [| apply Forall_singleton].
  - eexists. split; [reflexivity |]. split; [| done]. split; simpl; try done; lia.
Qed.

Lemma account_all_ok n o ids :
  0 <= n -> n + Z.of_nat (length ids) <= s_injected s -> sound n o ->
  Forall (fun id => is_Some (s_states s !! id)) ids ->
  exists o', account_all s o ids = Some o' /\ sound (n + Z.of_nat (length ids)) o' /\
    out_Config o' = out_Config o.
Proof.
  intros Hn Hb Hs Hall. revert n o Hn Hb Hs. induction Hall as [|id ids Hid Hall IH]; intros n o Hn Hb Hs;
    cbn [account_all length] in *.
  - exists o. by rewrite Z.add_0_r.
  - destruct (account_ok n o id) as (o1 & -> & Hs1 & E1); [lia | done.. |]. cbn [mbind option_bind].
    destruct (IH (n + 1) o1) as (o2 & -> & Hs2 & E2); [lia | lia | done |].
    exists o2. replace (n + Z.of_nat (S (length ids))) with (n + 1 + Z.of_nat (length ids)) by lia.
    split_and!; [done.. | congruence].
Qed.

Lemma accounting_ok :
  exists o, accounting cfg s = Some o /\ sound (s_injected s) o /\ out_Config o = cfg.
Proof.
  unfold accounting. set (ids := merge_sort _ _).
  assert (ids ≡ₚ (map_to_list (s_states s)).*1) as Hp by apply merge_sort_Permutation.
  destruct (inv_injected _ _ _ _ _ _ _ _ _ HI) as (Hi1 & _ & Hi2).
  assert (Z.of_nat (length ids) = s_injected s) as Hlen.
  { rewrite Hp, length_fmap, length_map_to_list, (inv_size _ _ _ _ _ _ _ _ _ HI). done. }
  destruct (account_all_ok 0 (mkOutcome cfg 0 (s_injected s) [] [] 0) ids) as (o & Ho & Hs & E);
    [lia | lia | split; simpl; done || lia | |].
  - apply list.Forall_forall. intros id. rewrite Hp. intros ([k v] & -> & Hk)%list_elem_of_fmap.
    apply elem_of_map_to_list in Hk. by exists v.
  - exists o. rewrite Hlen in Hs. done.
Qed.
End Accounting.

(** ** Properties *)

#[export] Instance SprayAndWait_budgeted cfg L : Budgeted cfg (SprayAndWait L) L.
Proof.
  split; [| | left]; intros m me peer a b h; unfold Decide, SprayAndWait, SprayAndWait_Decide;
    destruct (bool_decide _), h; try done; destruct (Z.ltb_spec (st_CopiesMade m) L); try done;
    destruct (F64.flt _ _); done.
Qed.

Lemma Epidemic_budgeted cfg : 0 < cfg_InjectionFrom cfg -> Budgeted cfg Epidemic (cfg_Nodes cfg).
Proof.
  intros Hfrom. split; [| | by right]; intros m me peer a b h; unfold Decide, Epidemic, Epidemic_Decide;
    by destruct (bool_decide _), h.
Qed.

(** The figures of a finished run. *)
Record figures (cfg : Config) (L : Z) (o : Outcome) : Prop := mkFigures {
  fg_config : out_Config o = cfg;
  fg_total : 0 <= out_Total o <= Z.max 0 (cfg_Messages cfg);
  fg_delivered : 0 <= out_Delivered o <= out_Total o;
  fg_latencies : Z.of_nat (length (out_Latency o)) = out_Delivered o;
  fg_hops : Z.of_nat (length (out_Hops o)) = out_Delivered o;
  fg_latency : Forall (fun l => 0 <= l <= Z.max 0 (cfg_TTL cfg)) (out_Latency o);
  fg_copies : out_Total o <= out_Copies o <= out_Total o * Z.max 1 L
}.

Section Properties.
Context {R : Type} `{!Rand R, !RandLaw R}.
Context (visit : nat -> gmap string EncounterStat -> list (string * EncounterStat)).

Lemma Run_ends cfg F L :
  wf_config cfg L -> cfg_Forwarder cfg = Some F -> Budgeted cfg F L ->
  2 <= cfg_Nodes cfg -> cfg_InjectionFrom cfg < cfg_InjectionTo cfg ->
  exists o, Run visit cfg = Ret o /\ figures cfg L o.
Proof.
  intros Hcfg HF HB Hn Hw. unfold Run. rewrite (proj2 (Z.ltb_ge _ _) Hn), (proj2 (Z.leb_gt _ _) Hw), HF.
  destruct (run_ticks_ok visit cfg L Hcfg F HB (Z.to_nat (cfg_Duration cfg)) 0 (start_field cfg))
    as (s & -> & HI); [done | lia | | apply start_ok; done || lia |].
  { destruct Hcfg as (_ & _ & Hd & _). int_lia. }
  cbn [mbind option_bind]. destruct (accounting_ok cfg L _ s Hcfg HI) as (o & -> & [S1 S2 S3 S4 S5 S6] & E).
  exists o. destruct (inv_injected _ _ _ _ _ _ _ _ _ HI) as (Hi1 & _ & Hi2).
  split; [done |]. split; rewrite ?S1; done || lia.
Qed.

(** C14: a simulation run always ends with an outcome, and its figures are sound.
    Whatever the rest of the configuration, a run with fewer than two nodes, an empty
    injection window or no forwarder is refused with the error that says so.  Any other
    one within the machine's integers, under a forwarder with budget [L] (spray-and-wait
    with its own; epidemic routing with the number of nodes, if nothing is injected at
    tick 0), for any generator, order of map iteration and mobility, runs to its end
    without a panic; it counts at most the configured messages, as many latencies and
    hop counts as deliveries, no more deliveries than messages, every latency within the
    time to live, and at least one and at most [max 1 L] copies per message. *)
Theorem Run_sound cfg :
  (cfg_Nodes cfg < 2 -> Run visit cfg = Fail (ETooFewNodes (cfg_Nodes cfg))) /\
  (2 <= cfg_Nodes cfg -> cfg_InjectionTo cfg <= cfg_InjectionFrom cfg ->
   Run visit cfg = Fail (EWindow (cfg_InjectionFrom cfg) (cfg_InjectionTo cfg))) /\
  (2 <= cfg_Nodes cfg -> cfg_InjectionFrom cfg < cfg_InjectionTo cfg ->
   cfg_Forwarder cfg = None -> Run visit cfg = Fail ENoForwarder) /\
  (2 <= cfg_Nodes cfg -> cfg_InjectionFrom cfg < cfg_InjectionTo cfg ->
   forall F L, wf_config cfg L -> cfg_Forwarder cfg = Some F -> Budgeted cfg F L ->
   exists o, Run visit cfg = Ret o /\ figures cfg L o).
Proof.
  split_and!; [..| intros; by eapply Run_ends]; unfold Run.
  - intros Hn. by rewrite (proj2 (Z.ltb_lt _ _) Hn).
  - intros Hn Hw. by rewrite (proj2 (Z.ltb_ge _ _) Hn), (proj2 (Z.leb_le _ _) Hw).
  - intros Hn Hw ->. by rewrite (proj2 (Z.ltb_ge _ _) Hn), (proj2 (Z.leb_gt _ _) Hw).
Qed.

(** C15: copies are conserved.  After [n] ticks under any forwarder with budget [L],
    every node's presence mirror agrees with its queue, no node holds a message twice,
    and the physical copies of each message in all queues together are no more than it
    counts, which is at most [max 1 L].  A message injected after tick 0 and not yet
    delivered is in exactly as many queues as it counts until its time to live is over,
    and in none from then on. *)
Theorem copies_conserved cfg F L n s :
  wf_config cfg L -> Budgeted cfg F L -> 2 <= cfg_Nodes cfg -> Z.of_nat n <= cfg_Duration cfg ->
  run_ticks visit cfg F n 0 (start_field cfg) = Some s ->
  let qs := node_queue <$> s_nodes s in
  Forall (fun q => NoDup (be_msg <$> q.1) /\
            forall id, id ∈ q.2 <-> exists e, e ∈ q.1 /\ entry_id (s_heap s) e = Some id) qs /\
  forall k m, s_heap s !! k = Some m ->
    Z.of_nat (copies k qs) <= st_CopiesMade m <= Z.max 1 L /\
    (0 < st_CreatedAt m -> st_DeliveredAt m = 0 ->
     (gone (Z.of_nat n) m -> copies k qs = 0%nat) /\
     (~ gone (Z.of_nat n) m -> 1 <= st_CopiesMade m /\ Z.of_nat (copies k qs) = st_CopiesMade m)).
Proof.
  intros Hcfg HF Hn Hd Hrun.
  destruct (run_ticks_ok visit cfg L Hcfg F HF n 0 (start_field cfg)) as (s' & E & HI);
    [done | lia | | apply start_ok; done || lia |].
  { destruct Hcfg as (_ & _ & Hd64 & _). int_lia. }
  rewrite Hrun in E. injection E as <-. split.
  - eapply Forall_impl; [exact (inv_queues _ _ _ _ _ _ _ _ _ HI) |]. by intros q (H1 & _ & H3).
  - intros k m Hk. destruct (inv_msgs _ _ _ _ _ _ _ _ _ HI _ _ Hk) as [_ [Hc1 Hc2] _ _ _]. split; [split; [| done] |].
    + exact (inv_copies _ _ _ _ _ _ _ _ _ HI _ _ Hk).
    + intros Hpos Hopen. destruct (inv_exact _ _ _ _ _ _ _ _ _ HI _ _ Hk Hpos Hopen) as [Hg Hx]. auto.
Qed.
End Properties.

(** ** Examples *)

#[export] Instance counter_law : RandLaw Z.
Proof. split. intros n r Hn. by apply Z.mod_pos_bound. Qed.

Lemma sample_cfg_ok : wf_config sample_cfg 2.
Proof. unfold wf_config, sample_cfg. simpl. split_and!; int_lia. Qed.

Lemma Run_sound_witness :
  exists o, Run sample_visit (R := Z) sample_cfg = Ret o /\ out_Copies o <= out_Total o * 2.
Proof.
  destruct (proj2 (proj2 (proj2 (Run_sound (R := Z) sample_visit sample_cfg))) ltac:(simpl; lia) ltac:(simpl; lia)
    (SprayAndWait 2) 2 sample_cfg_ok eq_refl _) as (o & H & Hf).
  exists o. split; [exact H | exact (proj2 (fg_copies _ _ _ Hf))].
Defined.

Lemma copies_conserved_witness :
  exists s, run_ticks sample_visit (R := Z) sample_cfg (SprayAndWait 2) 9 0 (start_field sample_cfg) = Some s /\
    forall k m, s_heap s !! k = Some m -> st_CopiesMade m <= 2.
Proof.
  assert (2 <= cfg_Nodes sample_cfg) as Hn by (simpl; lia).
  assert (Z.of_nat 9 <= cfg_Duration sample_cfg) as Hd by (simpl; lia).
  destruct (run_ticks_ok (R := Z) sample_visit sample_cfg 2 sample_cfg_ok (SprayAndWait 2) _ 9 0
    (start_field sample_cfg)) as (s & H & _); [done | lia | int_lia | apply start_ok; done || lia |].
  exists s. split; [exact H |]. intros k m Hk.
  exact (proj2 (proj1 (proj2 (copies_conserved (R := Z) sample_visit sample_cfg (SprayAndWait 2) 2 9 s
    sample_cfg_ok _ Hn Hd H) k m Hk))).
Defined.

(** A delivery at tick 0 is not seen as one: the time of delivery is also the mark of
    an undelivered message, so the copy is consumed and the message not counted. *)
Lemma tick0_delivery_lost :
  (s ← exchange (SprayAndWait 2) 0 0 1 [mkEntry 0 0] tick0_field;
   Some (st_DeliveredAt <$> s_heap s, sn_buf <$> s_nodes s, out_Delivered <$> accounting sample_cfg s))
  = Some ([0], [[]; []], Some 0).
Proof. vm_compute. reflexivity. Qed.
