(* ===== verification/Bench.v ===== *)
(** * The routing benchmark (cmd/routingbench/main.go)

    [main] runs every scenario of the simulator twice and exits with 0 only when
    spray-and-wait saves copies in each without losing deliveries.  The rows given to
    the table and the complaints on standard error are kept by their values; laying
    them out as text is not modelled. *)

From S2P Require Import Prelude Float64 Routing Sim SimSpec.
Import F64.

(** ** The program *)

Record scenario := mkScenario {
  sc_name : string;
  sc_nodes : Z;
  sc_area : f64;
  sc_range : f64;
  sc_minV : f64;
  sc_maxV : f64;
  sc_msg : Z;
  sc_ttl : Z;
  sc_dur : Z;
  sc_seed : Z
}.

Definition scenarios : list scenario :=
  [mkScenario "sparse" 18 (of_int 50) (of_int 4) (of_int 1) (of_int 3) 30 35 600 42;
   mkScenario "medium" 30 (of_int 25) (of_ratio 45 10) (of_int 1) (of_int 3) 40 100 500 42;
   mkScenario "dense" 35 (of_int 22) (of_int 5) (of_int 1) (of_int 3) 50 100 500 42].

(** [base] with its forwarder. *)
Definition bench_config (s : scenario) (F : Forwarder) : Config :=
  mkConfig (sc_nodes s) (sc_area s) (sc_range s) (sc_minV s) (sc_maxV s) (sc_msg s)
    (cfg_InjectionFrom DefaultConfig) (cfg_InjectionTo DefaultConfig) (sc_ttl s) (sc_dur s)
    (sc_seed s) (Some F).

Inductive protocol := PEpidemic | PSpray.

(** A line of the table, and a line on standard error. *)
Record row := mkRow {
  row_name : string;
  row_protocol : protocol;
  row_delivered : Z;
  row_total : Z;
  row_percent : f64;
  row_latency : f64;
  row_hops : f64;
  row_copies : f64
}.
Inductive complaint :=
| RunFailed (p : protocol) (name : string) (e : SimError)
| CopiesNotSaved (name : string)
| DeliveryCollapsed (name : string).

Definition row_of (name : string) (p : protocol) (o : Outcome) : row :=
  mkRow name p (out_Delivered o) (out_Total o) (fmul (DeliveredFraction o) (of_int 100))
    (AvgLatency o) (AvgHops o) (AvgCopiesPerMessage o).

Definition savesCopies (epi spray : Outcome) : bool :=
  flt (AvgCopiesPerMessage spray) (AvgCopiesPerMessage epi).
Definition keepsDelivery (epi spray : Outcome) : bool :=
  (out_Delivered epi =? 0) ||
  fle (of_ratio 6 10) (fdiv (of_int (out_Delivered spray)) (of_int (out_Delivered epi))).

(** What the process leaves behind. *)
Record report := mkReport { rp_exit : Z; rp_table : list row; rp_errors : list complaint }.

Section Bench.
Context {R : Type} `{!Rand R}.
Context (visit : nat -> gmap string EncounterStat -> list (string * EncounterStat)).

(** The loop over the scenarios, and what follows it; [None] is a panic. *)
Fixpoint bench_loop (ss : list scenario) (failed : bool) (tw : list row) (errs : list complaint)
    : option report :=
  match ss with
  | [] => Some (mkReport (if failed then 1 else 0) tw errs)
  | s :: ss =>
      match Run visit (bench_config s Epidemic) with
      | Panic => None
      | Fail e => Some (mkReport 1 tw (errs ++ [RunFailed PEpidemic (sc_name s) e]))
      | Ret epi =>
          match Run visit (bench_config s (SprayAndWait 8)) with
          | Panic => None
          | Fail e => Some (mkReport 1 tw (errs ++ [RunFailed PSpray (sc_name s) e]))
          | Ret spray =>
              let tw := tw ++ [row_of (sc_name s) PEpidemic epi; row_of (sc_name s) PSpray spray] in
              let errs := errs ++ if savesCopies epi spray then [] else [CopiesNotSaved (sc_name s)] in
              let errs := errs ++ if keepsDelivery epi spray then [] else [DeliveryCollapsed (sc_name s)] in
              bench_loop ss (failed || negb (savesCopies epi spray) || negb (keepsDelivery epi spray))
                tw errs
          end
      end
  end.

Definition bench_main : option report := bench_loop scenarios false [] [].

End Bench.

(** ** The gate in exact arithmetic *)

(** The outcomes of the two runs of a scenario. *)
Abbreviation pair_of_runs := (Outcome * Outcome)%type.

(** Spray-and-wait makes fewer copies per message, and delivers at least three fifths
    of what epidemic routing does (of no message, there are no copies). *)
Definition backed (p : pair_of_runs) : Prop :=
  let '(epi, spray) := p in
  out_Copies spray * Z.max 1 (out_Total epi) < out_Copies epi * Z.max 1 (out_Total spray) /\
  3 * out_Delivered epi <= 5 * out_Delivered spray.

(** Figures small enough to be compared exactly. *)
Definition small_figures (o : Outcome) : Prop :=
  small (out_Copies o) /\ small (out_Total o) /\ small (out_Delivered o) /\
  (out_Total o = 0 -> out_Copies o = 0).

Lemma copies_quot o :
  small_figures o -> AvgCopiesPerMessage o = Fin (quot_u (out_Copies o) (Z.max 1 (out_Total o))).
Proof.
  unfold small_figures, small, AvgCopiesPerMessage. intros (Hc & Ht & _ & H0).
  destruct (Z.eqb_spec (out_Total o) 0) as [E|E].
  - rewrite H0, E by done. unfold quot_u. by rewrite Z.mul_0_l, rnd_0 by lia.
  - rewrite fdiv_int by (unfold small; lia). by rewrite Z.max_r by lia.
Qed.

Lemma savesCopies_exact epi spray :
  small_figures epi -> small_figures spray ->
  savesCopies epi spray = true <->
  out_Copies spray * Z.max 1 (out_Total epi) < out_Copies epi * Z.max 1 (out_Total spray).
Proof.
  intros He Hs. unfold savesCopies. rewrite !copies_quot by done. cbn [flt]. rewrite Z.ltb_lt.
  destruct He as (? & ? & _), Hs as (? & ? & _). unfold small in *.
  rewrite Z.lt_nge, quot_le by (unfold small; lia). lia.
Qed.

Lemma keepsDelivery_exact epi spray :
  small_figures epi -> small_figures spray ->
  keepsDelivery epi spray = true <-> 3 * out_Delivered epi <= 5 * out_Delivered spray.
Proof.
  intros (_ & _ & He & _) (_ & _ & Hs & _). unfold keepsDelivery, small in *.
  destruct (Z.eqb_spec (out_Delivered epi) 0) as [E|E]; cbn [orb]; [rewrite E; split; [lia | done] |].
  rewrite fdiv_int, of_ratio_small by (unfold small; lia). cbn [fle].
  rewrite Z.leb_le, quot_le by (unfold small; lia). lia.
Qed.

Lemma gate_exact epi spray :
  small_figures epi -> small_figures spray ->
  savesCopies epi spray && keepsDelivery epi spray = true <-> backed (epi, spray).
Proof. intros. unfold backed. by rewrite andb_true_iff, savesCopies_exact, keepsDelivery_exact. Qed.

(** ** Both runs of a scenario end *)

(** A scenario whose figures stay small. *)
Definition wf_scenario (s : scenario) : Prop :=
  2 <= sc_nodes s < 100 /\ 0 <= sc_msg s < 1000 /\ is_int64 (sc_ttl s) /\ is_int64 (sc_dur s).

Lemma scenarios_wf : Forall wf_scenario scenarios.
Proof. repeat constructor; simpl; int_lia. Qed.

Lemma bench_wf s F L : wf_scenario s -> 1 <= L < 100 -> wf_config (bench_config s F) L.
Proof.
  intros (Hn & Hm & Ht & Hd) HL. unfold wf_config. cbn [bench_config cfg_Nodes cfg_Messages cfg_Duration
    cfg_TTL cfg_InjectionFrom cfg_InjectionTo DefaultConfig]. rewrite Z.max_r by lia.
  assert (0 <= sc_msg s * L <= 1000 * 100) by nia. split_and!; done || int_lia.
Qed.

Lemma figures_small cfg L o :
  1 <= L < 100 -> 0 <= cfg_Messages cfg < 1000 -> figures cfg L o -> small_figures o.
Proof.
  intros HL Hm [_ Ht Hd _ _ _ Hc]. rewrite !Z.max_r in * by lia.
  assert (0 <= out_Total o * L <= 1000 * 100) by nia. unfold small_figures, small.
  change (2 ^ 25) with 33554432. split_and!; lia || nia.
Qed.

Section Gate.
Context {R : Type} `{!Rand R, !RandLaw R}.
Context (visit : nat -> gmap string EncounterStat -> list (string * EncounterStat)).

(** The outcomes a scenario has under the two protocols. *)
Definition runs_to (s : scenario) (p : pair_of_runs) : Prop :=
  Run visit (bench_config s Epidemic) = Ret p.1 /\
  Run visit (bench_config s (SprayAndWait 8)) = Ret p.2 /\
  figures (bench_config s Epidemic) (sc_nodes s) p.1 /\
  figures (bench_config s (SprayAndWait 8)) 8 p.2.

Definition rows_of (s : scenario) (p : pair_of_runs) : list row :=
  [row_of (sc_name s) PEpidemic p.1; row_of (sc_name s) PSpray p.2].

Lemma runs_to_total s : wf_scenario s -> exists p, runs_to s p.
Proof.
  intros Hs. pose proof Hs as (Hn & _). unfold runs_to.
  destruct (Run_ends visit (bench_config s Epidemic) Epidemic (sc_nodes s)) as (epi & He & Fe);
    [apply bench_wf; done || lia | done | by apply Epidemic_budgeted | simpl; lia | done |].
  destruct (Run_ends visit (bench_config s (SprayAndWait 8)) (SprayAndWait 8) 8) as (spray & Hs' & Fs);
    [apply bench_wf; done || lia | done | apply _ | simpl; lia | done |].
  by exists (epi, spray).
Qed.

Lemma runs_to_gate s p :
  wf_scenario s -> runs_to s p -> savesCopies p.1 p.2 && keepsDelivery p.1 p.2 = true <-> backed p.
Proof.
  intros (Hn & Hm & _) (_ & _ & Fe & Fs). destruct p as [epi spray]. simpl in *. apply gate_exact.
  - by eapply figures_small; [| | exact Fe]; simpl; lia.
  - by eapply figures_small; [| | exact Fs]; simpl; lia.
Qed.

Definition gate (p : pair_of_runs) : bool := savesCopies p.1 p.2 && keepsDelivery p.1 p.2.

Lemma bench_loop_spec ss failed tw errs :
  Forall wf_scenario ss ->
  exists ps errs', Forall2 runs_to ss ps /\
    bench_loop visit ss failed tw errs
    = Some (mkReport (if failed || negb (forallb gate ps) then 1 else 0)
              (tw ++ concat (zip_with rows_of ss ps)) errs').
Proof.
  intros Hss. revert failed tw errs. induction Hss as [|s ss Hs _ IH]; intros failed tw errs; cbn [bench_loop].
  - exists [], errs. split; [constructor |]. cbn. by rewrite orb_false_r, app_nil_r.
  - destruct (runs_to_total s Hs) as [[epi spray] Hp]. pose proof Hp as (-> & -> & _). simpl fst. simpl snd.
    destruct (IH (failed || negb (savesCopies epi spray) || negb (keepsDelivery epi spray))
      (tw ++ rows_of s (epi, spray))
      ((errs ++ if savesCopies epi spray then [] else [CopiesNotSaved (sc_name s)]) ++
        if keepsDelivery epi spray then [] else [DeliveryCollapsed (sc_name s)])) as (ps & errs' & Hps & E).
    exists ((epi, spray) :: ps), errs'. split; [by constructor |]. etransitivity; [exact E |].
    cbn [zip_with concat forallb]. rewrite <- app_assoc. unfold gate at 2. simpl fst. simpl snd.
    do 2 f_equal. by destruct failed, (savesCopies epi spray), (keepsDelivery epi spray), (forallb gate ps).
Qed.

(** C16: the benchmark's verdict is exact.  For any generator, any order of map
    iteration and any mobility, [main] ends without a panic and without a failed run,
    prints the two rows of every scenario in order, and exits with 0 exactly when in
    every scenario spray-and-wait made strictly fewer copies per message and kept at
    least three fifths of the deliveries, as fractions of integers: the rounding of
    the floats it compares never decides. *)
Theorem bench_verdict :
  exists ps errs code, Forall2 runs_to scenarios ps /\
    bench_main visit = Some (mkReport code (concat (zip_with rows_of scenarios ps)) errs) /\
    (code = 0 \/ code = 1) /\ (code = 0 <-> Forall backed ps).
Proof.
  destruct (bench_loop_spec scenarios false [] [] scenarios_wf) as (ps & errs & Hps & E).
  exists ps, errs. eexists. split; [exact Hps |]. split; [exact E |].
  assert (forallb gate ps = true <-> Forall backed ps) as Hg.
  { clear E. pose proof scenarios_wf as Hwf. revert Hwf. induction Hps as [|s p ss ps Hp _ IH]; intros Hwf.
    - split; [constructor | done].
    - apply Forall_cons in Hwf as [Hs Hwf]. cbn [forallb]. unfold gate at 1.
      by rewrite andb_true_iff, (runs_to_gate s p Hs Hp), Forall_cons, IH. }
  rewrite <- Hg. by destruct (forallb gate ps); split; auto.
Qed.
End Gate.

Lemma bench_verdict_witness :
  exists r, bench_main (R := Z) sample_visit = Some r /\ (rp_exit r = 0 \/ rp_exit r = 1).
Proof.
  destruct (bench_verdict (R := Z) sample_visit) as (ps & errs & code & _ & E & Hc & _).
  eexists. split; [exact E | exact Hc].
Defined.
