(* ===== verification/Paths.v ===== *)
(** * Slash-separated paths (path/filepath on Unix)

    [Join], [Clean] and [Ext], as the file transfer uses them.  [Clean] works on the
    list of path elements: empty elements and dots vanish, dot-dot removes the
    element before it, and cannot climb above a root. *)

From S2P Require Import Prelude.

Definition slash : ascii := "/"%char.

(** The elements between slashes; there is always at least one. *)
Fixpoint split_path (b : bytes) : list bytes :=
  match b with
  | [] => [[]]
  | c :: b =>
      if decide (c = slash) then [] :: split_path b
      else match split_path b with
           | [] => [[c]]
           | x :: xs => (c :: x) :: xs
           end
  end.

Fixpoint join_path (l : list bytes) : bytes :=
  match l with
  | [] => []
  | [x] => x
  | x :: l => x ++ slash :: join_path l
  end.

Definition dot : bytes := str_bytes ".".
Definition dotdot : bytes := str_bytes "..".

(** [out] is the cleaned prefix, last element first. *)
Definition clean_step (rooted : bool) (out : list bytes) (e : bytes) : list bytes :=
  if decide (e = [] \/ e = dot) then out
  else if decide (e = dotdot) then
    match out with
    | x :: out' => if decide (x = dotdot) then e :: out else out'
    | [] => if rooted then [] else [e]
    end
  else e :: out.

Definition rooted (b : bytes) : bool := bool_decide (head b = Some slash).

Definition Clean (path : string) : string :=
  let b := str_bytes path in
  let r := rooted b in
  let out := rev (foldl (clean_step r) [] (split_path b)) in
  match r, out with
  | true, _ => bytes_str (slash :: join_path out)
  | false, [] => "."
  | false, _ => bytes_str (join_path out)
  end.

(** [Join] of two elements: empty ones are ignored. *)
Definition Join (a b : string) : string :=
  if decide (a = EmptyString) then
    if decide (b = EmptyString) then EmptyString else Clean b
  else if decide (b = EmptyString) then Clean a
  else Clean (a ++ "/" ++ b).

(** The suffix from the last dot of the last element. *)
Fixpoint ext_loop (rb suffix : bytes) : bytes :=
  match rb with
  | [] => []
  | c :: rb =>
      if decide (c = slash) then []
      else if decide (c = "."%char) then c :: suffix
      else ext_loop rb (c :: suffix)
  end.
Definition Ext (path : string) : string := bytes_str (ext_loop (rev (str_bytes path)) []).

(** An element [Clean] keeps. *)
Definition plain (e : bytes) : Prop := e <> [] /\ e <> dot /\ e <> dotdot /\ slash ∉ e.
#[export] Instance plain_dec e : Decision (plain e).
Proof. unfold plain. apply _. Defined.

(** ** Lemmas *)

Lemma split_no_slash e : slash ∉ e -> split_path e = [e].
Proof.
  induction e as [|c e IH]; intros Hs; simpl; [done |].
  rewrite decide_False by set_solver. rewrite IH by set_solver. done.
Qed.

Lemma split_app_slash e b : slash ∉ e -> split_path (e ++ slash :: b) = e :: split_path b.
Proof.
  induction e as [|c e IH]; intros Hs; simpl.
  - done.
  - rewrite decide_False by set_solver. rewrite IH by set_solver. done.
Qed.

Lemma split_join l : l <> [] -> Forall (fun e => slash ∉ e) l -> split_path (join_path l) = l.
Proof.
  induction l as [|x [|y l] IH]; intros Hne Hl; [done | |]; inversion_clear Hl as [|? ? Hx Hl'].
  - by apply split_no_slash.
  - change (join_path (x :: y :: l)) with (x ++ slash :: join_path (y :: l)).
    rewrite split_app_slash by done. by rewrite IH.
Qed.

Lemma clean_plain r out e : plain e -> clean_step r out e = e :: out.
Proof.
  intros (H1 & H2 & H3 & _). unfold clean_step.
  rewrite decide_False by tauto. by rewrite decide_False.
Qed.

Lemma clean_plains r out l : Forall plain l -> foldl (clean_step r) out l = rev l ++ out.
Proof.
  revert out. induction l as [|e l IH]; intros out Hl; [done |].
  inversion_clear Hl. simpl. rewrite clean_plain, IH by done. by rewrite <- app_assoc.
Qed.

(** Enough dot-dots climb to the root, and no further. *)
Lemma clean_climb n out :
  Forall plain out -> (length out <= n)%nat ->
  foldl (clean_step true) out (replicate n dotdot) = [].
Proof.
  revert out. induction n as [|n IH]; intros out Hp Hl; simpl; [by destruct out; simpl in Hl; [| lia] |].
  assert (clean_step true out dotdot = tail out) as ->.
  { unfold clean_step. rewrite decide_False by (intros [|]; done). rewrite decide_True by done.
    destruct out as [|x out]; [done |]. inversion_clear Hp as [|? ? (_ & _ & Hx & _) _].
    by rewrite decide_False. }
  apply IH; destruct out; simpl in *; [constructor | by inversion_clear Hp | lia..].
Qed.
