(* ===== verification/Config.v ===== *)
(** * Configuration (pkg/config/config.go)

    [Parse] after the flag package has read the command line: defaults for the data
    directory, the store's path and the nickname, and the list of peers. *)

From S2P Require Import Prelude Paths.

Definition DefaultPort : Z := 0.
Definition DefaultWSPort : Z := 9876.
Definition DefaultRendezvous : string := "ripple-chat-v1".
Definition DefaultDataDir : string := ".ripple".

Record Config := mkConfig {
  ListenPort : Z;
  WSPort : Z;
  Rendezvous : string;
  RelayPeers : list string;
  DataDir : string;
  IdentityPath : string;
  c_Nickname : string;
  DBPath : string;
  c_Debug : bool;
  NoMDNS : bool;
  ExportSeed : bool;
  ImportSeed : string;
  RoutingMode : string;
  c_SprayBudget : Z
}.

(** The values of the flags. *)
Record Flags := mkFlags {
  f_port : Z;
  f_wsport : Z;
  f_rdv : string;
  f_nick : string;
  f_db : string;
  f_debug : bool;
  f_nomdns : bool;
  f_export : bool;
  f_import : string;
  f_routing : string;
  f_spray : Z;
  f_data : string;
  f_peers : string
}.

(** Those of a command line without any. *)
Definition default_flags : Flags :=
  mkFlags DefaultPort DefaultWSPort DefaultRendezvous EmptyString EmptyString false false false
    EmptyString "epidemic" 4 EmptyString EmptyString.

Definition flush (current : bytes) (result : list string) : list string :=
  match current with [] => result | _ => result ++ [bytes_str current] end.

Fixpoint split_csv (s current : bytes) (result : list string) : list string :=
  match s with
  | [] => flush current result
  | c :: s =>
      if decide (c = ","%char) then split_csv s [] (flush current result)
      else if decide (c = " "%char) then split_csv s current result
      else split_csv s (current ++ [c]) result
  end.
Definition splitCSV (s : string) : list string := split_csv (str_bytes s) [] [].

(** [home]: os.UserHomeDir, [host]: os.Hostname, empty on an error. *)
Definition Parse (f : Flags) (home : option string) (host : string) : Config :=
  let dataDir :=
    if bool_decide (f_data f = EmptyString) then
      match home with
      | None => DefaultDataDir
      | Some home => Join home DefaultDataDir
      end
    else f_data f in
  mkConfig (f_port f) (f_wsport f) (f_rdv f)
    (if bool_decide (f_peers f = EmptyString) then [] else splitCSV (f_peers f))
    dataDir (Join dataDir "identity.pem")
    (if bool_decide (f_nick f = EmptyString) then host else f_nick f)
    (if bool_decide (f_db f = EmptyString) then Join dataDir "ripple.db" else f_db f)
    (f_debug f) (f_nomdns f) (f_export f) (f_import f) (f_routing f) (f_spray f).

(** ** The list of peers *)

(** The pieces between commas. *)
Fixpoint pieces (s : bytes) : list bytes :=
  match s with
  | [] => [[]]
  | c :: s =>
      if decide (c = ","%char) then [] :: pieces s
      else match pieces s with
           | [] => [[c]]
           | x :: xs => (c :: x) :: xs
           end
  end.

(** Without blanks; none if nothing is left. *)
Definition piece (x : bytes) : list string := flush (filter (fun c => c <> " "%char) x) [].

Lemma flush_app current result : flush current result = result ++ flush current [].
Proof. destruct current; [by rewrite app_nil_r | done]. Qed.

Lemma pieces_nonempty s : exists x xs, pieces s = x :: xs.
Proof.
  destruct s as [|c s]; simpl; [eauto |]. case_decide; [eauto |]. destruct (pieces s); eauto.
Qed.

Lemma split_csv_spec s current result :
  split_csv s current result =
  match pieces s with
  | [] => []
  | x :: xs => result ++ flush (current ++ filter (fun c => c <> " "%char) x) [] ++ concat (map piece xs)
  end.
Proof.
  revert current result. induction s as [|c s IH]; intros current result; simpl.
  - by rewrite !app_nil_r, flush_app.
  - destruct (pieces_nonempty s) as (x & xs & Hp). rewrite Hp in IH |- *.
    case_decide as Hc; [| case_decide as Hb]; rewrite IH.
    + rewrite flush_app, filter_nil, app_nil_r. by rewrite <- app_assoc.
    + by rewrite filter_cons_False by (intros H; by apply H).
    + rewrite filter_cons_True by done. by rewrite <- app_assoc.
Qed.

(** The list of peers is every piece between commas, without its blanks, that is not
    empty, in order. *)
Lemma splitCSV_spec s : splitCSV s = concat (map piece (pieces (str_bytes s))).
Proof.
  unfold splitCSV. rewrite split_csv_spec. destruct (pieces_nonempty (str_bytes s)) as (x & xs & ->). done.
Qed.
