(* ===== verification/Store.v ===== *)
(** * Message persistence (pkg/store/store.go)

    The in-memory store, and its JSON backup file: written to a temporary file,
    synced, then renamed over the target.  The file system below is a journalling
    one: a crash keeps some directory state of the recent past, and the bytes of a
    file survive only if they were synced. *)

From S2P Require Import Prelude Json Message Heap.

(** ** The store *)

Record Store := mkStore {
  messages : list ptr;
  peers : gmap string string;
  dbPath : string
}.

Definition New : Store := mkStore [] ∅ EmptyString.

Definition SaveMessage (msg : ptr) (s : Store) : Store :=
  mkStore (messages s ++ [msg]) (peers s) (dbPath s).

Fixpoint messages_loop (l : list ptr) (i : nat) (result : list ptr) : list ptr :=
  match l with
  | [] => result
  | m :: l => messages_loop l (S i) (<[(length result - 1 - i)%nat := m]> result)
  end.

Definition Messages (s : Store) : list ptr :=
  messages_loop (messages s) 0 (replicate (length (messages s)) None).

(** [None]: following a nil pointer panics. *)
Fixpoint contact_loop (h : heap) (c : string) (l : list ptr) (conv : list ptr)
    : option (list ptr) :=
  match l with
  | [] => Some conv
  | p :: l =>
      m ← deref h p;
      contact_loop h c l
        (if bool_decide (Sender m = c) || bool_decide (Recipient m = c)
         then conv ++ [p] else conv)
  end.

Definition MessagesForContact (h : heap) (contactPeerID : string) (s : Store)
    : option (list ptr) := contact_loop h contactPeerID (messages s) [].

Fixpoint recent_loop (msgs : list ptr) (total n : nat) (idx : list nat) (result : list ptr)
    : list ptr :=
  match idx with
  | [] => result
  | i :: idx =>
      recent_loop msgs total n idx
        (<[(n - 1 - i)%nat := default None (msgs !! (total - 1 - i)%nat)]> result)
  end.

(** [make] with a negative length panics. *)
Definition RecentMessages (n : Z) (s : Store) : option (list ptr) :=
  let total := length (messages s) in
  let n := if Z.of_nat total <? n then Z.of_nat total else n in
  if n <? 0 then None
  else
    let n := Z.to_nat n in
    Some (recent_loop (messages s) total n (seq 0 n) (replicate n None)).

Definition AddPeer (peerID nickname : string) (s : Store) : Store :=
  match peers s !! peerID with
  | Some _ => s
  | None => mkStore (messages s) (<[peerID := nickname]> (peers s)) (dbPath s)
  end.

Definition SavePeer (peerID nickname : string) (s : Store) : Store :=
  mkStore (messages s) (<[peerID := nickname]> (peers s)) (dbPath s).

Definition RemovePeer (peerID : string) (s : Store) : Store :=
  mkStore (messages s) (delete peerID (peers s)) (dbPath s).

(** A fresh map with the same entries. *)
Definition Peers (s : Store) : gmap string string :=
  map_fold (fun k v result => <[k := v]> result) ∅ (peers s).

Fixpoint has_loop (h : heap) (id : string) (l : list ptr) : option bool :=
  match l with
  | [] => Some false
  | p :: l => m ← deref h p; if bool_decide (ID m = id) then Some true else has_loop h id l
  end.

Definition HasMessage (h : heap) (id : string) (s : Store) : option bool :=
  has_loop h id (messages s).

(** ** The file system *)

(** [dir] names inodes; [past] are the directory states a crash may go back to;
    an inode in [clean] has its bytes on disk. *)
Record FS := mkFS {
  dir : gmap string nat;
  past : list (gmap string nat);
  data : gmap nat bytes;
  clean : gset nat;
  next : nat
}.

Definition set_dir (d : gmap string nat) (fs : FS) : FS :=
  mkFS d (dir fs :: past fs) (data fs) (clean fs) (next fs).
Definition set_data (i : nat) (b : bytes) (fs : FS) : FS :=
  mkFS (dir fs) (past fs) (<[i := b]> (data fs)) (clean fs ∖ {[i]}) (next fs).
Definition set_clean (i : nat) (fs : FS) : FS :=
  mkFS (dir fs) (past fs) (data fs) ({[i]} ∪ clean fs) (next fs).

Definition ReadFile (path : string) (fs : FS) : option bytes :=
  i ← dir fs !! path; data fs !! i.

(** [os.Create]: an existing file is truncated in place. *)
Definition os_Create (path : string) (fs : FS) : nat * FS :=
  match dir fs !! path with
  | Some i => (i, set_data i [] fs)
  | None =>
      let i := next fs in
      (i, set_data i []
            (mkFS (<[path := i]> (dir fs)) (dir fs :: past fs) (data fs) (clean fs) (S i)))
  end.

Definition os_Remove (path : string) (fs : FS) : FS := set_dir (delete path (dir fs)) fs.

Definition os_Rename (old new : string) (fs : FS) : FS :=
  match dir fs !! old with
  | Some i => set_dir (<[new := i]> (delete old (dir fs))) fs
  | None => fs
  end.

(** What the calls of one save answer: an error of [Create], [Sync], [Close],
    [Rename] and [Remove], or [Write] giving up after some bytes. *)
Record Faults := mkFaults {
  f_create : bool;
  f_write : option nat;
  f_sync : bool;
  f_close : bool;
  f_rename : bool;
  f_remove : bool
}.

Definition no_faults : Faults := mkFaults false None false false false false.

(** What a power failure leaves behind. *)
Record crash (fs fs' : FS) : Prop := mkCrash {
  crash_dir : dir fs' ∈ dir fs :: past fs;
  crash_past : past fs' = [];
  crash_data : forall i, i ∈ clean fs -> data fs' !! i = data fs !! i;
  crash_clean : clean fs ⊆ clean fs';
  crash_next : next fs' = next fs
}.

Definition dirs (fs : FS) : list (gmap string nat) := dir fs :: past fs.

(** What makes [path] safe to lose power over: whichever directory survives, the
    file behind [path] is on disk and acceptable to [K] ([None]: no such file), and
    writing to [tmp] cannot reach it. *)
Record fs_ok (path tmp : string) (K : option bytes -> Prop) (fs : FS) : Prop := mkOk {
  ok_path : forall d, d ∈ dirs fs ->
    match d !! path with
    | None => K None
    | Some i => i ∈ clean fs /\ K (data fs !! i)
    end;
  ok_tmp : forall d i, d ∈ dirs fs -> d !! tmp = Some i -> d !! path <> Some i;
  ok_cur : forall d i, d ∈ dirs fs -> dir fs !! tmp = Some i -> d !! path <> Some i;
  ok_next : forall d name i, d ∈ dirs fs -> d !! name = Some i -> (i < next fs)%nat
}.

(** ** The backup *)

(** The anonymous struct with the tags "messages" and "peers"; a field that is
    missing from the file stays nil. *)
Record Backup := mkBackup {
  bk_messages : option (list (option Message));
  bk_peers : option (gmap string string)
}.

#[global] Instance Backup_eq_dec : EqDecision Backup.
Proof. solve_decision. Defined.
Inductive SaveError := EMarshal | ECreate | EWrite | ESync | EClose | ERename.

Section Persistence.
Context `{!JSON Backup}.

(** The content a save writes. *)
Definition snapshot (h : heap) (s : Store) : Backup :=
  mkBackup (Some (deref_all h (messages s))) (Some (peers s)).

(** The states the file system goes through, oldest first, and the result. *)
Definition SaveToJSON (h : heap) (path : string) (ft : Faults) (s : Store) (fs : FS)
    : list FS * option SaveError :=
  match json_marshal (snapshot h s) with
  | None => ([fs], Some EMarshal)
  | Some jsonData =>
      let tmp := (path ++ ".tmp")%string in
      let remove fs := if f_remove ft then [fs] else [fs; os_Remove tmp fs] in
      if f_create ft then ([fs], Some ECreate)
      else
        let '(f, fs1) := os_Create tmp fs in
        match f_write ft with
        | Some k => (fs :: fs1 :: remove (set_data f (take k jsonData) fs1), Some EWrite)
        | None =>
            let fs2 := set_data f jsonData fs1 in
            if f_sync ft then (fs :: fs1 :: remove fs2, Some ESync)
            else
              let fs3 := set_clean f fs2 in
              if f_close ft then (fs :: fs1 :: fs2 :: remove fs3, Some EClose)
              else if f_rename ft then (fs :: fs1 :: fs2 :: remove fs3, Some ERename)
              else (fs :: fs1 :: fs2 :: [fs3; os_Rename tmp path fs3], None)
        end
  end.

(** The file system when the call returns. *)
Definition final (fs : FS) (trace : list FS) : FS := List.last trace fs.

(** [None]: the file cannot be read, or does not parse. *)
Definition LoadFromJSON (path : string) (fs : FS) (h : heap) (s : Store)
    : option (heap * Store) :=
  data ← ReadFile path fs;
  loaded ← json_unmarshal data;
  let '(ms, h') := alloc_all (default [] (bk_messages loaded)) h in
  Some (h', mkStore ms (default ∅ (bk_peers loaded)) (dbPath s)).

(** The error of [LoadFromJSON] is dropped: the store then starts empty. *)
Definition NewWithDB (path : string) (fs : FS) (h : heap) : heap * Store :=
  let s := mkStore [] ∅ path in
  default (h, s) (LoadFromJSON (path ++ ".json") fs h s).

Definition Autosave (h : heap) (ft : Faults) (s : Store) (fs : FS)
    : list FS * option SaveError :=
  if bool_decide (dbPath s = EmptyString) then ([fs], None)
  else SaveToJSON h (dbPath s ++ ".json") ft s fs.

Definition Close (h : heap) (ft : Faults) (s : Store) (fs : FS)
    : list FS * option SaveError := Autosave h ft s fs.

End Persistence.

(** A disk with an earlier backup, and a store with one peer, for the examples. *)
Definition sample_fs : FS :=
  mkFS {["db.json"%string := 0%nat]} [] {[0%nat := str_bytes "old"]} {[0%nat]} 1.
Definition sample_store : Store :=
  SaveMessage (Some 0%nat) (AddPeer "p1" "ann" (mkStore [] ∅ "db")).
Definition sample_heap : heap := [set_Recipient "p1" zeroMessage].
