(* ===== verification/FileTransfer.v ===== *)
(** * File transfer (pkg/filetransfer/transfer.go)

    A file travels over a stream as JSON packets, one per line: its metadata, then
    its chunks.  The sender and the receiver are functions on the manager's state,
    which they share with the goroutines that list and cancel transfers: between two
    iterations the environment may change it ([intr]).  The stream is the bytes
    written to it. *)

From S2P Require Import Prelude Float64 Json Message Paths.

(** ** Data *)

Definition ProtocolFileTransfer : string := "/ripple/filetransfer/1.0.0".
Definition DefaultChunkSize : Z := 64 * 1024.

Record FileMetadata := mkMeta {
  md_FileID : string;
  md_Name : string;
  md_Size : Z;
  md_MimeType : string;
  md_ChunkCount : Z;
  md_Sender : string;
  md_SenderNick : string;
  md_Recipient : string;
  md_Timestamp : Z
}.

Record FileChunk := mkChunk {
  fc_FileID : string;
  fc_ChunkIdx : Z;
  fc_ChunkCount : Z;
  fc_Data : bytes;
  fc_Size : Z
}.

Inductive TransferStatus :=
| StatusPending | StatusSending | StatusReceiving | StatusComplete | StatusFailed
| StatusCancelled.

#[global] Instance TransferStatus_eq_dec : EqDecision TransferStatus.
Proof. solve_decision. Defined.

Record Transfer := mkTransfer {
  t_Metadata : FileMetadata;
  t_Status : TransferStatus;
  t_Progress : F64.f64;
  t_Received : Z;
  t_Chunks : gmap Z FileChunk;
  t_OutputPath : string;
  t_startedAt : Z
}.

Record streamPacket := mkPacket {
  p_Type : string;
  p_Metadata : option FileMetadata;
  p_Chunk : option FileChunk
}.

#[global] Instance FileMetadata_eq_dec : EqDecision FileMetadata.
Proof. solve_decision. Defined.
#[global] Instance FileChunk_eq_dec : EqDecision FileChunk.
Proof. solve_decision. Defined.
#[global] Instance streamPacket_eq_dec : EqDecision streamPacket.
Proof. solve_decision. Defined.

(** The manager: transfers by file identifier, pointing at shared objects. *)
Record Manager := mkManager {
  hostID : string;            (* host.ID().String() *)
  transfers : gmap string nat;
  objs : list Transfer;
  incomingDir : string
}.

Definition set_objs (o : list Transfer) (m : Manager) : Manager :=
  mkManager (hostID m) (transfers m) o (incomingDir m).

(** [m.transfers[fileID] = transfer], with a new object. *)
Definition track (fileID : string) (t : Transfer) (m : Manager) : nat * Manager :=
  (length (objs m),
   mkManager (hostID m) (<[fileID := length (objs m)]> (transfers m)) (objs m ++ [t]) (incomingDir m)).

Definition set_Status (s : TransferStatus) (t : Transfer) : Transfer :=
  mkTransfer (t_Metadata t) s (t_Progress t) (t_Received t) (t_Chunks t) (t_OutputPath t)
    (t_startedAt t).
Definition set_progress (p : F64.f64) (r : Z) (t : Transfer) : Transfer :=
  mkTransfer (t_Metadata t) (t_Status t) p r (t_Chunks t) (t_OutputPath t) (t_startedAt t).
Definition set_Chunk (i : Z) (c : FileChunk) (t : Transfer) : Transfer :=
  mkTransfer (t_Metadata t) (t_Status t) (t_Progress t) (t_Received t)
    (<[i := c]> (t_Chunks t)) (t_OutputPath t) (t_startedAt t).

(** [transfer.field = ...] under its lock. *)
Definition upd (l : nat) (f : Transfer -> Transfer) (m : Manager) : Manager :=
  set_objs (alter f l (objs m)) m.

Inductive TransferError :=
| EOpenFile | EStat | EDecodeRecipient | EOpenStream | ESendMetadata | EReadChunk (i : Z)
| ESendChunk (i : Z) | EBadPacket (i : Z) | EUnexpectedType (i : Z) | EOutOfRange (i : Z)
| ESizeMismatch (i : Z) | ECreateOutput | EMissingChunk (i : Z) | EWriteChunk (i : Z).

(** The manager's callbacks, when they are set. *)
Inductive Note :=
| OnTransferStarted (l : nat)
| OnTransferProgress (l : nat) (p : F64.f64)
| OnTransferComplete (l : nat)
| OnTransferFailed (l : nat) (e : TransferError)
| OnFileNotification (m : Message).

(** What the code asks of its surroundings; calls are numbered by chunk. *)
Record FEnv := mkFEnv {
  fe_open : bool;                      (* os.Open *)
  fe_stat : bool;                      (* file.Stat *)
  fe_peer : string -> option string;   (* peer.Decode *)
  fe_stream : bool;                    (* NewStream *)
  fe_read : nat -> option nat;         (* a read fails, or gives at most so many bytes *)
  fe_write : nat -> option nat;        (* stream.Write fails after some bytes; the
                                          metadata is number 0 *)
  fe_create : bool;                    (* os.Create *)
  fe_file_write : nat -> bool;         (* outFile.Write *)
  fe_clock : nat -> Z;
  fe_entropy : nat -> bytes;
  fe_intr : nat -> Manager -> Manager  (* other goroutines, before an iteration *)
}.

(** A state: manager, bytes written to the stream, files, callbacks made. *)
Record St := mkSt {
  mgr : Manager;
  wire : bytes;
  files : gmap string bytes;
  notes : list Note
}.

Definition on_mgr (f : Manager -> Manager) (s : St) : St :=
  mkSt (f (mgr s)) (wire s) (files s) (notes s).
Definition note (n : Note) (s : St) : St := mkSt (mgr s) (wire s) (files s) (notes s ++ [n]).
Definition write_wire (b : bytes) (s : St) : St :=
  mkSt (mgr s) (wire s ++ b) (files s) (notes s).
Definition set_file (path : string) (b : bytes) (s : St) : St :=
  mkSt (mgr s) (wire s) (<[path := b]> (files s)) (notes s).

(** ** Lines and packets *)

Definition nl : ascii := ascii_of_nat 10.

(** The encodings of the runes [unicode.IsSpace] accepts. *)
Definition space_seqs : list bytes :=
  map (map z2b)
   [[9]; [10]; [11]; [12]; [13]; [32]; [194; 133]; [194; 160]; [225; 154; 128]; [226; 128; 128]; [226; 128; 129];
    [226; 128; 130]; [226; 128; 131]; [226; 128; 132]; [226; 128; 133]; [226; 128; 134];
    [226; 128; 135]; [226; 128; 136]; [226; 128; 137]; [226; 128; 138]; [226; 128; 168];
    [226; 128; 169]; [226; 128; 175]; [226; 129; 159]; [227; 128; 128]].

Fixpoint has_prefix (s b : bytes) : bool :=
  match s, b with
  | [], _ => true
  | c :: s, d :: b => Ascii.eqb c d && has_prefix s b
  | _, _ => false
  end.

(** Strip any of [seqs] from the front, as long as one is there. *)
Fixpoint trim_front (fuel : nat) (seqs : list bytes) (b : bytes) : bytes :=
  match fuel with
  | O => b
  | S fuel =>
      match List.find (fun s => has_prefix s b) seqs with
      | Some s => trim_front fuel seqs (drop (length s) b)
      | None => b
      end
  end.

(** [bytes.TrimSpace]. *)
Definition TrimSpace (b : bytes) : bytes :=
  let b := trim_front (length b) space_seqs b in
  rev (trim_front (length b) (map (fun s => rev s) space_seqs) (rev b)).

(** [ReadBytes]: the line with its end, and the rest; [None] at the end of input. *)
Fixpoint read_line (b : bytes) : option (bytes * bytes) :=
  match b with
  | [] => None
  | c :: b =>
      if decide (c = nl) then Some ([c], b)
      else '(l, r) ← read_line b; Some (c :: l, r)
  end.

(** ** File names *)

Definition newFileID (entropy : bytes) : string := Hex.EncodeToString entropy.

Definition detectMimeType (name : string) : string :=
  let ext := Ext name in
  let among l := bool_decide (ext ∈ l) in
  if among [".jpg"; ".jpeg"]%string then "image/jpeg"
  else if among [".png"%string] then "image/png"
  else if among [".gif"%string] then "image/gif"
  else if among [".webp"%string] then "image/webp"
  else if among [".mp4"%string] then "video/mp4"
  else if among [".mov"%string] then "video/quicktime"
  else if among [".avi"%string] then "video/x-msvideo"
  else if among [".mkv"%string] then "video/x-matroska"
  else if among [".pdf"%string] then "application/pdf"
  else if among [".zip"%string] then "application/zip"
  else if among [".tar"%string] then "application/x-tar"
  else if among [".gz"%string] then "application/gzip"
  else if among [".txt"%string] then "text/plain"
  else if among [".json"%string] then "application/json"
  else if among [".xml"%string] then "application/xml"
  else if among [".html"; ".htm"]%string then "text/html"
  else if among [".mp3"%string] then "audio/mpeg"
  else if among [".wav"%string] then "audio/wav"
  else if among [".ogg"%string] then "audio/ogg"
  else if among [".doc"; ".docx"]%string then "application/msword"
  else if among [".xls"; ".xlsx"]%string then "application/vnd.ms-excel"
  else if among [".csv"%string] then "text/csv"
  else "application/octet-stream".

(** The name check of [handleStream], and the path it goes on to use. *)
Definition bad_name (name : string) : bool :=
  bool_decide (name = EmptyString) || bool_decide (name = "."%string) ||
  bool_decide (name = ".."%string) ||
  bool_decide (slash ∈ str_bytes name) || bool_decide ("\"%char ∈ str_bytes name).

Definition outputPath (dir : string) (meta : FileMetadata) : string :=
  Join dir (md_FileID meta ++ "_" ++ md_Name meta).

(** [int((fileSize + int64(DefaultChunkSize) - 1) / int64(DefaultChunkSize))] *)
Definition chunkCountOf (fileSize : Z) : Z :=
  Z.quot (wrap64 (wrap64 (fileSize + DefaultChunkSize) - 1)) DefaultChunkSize.

(** [float64(done) / float64(size)], capped at 1. *)
Definition progressOf (done size : Z) : F64.f64 :=
  let p := F64.fdiv (F64.of_int done) (F64.of_int size) in
  if F64.flt F64.one p then F64.one else p.

(** ** Operations *)

Section FileTransfer.
Context `{!JSON streamPacket, !JSON FileMessagePayload}.
Context (E : FEnv).

(** The bytes [writePacket] writes; [None] if the packet does not encode. *)
Definition packetLine (pkt : streamPacket) : option bytes :=
  data ← json_marshal pkt; Some (data ++ [nl]).

(** The [k]-th packet on the stream: whether it went through. *)
Definition writePacket (k : nat) (pkt : streamPacket) (s : St) : bool * St :=
  match packetLine pkt with
  | None => (false, s)
  | Some data =>
      match fe_write E k with
      | None => (true, write_wire data s)
      | Some written => (false, write_wire (take written data) s)
      end
  end.

Definition readPacket (input : bytes) : option (streamPacket * bytes) :=
  '(line, rest) ← read_line input;
  let line := TrimSpace line in
  if bool_decide (line = []) then None
  else pkt ← json_unmarshal line; Some (pkt, rest).

Definition failTransfer (l : nat) (e : TransferError) (s : St) : St :=
  note (OnTransferFailed l e) (on_mgr (upd l (set_Status StatusFailed)) s).

(** The tail of both directions. *)
Definition completeTransfer (l : nat) (notification : Message) (s : St) : St :=
  let s := on_mgr (upd l (fun t => set_progress F64.one (t_Received t)
                                     (set_Status StatusComplete t))) s in
  note (OnFileNotification notification) (note (OnTransferComplete l) s).

Definition chunkPacket (meta : FileMetadata) (i : Z) (data : bytes) : streamPacket :=
  mkPacket "chunk" None
    (Some (mkChunk (md_FileID meta) i (md_ChunkCount meta) data (blen data))).

(** The loop over the chunks from number [i] on; [rem] is unread.  [None]: it ran to
    its end, or met the end of the file. *)
Fixpoint send_loop (k : nat) (i : nat) (rem : bytes) (totalSent : Z) (meta : FileMetadata)
    (l : nat) (s : St) : St * option TransferError :=
  match k with
  | O => (s, None)
  | S k =>
      let s := on_mgr (fe_intr E i) s in
      match fe_read E i with
      | None => (s, Some (EReadChunk (Z.of_nat i)))
      | Some most =>
          let n := (Z.to_nat DefaultChunkSize `min` most)%nat in
          let data := take n rem in
          if bool_decide (data = []) then (s, None)
          else
            match writePacket (S i) (chunkPacket meta (Z.of_nat i) data) s with
            | (false, s) => (s, Some (ESendChunk (Z.of_nat i)))
            | (true, s) =>
                let totalSent := wrap64 (totalSent + blen data) in
                let progress := progressOf totalSent (md_Size meta) in
                let s := on_mgr (upd l (set_progress progress totalSent)) s in
                let s := note (OnTransferProgress l progress) s in
                let s := note (OnFileNotification
                           (NewFileProgress (fe_entropy E (S i)) (fe_clock E (S i))
                              (md_Sender meta) (md_Recipient meta) (md_FileID meta)
                              (Z.of_nat i) (md_ChunkCount meta) progress)) s in
                send_loop k (S i) (drop n rem) totalSent meta l s
            end
      end
  end.

Definition sendFileStream (content : bytes) (meta : FileMetadata) (l : nat) (s : St) : St :=
  let s := on_mgr (upd l (set_Status StatusSending)) s in
  let s := note (OnTransferStarted l) s in
  match fe_peer E (md_Recipient meta) with
  | None => failTransfer l EDecodeRecipient s
  | Some _ =>
      if negb (fe_stream E) then failTransfer l EOpenStream s
      else
        match writePacket 0 (mkPacket "meta" (Some meta) None) s with
        | (false, s) => failTransfer l ESendMetadata s
        | (true, s) =>
            match send_loop (Z.to_nat (md_ChunkCount meta)) 0 content 0 meta l s with
            | (s, Some e) => failTransfer l e s
            | (s, None) =>
                completeTransfer l
                  (NewFileComplete (fe_entropy E 0) (fe_clock E 0) (md_Sender meta)
                     (md_Recipient meta) (md_FileID meta) (md_Name meta) EmptyString) s
            end
        end
  end.

(** [SendFile]: the state when it returns, and the goroutine it leaves to run. *)
Definition SendFile (name : string) (content : bytes) (recipient senderNick fileID : string)
    (s : St) : outcome TransferError (nat * FileMetadata * St) :=
  if negb (fe_open E) then Fail EOpenFile
  else if negb (fe_stat E) then Fail EStat
  else
    let fileID := if bool_decide (fileID = EmptyString) then newFileID (fe_entropy E 0)
                  else fileID in
    let fileSize := blen content in
    let meta := mkMeta fileID name fileSize (detectMimeType name) (chunkCountOf fileSize)
                  (hostID (mgr s)) senderNick recipient (fe_clock E 0) in
    let '(l, m) := track fileID
      (mkTransfer meta StatusPending F64.zero 0 ∅ EmptyString (fe_clock E 0)) (mgr s) in
    let s := on_mgr (fun _ => m) s in
    let s := note (OnFileNotification
               (NewFileMetadata (fe_clock E 0) (md_Sender meta) senderNick recipient fileID
                  name (md_MimeType meta) fileSize (md_ChunkCount meta))) s in
    Ret (l, meta, s).

(** ** Receiving *)

(** An accepted chunk: kept under its index, counted, reported. *)
Definition receiveChunk (i : nat) (chunk : FileChunk) (meta : FileMetadata) (l : nat)
    (localPID : string) (s : St) : St :=
  let received := wrap64 (default 0 (t_Received <$> objs (mgr s) !! l) + fc_Size chunk) in
  let progress := progressOf received (md_Size meta) in
  let s := on_mgr (upd l (fun t =>
             set_progress progress received (set_Chunk (fc_ChunkIdx chunk) chunk t))) s in
  let s := note (OnTransferProgress l progress) s in
  note (OnFileNotification
          (NewFileProgress (fe_entropy E (S i)) (fe_clock E (S i)) (md_Sender meta) localPID
             (md_FileID meta) (fc_ChunkIdx chunk) (md_ChunkCount meta) progress)) s.

Fixpoint recv_loop (k : nat) (i : nat) (input : bytes) (meta : FileMetadata) (l : nat)
    (localPID : string) (s : St) : St * option TransferError :=
  match k with
  | O => (s, None)
  | S k =>
      let s := on_mgr (fe_intr E i) s in
      match readPacket input with
      | None => (s, Some (EBadPacket (Z.of_nat i)))
      | Some (pkt, input) =>
          match p_Chunk pkt with
          | Some chunk =>
              if negb (bool_decide (p_Type pkt = "chunk"%string))
              then (s, Some (EUnexpectedType (Z.of_nat i)))
              else if (fc_ChunkIdx chunk <? 0) || (md_ChunkCount meta <=? fc_ChunkIdx chunk)
              then (s, Some (EOutOfRange (fc_ChunkIdx chunk)))
              else if negb (fc_Size chunk =? blen (fc_Data chunk))
              then (s, Some (ESizeMismatch (fc_ChunkIdx chunk)))
              else
                recv_loop k (S i) input meta l localPID (receiveChunk i chunk meta l localPID s)
          | None => (s, Some (EUnexpectedType (Z.of_nat i)))
          end
      end
  end.

(** The loop of [reassembleFile]; what is written before an error stays. *)
Fixpoint write_chunks (k : nat) (i : nat) (chunks : gmap Z FileChunk) (out : bytes)
    : bytes * option TransferError :=
  match k with
  | O => (out, None)
  | S k =>
      match chunks !! Z.of_nat i with
      | None => (out, Some (EMissingChunk (Z.of_nat i)))
      | Some chunk =>
          if fe_file_write E i then write_chunks k (S i) chunks (out ++ fc_Data chunk)
          else (out, Some (EWriteChunk (Z.of_nat i)))
      end
  end.

Definition reassembleFile (l : nat) (s : St) : St * option TransferError :=
  match objs (mgr s) !! l with
  | None => (s, Some ECreateOutput)
  | Some t =>
      if negb (fe_create E) then (s, Some ECreateOutput)
      else
        let '(out, e) := write_chunks (Z.to_nat (md_ChunkCount (t_Metadata t))) 0
                           (t_Chunks t) [] in
        (set_file (t_OutputPath t) out s, e)
  end.

(** [input]: everything the peer writes before the stream ends. *)
Definition handleStream (input : bytes) (s : St) : St :=
  match readPacket input with
  | None => s
  | Some (metaPacket, input) =>
      match p_Metadata metaPacket with
      | None => s
      | Some meta =>
          let localPID := hostID (mgr s) in
          if negb (bool_decide (p_Type metaPacket = "meta"%string)) then s
          else if negb (bool_decide (md_Recipient meta = EmptyString)) &&
                  negb (bool_decide (md_Recipient meta = localPID)) then s
          else if bad_name (md_Name meta) then s
          else
            let '(l, m) := track (md_FileID meta)
              (mkTransfer meta StatusReceiving F64.zero 0 ∅
                 (outputPath (incomingDir (mgr s)) meta) (fe_clock E 0)) (mgr s) in
            let s := on_mgr (fun _ => m) s in
            let s := note (OnFileNotification
                       (NewFileMetadata (fe_clock E 0) (md_Sender meta) (md_SenderNick meta)
                          localPID (md_FileID meta) (md_Name meta) (md_MimeType meta)
                          (md_Size meta) (md_ChunkCount meta))) s in
            let s := note (OnTransferStarted l) s in
            match recv_loop (Z.to_nat (md_ChunkCount meta)) 0 input meta l localPID s with
            | (s, Some e) => failTransfer l e s
            | (s, None) =>
                match reassembleFile l s with
                | (s, Some e) => failTransfer l e s
                | (s, None) =>
                    completeTransfer l
                      (NewFileComplete (fe_entropy E 0) (fe_clock E 0) (md_Sender meta)
                         localPID (md_FileID meta) (md_Name meta)
                         (default EmptyString (t_OutputPath <$> objs (mgr s) !! l))) s
                end
            end
      end
  end.

(** ** Queries and cancellation *)

Definition GetTransfer (fileID : string) (m : Manager) : option Transfer :=
  l ← transfers m !! fileID; objs m !! l.

Definition ListTransfers (m : Manager) : list Transfer :=
  omap (fun kl => objs m !! kl.2) (map_to_list (transfers m)).

Definition CancelTransfer (fileID : string) (m : Manager) : bool * Manager :=
  match transfers m !! fileID with
  | None => (false, m)
  | Some l =>
      match objs m !! l with
      | None => (false, m)
      | Some t =>
          if bool_decide (t_Status t = StatusComplete) then (false, m)
          else (true, upd l (set_Status StatusCancelled) m)
      end
  end.

Definition Progress (fileID : string) (m : Manager) : F64.f64 :=
  match GetTransfer fileID m with
  | None => F64.zero
  | Some t => t_Progress t
  end.

End FileTransfer.
