(* ===== verification/Pem.v ===== *)
(** * PEM blocks (encoding/pem)

    As the identity file uses them: [EncodeToMemory] of a block without headers, and
    [Decode], which looks for the first well-formed block.  A block that was encoded
    is decoded again. *)

From S2P Require Import Prelude Float64 Json GoJson FileTransfer.

(** ** Scanning *)

(** [bytes.Cut]: before and after the first [sep]. *)
Fixpoint cut (sep b : bytes) : option (bytes * bytes) :=
  if has_prefix sep b then Some ([], drop (length sep) b)
  else match b with
       | [] => None
       | c :: b => '(x, y) ← cut sep b; Some (c :: x, y)
       end.

Definition has_suffix (s b : bytes) : bool := has_prefix (rev s) (rev b).

Definition blank (c : ascii) : Prop := c = " "%char \/ c = "009"%char.
#[export] Instance blank_dec c : Decision (blank c).
Proof. unfold blank. apply _. Defined.

Fixpoint drop_while_blank (b : bytes) : bytes :=
  match b with
  | c :: r => if decide (blank c) then drop_while_blank r else b
  | [] => []
  end.
(** [bytes.TrimRight(line, " \t")] *)
Definition trim_right (b : bytes) : bytes := rev (drop_while_blank (rev b)).

(** The first line without its end and without blanks at its end, and the rest. *)
Definition getLine (b : bytes) : bytes * bytes :=
  match cut [nl] b with
  | Some (line, rest) =>
      (trim_right (if has_suffix ["013"%char] line then take (length line - 1) line else line), rest)
  | None => (trim_right b, [])
  end.

(** ** Blocks *)

Definition pemStart : bytes := nl :: str_bytes "-----BEGIN ".
Definition pemEnd : bytes := nl :: str_bytes "-----END ".
Definition pemEndOfLine : bytes := str_bytes "-----".

(** Lines of 64 characters. *)
Fixpoint break_lines (fuel : nat) (b : bytes) : bytes :=
  match fuel with
  | O => []
  | S fuel =>
      match b with
      | [] => []
      | _ => take 64 b ++ nl :: break_lines fuel (drop 64 b)
      end
  end.

Definition EncodeToMemory (type : bytes) (content : bytes) : bytes :=
  let text := base64_encode content in
  tail pemStart ++ type ++ pemEndOfLine ++ [nl] ++
  break_lines (length text) text ++
  tail pemEnd ++ type ++ pemEndOfLine ++ [nl].

(** The header lines: how many there were, and what is left; [None] at the end of
    the input. *)
Fixpoint skip_headers (fuel : nat) (n : nat) (rest : bytes) : option (nat * bytes) :=
  match fuel with
  | O => None
  | S fuel =>
      match rest with
      | [] => None
      | _ =>
          let '(line, next) := getLine rest in
          match cut [":"%char] line with
          | None => Some (n, rest)
          | Some _ => skip_headers fuel (S n) next
          end
      end
  end.

(** The end line after the text: the text before it, when the line fits. *)
Definition find_end (type : bytes) (headers : nat) (rest : bytes) : option bytes :=
  '(text, endTrailer) ←
    (if bool_decide (headers = 0%nat) && has_prefix (tail pemEnd) rest
     then Some ([], drop (length pemEnd - 1) rest)
     else cut pemEnd rest);
  let len := (length type + length pemEndOfLine)%nat in
  if bool_decide (length endTrailer < len)%nat then None
  else
    let trailer := take len endTrailer in
    if has_prefix type trailer && has_suffix pemEndOfLine trailer &&
       bool_decide ((getLine (drop len endTrailer)).1 = [])
    then Some text else None.

(** The type and content of the first block; a candidate that turns out not to be
    one is skipped. *)
Fixpoint decode_loop (fuel : nat) (rest : bytes) : option (bytes * bytes) :=
  match fuel with
  | O => None
  | S fuel =>
      after ← (if has_prefix (tail pemStart) rest then Some (drop (length pemStart - 1) rest)
               else snd <$> cut pemStart rest);
      let '(typeLine, rest) := getLine after in
      if negb (has_suffix pemEndOfLine typeLine) then decode_loop fuel rest
      else
        let type := take (length typeLine - length pemEndOfLine) typeLine in
        '(headers, rest) ← skip_headers (S (length rest)) 0 rest;
        match text ← find_end type headers rest;
              base64_decode (filter (fun c => ~ blank c) text) with
        | Some content => Some (type, content)
        | None => decode_loop fuel rest
        end
  end.

Definition Decode (data : bytes) : option (bytes * bytes) := decode_loop (S (length data)) data.

(** The type of the identity file. *)
Definition ripple_type : bytes := str_bytes "RIPPLE IDENTITY".
(** What ends a block of it. *)
Definition ripple_end : bytes := ripple_type ++ pemEndOfLine ++ [nl].

(** The characters of the text of a block, and those that are not. *)
Definition base64_alphabet : bytes := "="%char :: base64_table.

Definition foreign (c : ascii) : Prop := bool_decide (c ∈ nl :: base64_alphabet) = false.

(** ** A block is decoded again *)

Lemma base64_char_table n : base64_char n ∈ base64_alphabet.
Proof.
  unfold base64_char. right. destruct (base64_table !! _) as [c|] eqn:Hc; simpl.
  - by eapply list_elem_of_lookup_2.
  - unfold base64_table. simpl. left.
Qed.

Lemma base64_encode_alphabet b : Forall (fun c => c ∈ base64_alphabet) (base64_encode b).
Proof.
  assert ("="%char ∈ base64_alphabet) as He by left.
  revert b. fix IH 1. intros [|x [|y [|z b]]]; cbn [base64_encode];
    repeat (constructor; [first [apply base64_char_table | exact He] |]); [constructor.. |]. apply IH.
Qed.

Lemma foreign_notin c b : foreign c -> Forall (fun d => d = nl \/ d ∈ base64_alphabet) b -> c ∉ b.
Proof.
  intros Hc Hb Hin. unfold foreign in Hc. apply bool_decide_eq_false in Hc. apply Hc.
  rewrite Forall_forall in Hb. destruct (Hb c Hin) as [-> | ?]; [left | by right].
Qed.

Lemma break_lines_chars fuel b : Forall (fun c => c ∈ base64_alphabet) b ->
  Forall (fun c => c = nl \/ c ∈ base64_alphabet) (break_lines fuel b).
Proof.
  revert b. induction fuel as [|fuel IH]; intros b Hb; simpl; [constructor |].
  destruct b as [|c b]; [constructor |]. apply Forall_app. split.
  - apply Forall_take. eapply Forall_impl; [exact Hb | auto].
  - constructor; [by left |]. by apply IH, Forall_drop.
Qed.

Lemma break_lines_filter fuel b :
  Forall (fun c => c ∈ base64_alphabet) b -> (length b <= fuel)%nat ->
  filter (fun c => c <> nl) (break_lines fuel b) = b.
Proof.
  revert b. induction fuel as [|fuel IH]; intros b Hb Hlen.
  { destruct b; [done | simpl in Hlen; lia]. }
  assert (forall l, Forall (fun c => c ∈ base64_alphabet) l -> filter (fun c => c <> nl) l = l) as Hf.
  { induction 1 as [|c l Hc _ IHl]; [done |]. rewrite filter_cons_True, IHl; [done |].
    intros ->. revert Hc. apply (bool_decide_eq_false_1 (nl ∈ base64_alphabet)). reflexivity. }
  simpl. destruct b as [|c b]; [done |].
  rewrite filter_app, filter_cons_False by (intros Hn; by apply Hn).
  rewrite Hf by by apply Forall_take. rewrite IH; [apply take_drop | by apply Forall_drop |].
  rewrite length_drop. simpl in Hlen. simpl. lia.
Qed.

Lemma has_prefix_app s b : has_prefix s (s ++ b) = true.
Proof. induction s as [|c s IH]; simpl; [done |]. by rewrite Ascii.eqb_refl. Qed.

Lemma cut_here sep b : cut sep (sep ++ b) = Some ([], b).
Proof.
  assert (cut sep (sep ++ b) = if has_prefix sep (sep ++ b) then Some ([], drop (length sep) (sep ++ b)) else
    match sep ++ b with [] => None | c :: b => '(x, y) ← cut sep b; Some (c :: x, y) end) as ->
    by (destruct (sep ++ b); reflexivity).
  by rewrite has_prefix_app, drop_app_length.
Qed.

Lemma cut_skip sep c b : has_prefix sep (c :: b) = false ->
  cut sep (c :: b) = '(x, y) ← cut sep b; Some (c :: x, y).
Proof. intros H. cbn [cut]. by rewrite H. Qed.

Lemma cut_char c b t : c ∉ b -> cut [c] (b ++ c :: t) = Some (b, t).
Proof.
  induction b as [|d b IH]; intros Hb; [apply (cut_here [c]) |].
  cbn [app]. rewrite cut_skip, IH; [done | set_solver |].
  cbn [has_prefix]. destruct (Ascii.eqb_spec c d); [set_solver | done].
Qed.

Lemma cut_none c b : c ∉ b -> cut [c] b = None.
Proof.
  induction b as [|d b IH]; intros Hb; [done |].
  rewrite cut_skip, IH; [done | set_solver |].
  cbn [has_prefix]. destruct (Ascii.eqb_spec c d); [set_solver | done].
Qed.

(** A separator whose second character occurs neither before it nor as its first. *)
Lemma cut_app c0 c1 s b t : c1 <> c0 -> c1 ∉ b ->
  cut (c0 :: c1 :: s) (b ++ (c0 :: c1 :: s) ++ t) = Some (b, t).
Proof.
  intros Hc. induction b as [|d b IH]; intros Hb; [apply (cut_here (c0 :: c1 :: s)) |].
  cbn [app]. rewrite cut_skip.
  - rewrite <- app_comm_cons in IH. cbn [app] in IH. rewrite IH; [done | set_solver].
  - cbn [has_prefix]. apply andb_false_intro2. destruct b as [|e b]; cbn [app].
    + destruct (Ascii.eqb_spec c1 c0); [done | done].
    + destruct (Ascii.eqb_spec c1 e); [set_solver | done].
Qed.

Lemma getLine_line line rest : nl ∉ line -> has_suffix ["013"%char] line = false ->
  getLine (line ++ nl :: rest) = (trim_right line, rest).
Proof. intros Hn Hr. unfold getLine. by rewrite cut_char, Hr by done. Qed.

Lemma cut_incl sep b x y c : cut sep b = Some (x, y) -> c ∈ x -> c ∈ b.
Proof.
  revert x. induction b as [|d b IH]; intros x; cbn [cut].
  - destruct (has_prefix sep []); [| done]. by intros [= <- _] ?%elem_of_nil.
  - destruct (has_prefix sep (d :: b)); [by intros [= <- _] ?%elem_of_nil |].
    destruct (cut sep b) as [[x' y']|]; [| done]. cbn. intros [= <- <-] Hc.
    apply elem_of_cons in Hc as [-> | Hc]; [left | right; by eapply IH].
Qed.

Lemma drop_while_blank_incl c b : c ∈ drop_while_blank b -> c ∈ b.
Proof. induction b as [|d b IH]; cbn; [done |]. case_decide; [intros; right; auto | done]. Qed.

Lemma trim_right_incl c b : c ∈ trim_right b -> c ∈ b.
Proof.
  unfold trim_right. intros Hc. apply list_elem_of_In, in_rev, list_elem_of_In, drop_while_blank_incl in Hc.
  by apply list_elem_of_In, in_rev, list_elem_of_In in Hc.
Qed.

Lemma getLine_incl c b : c ∈ (getLine b).1 -> c ∈ b.
Proof.
  unfold getLine. destruct (cut [nl] b) as [[line rest]|] eqn:Hcut; cbn [fst]; intros Hc%trim_right_incl; [| done].
  eapply cut_incl; [exact Hcut |]. destruct (has_suffix _ line); [| done].
  apply elem_of_take in Hc as (i & Hi & _). by eapply list_elem_of_lookup_2.
Qed.

Lemma no_headers fuel n b : b <> [] -> ":"%char ∉ b -> skip_headers (S fuel) n b = Some (n, b).
Proof.
  intros Hb Hc. destruct b as [|c b]; [done |]. cbn [skip_headers].
  destruct (getLine (c :: b)) as [line next] eqn:Hl. rewrite cut_none; [done |].
  intros Hin. apply Hc, getLine_incl. by rewrite Hl.
Qed.

Lemma break_lines_end fuel b : b <> [] -> (length b <= fuel)%nat ->
  exists body, break_lines fuel b = body ++ [nl] /\ (exists c r, body = c :: r /\ head b = Some c).
Proof.
  revert b. induction fuel as [|fuel IH]; intros b Hb Hlen;
    (destruct b as [|c b]; [done |]); [cbn in Hlen; lia |]. cbn [break_lines].
  destruct (decide (drop 64 (c :: b) = [])) as [Hd | Hd].
  - rewrite Hd. exists (take 64 (c :: b)). split; [by destruct fuel |]. cbn. eauto.
  - destruct (IH (drop 64 (c :: b))) as (body & -> & _); [done | rewrite length_drop; cbn in *; lia |].
    exists (take 64 (c :: b) ++ nl :: body). split; [by rewrite <- app_assoc |]. cbn. eauto.
Qed.


Lemma find_end_body c r : Forall (fun d => d = nl \/ d ∈ base64_alphabet) (c :: r) ->
  find_end ripple_type 0 ((c :: r) ++ pemEnd ++ ripple_end) = Some (c :: r).
Proof.
  intros Hb. pose proof (foreign_notin "-"%char _ eq_refl Hb) as Hd.
  unfold find_end. rewrite (bool_decide_true (0 = 0)%nat) by done.
  assert (has_prefix (tail pemEnd) ((c :: r) ++ pemEnd ++ ripple_end) = false) as ->.
  { change (tail pemEnd) with ("-"%char :: str_bytes "----END "). cbn [app has_prefix]. destruct (Ascii.eqb_spec "-" c); [set_solver | done]. }
  change pemEnd with (nl :: "-"%char :: str_bytes "----END "). cbn [andb].
  rewrite cut_app by first [discriminate | exact Hd]. reflexivity.
Qed.

Lemma pem_block c r : Forall (fun d => d = nl \/ d ∈ base64_alphabet) (c :: r) ->
  Decode (tail pemStart ++ ripple_type ++ pemEndOfLine ++ [nl] ++ (c :: r) ++ pemEnd ++ ripple_end)
  = match base64_decode (filter (fun c => ~ blank c) (c :: r)) with
    | Some content => Some (ripple_type, content)
    | None => decode_loop (length (tail pemStart ++ ripple_type ++ pemEndOfLine ++ [nl] ++
                (c :: r) ++ pemEnd ++ ripple_end)) ((c :: r) ++ pemEnd ++ ripple_end)
    end.
Proof.
  intros Hb. unfold Decode. cbn [decode_loop].
  rewrite has_prefix_app. replace (length pemStart - 1)%nat with (length (tail pemStart)) by reflexivity.
  rewrite drop_app_length. cbn [mbind option_bind].
  rewrite (assoc_L (++) ripple_type). cbn [app].
  rewrite getLine_line by reflexivity || (apply (bool_decide_eq_false_1 (nl ∈ _)); reflexivity).
  assert (":"%char ∉ (c :: r) ++ pemEnd ++ ripple_end) as Hcolon.
  { rewrite elem_of_app. intros [Hin | Hin].
    - revert Hin. by apply (foreign_notin ":"%char _ eq_refl).
    - revert Hin. apply (bool_decide_eq_false_1 (":"%char ∈ _)). reflexivity. }
  assert (trim_right (ripple_type ++ pemEndOfLine) = ripple_type ++ pemEndOfLine) as -> by reflexivity.
  rewrite no_headers by done.
  assert (has_suffix pemEndOfLine (ripple_type ++ pemEndOfLine) = true) as -> by reflexivity.
  assert (take (length (ripple_type ++ pemEndOfLine) - length pemEndOfLine)
            (ripple_type ++ pemEndOfLine) = ripple_type) as -> by reflexivity.
  cbn [negb mbind option_bind]. rewrite app_comm_cons, find_end_body by done. reflexivity.
Qed.

(** Neither the blanks nor the line breaks of a text matter. *)
Lemma text_decode text body : Forall (fun d => d = nl \/ d ∈ base64_alphabet) body ->
  filter (fun c => c <> nl) (body ++ [nl]) = text ->
  base64_decode (filter (fun c => ~ blank c) body) = base64_decode text.
Proof.
  intros Hb <-. unfold base64_decode. f_equal. rewrite !list_filter_filter, filter_app.
  rewrite (filter_cons_False _ nl) by (intros [[H _] _]; by apply H). rewrite app_nil_r.
  induction Hb as [|d l Hd _ IH]; [done |].
  assert (~ blank d) as Hblank.
  { intros Hbl. destruct Hd as [-> | Hd]; [by destruct Hbl |]. revert Hd.
    destruct Hbl as [-> | ->]; apply (bool_decide_eq_false_1 (_ ∈ base64_alphabet)); reflexivity. }
  destruct (decide (d = "010"%char)) as [-> | H10]; [by rewrite !filter_cons_False by tauto |].
  destruct (decide (d = "013"%char)) as [-> | H13]; [by rewrite !filter_cons_False by tauto |].
  rewrite !filter_cons_True by done. by rewrite IH.
Qed.

Lemma pem_roundtrip content : content <> [] ->
  Decode (EncodeToMemory ripple_type content) = Some (ripple_type, content).
Proof.
  intros Hne. unfold EncodeToMemory. set (text := base64_encode content).
  assert (text <> []) as Htext by (by destruct content as [|? [|? [|? ?]]]).
  pose proof (base64_encode_alphabet content) as Habc. fold text in Habc.
  destruct (break_lines_end (length text) text Htext (le_n _)) as (body & Hbody & c & r & -> & Hc).
  pose proof (break_lines_chars (length text) text Habc) as Hchars.
  pose proof (break_lines_filter (length text) text Habc (le_n _)) as Hfilter.
  rewrite Hbody in *. apply Forall_app in Hchars as [Hchars _].
  pose proof (pem_block c r Hchars) as Hdec.
  rewrite (text_decode text) in Hdec by done. unfold text in Hdec. rewrite base64_roundtrip in Hdec.
  etransitivity; [| exact Hdec]. apply (f_equal Decode). rewrite <- (app_assoc (c :: r)). reflexivity.
Qed.
