(* ===== verification/Crypto.v ===== *)
(** * End-to-end encryption (pkg/crypto/box.go)

    Key files, the table of peers' public keys with its cache of derived keys, and
    the encryption of message payloads.  NaCl's box and secretbox are an interface:
    the operations the code calls, and what it relies on of them. *)

From S2P Require Import Prelude Float64 Json Message Paths.

(** ** NaCl *)

Class NaCl : Type := {
  (* box.GenerateKey from 32 bytes of entropy: public and private key *)
  box_GenerateKey : bytes -> bytes * bytes;
  (* box.Precompute: peer's public key, own private key *)
  box_Precompute : bytes -> bytes -> bytes;
  (* secretbox.Seal and Open: text, nonce, key *)
  secretbox_Seal : bytes -> bytes -> bytes -> bytes;
  secretbox_Open : bytes -> bytes -> bytes -> option bytes
}.

Class NaClLaw {N : NaCl} : Prop := {
  open_seal : forall text nonce key,
    secretbox_Open (secretbox_Seal text nonce key) nonce key = Some text;
  ecdh : forall e1 e2,
    box_Precompute (box_GenerateKey e2).1 (box_GenerateKey e1).2
    = box_Precompute (box_GenerateKey e1).1 (box_GenerateKey e2).2;
  key_lengths : forall e,
    length (box_GenerateKey e).1 = 32%nat /\ length (box_GenerateKey e).2 = 32%nat
}.

(** ** Data *)

Record Keypair := mkKeypair { PublicKey : bytes; PrivateKey : bytes }.

Record KeypairFile := mkKeypairFile { kf_PublicKey : string; kf_PrivateKey : string }.
Record KnownKeysFile := mkKnownKeysFile { kf_Keys : gmap string string }.

#[global] Instance KeypairFile_eq_dec : EqDecision KeypairFile.
Proof. solve_decision. Defined.
#[global] Instance KnownKeysFile_eq_dec : EqDecision KnownKeysFile.
Proof. solve_decision. Defined.
Inductive CryptoError :=
| ERandom | ErrNoKeypair | ErrNoSharedKey | ErrNotEncrypted | ErrMissingSender
| EReadKeypair | EUnmarshalKeypair | EBadPublicKey | EBadPrivateKey
| EKeysDir | EMarshal | EWriteFile | EReadKnown | EUnmarshalKnown
| EInvalidKeyHex | EParseExchange | EDecodeExchange
| EDecodeHex | ETooShort | EDecryptFailed.

Definition NonceSize : Z := 24.

(** The disk: files, those of them that cannot be read, and how a write of a file
    ends ([Some n]: an error after [n] bytes). *)
Record Disk := mkDisk {
  files : gmap string bytes;
  unreadable : gset string;
  mkdir_ok : bool;
  write_fault : option nat
}.

Inductive ReadResult := NotExist | ReadError | Content (b : bytes).

Definition ReadFile (path : string) (d : Disk) : ReadResult :=
  match files d !! path with
  | None => NotExist
  | Some b => if bool_decide (path ∈ unreadable d) then ReadError else Content b
  end.

Definition set_files (f : gmap string bytes) (d : Disk) : Disk :=
  mkDisk f (unreadable d) (mkdir_ok d) (write_fault d).

(** [os.WriteFile] truncates first: an error leaves the file short. *)
Definition WriteFile (path : string) (b : bytes) (d : Disk) : bool * Disk :=
  match write_fault d with
  | None => (true, set_files (<[path := b]> (files d)) d)
  | Some n => (false, set_files (<[path := take n b]> (files d)) d)
  end.

(** The manager.  Its key pair is never nil: [NewManager] makes none without one. *)
Record Manager := mkManager {
  mg_Keypair : Keypair;
  knownKeys : gmap string bytes;
  sharedCache : gmap string bytes;
  knownKeysPath : string
}.

Definition set_knownKeys (k : gmap string bytes) (m : Manager) : Manager :=
  mkManager (mg_Keypair m) k (sharedCache m) (knownKeysPath m).
Definition set_sharedCache (c : gmap string bytes) (m : Manager) : Manager :=
  mkManager (mg_Keypair m) (knownKeys m) c (knownKeysPath m).

(** [copy(dst[:], src)] into an array of 32 bytes. *)
Definition copy32 (src : bytes) : bytes := resize 32 "000"%char (take 32 src).

(** ** Operations *)

Section Crypto.
Context {N : NaCl} `{!JSON KeypairFile, !JSON KnownKeysFile, !JSON KeyExchangePayload}.

(** The bytes the random source gives; fewer than asked for are its error. *)
Definition ReadRandom (n : Z) (entropy : bytes) : outcome CryptoError bytes :=
  if blen entropy <? n then Fail ERandom else Ret (take (Z.to_nat n) entropy).

Definition GenerateKeypair (entropy : bytes) : outcome CryptoError Keypair :=
  e ← ReadRandom 32 entropy;
  let '(pub, priv) := box_GenerateKey e in Ret (mkKeypair pub priv).

Definition SaveKeypair (path : string) (kp : Keypair) (d : Disk)
    : outcome CryptoError unit * Disk :=
  if negb (mkdir_ok d) then (Fail EKeysDir, d)
  else
    let data := mkKeypairFile (Hex.EncodeToString (PublicKey kp))
                              (Hex.EncodeToString (PrivateKey kp)) in
    match json_marshal data with
    | None => (Fail EMarshal, d)
    | Some jsonData =>
        match WriteFile path jsonData d with
        | (true, d) => (Ret tt, d)
        | (false, d) => (Fail EWriteFile, d)
        end
    end.

(** [hex.DecodeString], accepted only at 32 bytes. *)
Definition decode32 (e : CryptoError) (s : string) : outcome CryptoError bytes :=
  match Hex.DecodeString s with
  | Ret b => if blen b =? 32 then Ret (copy32 b) else Fail e
  | _ => Fail e
  end.

Definition LoadKeypair (path : string) (d : Disk) : outcome CryptoError Keypair :=
  match ReadFile path d with
  | NotExist => Fail ErrNoKeypair
  | ReadError => Fail EReadKeypair
  | Content data =>
      match json_unmarshal data with
      | None => Fail EUnmarshalKeypair
      | Some kf =>
          pub ← decode32 EBadPublicKey (kf_PublicKey kf);
          priv ← decode32 EBadPrivateKey (kf_PrivateKey kf);
          Ret (mkKeypair pub priv)
      end
  end.

Definition LoadOrCreateKeypair (dataDir : string) (entropy : bytes) (d : Disk)
    : outcome CryptoError Keypair * Disk :=
  let keysDir := Join dataDir "e2e-keys" in
  let keypairPath := Join keysDir "keypair.json" in
  match LoadKeypair keypairPath d with
  | Ret kp => (Ret kp, d)
  | Fail ErrNoKeypair =>
      match GenerateKeypair entropy with
      | Ret kp =>
          match SaveKeypair keypairPath kp d with
          | (Ret _, d) => (Ret kp, d)
          | (Fail e, d) => (Fail e, d)
          | (Panic, d) => (Panic, d)
          end
      | other => (other, d)
      end
  | other => (other, d)
  end.

Definition SharedSecret (private peerPublic : bytes) : bytes := box_Precompute peerPublic private.

Definition Encrypt (entropy plaintext key : bytes) : outcome CryptoError string :=
  nonce ← ReadRandom NonceSize entropy;
  let ciphertext := secretbox_Seal plaintext nonce key in
  Ret (Hex.EncodeToString (nonce ++ ciphertext)).

Definition Decrypt (ciphertextHex : string) (key : bytes) : outcome CryptoError bytes :=
  match Hex.DecodeString ciphertextHex with
  | Ret ciphertext =>
      if blen ciphertext <? NonceSize then Fail ETooShort
      else
        nonce ← slice_to ciphertext NonceSize;
        body ← slice_from ciphertext NonceSize;
        match secretbox_Open body nonce key with
        | Some plaintext => Ret plaintext
        | None => Fail EDecryptFailed
        end
  | _ => Fail EDecodeHex
  end.

Definition PublicKeyHex (kp : Keypair) : string := Hex.EncodeToString (PublicKey kp).
Definition PrivateKeyHex (kp : Keypair) : string := Hex.EncodeToString (PrivateKey kp).

Definition KeyID (kp : Keypair) : outcome CryptoError string :=
  b ← slice_to (str_bytes (PublicKeyHex kp)) 8; Ret (bytes_str b).

(** ** The manager *)

Definition saveKnownKeysLocked (m : Manager) (d : Disk) : option CryptoError * Disk :=
  if negb (mkdir_ok d) then (Some EKeysDir, d)
  else
    match json_marshal (mkKnownKeysFile (Hex.EncodeToString <$> knownKeys m)) with
    | None => (Some EMarshal, d)
    | Some data =>
        match WriteFile (knownKeysPath m) data d with
        | (true, d) => (None, d)
        | (false, d) => (Some EWriteFile, d)
        end
    end.

Definition SaveKnownKeys := saveKnownKeysLocked.

(** One entry of the file; a bad one is skipped. *)
Definition load_entry (peerID hexKey : string) (keys : gmap string bytes) : gmap string bytes :=
  match decode32 EInvalidKeyHex hexKey with
  | Ret key => <[peerID := key]> keys
  | _ => keys
  end.

Definition LoadKnownKeys (d : Disk) (m : Manager) : option CryptoError * Manager :=
  match ReadFile (knownKeysPath m) d with
  | NotExist => (None, m)
  | ReadError => (Some EReadKnown, m)
  | Content data =>
      match json_unmarshal data with
      | None => (Some EUnmarshalKnown, m)
      | Some kf => (None, set_knownKeys (map_fold load_entry (knownKeys m) (kf_Keys kf)) m)
      end
  end.

Definition NewManager (dataDir : string) (entropy : bytes) (d : Disk)
    : outcome CryptoError Manager * Disk :=
  let keysDir := Join dataDir "e2e-keys" in
  match LoadOrCreateKeypair keysDir entropy d with
  | (Ret kp, d) =>
      let m := mkManager kp ∅ ∅ (Join keysDir "known_keys.json") in
      (Ret (LoadKnownKeys d m).2, d)
  | (Fail e, d) => (Fail e, d)
  | (Panic, d) => (Panic, d)
  end.

Definition GetSharedKey (peerID : string) (m : Manager) : outcome CryptoError bytes * Manager :=
  match sharedCache m !! peerID with
  | Some cached => (Ret cached, m)
  | None =>
      match knownKeys m !! peerID with
      | None => (Fail ErrNoSharedKey, m)
      | Some pubKey =>
          let shared := SharedSecret (PrivateKey (mg_Keypair m)) pubKey in
          (Ret shared, set_sharedCache (<[peerID := shared]> (sharedCache m)) m)
      end
  end.

Definition SetPeerKey (peerID : string) (pubKey : bytes) (m : Manager) (d : Disk)
    : option CryptoError * Manager * Disk :=
  let m := set_knownKeys (<[peerID := pubKey]> (knownKeys m)) m in
  let m := set_sharedCache (delete peerID (sharedCache m)) m in
  let '(e, d) := saveKnownKeysLocked m d in
  (e, m, d).

Definition GetPeerKey (peerID : string) (m : Manager) : option bytes := knownKeys m !! peerID.
Definition HasPeerKey (peerID : string) (m : Manager) : bool :=
  bool_decide (is_Some (knownKeys m !! peerID)).
Definition KnownPeerIDs (m : Manager) : gset string := dom (knownKeys m).
Definition MyPublicKeyHex (m : Manager) : string := PublicKeyHex (mg_Keypair m).
Definition MyKeyID (m : Manager) : outcome CryptoError string := KeyID (mg_Keypair m).
Definition ShouldSendKeyExchange (peerID : string) (m : Manager) : bool := negb (HasPeerKey peerID m).

Definition ImportKeyFromHex (peerID hexKey : string) (m : Manager) (d : Disk)
    : option CryptoError * Manager * Disk :=
  match decode32 EInvalidKeyHex hexKey with
  | Ret key => SetPeerKey peerID key m d
  | _ => (Some EInvalidKeyHex, m, d)
  end.

(** The error of [SetPeerKey] is dropped.  [pubBytes[:32]] is bounded by the capacity of
    the slice that [hex.DecodeString] returns, which its documentation leaves open:
    [spare] is what the array holds behind the decoded bytes. *)
Definition HandleKeyExchangeMessage (spare : bytes) (msg : Message) (m : Manager) (d : Disk)
    : outcome CryptoError (Manager * Disk) :=
  match json_unmarshal (str_bytes (Payload msg)) with
  | None => Fail EParseExchange
  | Some payload =>
      match Hex.DecodeString (kx_PublicKeyHex payload) with
      | Ret pubBytes =>
          prefix ← slice_to (pubBytes ++ spare) 32;
          let '(_, m, d) := SetPeerKey (Sender msg) (copy32 prefix) m d in
          Ret (m, d)
      | _ => Fail EDecodeExchange
      end
  end.

Definition EncryptMessage (entropy : bytes) (msg : Message) (m : Manager)
    : outcome CryptoError Message * Manager :=
  if bool_decide (Recipient msg = EmptyString) then (Ret msg, m)
  else
    match GetSharedKey (Recipient msg) m with
    | (Ret sharedKey, m) =>
        (encryptedPayload ← Encrypt entropy (str_bytes (Payload msg)) sharedKey;
         n ← slice_to (str_bytes encryptedPayload) 48;
         k ← MyKeyID m;
         Ret (set_crypto encryptedPayload (bytes_str n) k msg), m)
    | (Fail e, m) => (Fail e, m)
    | (Panic, m) => (Panic, m)
    end.

(** Between its critical sections the fallback can be interrupted: [intr1] before it
    looks for the key, [intr2] before it stores what it derived. *)
Definition decryption_key (intr1 intr2 : Manager -> Manager) (sender : string) (m : Manager)
    : outcome CryptoError bytes * Manager :=
  match GetSharedKey sender m with
  | (Ret key, m) => (Ret key, m)
  | (_, m) =>
      let m := intr1 m in
      match GetPeerKey sender m with
      | None => (Fail ErrNoSharedKey, m)
      | Some pub =>
          let shared := SharedSecret (PrivateKey (mg_Keypair m)) pub in
          let m := intr2 m in
          (Ret shared, set_sharedCache (<[sender := shared]> (sharedCache m)) m)
      end
  end.

Definition DecryptMessage (intr1 intr2 : Manager -> Manager) (msg : Message) (m : Manager)
    : outcome CryptoError Message * Manager :=
  if negb (IsEncrypted msg) then (Fail ErrNotEncrypted, m)
  else if bool_decide (Sender msg = EmptyString) then (Fail ErrMissingSender, m)
  else
    match decryption_key intr1 intr2 (Sender msg) m with
    | (Ret sharedKey, m) =>
        (plaintext ← Decrypt (Payload msg) sharedKey;
         Ret (set_crypto (bytes_str plaintext) EmptyString EmptyString msg), m)
    | (Fail e, m) => (Fail e, m)
    | (Panic, m) => (Panic, m)
    end.

End Crypto.
