(* ===== verification/WireJson.v ===== *)
(** * The JSON forms of streams and files

    The struct tags of the packets of a file transfer (pkg/filetransfer/transfer.go),
    of the message backup (pkg/store/store.go) and of the key files
    (pkg/crypto/box.go), and what makes their values survive. *)

From S2P Require Import Prelude Utf8 Float64 Json JsonText FloatText GoJson Message MessageJson.
From S2P Require Import Heap Store FileTransfer Crypto.

(** [filetransfer.FileMetadata] *)
Definition FileMetadata_fields : list (field FileMetadata) := [
  mkField string_value "file_id" false md_FileID
    (fun y '(mkMeta _ x1 x2 x3 x4 x5 x6 x7 x8) => mkMeta y x1 x2 x3 x4 x5 x6 x7 x8);
  mkField string_value "name" false md_Name
    (fun y '(mkMeta x0 _ x2 x3 x4 x5 x6 x7 x8) => mkMeta x0 y x2 x3 x4 x5 x6 x7 x8);
  mkField int_value "size" false md_Size
    (fun y '(mkMeta x0 x1 _ x3 x4 x5 x6 x7 x8) => mkMeta x0 x1 y x3 x4 x5 x6 x7 x8);
  mkField string_value "mime_type" false md_MimeType
    (fun y '(mkMeta x0 x1 x2 _ x4 x5 x6 x7 x8) => mkMeta x0 x1 x2 y x4 x5 x6 x7 x8);
  mkField int_value "chunk_count" false md_ChunkCount
    (fun y '(mkMeta x0 x1 x2 x3 _ x5 x6 x7 x8) => mkMeta x0 x1 x2 x3 y x5 x6 x7 x8);
  mkField string_value "sender" false md_Sender
    (fun y '(mkMeta x0 x1 x2 x3 x4 _ x6 x7 x8) => mkMeta x0 x1 x2 x3 x4 y x6 x7 x8);
  mkField string_value "sender_nick" false md_SenderNick
    (fun y '(mkMeta x0 x1 x2 x3 x4 x5 _ x7 x8) => mkMeta x0 x1 x2 x3 x4 x5 y x7 x8);
  mkField string_value "recipient" false md_Recipient
    (fun y '(mkMeta x0 x1 x2 x3 x4 x5 x6 _ x8) => mkMeta x0 x1 x2 x3 x4 x5 x6 y x8);
  mkField int_value "ts" false md_Timestamp
    (fun y '(mkMeta x0 x1 x2 x3 x4 x5 x6 x7 _) => mkMeta x0 x1 x2 x3 x4 x5 x6 x7 y)
].
Definition FileMetadata_value : GoValue FileMetadata := struct_value 
    (mkMeta EmptyString EmptyString 0 EmptyString 0 EmptyString EmptyString EmptyString 0) FileMetadata_fields.

(** [filetransfer.FileChunk] *)
Definition FileChunk_fields : list (field FileChunk) := [
  mkField string_value "file_id" false fc_FileID
    (fun y '(mkChunk _ x1 x2 x3 x4) => mkChunk y x1 x2 x3 x4);
  mkField int_value "chunk_idx" false fc_ChunkIdx
    (fun y '(mkChunk x0 _ x2 x3 x4) => mkChunk x0 y x2 x3 x4);
  mkField int_value "chunk_count" false fc_ChunkCount
    (fun y '(mkChunk x0 x1 _ x3 x4) => mkChunk x0 x1 y x3 x4);
  mkField bytes_value "data" false fc_Data
    (fun y '(mkChunk x0 x1 x2 _ x4) => mkChunk x0 x1 x2 y x4);
  mkField int_value "size" false fc_Size
    (fun y '(mkChunk x0 x1 x2 x3 _) => mkChunk x0 x1 x2 x3 y)
].
Definition FileChunk_value : GoValue FileChunk := struct_value (mkChunk EmptyString 0 0 [] 0) FileChunk_fields.

(** [filetransfer.streamPacket] *)
Definition streamPacket_fields : list (field streamPacket) := [
  mkField string_value "type" false p_Type
    (fun y '(mkPacket _ x1 x2) => mkPacket y x1 x2);
  mkField (@pointer_value _ FileMetadata_value) "metadata" true p_Metadata
    (fun y '(mkPacket x0 _ x2) => mkPacket x0 y x2);
  mkField (@pointer_value _ FileChunk_value) "chunk" true p_Chunk
    (fun y '(mkPacket x0 x1 _) => mkPacket x0 x1 y)
].
Definition streamPacket_value : GoValue streamPacket := struct_value (mkPacket EmptyString None None) streamPacket_fields.

(** The anonymous struct of [Store.SaveToJSON] *)
Definition Backup_fields : list (field Backup) := [
  mkField (@slice_value _ (@pointer_value _ Message_value)) "messages" false bk_messages
    (fun y '(mkBackup _ x1) => mkBackup y x1);
  mkField nil_map_value "peers" false bk_peers
    (fun y '(mkBackup x0 _) => mkBackup x0 y)
].
Definition Backup_value : GoValue Backup := struct_value (mkBackup None None) Backup_fields.

(** [crypto.KeypairFile] *)
Definition KeypairFile_fields : list (field KeypairFile) := [
  mkField string_value "public_key" false kf_PublicKey
    (fun y '(mkKeypairFile _ x1) => mkKeypairFile y x1);
  mkField string_value "private_key" false kf_PrivateKey
    (fun y '(mkKeypairFile x0 _) => mkKeypairFile x0 y)
].
Definition KeypairFile_value : GoValue KeypairFile := struct_value (mkKeypairFile EmptyString EmptyString) KeypairFile_fields.

(** [crypto.KnownKeysFile] *)
Definition KnownKeysFile_fields : list (field KnownKeysFile) := [
  mkField map_value "keys" false kf_Keys
    (fun y (_ : KnownKeysFile) => mkKnownKeysFile y)
].
Definition KnownKeysFile_value : GoValue KnownKeysFile := struct_value (mkKnownKeysFile ∅) KnownKeysFile_fields.

#[export] Instance streamPacket_json : JSON streamPacket := go_json compact streamPacket_value.
#[export] Instance Backup_json : JSON Backup := go_json compact Backup_value.
(** The key files are written by [MarshalIndent]. *)
#[export] Instance KeypairFile_json : JSON KeypairFile := go_json indented KeypairFile_value.
#[export] Instance KnownKeysFile_json : JSON KnownKeysFile := go_json indented KnownKeysFile_value.

(** ** What survives *)

Definition FileMetadata_ok (m : FileMetadata) : Prop :=
  utf8 (md_FileID m) /\ utf8 (md_Name m) /\ is_int64 (md_Size m) /\ utf8 (md_MimeType m) /\
  is_int64 (md_ChunkCount m) /\ utf8 (md_Sender m) /\ utf8 (md_SenderNick m) /\
  utf8 (md_Recipient m) /\ is_int64 (md_Timestamp m).

Definition FileChunk_ok (c : FileChunk) : Prop :=
  utf8 (fc_FileID c) /\ is_int64 (fc_ChunkIdx c) /\ is_int64 (fc_ChunkCount c) /\
  is_int64 (fc_Size c).

Definition opt_ok {A} (P : A -> Prop) (o : option A) : Prop :=
  match o with None => True | Some a => P a end.

Definition streamPacket_ok (p : streamPacket) : Prop :=
  utf8 (p_Type p) /\ opt_ok FileMetadata_ok (p_Metadata p) /\ opt_ok FileChunk_ok (p_Chunk p).

Definition Backup_ok (b : Backup) : Prop :=
  opt_ok (Forall (opt_ok Message_ok)) (bk_messages b) /\ opt_ok map_utf8 (bk_peers b).

Definition KeypairFile_ok (k : KeypairFile) : Prop := utf8 (kf_PublicKey k) /\ utf8 (kf_PrivateKey k).
Definition KnownKeysFile_ok (k : KnownKeysFile) : Prop := map_utf8 (kf_Keys k).

#[export] Instance FileMetadata_law : GoValueLaw FileMetadata_value.
Proof. refine {| gv_ok := FileMetadata_ok; gv_depth := 1 + 0 |}; [| lia]. intros a Ha. struct_law Ha. Defined.

#[export] Instance FileChunk_law : GoValueLaw FileChunk_value.
Proof. refine {| gv_ok := FileChunk_ok; gv_depth := 1 + 0 |}; [| lia]. intros a Ha. struct_law Ha. Defined.

(** A struct is never written as [null]. *)
Lemma struct_not_null {S} (zero : S) fs a : @gv_enc S (struct_value zero fs) a <> Some JNull.
Proof. simpl. by destruct (enc_fields fs a). Qed.

#[export] Instance FileMetadata_pointer : GoValueLaw (@pointer_value _ FileMetadata_value) :=
  pointer_law _ _ (struct_not_null _ _).
#[export] Instance FileChunk_pointer : GoValueLaw (@pointer_value _ FileChunk_value) :=
  pointer_law _ _ (struct_not_null _ _).
#[export] Instance Message_pointer : GoValueLaw (@pointer_value _ Message_value) :=
  pointer_law _ _ (struct_not_null _ _).
#[export] Instance Message_slice : GoValueLaw (@slice_value _ (@pointer_value _ Message_value)) :=
  slice_law _ _.
#[export] Existing Instance nil_map_law.

#[export] Instance streamPacket_law : GoValueLaw streamPacket_value.
Proof. refine {| gv_ok := streamPacket_ok; gv_depth := 1 + 1 |}; [| lia]. intros a Ha. struct_law Ha. Defined.

#[export] Instance Backup_law : GoValueLaw Backup_value.
Proof. refine {| gv_ok := Backup_ok; gv_depth := 1 + 2 |}; [| lia]. intros a Ha. struct_law Ha. Defined.

#[export] Instance KeypairFile_law : GoValueLaw KeypairFile_value.
Proof. refine {| gv_ok := KeypairFile_ok; gv_depth := 1 + 0 |}; [| lia]. intros a Ha. struct_law Ha. Defined.

#[export] Instance KnownKeysFile_law : GoValueLaw KnownKeysFile_value.
Proof. refine {| gv_ok := KnownKeysFile_ok; gv_depth := 1 + 1 |}; [| lia]. intros a Ha. struct_law Ha. Defined.

(** ** Hexadecimal text survives *)

Lemma hexdigit_ascii n : b2z (Hex.hexdigit n) < 128.
Proof.
  unfold Hex.hexdigit. destruct (str_bytes Hex.hextable !! Z.to_nat n) as [c|] eqn:E; [| done].
  assert (Forall (fun c => b2z c < 128) (str_bytes Hex.hextable)) as H
    by (apply (bool_decide_eq_true_1 (Forall _ _)); reflexivity).
  exact (list.Forall_lookup_1 _ _ _ _ H E).
Qed.

Lemma hex_utf8 b : utf8 (Hex.EncodeToString b).
Proof.
  unfold utf8, Hex.EncodeToString. rewrite str_bytes_str. apply ascii_valid.
  induction b; simpl; auto using hexdigit_ascii.
Qed.

(** ** The interface of [Json] *)

#[export] Instance streamPacket_json_law : JSONLaw streamPacket :=
  go_json_law compact streamPacket_value compact_ok streamPacket_law eq_refl.
#[export] Instance Backup_json_law : JSONLaw Backup :=
  go_json_law compact Backup_value compact_ok Backup_law eq_refl.
#[export] Instance KeypairFile_json_law : JSONLaw KeypairFile :=
  go_json_law indented KeypairFile_value indented_ok KeypairFile_law eq_refl.
#[export] Instance KnownKeysFile_json_law : JSONLaw KnownKeysFile :=
  go_json_law indented KnownKeysFile_value indented_ok KnownKeysFile_law eq_refl.
