(* ===== verification/StoreSpec.v ===== *)
(** * Properties of the message store

    A backup survives a crash at any point; a saved store is restored; and what the
    queries answer.  The backup file is the JSON of [WireJson]. *)

From S2P Require Import Prelude Utf8 Json JsonText GoJson Message MessageJson Heap Store WireJson.

(** The backup of the sample store. *)
Definition sample_json : bytes := default [] (json_marshal (snapshot sample_heap sample_store)).

(** ** Queries *)

Lemma insert_last_hole {A} (k : nat) (a x : A) (l : list A) :
  <[k := x]> (replicate (S k) a ++ l) = replicate k a ++ x :: l.
Proof.
  rewrite replicate_S_end, <- app_assoc. simpl.
  rewrite insert_app_r_alt by by rewrite length_replicate.
  by rewrite length_replicate, Nat.sub_diag.
Qed.

Lemma messages_loop_spec l pre :
  messages_loop l (length pre) (replicate (length l) None ++ rev pre) = rev (pre ++ l).
Proof.
  revert pre. induction l as [|m l IH]; intros pre; cbn [messages_loop].
  - by rewrite app_nil_r.
  - rewrite length_app, length_replicate, length_rev. cbn [length].
    replace (S (length l) + length pre - 1 - length pre)%nat with (length l) by lia.
    rewrite insert_last_hole. specialize (IH (pre ++ [m])).
    rewrite length_app, rev_app_distr, <- app_assoc in IH. simpl in IH.
    by rewrite Nat.add_1_r in IH.
Qed.

Lemma Messages_rev s : Messages s = rev (messages s).
Proof.
  unfold Messages. pose proof (messages_loop_spec (messages s) []) as H.
  simpl in H. by rewrite app_nil_r in H.
Qed.

Lemma recent_loop_spec msgs k n :
  (k + n <= length msgs)%nat ->
  recent_loop msgs (length msgs) (k + n) (seq k n)
    (replicate n None ++ drop (length msgs - k) msgs) = drop (length msgs - (k + n)) msgs.
Proof.
  revert k. induction n as [|n IH]; intros k Hk; cbn [seq recent_loop].
  - by rewrite Nat.add_0_r.
  - replace (k + S n - 1 - k)%nat with n by lia. rewrite insert_last_hole.
    replace (k + S n)%nat with (S k + n)%nat by lia. rewrite <- IH by lia. f_equal. f_equal.
    destruct (lookup_lt_is_Some_2 msgs (length msgs - 1 - k)) as [x Hx]; [lia |].
    rewrite Hx. replace (length msgs - S k)%nat with (length msgs - 1 - k)%nat by lia.
    rewrite (drop_S _ _ _ Hx). simpl. do 2 f_equal. lia.
Qed.

Lemma RecentMessages_spec n s :
  RecentMessages n s =
    if n <? 0 then None
    else Some (drop (length (messages s) - Z.to_nat n) (messages s)).
Proof.
  unfold RecentMessages. set (l := messages s).
  assert (forall k : nat, (k <= length l)%nat ->
    recent_loop l (length l) k (seq 0 k) (replicate k None) = drop (length l - k) l) as H.
  { intros k Hk. pose proof (recent_loop_spec l 0 k Hk) as H.
    rewrite Nat.sub_0_r, drop_all, app_nil_r in H. done. }
  destruct (Z.ltb_spec (Z.of_nat (length l)) n); destruct (Z.ltb_spec n 0); try lia.
  - destruct (Z.ltb_spec (Z.of_nat (length l)) 0); [lia |]. rewrite H by lia.
    f_equal. f_equal. lia.
  - done.
  - by rewrite H by lia.
Qed.

Lemma contact_loop_spec h c l (ms : list Message) conv :
  mapM (deref h) l = Some ms ->
  exists r, contact_loop h c l conv = Some (conv ++ r) /\
    mapM (deref h) r = Some (filter (fun m => Sender m = c \/ Recipient m = c) ms).
Proof.
  revert ms conv. induction l as [|p l IH]; intros ms conv; simpl.
  - intros [= <-]. exists []. by rewrite app_nil_r.
  - destruct (deref h p) as [m|] eqn:Em; [| done]. simpl.
    destruct (mapM (deref h) l) as [ms'|]; [| done]. intros [= <-].
    destruct (IH ms' (if bool_decide (Sender m = c) || bool_decide (Recipient m = c)
      then conv ++ [p] else conv) eq_refl) as (r & -> & Hr).
    rewrite filter_cons, <- bool_decide_or. case_bool_decide as Hd.
    + exists (p :: r). rewrite decide_True by done.
      split; [by rewrite <- app_assoc | by simpl; rewrite Em, Hr].
    + exists r. by rewrite decide_False by done.
Qed.

Lemma has_loop_spec h id l (ms : list Message) :
  mapM (deref h) l = Some ms ->
  has_loop h id l = Some (bool_decide (id ∈ ID <$> ms)).
Proof.
  revert ms. induction l as [|p l IH]; intros ms; simpl; [by intros [= <-] |].
  destruct (deref h p) as [m|]; [| done]. simpl.
  destruct (mapM (deref h) l) as [ms'|]; [| done]. intros [= <-]. simpl.
  rewrite (IH ms') by done. case_bool_decide.
  - rewrite bool_decide_eq_true_2; [done | set_solver].
  - f_equal. apply bool_decide_ext. rewrite elem_of_cons. naive_solver.
Qed.

Lemma Peers_copy s : Peers s = peers s.
Proof. unfold Peers. apply (map_fold_weak_ind eq); [done |]. by intros ? ? ? ? ? ->. Qed.

(** ** Crash safety *)

Lemma tmp_neq path : (path ++ ".tmp")%string <> path.
Proof.
  intros E. apply (f_equal slen) in E. rewrite slen_app in E.
  assert (slen ".tmp" = 4) by done. lia.
Qed.

Section CrashSafety.
Context (path tmp : string) (Hne : tmp <> path) (K : option bytes -> Prop).

Lemma fs_ok_weaken (K' : option bytes -> Prop) fs :
  (forall o, K o -> K' o) -> fs_ok path tmp K fs -> fs_ok path tmp K' fs.
Proof.
  intros HK [H1 H2 H3 H4]. split; [| done..]. intros d Hd. specialize (H1 d Hd).
  destruct (d !! path); naive_solver.
Qed.

Lemma fs_ok_set_data fs i b :
  fs_ok path tmp K fs -> (forall d, d ∈ dirs fs -> d !! path <> Some i) ->
  fs_ok path tmp K (set_data i b fs).
Proof.
  intros [H1 H2 H3 H4] Hi. split; [| done..]. intros d Hd. specialize (H1 d Hd).
  destruct (d !! path) as [j|] eqn:Ej; [| done].
  assert (i <> j) by (intros ->; by eapply Hi). simpl.
  rewrite lookup_insert_ne by done. set_solver.
Qed.

Lemma fs_ok_set_clean fs i : fs_ok path tmp K fs -> fs_ok path tmp K (set_clean i fs).
Proof.
  intros [H1 H2 H3 H4]. split; [| done..]. intros d Hd. specialize (H1 d Hd).
  destruct (d !! path); [| done]. simpl. set_solver.
Qed.

Lemma fs_ok_create fs f fs1 :
  fs_ok path tmp K fs -> os_Create tmp fs = (f, fs1) ->
  fs_ok path tmp K fs1 /\ dir fs1 !! tmp = Some f /\ ReadFile path fs1 = ReadFile path fs.
Proof.
  intros Hok. pose proof Hok as [H1 H2 H3 H4]. unfold os_Create.
  destruct (dir fs !! tmp) as [i|] eqn:Ei; intros [= <- <-].
  - split; [apply fs_ok_set_data; [done |]; intros d Hd; by eapply H3 |]. split; [done |].
    unfold ReadFile. simpl. destruct (dir fs !! path) as [j|] eqn:Ej; [| done]. simpl.
    rewrite lookup_insert_ne; [done |]. intros ->. eapply (H3 (dir fs)); [left | done..].
  - assert (forall d, d ∈ dirs fs -> d !! path <> Some (next fs)) as Hn
      by (intros d Hd Hp; specialize (H4 d _ _ Hd Hp); lia).
    assert (forall n' i, (<[tmp := next fs]> (dir fs)) !! n' = Some i -> (i < S (next fs))%nat) as Hi.
    { intros n' i. rewrite lookup_insert_Some. intros [[_ <-] | [_ Hl]]; [lia |].
      specialize (H4 (dir fs) n' i ltac:(left) Hl). lia. }
    split; [apply fs_ok_set_data; [split; unfold dirs; simpl|] |split].
    + intros d [-> | Hd]%elem_of_cons; [rewrite lookup_insert_ne by done |]; apply H1; [left | done].
    + intros d i [-> | Hd]%elem_of_cons; [| by apply H2].
      rewrite lookup_insert_eq, lookup_insert_ne by done. intros [= <-]. apply Hn. left.
    + intros d i. rewrite lookup_insert_eq. intros [-> | Hd]%elem_of_cons [= <-];
        rewrite ?(lookup_insert_ne _ _ path) by done; apply Hn; [left | done].
    + intros d n' i [-> | Hd]%elem_of_cons Hl; [by eapply Hi |].
      specialize (H4 d n' i Hd Hl). lia.
    + intros d [-> | Hd]%elem_of_cons; simpl;
        rewrite ?(lookup_insert_ne _ _ path) by done; apply Hn; [left | done].
    + simpl. by rewrite lookup_insert_eq.
    + unfold ReadFile. simpl. rewrite lookup_insert_ne by done.
      destruct (dir fs !! path) as [j|] eqn:Ej; [| done]. simpl.
      rewrite lookup_insert_ne; [done |]. intros <-. by apply (Hn (dir fs)); [left |].
Qed.

(** A new current directory that agrees with the old one on everything but [tmp]
    and [path]. *)
Lemma fs_ok_set_dir fs d :
  fs_ok path tmp K fs -> d !! tmp = None ->
  (forall name i, d !! name = Some i -> (i < next fs)%nat) ->
  match d !! path with None => K None | Some i => i ∈ clean fs /\ K (data fs !! i) end ->
  fs_ok path tmp K (set_dir d fs).
Proof.
  intros [H1 H2 H3 H4] Hd Hn Hp. split; unfold dirs, set_dir; simpl.
  - intros d' [-> | Hd']%elem_of_cons; [done | by apply H1].
  - intros d' i [-> | Hd']%elem_of_cons; [congruence | by apply H2].
  - congruence.
  - intros d' name i [-> | Hd']%elem_of_cons; [apply Hn | by apply H4].
Qed.

Lemma fs_ok_remove fs :
  fs_ok path tmp K fs ->
  fs_ok path tmp K (os_Remove tmp fs) /\ ReadFile path (os_Remove tmp fs) = ReadFile path fs.
Proof.
  intros Hok. pose proof Hok as [H1 H2 H3 H4]. split.
  - apply fs_ok_set_dir; [done | by rewrite lookup_delete_eq | |].
    + intros name i Hl. apply lookup_delete_Some in Hl as [_ Hl].
      eapply H4; [left | done].
    + rewrite lookup_delete_ne by done. apply H1. left.
  - unfold ReadFile, os_Remove. simpl. by rewrite lookup_delete_ne by done.
Qed.

Lemma fs_ok_rename fs i :
  fs_ok path tmp K fs -> dir fs !! tmp = Some i -> i ∈ clean fs -> K (data fs !! i) ->
  fs_ok path tmp K (os_Rename tmp path fs) /\
  ReadFile path (os_Rename tmp path fs) = data fs !! i.
Proof.
  intros Hok Hi Hc HK. pose proof Hok as [H1 H2 H3 H4]. unfold os_Rename. rewrite Hi. split.
  - apply fs_ok_set_dir; [done | by rewrite lookup_insert_ne, lookup_delete_eq by done | |].
    + intros name j. rewrite lookup_insert_Some, lookup_delete_Some.
      intros [[_ <-] | (_ & _ & Hl)]; eapply H4; [left | done | left | done].
    + by rewrite lookup_insert_eq.
  - unfold ReadFile. simpl. by rewrite lookup_insert_eq.
Qed.

Lemma fs_ok_crash fs fs' :
  fs_ok path tmp K fs -> crash fs fs' -> fs_ok path tmp K fs' /\ K (ReadFile path fs').
Proof.
  intros [H1 H2 H3 H4] [Hd Hp Hdat Hc Hn].
  assert (match dir fs' !! path with
          | None => K None | Some i => i ∈ clean fs' /\ K (data fs' !! i) end) as Hpath.
  { specialize (H1 _ Hd). destruct (dir fs' !! path) as [i|]; [| done].
    destruct H1 as [Hi HK]. rewrite Hdat by done. split; [set_solver | done]. }
  split; [split; unfold dirs; rewrite Hp |].
  - intros d ->%list_elem_of_singleton. done.
  - intros d i ->%list_elem_of_singleton. by apply H2.
  - intros d i ->%list_elem_of_singleton. by apply H2.
  - intros d name i ->%list_elem_of_singleton. rewrite Hn. by apply H4.
  - unfold ReadFile. by destruct (dir fs' !! path); [destruct Hpath |].
Qed.

End CrashSafety.

Lemma sample_fs_ok : fs_ok "db.json" ("db.json" ++ ".tmp") (fun o => o = Some (str_bytes "old")) sample_fs.
Proof.
  split; unfold dirs, sample_fs; simpl.
  - intros d ->%list_elem_of_singleton. rewrite lookup_singleton_eq. split; [set_solver |].
    by rewrite lookup_singleton_eq.
  - intros d i ->%list_elem_of_singleton. by rewrite lookup_singleton_ne.
  - intros d i ->%list_elem_of_singleton. by rewrite lookup_singleton_ne.
  - intros d name i ->%list_elem_of_singleton. rewrite lookup_singleton_Some. intros [_ <-]. lia.
Qed.

(** ** Properties *)

Section Properties.

Ltac all_hyp :=
  match goal with
  | |- Forall _ (_ :: _) => apply Forall_cons_2; [assumption | all_hyp]
  | |- Forall _ [] => apply Forall_nil_2
  | _ => assumption
  end.

Lemma SaveToJSON_steps path K h ft s fs j :
  fs_ok path (path ++ ".tmp") K fs ->
  json_marshal (snapshot h s) = Some j ->
  let '(trace, err) := SaveToJSON h path ft s fs in
  Forall (fs_ok path (path ++ ".tmp") (fun o => K o \/ o = Some j)) trace /\
  ReadFile path (final fs trace) = if err is None then Some j else ReadFile path fs.
Proof.
  intros Hok Hj. pose proof (tmp_neq path) as Hne. unfold SaveToJSON.
  rewrite Hj. set (tmp := (path ++ ".tmp")%string) in *.
  set (K' := fun o => K o \/ o = Some j).
  assert (fs_ok path tmp K' fs) as H0 by (eapply fs_ok_weaken; [| done]; by left).
  destruct (f_create ft); [split; [all_hyp | done] |].
  destruct (os_Create tmp fs) as [f fs1] eqn:E1.
  destruct (fs_ok_create path tmp Hne K' _ _ _ H0 E1) as (H1 & Hf & Hr1).
  assert (forall b, fs_ok path tmp K' (set_data f b fs1) /\
                    ReadFile path (set_data f b fs1) = ReadFile path fs) as Hdata.
  { intros b. split; [apply fs_ok_set_data; [done.. |]; intros; by eapply ok_cur |].
    rewrite <- Hr1. unfold ReadFile. simpl. destruct (dir fs1 !! path) as [i|] eqn:Ei; [| done].
    simpl. rewrite lookup_insert_ne; [done |]. intros <-. eapply ok_cur; [done | left | done..]. }
  assert (forall fs2 trace, fs_ok path tmp K' fs2 -> ReadFile path fs2 = ReadFile path fs ->
    Forall (fs_ok path tmp K') trace ->
    let t := trace ++ (if f_remove ft then [fs2] else [fs2; os_Remove tmp fs2]) in
    Forall (fs_ok path tmp K') t /\ ReadFile path (final fs t) = ReadFile path fs) as Hrem.
  { intros fs2 trace H2 Hr2 Ht. destruct (fs_ok_remove path tmp Hne K' _ H2) as [H3 Hr3].
    destruct (f_remove ft); cbn [app]; (split; [apply Forall_app; split; [done | all_hyp] |]);
      unfold final; [| replace (trace ++ [fs2; os_Remove tmp fs2])
        with ((trace ++ [fs2]) ++ [os_Remove tmp fs2]) by by rewrite <- app_assoc];
      rewrite List.last_last; congruence. }
  destruct (f_write ft) as [k|]; [destruct (Hdata (take k j)); apply (Hrem _ [fs; fs1]); all_hyp |].
  destruct (Hdata j) as [H2 Hr2]. set (fs2 := set_data f j fs1) in *.
  destruct (f_sync ft); [apply (Hrem _ [fs; fs1]); all_hyp |].
  assert (fs_ok path tmp K' (set_clean f fs2)) as H3 by by apply fs_ok_set_clean.
  destruct (f_close ft); [apply (Hrem _ [fs; fs1; fs2]); all_hyp |].
  destruct (f_rename ft); [apply (Hrem _ [fs; fs1; fs2]); all_hyp |].
  assert (data (set_clean f fs2) !! f = Some j) as Hj2 by (simpl; apply lookup_insert_eq).
  destruct (fs_ok_rename path tmp Hne K' (set_clean f fs2) f) as [H4 Hr4];
    [done | done | simpl; set_solver | by right |].
  split; [all_hyp |]. simpl. congruence.
Qed.

(** C6: a backup can be interrupted at any point, by an error of any call or by a
    power failure, and what is later read at [path] is something that could be read
    there before, or the complete new backup; never a partial file.  The condition
    this relies on holds again after every step, so the next backup is as safe.
    A save that reports success has replaced the content, one that reports an error
    has left it as it was. *)
Theorem SaveToJSON_crash_safe path K h ft s fs j trace err :
  fs_ok path (path ++ ".tmp") K fs ->
  json_marshal (snapshot h s) = Some j ->
  SaveToJSON h path ft s fs = (trace, err) ->
  (forall fs1 fs2, fs1 ∈ trace -> crash fs1 fs2 ->
     let K' o := K o \/ o = Some j in
     K' (ReadFile path fs2) /\ fs_ok path (path ++ ".tmp") K' fs2) /\
  fs_ok path (path ++ ".tmp") (fun o => K o \/ o = Some j) (final fs trace) /\
  ReadFile path (final fs trace) = if err is None then Some j else ReadFile path fs.
Proof.
  intros Hok Hj E. pose proof (SaveToJSON_steps path K h ft s fs j Hok Hj) as H.
  rewrite E in H. destruct H as [Hall Hread]. rewrite list.Forall_forall in Hall.
  split_and!; [| | done].
  - intros fs1 fs2 H1 Hc K'. by destruct (fs_ok_crash path _ (tmp_neq path) K' fs1 fs2 (Hall _ H1) Hc).
  - unfold final. destruct trace as [|fs1 trace _] using rev_ind.
    + eapply fs_ok_weaken; [| done]. by left.
    + rewrite List.last_last. apply Hall. set_solver.
Qed.

(** C12: a store that was saved without error is restored by a later start: every
    message, in the order it was stored, and every peer; for texts in UTF-8 and
    integers of 64 bits, which is all the JSON text can carry unchanged. *)
Theorem save_then_restart h h' ft s fs trace :
  Forall (opt_ok Message_ok) (deref_all h (messages s)) -> map_utf8 (peers s) ->
  fs_ok (dbPath s ++ ".json") ((dbPath s ++ ".json") ++ ".tmp") (fun _ => True) fs ->
  SaveToJSON h (dbPath s ++ ".json") ft s fs = (trace, None) ->
  let '(h2, s2) := NewWithDB (dbPath s) (final fs trace) h' in
  h' `prefix_of` h2 /\ deref_all h2 (messages s2) = deref_all h (messages s) /\
  peers s2 = peers s /\ dbPath s2 = dbPath s.
Proof.
  intros Hm Hp Hok E. destruct (json_roundtrip (snapshot h s)) as (j & Hj & Hu); [by split |].
  pose proof (SaveToJSON_steps _ _ h ft s fs j Hok Hj) as H. rewrite E in H.
  destruct H as [_ Hr]. unfold NewWithDB, LoadFromJSON. rewrite Hr. cbn [mbind option_bind].
  rewrite Hu. cbn [mbind option_bind snapshot bk_messages bk_peers default id].
  destruct (alloc_all (deref_all h (messages s)) h') as [ps h2] eqn:Ea.
  by destruct (alloc_all_spec _ _ _ _ Ea).
Qed.

End Properties.

Lemma sample_marshal : json_marshal (snapshot sample_heap sample_store) = Some sample_json.
Proof. reflexivity. Qed.

Lemma sample_messages_ok : Forall (opt_ok Message_ok) (deref_all sample_heap (messages sample_store)).
Proof. apply Forall_singleton. split_and!; (reflexivity || (simpl; int_lia)). Qed.

Lemma sample_peers_ok : map_utf8 (peers sample_store).
Proof. apply map_Forall_singleton. by split. Qed.

Lemma SaveToJSON_crash_safe_witness :
  let r := SaveToJSON sample_heap "db.json" no_faults sample_store sample_fs in
  ReadFile "db.json" (final sample_fs r.1) = Some sample_json.
Proof.
  intros r.
  exact (proj2 (proj2 (SaveToJSON_crash_safe _ _ sample_heap no_faults sample_store
    sample_fs _ r.1 None sample_fs_ok sample_marshal eq_refl))).
Defined.

Lemma save_then_restart_witness :
  let r := SaveToJSON sample_heap "db.json" no_faults sample_store sample_fs in
  let '(h2, s2) := NewWithDB "db" (final sample_fs r.1) [] in
  deref_all h2 (messages s2) = [Some (set_Recipient "p1" zeroMessage)].
Proof.
  intros r.
  pose proof (save_then_restart sample_heap []
    no_faults sample_store sample_fs r.1 sample_messages_ok sample_peers_ok
    (fs_ok_weaken _ _ _ (fun _ => True) _ (fun _ _ => I) sample_fs_ok) eq_refl) as H.
  change (dbPath sample_store) with "db"%string in H.
  destruct (NewWithDB "db" (final sample_fs r.1) []) as [h2 s2].
  exact (proj1 (proj2 H)).
Defined.

(** What the queries answer, for a store whose pointers are all valid: newest
    first for [Messages]; the last [n] in the order they came for [RecentMessages],
    which panics on a negative count; the messages to or from a contact; and whether
    an identifier is stored. *)
Theorem Store_queries h s (ms : list Message) n c id :
  mapM (deref h) (messages s) = Some ms ->
  deref_all h (Messages s) = Some <$> rev ms /\
  (RecentMessages n s = None <-> n < 0) /\
  (forall r, RecentMessages n s = Some r ->
     deref_all h r = Some <$> drop (length ms - Z.to_nat n) ms) /\
  (exists r, MessagesForContact h c s = Some r /\
     mapM (deref h) r = Some (filter (fun m => Sender m = c \/ Recipient m = c) ms)) /\
  HasMessage h id s = Some (bool_decide (id ∈ ID <$> ms)).
Proof.
  intros Hms. pose proof (mapM_deref _ _ _ Hms) as Hall. unfold deref_all in Hall.
  assert (length (messages s) = length ms) as Hlen by by (apply (f_equal length) in Hall; by rewrite !length_fmap in Hall).
  split_and!.
  - unfold deref_all. rewrite Messages_rev.
    change (map (deref h) (rev (messages s)) = map Some (rev ms)).
    rewrite !map_rev. f_equal. exact Hall.
  - rewrite RecentMessages_spec. destruct (Z.ltb_spec n 0); split; done || lia.
  - intros r. rewrite RecentMessages_spec. destruct (n <? 0); intros [= <-].
    unfold deref_all. by rewrite fmap_drop, Hall, Hlen, <- fmap_drop.
  - by apply (contact_loop_spec h c (messages s) ms []).
  - by apply has_loop_spec.
Qed.

Lemma Store_queries_witness :
  HasMessage sample_heap "x" sample_store = Some false.
Proof.
  exact (proj2 (proj2 (proj2 (proj2
    (Store_queries sample_heap sample_store [set_Recipient "p1" zeroMessage] 1 "p1" "x" eq_refl))))).
Defined.
