(* ===== verification/FileTransferSpec.v ===== *)
(** * Properties of the file transfer

    A file sent is the file received, whatever other goroutines do meanwhile; what
    the receiver rejects; and where the received file is put.  The packets are the
    ones [encoding/json] writes ([WireJson]). *)

From S2P Require Import Prelude Utf8 Float64 Json JsonText GoJson Message MessageJson Paths.
From S2P Require Import FileTransfer WireJson.

(** ** Vocabulary *)

(** [DefaultChunkSize] as a length. *)
Definition chunk_size : nat := Z.to_nat DefaultChunkSize.

(** The chunks of a file: [k] pieces of [c] bytes, the last one shorter. *)
Fixpoint pieces (k c : nat) (b : bytes) : list bytes :=
  match k with
  | O => []
  | S k => take c b :: pieces k c (drop c b)
  end.

(** Other goroutines may only change the status of a transfer. *)
Definition benign (f : Manager -> Manager) : Prop :=
  forall m l, hostID (f m) = hostID m /\ transfers (f m) = transfers m /\
    incomingDir (f m) = incomingDir m /\
    set_Status StatusPending <$> objs (f m) !! l = set_Status StatusPending <$> objs m !! l.

(** The file is read in full buffers and the stream takes everything. *)
Definition sends_well (E : FEnv) : Prop :=
  fe_open E = true /\ fe_stat E = true /\ fe_stream E = true /\
  (forall i, exists most, fe_read E i = Some most /\ (Z.to_nat DefaultChunkSize <= most)%nat) /\
  (forall i, fe_write E i = None) /\ (forall i, benign (fe_intr E i)).

Definition receives_well (E : FEnv) : Prop :=
  fe_create E = true /\ (forall i, fe_file_write E i = true) /\ (forall i, benign (fe_intr E i)).

(** The lines of the chunks [ps], numbered from [i]. *)
Fixpoint chunk_wire (meta : FileMetadata) (i : nat) (ps : list bytes) : option bytes :=
  match ps with
  | [] => Some []
  | d :: ps =>
      line ← packetLine (chunkPacket meta (Z.of_nat i) d);
      rest ← chunk_wire meta (S i) ps;
      Some (line ++ rest)
  end.

(** A manager with the same transfers, some of them moved on. *)
Definition keeps (m m' : Manager) : Prop :=
  hostID m' = hostID m /\ transfers m' = transfers m /\ incomingDir m' = incomingDir m /\
  forall l, is_Some (objs m !! l) -> is_Some (objs m' !! l).

(** The first chunks have arrived. *)
Definition has_chunks (ps : list bytes) (n : nat) (chunks : gmap Z FileChunk) : Prop :=
  forall j d, (j < n)%nat -> ps !! j = Some d ->
    exists ch, chunks !! Z.of_nat j = Some ch /\ fc_Data ch = d.

(** The chunks a receiver keeps are in range and as long as they say. *)
Definition wf_chunks (count : Z) (chunks : gmap Z FileChunk) : Prop :=
  map_Forall (fun i ch => 0 <= i < count /\ fc_ChunkIdx ch = i /\ fc_Size ch = blen (fc_Data ch)) chunks.

(** No transfer has completed among these callbacks. *)
Definition incomplete (n : Note) : Prop := match n with OnTransferComplete _ => False | _ => True end.

(** A directory path in canonical form. *)
Definition dir_path (l : list bytes) : string := bytes_str (slash :: join_path l).

Definition sample_fenv : FEnv :=
  mkFEnv true true Some true (fun _ => Some chunk_size) (fun _ => None) true (fun _ => true)
    Z.of_nat (fun _ => str_bytes "0123456789abcdef") (fun _ m => m).
Definition sample_st (host : string) : St :=
  mkSt (mkManager host ∅ [] "/home/u/files") [] ∅ [].
Definition sample_meta (id : string) : FileMetadata :=
  mkMeta id "k" 5 "text/plain" 1 "A" "ann" "B" 0.
Definition sample_track : St :=
  mkSt (mkManager "A" {["f1"%string := 0%nat]}
          [mkTransfer (sample_meta "f1") StatusPending F64.zero 0 ∅ EmptyString 0] "/home/u/files") [] ∅ [].
Definition sample_dir : list bytes := [str_bytes "home"; str_bytes "u"; str_bytes "files"].

(** ** Lines *)

Lemma read_line_app x rest : nl ∉ x -> read_line (x ++ nl :: rest) = Some (x ++ [nl], rest).
Proof.
  induction x as [|c x IH]; intros Hx; simpl.
  - done.
  - rewrite decide_False by set_solver. by rewrite IH by set_solver.
Qed.

Lemma trim_front_stop fuel seqs b :
  List.find (fun s => has_prefix s b) seqs = None -> trim_front fuel seqs b = b.
Proof. intros Hf. destruct fuel; simpl; [done |]. by rewrite Hf. Qed.

Lemma TrimSpace_object x :
  TrimSpace (("{"%char :: x ++ ["}"%char]) ++ [nl]) = "{"%char :: x ++ ["}"%char].
Proof.
  unfold TrimSpace. set (o := "{"%char :: x ++ ["}"%char]).
  assert (trim_front (length (o ++ [nl])) space_seqs (o ++ [nl]) = o ++ [nl]) as ->
    by (apply trim_front_stop; reflexivity).
  rewrite rev_app_distr, length_app, Nat.add_1_r. cbn [trim_front rev app].
  assert (exists t, rev o = "}"%char :: t) as [t Ht].
  { subst o. exists (rev ("{"%char :: x)). simpl. by rewrite rev_app_distr. }
  assert (List.find (fun s => has_prefix s (nl :: rev o)) (map (fun s => rev s) space_seqs)
          = Some [nl]) as -> by (rewrite Ht; reflexivity).
  cbn [length drop]. rewrite trim_front_stop by (rewrite Ht; reflexivity).
  exact (rev_involutive o).
Qed.

(** ** Packets *)

(** A packet is an object on one line, and that line is read as the packet. *)
Lemma packet_text p :
  streamPacket_ok p -> exists x,
    json_marshal p = Some ("{"%char :: x ++ ["}"%char]) /\ nl ∉ x /\
    json_unmarshal ("{"%char :: x ++ ["}"%char]) = Some p.
Proof.
  intros Hp. destruct (@gv_roundtrip _ _ streamPacket_law p Hp) as (j & He & Hw & Hd).
  pose proof (Hw 0 ltac:(done)) as Hw0.
  assert (exists x, print compact 0 j = "{"%char :: x ++ ["}"%char]) as [x Hx].
  { change (JObj <$> enc_fields streamPacket_fields p = Some j) in He.
    apply fmap_Some in He as (kvs & _ & ->). apply print_object. }
  exists x. unfold json_marshal, json_unmarshal, streamPacket_json, go_json. rewrite He.
  cbn [fmap option_fmap option_map]. rewrite Hx. split_and!; [done | |].
  - pose proof (visible_compact j 0 0 Hw0) as Hv. rewrite Hx in Hv. intros Hin.
    rewrite list.Forall_forall in Hv. specialize (Hv nl).
    assert (32 <= b2z nl) as Hnl by (apply Hv; set_solver). by vm_compute in Hnl.
  - rewrite <- Hx, parse_print by (done || apply compact_ok). exact Hd.
Qed.

Lemma readPacket_line p line rest :
  streamPacket_ok p -> packetLine p = Some line -> readPacket (line ++ rest) = Some (p, rest).
Proof.
  intros Hp Hl. destruct (packet_text p Hp) as (x & Hm & Hx & Hu). unfold packetLine in Hl.
  rewrite Hm in Hl. set (o := "{"%char :: x ++ ["}"%char]) in *.
  assert (line = o ++ [nl]) as -> by (cbn [mbind option_bind] in Hl; congruence).
  unfold readPacket.
  assert (read_line ((o ++ [nl]) ++ rest) = Some (o ++ [nl], rest)) as ->.
  { rewrite <- app_assoc. apply read_line_app. subst o.
    rewrite elem_of_cons, elem_of_app, list_elem_of_singleton. intros [|[|]]; done. }
  cbn [mbind option_bind]. subst o. rewrite TrimSpace_object. simpl bool_decide. rewrite Hu. done.
Qed.

Lemma packetLine_ok p : streamPacket_ok p -> exists line, packetLine p = Some line.
Proof. intros Hp. destruct (packet_text p Hp) as (x & Hm & _). unfold packetLine. rewrite Hm. eauto. Qed.

(** ** Pieces *)

Lemma concat_pieces k c b : (length b <= k * c)%nat -> concat (pieces k c b) = b.
Proof.
  revert b. induction k as [|k IH]; intros b Hb; simpl; [by destruct b; simpl in *; [| lia] |].
  rewrite IH by (rewrite length_drop; lia). apply take_drop.
Qed.

Lemma length_pieces k c b : length (pieces k c b) = k.
Proof. revert b. induction k; intros b; simpl; auto. Qed.

(** Stated for any piece length: the kernel never computes with [chunk_size]. *)
Lemma pieces_head k c b : pieces (S k) c b !! 0%nat = Some (take c b).
Proof. reflexivity. Qed.

Lemma pieces_tail k c b j : pieces (S k) c b !! S j = pieces k c (drop c b) !! j.
Proof. reflexivity. Qed.

Lemma chunk_size_eq : Z.to_nat DefaultChunkSize = chunk_size.
Proof. reflexivity. Qed.

Lemma chunk_size_pos : (0 < chunk_size)%nat.
Proof. unfold chunk_size, DefaultChunkSize. lia. Qed.

Lemma chunk_size_Z : Z.of_nat chunk_size = DefaultChunkSize.
Proof. unfold chunk_size, DefaultChunkSize. lia. Qed.

Lemma chunkCountOf_bounds (content : bytes) :
  blen content < 2 ^ 62 ->
  exists k, chunkCountOf (blen content) = Z.of_nat k /\
    (length content <= k * chunk_size)%nat /\
    (k = 0 \/ ((k - 1) * chunk_size < length content))%nat.
Proof.
  intros Hb. pose proof (blen_nonneg content) as H0. unfold chunkCountOf.
  pose proof chunk_size_Z as Hc. assert (DefaultChunkSize = 65536) as HD by reflexivity.
  rewrite (wrap64_id (blen content + DefaultChunkSize)), wrap64_id by (int_lia).
  rewrite Z.quot_div_nonneg by lia.
  set (k := (blen content + DefaultChunkSize - 1) / DefaultChunkSize).
  pose proof (Z.div_mod (blen content + DefaultChunkSize - 1) DefaultChunkSize) as Hdm.
  pose proof (Z.mod_pos_bound (blen content + DefaultChunkSize - 1) DefaultChunkSize) as Hm.
  assert (0 <= k) by (apply Z.div_pos; lia). fold k in Hdm.
  exists (Z.to_nat k). unfold blen in *. split; [lia |]. split; [nia |].
  destruct (decide (k = 0)); [left; lia | right; nia].
Qed.

#[local] Opaque chunk_size DefaultChunkSize.

Lemma pieces_length k c b j d : pieces k c b !! j = Some d -> (length d <= length b)%nat.
Proof.
  revert b j. induction k as [|k IH]; intros b [|j]; simpl; [done.. | |].
  - intros [= <-]. rewrite length_take. lia.
  - intros Hj. apply IH in Hj. rewrite length_drop in Hj. lia.
Qed.

(** ** Keeping track of the manager *)

Lemma keeps_refl m : keeps m m.
Proof. by split_and!. Qed.

Lemma keeps_trans m1 m2 m3 : keeps m1 m2 -> keeps m2 m3 -> keeps m1 m3.
Proof. intros (?&?&?&?) (?&?&?&?). split_and!; try congruence. auto. Qed.

Lemma keeps_benign f m : benign f -> keeps m (f m).
Proof.
  intros Hf. destruct (Hf m 0%nat) as (? & ? & ? & _). split_and!; [done.. |].
  intros l [t Ht]. destruct (Hf m l) as (_ & _ & _ & Hs). rewrite Ht in Hs.
  destruct (objs (f m) !! l); [eauto | done].
Qed.

Lemma keeps_upd l f m : keeps m (upd l f m).
Proof.
  split_and!; [done.. |]. intros l' Hl. simpl. apply lookup_lt_is_Some.
  rewrite length_alter. by apply lookup_lt_is_Some.
Qed.

Lemma upd_lookup l f m t : objs m !! l = Some t -> objs (upd l f m) !! l = Some (f t).
Proof. intros Hl. simpl. by rewrite list_lookup_alter_eq, Hl. Qed.

(** ** The two loops *)

Section Loops.

Lemma send_loop_ok E k i rem total meta l s :
  sends_well E -> (forall j d, pieces k chunk_size rem !! j = Some d ->
                     streamPacket_ok (chunkPacket meta (Z.of_nat (i + j)) d)) ->
  (length rem <= k * chunk_size)%nat ->
  (k = 0 \/ ((k - 1) * chunk_size < length rem))%nat ->
  exists s' w, send_loop E k i rem total meta l s = (s', None) /\
    chunk_wire meta i (pieces k chunk_size rem) = Some w /\
    wire s' = wire s ++ w /\ keeps (mgr s) (mgr s').
Proof.
  intros (_ & _ & _ & Hread & Hw & Hb). revert i rem total s.
  induction k as [|k IH]; intros i rem total s Hpk H1 H2; cbn [send_loop pieces chunk_wire].
  { exists s, []. rewrite app_nil_r. split_and!; [done.. | apply keeps_refl]. }
  pose proof chunk_size_pos as Hc.
  destruct (Hread i) as (most & -> & Hmost). rewrite !chunk_size_eq in *.
  rewrite Nat.min_l by done. set (d := take chunk_size rem).
  assert (d <> []) as Hd.
  { intros E0. apply (f_equal length) in E0. subst d. rewrite length_take in E0. simpl in E0. lia. }
  rewrite bool_decide_eq_false_2 by done.
  destruct (packetLine_ok (chunkPacket meta (Z.of_nat i) d)) as [line Hl].
  { rewrite <- (Nat.add_0_r i). apply Hpk, pieces_head. }
  unfold writePacket. rewrite Hl, Hw. cbn [mbind option_bind].
  match goal with |- context [send_loop E k (S i) ?r ?t meta l ?s1] =>
    destruct (IH (S i) r t s1) as (s' & w & -> & -> & Hs & Hk) end;
    [| rewrite length_drop; lia | rewrite length_drop; destruct k; [by left | right; lia] |].
  { intros j d' Hj. rewrite Nat.add_succ_comm. apply Hpk. by rewrite pieces_tail. }
  exists s', (line ++ w). split_and!; [done | done | rewrite Hs; simpl; by rewrite app_assoc |].
  eapply keeps_trans; [| exact Hk]. simpl.
  eapply keeps_trans; [by apply keeps_benign | apply keeps_upd].
Qed.

Lemma recv_loop_ok E k i w rest ps meta l pid s t :
  receives_well E -> (forall i d, ps !! i = Some d -> streamPacket_ok (chunkPacket meta (Z.of_nat i) d)) ->
  md_ChunkCount meta = Z.of_nat (length ps) -> (i + k = length ps)%nat ->
  chunk_wire meta i (drop i ps) = Some w ->
  objs (mgr s) !! l = Some t -> has_chunks ps i (t_Chunks t) ->
  exists s' t', recv_loop E k i (w ++ rest) meta l pid s = (s', None) /\
    objs (mgr s') !! l = Some t' /\ has_chunks ps (length ps) (t_Chunks t') /\
    t_Metadata t' = t_Metadata t /\ t_OutputPath t' = t_OutputPath t /\
    keeps (mgr s) (mgr s') /\ files s' = files s.
Proof.
  intros (_ & _ & Hb) Hpk Hcount. revert i w s t.
  induction k as [|k IH]; intros i w s t Hi Hw Hl Hh; cbn [recv_loop].
  { exists s, t. rewrite Nat.add_0_r in Hi. subst i. split_and!; [done.. | apply keeps_refl | done]. }
  destruct (lookup_lt_is_Some_2 ps i) as [d Hd]; [lia |].
  rewrite (drop_S _ _ _ Hd) in Hw. cbn [chunk_wire] in Hw.
  destruct (packetLine (chunkPacket meta (Z.of_nat i) d)) as [line|] eqn:Hline; [| done].
  cbn [mbind option_bind] in Hw.
  destruct (chunk_wire meta (S i) (drop (S i) ps)) as [w'|] eqn:Hw'; [| done]. injection Hw as <-.
  rewrite <- app_assoc, (readPacket_line _ _ _ (Hpk _ _ Hd) Hline). simpl p_Chunk. simpl p_Type.
  cbn [fc_ChunkIdx fc_Size fc_Data chunkPacket bool_decide].
  rewrite bool_decide_eq_true_2 by done. simpl negb. rewrite Hcount, Z.eqb_refl.
  rewrite (proj2 (Z.ltb_ge (Z.of_nat i) 0)), (proj2 (Z.leb_gt _ _)) by lia. simpl orb. simpl negb.
  cbv iota.
  destruct (Hb i (mgr s) l) as (_ & _ & _ & Ht). rewrite Hl in Ht.
  destruct (objs (fe_intr E i (mgr s)) !! l) as [t1|] eqn:Hl1; [| done].
  injection Ht as Hmd _ Hrc Hch Hop _.
  match goal with |- context [recv_loop E k (S i) _ meta l pid ?s1] => set (s2 := s1) end.
  assert (exists t2, objs (mgr s2) !! l = Some t2 /\ t_Metadata t2 = t_Metadata t /\
    t_OutputPath t2 = t_OutputPath t /\ has_chunks ps (S i) (t_Chunks t2)) as (t2 & Hl2 & Hm2 & Ho2 & Hh2).
  { eexists. split; [by apply upd_lookup |]. cbn. split_and!; [done.. |].
    intros j d' Hj Hd'. destruct (decide (j = i)) as [->|].
    - rewrite lookup_insert_eq. eexists. split; [done |]. simpl. congruence.
    - rewrite lookup_insert_ne by lia. rewrite Hch. apply Hh; [lia | done]. }
  destruct (IH (S i) w' s2 t2) as (s' & t' & -> & H1 & H2 & H3 & H4 & H5 & H6); [lia | done.. |].
  exists s', t'. split_and!; [done.. | congruence | congruence | | by rewrite H6].
  eapply keeps_trans; [| exact H5]. subst s2. simpl.
  eapply keeps_trans; [by apply keeps_benign | apply keeps_upd].
Qed.

Lemma write_chunks_ok E k i ps chunks out :
  receives_well E -> has_chunks ps (length ps) chunks -> (i + k = length ps)%nat ->
  write_chunks E k i chunks out = (out ++ concat (drop i ps), None).
Proof.
  intros (_ & Hw & _) Hh. revert i out. induction k as [|k IH]; intros i out Hi; cbn [write_chunks].
  - rewrite drop_ge by lia. by rewrite app_nil_r.
  - destruct (lookup_lt_is_Some_2 ps i) as [d Hd]; [lia |].
    destruct (Hh i d) as (ch & -> & Hch); [lia | done |].
    rewrite Hw, IH, (drop_S _ _ _ Hd) by lia. simpl. by rewrite Hch, app_assoc.
Qed.
End Loops.

(** ** Whole transfers *)

Section Whole.

(** The packets of a transfer survive if its metadata does. *)
Lemma meta_packet_ok meta : FileMetadata_ok meta -> streamPacket_ok (mkPacket "meta" (Some meta) None).
Proof. intros Hm. split; [reflexivity | by split]. Qed.

Lemma chunk_packets_ok meta content k :
  FileMetadata_ok meta -> blen content < 2 ^ 62 ->
  (k = 0 \/ ((k - 1) * chunk_size < length content))%nat ->
  forall j d, pieces k chunk_size content !! j = Some d ->
    streamPacket_ok (chunkPacket meta (Z.of_nat j) d).
Proof.
  intros (H1 & _ & _ & _ & H5 & _) Hb Hk j d Hj. pose proof chunk_size_pos as Hc.
  assert (length d <= length content)%nat as Hd by by eapply pieces_length.
  apply lookup_lt_Some in Hj as Hjk. rewrite length_pieces in Hjk. unfold blen in *.
  assert (j <= length content)%nat by nia.
  assert (is_int64 (Z.of_nat j) /\ is_int64 (Z.of_nat (length d))) as [Hj1 Hj2] by (split; int_lia).
  split; [reflexivity |]. split; [exact I |]. exact (conj H1 (conj Hj1 (conj H5 Hj2))).
Qed.

Lemma mime_utf8 name : utf8 (detectMimeType name).
Proof. unfold detectMimeType. by repeat case_match. Qed.

Lemma chunkCountOf_int64 (content : bytes) :
  blen content < 2 ^ 62 -> is_int64 (chunkCountOf (blen content)).
Proof.
  intros Hb. destruct (chunkCountOf_bounds content Hb) as (k & -> & Hk1 & Hk2).
  pose proof chunk_size_pos. unfold blen in *.
  assert (k <= S (length content))%nat by nia. int_lia.
Qed.

(** The metadata [SendFile] announces. *)
Lemma sent_meta_ok fid name content host nick recipient now :
  utf8 fid -> utf8 name -> blen content < 2 ^ 62 -> utf8 host -> utf8 nick -> utf8 recipient ->
  is_int64 now ->
  FileMetadata_ok (mkMeta fid name (blen content) (detectMimeType name)
    (chunkCountOf (blen content)) host nick recipient now).
Proof.
  intros H1 H2 Hb H3 H4 H5 H6. pose proof (chunkCountOf_int64 content Hb) as Hc.
  assert (is_int64 (blen content)) by (pose proof (blen_nonneg content); int_lia).
  pose proof (mime_utf8 name). unfold FileMetadata_ok. simpl. tauto.
Qed.

Lemma complete_status l msg fid s :
  transfers (mgr s) !! fid = Some l -> is_Some (objs (mgr s) !! l) ->
  t_Status <$> GetTransfer fid (mgr (completeTransfer l msg s)) = Some StatusComplete.
Proof.
  intros Hf [t Ht]. unfold GetTransfer. simpl. rewrite Hf. simpl.
  by rewrite list_lookup_alter_eq, Ht.
Qed.

Lemma track_lookup fid t m l m' :
  track fid t m = (l, m') ->
  transfers m' !! fid = Some l /\ objs m' !! l = Some t /\ hostID m' = hostID m /\
  incomingDir m' = incomingDir m.
Proof.
  intros [= <- <-]. simpl. rewrite lookup_insert_eq. split_and!; try done.
  by rewrite list_lookup_middle.
Qed.

Lemma sendFileStream_ok E content meta l s :
  sends_well E -> FileMetadata_ok meta ->
  is_Some (fe_peer E (md_Recipient meta)) -> blen content < 2 ^ 62 ->
  md_ChunkCount meta = chunkCountOf (blen content) ->
  transfers (mgr s) !! md_FileID meta = Some l -> is_Some (objs (mgr s) !! l) ->
  exists line w,
    packetLine (mkPacket "meta" (Some meta) None) = Some line /\
    chunk_wire meta 0 (pieces (Z.to_nat (md_ChunkCount meta)) chunk_size content) = Some w /\
    let s' := sendFileStream E content meta l s in
    wire s' = wire s ++ line ++ w /\
    t_Status <$> GetTransfer (md_FileID meta) (mgr s') = Some StatusComplete.
Proof.
  intros HE Hm [p Hp] Hb Hcount Hf Hl. pose proof HE as (_ & _ & Hs & _ & Hw & _).
  destruct (packetLine_ok _ (meta_packet_ok meta Hm)) as [line Hline].
  destruct (chunkCountOf_bounds content Hb) as (k & Hk & Hk1 & Hk2).
  pose proof (chunk_packets_ok meta content k Hm Hb Hk2) as Hpk.
  unfold sendFileStream. rewrite Hp, Hs. cbn [negb]. unfold writePacket. rewrite Hline, Hw.
  rewrite Hcount, Hk, Nat2Z.id.
  match goal with |- context [send_loop E k 0 content 0 meta l ?s1] =>
    destruct (send_loop_ok E k 0 content 0 meta l s1 HE Hpk Hk1 Hk2) as (s' & w & -> & Hcw & Hwire & Hkeep) end.
  exists line, w. split_and!; [done | done | simpl; rewrite Hwire; simpl; by rewrite app_assoc |].
  destruct Hkeep as (_ & Ht & _ & Hall). apply complete_status; [by rewrite Ht | apply Hall].
  simpl. apply lookup_lt_is_Some. rewrite length_alter. by apply lookup_lt_is_Some.
Qed.

Lemma handleStream_ok E meta line w content s :
  receives_well E -> FileMetadata_ok meta ->
  packetLine (mkPacket "meta" (Some meta) None) = Some line ->
  chunk_wire meta 0 (pieces (Z.to_nat (md_ChunkCount meta)) chunk_size content) = Some w ->
  md_ChunkCount meta = chunkCountOf (blen content) -> blen content < 2 ^ 62 ->
  (md_Recipient meta = EmptyString \/ md_Recipient meta = hostID (mgr s)) ->
  bad_name (md_Name meta) = false ->
  let s' := handleStream E (line ++ w) s in
  files s' !! outputPath (incomingDir (mgr s)) meta = Some content /\
  t_Status <$> GetTransfer (md_FileID meta) (mgr s') = Some StatusComplete.
Proof.
  intros HE Hok Hline Hcw Hcount Hb Hr Hbad.
  destruct (chunkCountOf_bounds content Hb) as (k & Hk & Hk1 & Hk2).
  pose proof (chunk_packets_ok meta content k Hok Hb Hk2) as Hpk.
  unfold handleStream. rewrite (readPacket_line _ _ _ (meta_packet_ok meta Hok) Hline). simpl p_Metadata. simpl p_Type.
  rewrite bool_decide_eq_true_2 by done. cbn [negb].
  assert (negb (bool_decide (md_Recipient meta = EmptyString)) &&
    negb (bool_decide (md_Recipient meta = hostID (mgr s))) = false) as ->.
  { destruct Hr as [-> | ->]; [done |].
    by rewrite (bool_decide_eq_true_2 (hostID (mgr s) = hostID (mgr s)) eq_refl), andb_false_r. }
  rewrite Hbad. destruct (track _ _ _) as [l m] eqn:Etr.
  destruct (track_lookup _ _ _ _ _ Etr) as (Hf & Hl & _ & _).
  assert (Z.to_nat (md_ChunkCount meta) = k) as Ek by (rewrite Hcount, Hk; apply Nat2Z.id).
  rewrite Ek in *.
  match goal with |- context [recv_loop E k 0 w meta l ?pid ?s1] =>
    destruct (recv_loop_ok E k 0 w [] (pieces k chunk_size content) meta l pid s1
      (mkTransfer meta StatusReceiving F64.zero 0 ∅ (outputPath (incomingDir (mgr s)) meta) (fe_clock E 0)))
      as (s' & t' & Hloop & Hl' & Hh & Hm & Ho & (_ & Htr & _ & _) & Hfiles) end;
    [done | done | by rewrite length_pieces, Hcount, Hk | by rewrite length_pieces | done | done |
     intros j d Hj; lia |].
  rewrite app_nil_r in Hloop. rewrite Hloop. unfold reassembleFile. rewrite Hl'.
  destruct HE as (Hc & HE). rewrite Hc. cbn [negb]. rewrite Hm. simpl t_Metadata.
  rewrite Ek.
  rewrite (write_chunks_ok E k 0 (pieces k chunk_size content)) by (done || by rewrite length_pieces).
  rewrite drop_0, concat_pieces, Ho by done. split.
  - simpl. by rewrite lookup_insert_eq.
  - apply complete_status; simpl; [rewrite Htr; simpl; exact Hf | by exists t'].
Qed.
End Whole.

(** ** Arbitrary input *)

Section Arbitrary.

Lemma benign_lookup f m l t :
  benign f -> objs m !! l = Some t ->
  exists t', objs (f m) !! l = Some t' /\ t_Metadata t' = t_Metadata t /\
    t_OutputPath t' = t_OutputPath t /\ t_Chunks t' = t_Chunks t.
Proof.
  intros Hf Hl. destruct (Hf m l) as (_ & _ & _ & H). rewrite Hl in H.
  destruct (objs (f m) !! l) as [t'|] eqn:E; [| done]. exists t'.
  by injection H as ? _ _ ? ? _.
Qed.

Lemma receiveChunk_spec E i chunk meta l pid s t :
  objs (mgr s) !! l = Some t ->
  exists t' n1 n2, let s' := receiveChunk E i chunk meta l pid s in
    objs (mgr s') !! l = Some t' /\ t_Metadata t' = t_Metadata t /\
    t_OutputPath t' = t_OutputPath t /\
    t_Chunks t' = <[fc_ChunkIdx chunk := chunk]> (t_Chunks t) /\ files s' = files s /\
    notes s' = notes s ++ [n1; n2] /\ incomplete n1 /\ incomplete n2.
Proof.
  intros Hl. eexists _, (OnTransferProgress _ _), (OnFileNotification _).
  split; [by apply upd_lookup |]. split_and!; try done. simpl. by rewrite <- app_assoc.
Qed.

Lemma recv_loop_sound E k i input meta l pid s t :
  (forall i, benign (fe_intr E i)) -> objs (mgr s) !! l = Some t ->
  wf_chunks (md_ChunkCount meta) (t_Chunks t) ->
  exists t' ns, let s' := (recv_loop E k i input meta l pid s).1 in
    objs (mgr s') !! l = Some t' /\ wf_chunks (md_ChunkCount meta) (t_Chunks t') /\
    t_Metadata t' = t_Metadata t /\ t_OutputPath t' = t_OutputPath t /\
    files s' = files s /\ notes s' = notes s ++ ns /\ Forall incomplete ns.
Proof.
  intros Hb. revert i input s t. induction k as [|k IH]; intros i input s t Hl Hw; cbn [recv_loop].
  { exists t, []. rewrite app_nil_r. by split_and!. }
  destruct (benign_lookup _ _ _ _ (Hb i) Hl) as (t1 & Hl1 & Hm1 & Ho1 & Hc1).
  assert (forall e, exists t' ns, let s' := (on_mgr (fe_intr E i) s, Some e : option TransferError).1 in
    objs (mgr s') !! l = Some t' /\ wf_chunks (md_ChunkCount meta) (t_Chunks t') /\
    t_Metadata t' = t_Metadata t /\ t_OutputPath t' = t_OutputPath t /\
    files s' = files s /\ notes s' = notes s ++ ns /\ Forall incomplete ns) as Herr.
  { intros e. exists t1, []. rewrite app_nil_r, Hc1. by split_and!. }
  destruct (readPacket input) as [[pkt input']|]; [| apply Herr].
  destruct (p_Chunk pkt) as [chunk|]; [| apply Herr].
  destruct (negb (bool_decide (p_Type pkt = _))); [apply Herr |].
  destruct ((fc_ChunkIdx chunk <? 0) || (md_ChunkCount meta <=? fc_ChunkIdx chunk)) eqn:Hr; [apply Herr |].
  destruct (negb (fc_Size chunk =? blen (fc_Data chunk))) eqn:Hs; [apply Herr |].
  apply orb_false_iff in Hr as [Hr1 Hr2]. apply negb_false_iff, Z.eqb_eq in Hs.
  destruct (receiveChunk_spec E i chunk meta l pid (on_mgr (fe_intr E i) s) t1 Hl1)
    as (t2 & n1 & n2 & Hl2 & Hm2 & Ho2 & Hc2 & Hf2 & Hn2 & Hi1 & Hi2).
  destruct (IH (S i) input' _ t2 Hl2) as (t' & ns & H1 & H2 & H3 & H4 & H5 & H6 & H7).
  - rewrite Hc2, Hc1. apply map_Forall_insert_2; [| done]. split_and!; [lia.. | done].
  - exists t', (n1 :: n2 :: ns).
    split_and!; [done | done | congruence | congruence | exact (eq_trans H5 Hf2) | | by repeat constructor].
    rewrite H6, Hn2. simpl. by rewrite <- app_assoc.
Qed.

Lemma write_chunks_sound E k i chunks out b :
  write_chunks E k i chunks out = (b, None) ->
  exists chs, b = out ++ concat (fc_Data <$> chs) /\ length chs = k /\
    forall j ch, chs !! j = Some ch -> chunks !! Z.of_nat (i + j) = Some ch.
Proof.
  revert i out. induction k as [|k IH]; intros i out; cbn [write_chunks].
  - intros [= <-]. exists []. by rewrite app_nil_r.
  - destruct (chunks !! Z.of_nat i) as [ch|] eqn:Hch; [| done].
    destruct (fe_file_write E i); [| done]. intros Hw.
    destruct (IH _ _ Hw) as (chs & -> & Hlen & Hall). exists (ch :: chs). simpl.
    rewrite app_assoc. split_and!; [done | by rewrite Hlen |].
    intros [|j] ch'; simpl; [intros [= <-]; by rewrite Nat.add_0_r |].
    intros Hj. replace (i + S j)%nat with (S i + j)%nat by lia. by apply Hall.
Qed.
End Arbitrary.

(** ** Where the file goes *)

Lemma Join_segments dir e :
  dir <> [] -> Forall plain dir -> e <> EmptyString ->
  Join (dir_path dir) e =
  bytes_str (slash :: join_path (rev (foldl (clean_step true) (rev dir) (split_path (str_bytes e))))).
Proof.
  intros Hne Hd He. unfold Join.
  rewrite decide_False by (unfold dir_path; simpl; discriminate). rewrite decide_False by done.
  unfold Clean. assert (str_bytes (dir_path dir ++ "/" ++ e) = slash :: join_path dir ++ slash :: str_bytes e) as ->.
  { rewrite !str_bytes_app. unfold dir_path. by rewrite str_bytes_str. }
  unfold rooted. rewrite bool_decide_eq_true_2 by done. do 4 f_equal.
  change (slash :: join_path dir ++ slash :: str_bytes e)
    with ([] ++ slash :: (join_path dir ++ slash :: str_bytes e)).
  rewrite split_app_slash by set_solver.
  assert (split_path (join_path dir ++ slash :: str_bytes e) = dir ++ split_path (str_bytes e)) as ->.
  { clear He. induction dir as [|x [|y dir] IH]; [done | |]; inversion_clear Hd as [|? ? Hx Hd'].
    - simpl. apply split_app_slash. apply Hx.
    - change (join_path (x :: y :: dir)) with (x ++ slash :: join_path (y :: dir)).
      rewrite <- app_assoc.
      change ((slash :: join_path (y :: dir)) ++ slash :: str_bytes e)
        with (slash :: (join_path (y :: dir) ++ slash :: str_bytes e)).
      rewrite split_app_slash by apply Hx. by rewrite IH. }
  cbn [foldl]. change (clean_step true [] []) with (@nil bytes).
  rewrite foldl_app, (clean_plains true [] dir Hd). by rewrite app_nil_r.
Qed.

(** Names the check lets through have no separator. *)
Lemma good_name_no_slash name : bad_name name = false -> slash ∉ str_bytes name.
Proof.
  unfold bad_name. rewrite !orb_false_iff, !bool_decide_eq_false. tauto.
Qed.

Lemma underscore_plain a b :
  slash ∉ a -> slash ∉ b -> plain (a ++ "_"%char :: b).
Proof.
  intros Ha Hb. split_and!.
  - by destruct a.
  - intros E. destruct a as [|x [|y a]]; [done | done | done].
  - intros E. destruct a as [|x [|y [|z a]]]; done.
  - rewrite elem_of_app, elem_of_cons. intros [|[|]]; done.
Qed.

Lemma sample_sends_well : sends_well sample_fenv.
Proof. split_and!; try done. intros i. exists chunk_size. by rewrite chunk_size_eq. Qed.

Lemma sample_clock_ok : is_int64 (fe_clock sample_fenv 0).
Proof. simpl. int_lia. Qed.

Lemma sample_meta_ok : FileMetadata_ok (sample_meta "f1").
Proof. split_and!; (reflexivity || apply (bool_decide_eq_true_1 (is_int64 _)); reflexivity). Qed.

Lemma sample_receives_well : receives_well sample_fenv.
Proof. by split_and!. Qed.

(** ** Properties *)

Section Properties.

(** C5: a file that is sent arrives.  With a stream that carries every byte, reads
    that fill the buffer and a disk that takes the data, the receiver ends with a
    file of exactly the sender's bytes under the announced identifier and name, and
    both sides report the transfer complete; whatever the file's size and content
    (empty files included), and whatever other goroutines do to the transfers'
    status meanwhile. *)
Theorem file_roundtrip ES ER name content recipient nick fileID s sr :
  sends_well ES -> receives_well ER -> wire s = [] -> blen content < 2 ^ 62 ->
  (recipient = EmptyString \/ recipient = hostID (mgr sr)) ->
  is_Some (fe_peer ES recipient) -> bad_name name = false ->
  utf8 name -> utf8 recipient -> utf8 nick -> utf8 fileID -> utf8 (hostID (mgr s)) ->
  is_int64 (fe_clock ES 0) ->
  exists l meta s1, SendFile ES name content recipient nick fileID s = Ret (l, meta, s1) /\
    let s2 := sendFileStream ES content meta l s1 in
    let s3 := handleStream ER (wire s2) sr in
    md_Name meta = name /\ md_Size meta = blen content /\
    files s3 !! outputPath (incomingDir (mgr sr)) meta = Some content /\
    t_Status <$> GetTransfer (md_FileID meta) (mgr s2) = Some StatusComplete /\
    t_Status <$> GetTransfer (md_FileID meta) (mgr s3) = Some StatusComplete.
Proof.
  intros HS HR Hwire Hb Hr Hp Hbad Hu1 Hu2 Hu3 Hu4 Hu5 Hclock. pose proof HS as (Ho & Hst & _).
  unfold SendFile. rewrite Ho, Hst. cbn [negb].
  set (fid := if bool_decide (fileID = EmptyString) then _ else _).
  set (meta := mkMeta fid name _ _ _ _ _ _ _).
  assert (FileMetadata_ok meta) as Hmeta.
  { apply sent_meta_ok; try done. subst fid. case_bool_decide; [apply hex_utf8 | done]. }
  destruct (track fid _ _) as [l m] eqn:Etr.
  destruct (track_lookup _ _ _ _ _ Etr) as (Hf & Hl & _ & _).
  eexists l, meta, _. split; [reflexivity |].
  match goal with |- context [sendFileStream ES content meta l ?s1] =>
    destruct (sendFileStream_ok ES content meta l s1) as (line & w & Hline & Hcw & Hw & Hs);
    [done.. | by eexists |] end.
  rewrite Hw. simpl wire. rewrite Hwire. simpl app.
  destruct (handleStream_ok ER meta line w content sr) as [H1 H2]; try done.
Qed.

(** C37: cancelling has no effect.  [CancelTransfer] only marks the transfer, and
    nothing reads the mark: a transfer cancelled before every single chunk is sent in
    full and ends as complete. *)
Theorem cancel_does_not_stop E content meta l s :
  sends_well (mkFEnv (fe_open E) (fe_stat E) (fe_peer E) (fe_stream E) (fe_read E) (fe_write E)
    (fe_create E) (fe_file_write E) (fe_clock E) (fe_entropy E) (fun _ m => m)) ->
  FileMetadata_ok meta ->
  is_Some (fe_peer E (md_Recipient meta)) -> blen content < 2 ^ 62 ->
  md_ChunkCount meta = chunkCountOf (blen content) ->
  transfers (mgr s) !! md_FileID meta = Some l -> is_Some (objs (mgr s) !! l) ->
  let E' := mkFEnv (fe_open E) (fe_stat E) (fe_peer E) (fe_stream E) (fe_read E) (fe_write E)
    (fe_create E) (fe_file_write E) (fe_clock E) (fe_entropy E)
    (fun _ m => (CancelTransfer (md_FileID meta) m).2) in
  exists line w,
    packetLine (mkPacket "meta" (Some meta) None) = Some line /\
    chunk_wire meta 0 (pieces (Z.to_nat (md_ChunkCount meta)) chunk_size content) = Some w /\
    let s' := sendFileStream E' content meta l s in
    wire s' = wire s ++ line ++ w /\
    t_Status <$> GetTransfer (md_FileID meta) (mgr s') = Some StatusComplete.
Proof.
  intros (H1 & H2 & H3 & H4 & H5 & _) Hmeta Hp Hb Hc Hf Hl E'.
  apply sendFileStream_ok; [| done..]. split_and!; [done.. |].
  intros i m l'. unfold E', CancelTransfer. simpl.
  destruct (transfers m !! md_FileID meta) as [k|]; [| done].
  destruct (objs m !! k) as [t|] eqn:Ek; [| done]. destruct (bool_decide _); [done |].
  split_and!; [done.. |]. simpl. destruct (decide (k = l')) as [<-|Hne].
  - by rewrite list_lookup_alter_eq, Ek.
  - by rewrite list_lookup_alter_ne.
Qed.

(** C28: a file identifier without a slash keeps the received file in the incoming
    directory, under one name; the name check makes sure the name adds no slash. *)
Theorem outputPath_contained dir meta :
  dir <> [] -> Forall plain dir -> bad_name (md_Name meta) = false ->
  slash ∉ str_bytes (md_FileID meta) ->
  exists file, plain file /\ outputPath (dir_path dir) meta = dir_path (dir ++ [file]).
Proof.
  intros Hne Hd Hn Hs. apply good_name_no_slash in Hn.
  exists (str_bytes (md_FileID meta) ++ "_"%char :: str_bytes (md_Name meta)).
  split; [by apply underscore_plain |].
  unfold outputPath. rewrite Join_segments; [| done.. | by destruct (md_FileID meta)].
  rewrite !str_bytes_app. change (str_bytes "_" ++ str_bytes (md_Name meta))
    with ("_"%char :: str_bytes (md_Name meta)).
  pose proof (underscore_plain _ _ Hs Hn) as Hpl.
  rewrite split_no_slash by apply Hpl. cbn [foldl]. rewrite clean_plain by done.
  simpl rev. by rewrite rev_involutive.
Qed.

(** C36: but nobody checks the identifier, and a peer chooses it.  For every target
    directory, outside the incoming one or not, and every [file] there is an identifier
    with which a received file is written into that directory, as [file] followed by an
    underscore and the announced name; the code rejects separators in the name only, in
    order not to trust the peer with a path. *)
Theorem outputPath_escapes dir target file meta :
  dir <> [] -> Forall plain dir -> Forall plain target -> plain file ->
  bad_name (md_Name meta) = false ->
  md_FileID meta = bytes_str (join_path (replicate (length dir) dotdot ++ target ++ [file])) ->
  outputPath (dir_path dir) meta
  = dir_path (target ++ [file ++ "_"%char :: str_bytes (md_Name meta)]).
Proof.
  intros Hne Hd Ht Hf Hn Hid. apply good_name_no_slash in Hn. unfold outputPath.
  rewrite Join_segments; [| done.. | by destruct (md_FileID meta)].
  rewrite !str_bytes_app, Hid, str_bytes_str.
  set (suffix := str_bytes "_" ++ str_bytes (md_Name meta)).
  assert (forall l, Forall (fun e => slash ∉ e) l ->
    split_path (join_path (l ++ [file]) ++ suffix) = l ++ [file ++ suffix]) as Hsplit.
  { intros l Hl. pose proof (underscore_plain file (str_bytes (md_Name meta))
      (proj2 (proj2 (proj2 Hf))) Hn) as (_ & _ & _ & Hsl).
    induction Hl as [|x l Hx Hl IH]; [by apply split_no_slash |].
    assert (exists y l', l ++ [file] = y :: l') as (y & l' & E) by (destruct l; eauto).
    simpl. rewrite E in *. change (join_path (x :: y :: l')) with (x ++ slash :: join_path (y :: l')).
    rewrite <- app_assoc. change ((slash :: join_path (y :: l')) ++ suffix)
      with (slash :: (join_path (y :: l') ++ suffix)).
    rewrite split_app_slash by done. by rewrite IH. }
  rewrite app_assoc, Hsplit.
  - rewrite !foldl_app, clean_climb; [| by apply Forall_rev | by rewrite length_rev].
    rewrite (clean_plains true [] target Ht). cbn [foldl].
    rewrite clean_plain by (apply underscore_plain; [apply Hf | done]).
    simpl rev. by rewrite app_nil_r, rev_involutive.
  - apply Forall_app. split; [| by eapply Forall_impl; [exact Ht |]; intros ? (_ & _ & _ & ?)].
    apply Forall_replicate, (bool_decide_eq_false_1 (slash ∈ dotdot)). reflexivity.
Qed.

(** C9: whatever bytes a peer writes, the receiver either reports no completion, or
    has accepted metadata meant for it with an acceptable name, holds every chunk of
    the announced count, each as long as it declared, and has written their
    concatenation to the output path and nothing else anywhere. *)
Theorem received_file_complete E input s :
  (forall i, benign (fe_intr E i)) ->
  let s' := handleStream E input s in
  exists ns, notes s' = notes s ++ ns /\
    (Forall incomplete ns \/
     exists meta l t chs,
       bad_name (md_Name meta) = false /\
       (md_Recipient meta = EmptyString \/ md_Recipient meta = hostID (mgr s)) /\
       objs (mgr s') !! l = Some t /\ t_Status t = StatusComplete /\
       Z.of_nat (length chs) = Z.max 0 (md_ChunkCount meta) /\
       (forall j ch, chs !! j = Some ch ->
          fc_ChunkIdx ch = Z.of_nat j /\ fc_Size ch = blen (fc_Data ch)) /\
       files s' = <[outputPath (incomingDir (mgr s)) meta := concat (fc_Data <$> chs)]> (files s)).
Proof.
  intros Hb. unfold handleStream.
  assert (exists ns, notes s = notes s ++ ns /\ Forall incomplete ns) as (ns0 & E0 & I0).
  { exists []. by rewrite app_nil_r. }
  destruct (readPacket input) as [[mp rest]|]; [| by eauto]. cbn [mbind].
  destruct (p_Metadata mp) as [meta|]; [| by eauto].
  destruct (negb (bool_decide (p_Type mp = _))); [by eauto |].
  destruct (negb (bool_decide (md_Recipient meta = EmptyString)) && _) eqn:Hr; [by eauto |].
  destruct (bad_name (md_Name meta)) eqn:Hbad; [by eauto |]. clear ns0 E0 I0.
  destruct (track _ _ _) as [l m] eqn:Etr. destruct (track_lookup _ _ _ _ _ Etr) as (_ & Hl & _ & _).
  match goal with |- context [recv_loop E ?k 0 rest meta l ?pid ?s1] =>
    destruct (recv_loop_sound E k 0 rest meta l pid s1 _ Hb Hl) as (t & ns & H1 & H2 & H3 & H4 & H5 & H6 & H7);
    [by apply map_Forall_empty |]; destruct (recv_loop E k 0 rest meta l pid s1) as [s2 e] end.
  simpl in H1, H5, H6.
  assert (forall n, Forall incomplete (OnFileNotification n :: OnTransferStarted l :: ns)) as Hns
    by (intros; by repeat constructor).
  destruct e as [e|].
  { eexists. split; [simpl; rewrite H6; rewrite <- !app_assoc; reflexivity |].
    left. simpl. constructor; [done |]. constructor; [done |]. apply Forall_app. by repeat constructor. }
  unfold reassembleFile. rewrite H1. destruct (fe_create E); cbn [negb].
  2: { eexists. split; [simpl; rewrite H6; rewrite <- !app_assoc; reflexivity |].
    left. simpl. constructor; [done |]. constructor; [done |]. apply Forall_app. by repeat constructor. }
  destruct (write_chunks E _ 0 (t_Chunks t) []) as [out [e|]] eqn:Ew.
  { eexists. split; [simpl; rewrite H6; rewrite <- !app_assoc; reflexivity |].
    left. simpl. constructor; [done |]. constructor; [done |]. apply Forall_app. by repeat constructor. }
  destruct (write_chunks_sound _ _ _ _ _ _ Ew) as (chs & -> & Hlen & Hchs).
  eexists. split; [simpl; rewrite H6; rewrite <- !app_assoc; reflexivity |]. right.
  exists meta, l. eexists. exists chs. split; [done |]. split.
  { apply andb_false_iff in Hr as [Hr|Hr]; apply negb_false_iff, bool_decide_eq_true in Hr; auto. }
  split; [simpl; by rewrite list_lookup_alter_eq, H1 |]. split; [done |]. rewrite H3 in Hlen.
  simpl in Hlen. split; [lia |]. split.
  - intros j ch Hj. apply Hchs in Hj. rewrite Nat.add_0_l in Hj.
    destruct (H2 _ _ Hj) as (_ & ? & ?). done.
  - simpl. by rewrite H4, H5.
Qed.
End Properties.

Lemma file_roundtrip_witness :
  exists l meta s1,
    SendFile sample_fenv "k" (str_bytes "hello") "B" "ann" "f1" (sample_st "A") = Ret (l, meta, s1) /\
    files (handleStream sample_fenv (wire (sendFileStream sample_fenv (str_bytes "hello") meta l s1))
             (sample_st "B")) !! outputPath "/home/u/files" meta = Some (str_bytes "hello").
Proof.
  destruct (file_roundtrip sample_fenv sample_fenv "k" (str_bytes "hello")
    "B" "ann" "f1" (sample_st "A") (sample_st "B") sample_sends_well sample_receives_well eq_refl
    eq_refl (or_intror eq_refl) (ex_intro _ _ eq_refl) eq_refl eq_refl eq_refl eq_refl eq_refl eq_refl
    sample_clock_ok)
    as (l & meta & s1 & H1 & _ & _ & H2 & _).
  exists l, meta, s1. split; [exact H1 | exact H2].
Defined.

Lemma cancel_does_not_stop_witness :
  let E' := mkFEnv true true Some true (fun _ => Some chunk_size) (fun _ => None) true (fun _ => true)
    Z.of_nat (fun _ => str_bytes "0123456789abcdef") (fun _ m => (CancelTransfer "f1" m).2) in
  t_Status <$> GetTransfer "f1" (mgr (sendFileStream E' (str_bytes "hello") (sample_meta "f1") 0 sample_track))
  = Some StatusComplete.
Proof.
  intros E'.
  destruct (cancel_does_not_stop sample_fenv (str_bytes "hello")
    (sample_meta "f1") 0 sample_track sample_sends_well sample_meta_ok (ex_intro _ _ eq_refl)
    eq_refl eq_refl eq_refl (ex_intro _ _ eq_refl)) as (line & w & _ & _ & _ & H).
  exact H.
Defined.

Lemma outputPath_contained_witness :
  exists file, plain file /\
    outputPath (dir_path sample_dir) (sample_meta "f1") = dir_path (sample_dir ++ [file]).
Proof.
  apply (outputPath_contained sample_dir (sample_meta "f1")).
  - discriminate.
  - apply (bool_decide_eq_true_1 (Forall plain sample_dir)). reflexivity.
  - reflexivity.
  - apply (bool_decide_eq_false_1 (slash ∈ str_bytes "f1")). reflexivity.
Defined.

Lemma outputPath_escapes_witness :
  outputPath "/home/u/files" (sample_meta "../../../etc/cron.d/x") = "/etc/cron.d/x_k"%string.
Proof.
  exact (outputPath_escapes sample_dir [str_bytes "etc"; str_bytes "cron.d"] (str_bytes "x")
    (sample_meta "../../../etc/cron.d/x") ltac:(discriminate)
    (bool_decide_eq_true_1 (Forall plain sample_dir) eq_refl)
    (bool_decide_eq_true_1 (Forall plain [str_bytes "etc"; str_bytes "cron.d"]) eq_refl)
    (bool_decide_eq_true_1 (plain (str_bytes "x")) eq_refl) eq_refl eq_refl).
Defined.

Lemma received_file_complete_witness :
  exists ns, notes (handleStream sample_fenv (str_bytes "garbage") (sample_st "B"))
             = notes (sample_st "B") ++ ns.
Proof.
  destruct (received_file_complete sample_fenv (str_bytes "garbage") (sample_st "B")
    (fun i => proj2 (proj2 sample_receives_well) i)) as (ns & H & _).
  exists ns. exact H.
Defined.
