(* ===== verification/CryptoSpec.v ===== *)
(** * Properties of the end-to-end encryption

    What one side encrypts the other decrypts; the cache of derived keys agrees with
    the key table, except through one interleaving; key files are read back; and the
    key exchange that panics. *)

From S2P Require Import Prelude Utf8 Float64 Json JsonText GoJson Message MessageJson Paths.
From S2P Require Import FileTransfer Crypto WireJson.

(** ** Vocabulary *)

Section Vocabulary.
Context {N : NaCl}.

(** Every cached key is the one derived from the peer's present public key. *)
Definition coherent (m : Manager) : Prop :=
  map_Forall (fun p k => exists pub, knownKeys m !! p = Some pub /\
    k = SharedSecret (PrivateKey (mg_Keypair m)) pub) (sharedCache m).

(** What other goroutines do between the critical sections of a decryption, if they
    leave the sender's key and our own alone in the second gap. *)
Definition undisturbed (sender : string) (intr1 intr2 : Manager -> Manager) : Prop :=
  (forall m, coherent m -> coherent (intr1 m)) /\
  (forall m, coherent m -> coherent (intr2 m) /\ mg_Keypair (intr2 m) = mg_Keypair m /\
     knownKeys (intr2 m) !! sender = knownKeys m !! sender).

End Vocabulary.

(** All the keys of a manager are 32 bytes long. *)
Definition keys_32 (m : Manager) : Prop := map_Forall (fun _ k => length k = 32%nat) (knownKeys m).

(** A toy box for the examples: keys are their own public half, derivation is the
    exclusive or, and sealing prepends the key. *)
Definition toy_xor (a b : bytes) : bytes := zip_with (fun x y => z2b (Z.lxor (b2z x) (b2z y))) a b.
Definition toy_box : NaCl := {|
  box_GenerateKey e := (copy32 e, copy32 e);
  box_Precompute := toy_xor;
  secretbox_Seal text nonce key := key ++ text;
  secretbox_Open ct nonce key :=
    if bool_decide (take (length key) ct = key) then Some (drop (length key) ct) else None
|}.

(** Entropy for the examples: 32 equal bytes. *)
Definition noise (c : ascii) : bytes := replicate 32 c.
Definition sample_keypair {N : NaCl} (c : ascii) : Keypair :=
  let '(pub, priv) := box_GenerateKey (noise c) in mkKeypair pub priv.
Definition sample_manager {N : NaCl} (c : ascii) (peer : string) (key : bytes) : Manager :=
  mkManager (sample_keypair c) {[peer := key]} ∅ "known.json".
Definition sample_disk : Disk := mkDisk ∅ ∅ true None.
Definition sample_text : Message :=
  NewChat (str_bytes "id") 7 "A" "ann" "B" "hello".

(** ** Helpers *)

Lemma ReadRandom_exact n e : blen e = n -> ReadRandom n e = Ret e.
Proof. intros <-. unfold ReadRandom, blen. by rewrite Z.ltb_irrefl, Nat2Z.id, firstn_all. Qed.

Lemma ReadRandom_inv n e b : 0 <= n -> ReadRandom n e = Ret b -> blen b = n /\ b = take (Z.to_nat n) e.
Proof.
  unfold ReadRandom, blen. destruct (Z.ltb_spec (Z.of_nat (length e)) n); [done |]. intros Hn [= <-].
  split; [rewrite length_take; lia | done].
Qed.

Lemma copy32_length b : length (copy32 b) = 32%nat.
Proof. unfold copy32. by rewrite length_resize. Qed.

Lemma copy32_id b : length b = 32%nat -> copy32 b = b.
Proof.
  intros Hb. unfold copy32. rewrite take_ge by lia. rewrite <- Hb at 1. apply resize_all.
Qed.

Lemma decode32_encode e b : length b = 32%nat -> decode32 e (Hex.EncodeToString b) = Ret b.
Proof.
  intros Hb. unfold decode32. rewrite Hex.decode_encode. unfold blen. rewrite Hb. simpl.
  by rewrite copy32_id.
Qed.

Section Keys.
Context {N : NaCl}.

Lemma GetSharedKey_coherent p m :
  coherent m ->
  coherent (GetSharedKey p m).2 /\
  mg_Keypair (GetSharedKey p m).2 = mg_Keypair m /\ knownKeys (GetSharedKey p m).2 = knownKeys m /\
  (GetSharedKey p m).1 = match knownKeys m !! p with
                         | Some pub => Ret (SharedSecret (PrivateKey (mg_Keypair m)) pub)
                         | None => Fail ErrNoSharedKey
                         end.
Proof.
  intros Hc. unfold GetSharedKey. destruct (sharedCache m !! p) as [k|] eqn:Ek; simpl.
  - destruct (Hc _ _ Ek) as (pub & -> & ->). done.
  - destruct (knownKeys m !! p) as [pub|] eqn:Ep; simpl; [| done]. split; [| done].
    apply map_Forall_insert_2; [by exists pub | exact Hc].
Qed.

Lemma SetPeerKey_coherent p key m d :
  coherent m -> coherent (SetPeerKey p key m d).1.2 /\
  mg_Keypair (SetPeerKey p key m d).1.2 = mg_Keypair m /\
  knownKeys (SetPeerKey p key m d).1.2 = <[p := key]> (knownKeys m).
Proof.
  intros Hc. unfold SetPeerKey. destruct (saveKnownKeysLocked _ d) as [e d']. simpl.
  split; [| done]. intros q k Hq. simpl in *. apply lookup_delete_Some in Hq as [Hne Hq].
  rewrite lookup_insert_ne by done. by apply Hc.
Qed.

Lemma decryption_key_coherent p m :
  coherent m ->
  coherent (decryption_key id id p m).2 /\
  (decryption_key id id p m).1 = (GetSharedKey p m).1.
Proof.
  intros Hc. destruct (GetSharedKey_coherent p m Hc) as (H1 & H2 & H3 & H4).
  unfold decryption_key. destruct (GetSharedKey p m) as [[k|e|] m'] eqn:E; simpl in *; [done | |];
    unfold id, GetPeerKey; rewrite H3; destruct (knownKeys m !! p); by simpl in *.
Qed.

(** Another goroutine that leaves the peer's key alone. *)
Lemma decryption_key_undisturbed p intr1 intr2 m :
  coherent m -> undisturbed p intr1 intr2 -> coherent (decryption_key intr1 intr2 p m).2.
Proof.
  intros Hc [H1 H2]. destruct (GetSharedKey_coherent p m Hc) as (Hc' & _).
  unfold decryption_key. destruct (GetSharedKey p m) as [[k|e|] m'] eqn:E; simpl in Hc'; [done | |];
    unfold GetPeerKey; specialize (H1 _ Hc');
    (destruct (knownKeys (intr1 m') !! p) as [pub|] eqn:Ep; [| exact H1]);
    destruct (H2 _ H1) as (Hc2 & Hkp & Hk);
    (apply map_Forall_insert_2; [| exact Hc2]); exists pub; simpl; by rewrite Hk, Hkp.
Qed.

Lemma coherent_empty m : sharedCache m = ∅ -> coherent m.
Proof. intros H. unfold coherent. rewrite H. apply map_Forall_empty. Qed.

(** A reload that keeps the keys of the cached peers. *)
Lemma LoadKnownKeys_coherent d m :
  coherent m ->
  (forall p, is_Some (sharedCache m !! p) -> knownKeys (LoadKnownKeys d m).2 !! p = knownKeys m !! p) ->
  coherent (LoadKnownKeys d m).2.
Proof.
  intros Hc Hk. assert (sharedCache (LoadKnownKeys d m).2 = sharedCache m /\
    mg_Keypair (LoadKnownKeys d m).2 = mg_Keypair m) as [Hs Hp].
  { unfold LoadKnownKeys. destruct (ReadFile _ d); try done. by destruct (json_unmarshal _). }
  intros p k. rewrite Hs, Hp. intros Hpk. rewrite Hk by by exists k. by apply Hc.
Qed.

Lemma NewManager_empty dataDir e d m d' : NewManager dataDir e d = (Ret m, d') -> sharedCache m = ∅.
Proof.
  unfold NewManager. destruct (LoadOrCreateKeypair _ e d) as [[kp| |] d1]; try done. intros [= <- <-].
  unfold LoadKnownKeys. destruct (ReadFile _ d1); try done. by destruct (json_unmarshal _).
Qed.

Lemma Decrypt_Encrypt `{!NaClLaw} nonce text key :
  blen nonce = NonceSize ->
  Decrypt (Hex.EncodeToString (nonce ++ secretbox_Seal text nonce key)) key = Ret text.
Proof.
  intros Hb. unfold Decrypt. rewrite Hex.decode_encode.
  rewrite blen_app, Hb. pose proof (blen_nonneg (secretbox_Seal text nonce key)).
  destruct (Z.ltb_spec (NonceSize + blen (secretbox_Seal text nonce key)) NonceSize); [lia |].
  rewrite slice_to_app, slice_from_app by done. cbn [mbind outcome_bind]. by rewrite open_seal.
Qed.

Lemma KeyID_ok kp : length (PublicKey kp) = 32%nat -> exists k, KeyID kp = Ret k.
Proof.
  intros Hl. unfold KeyID, PublicKeyHex. rewrite slice_to_ok.
  - simpl. eauto.
  - rewrite blen_str_bytes, Hex.encode_slen. unfold blen. lia.
Qed.

(** The nonce is the first 48 digits of what is sent. *)
Lemma Encrypt_nonce nonce text :
  blen nonce = NonceSize ->
  @slice_to CryptoError (str_bytes (Hex.EncodeToString (nonce ++ text))) 48 = Ret (Hex.encode_bytes nonce).
Proof.
  intros Hn. unfold Hex.EncodeToString. rewrite str_bytes_str, Hex.encode_app.
  apply slice_to_app. unfold blen, NonceSize in *. rewrite Hex.encode_length. lia.
Qed.

Lemma GenerateKeypair_inv e kp :
  GenerateKeypair e = Ret kp ->
  exists e', kp = mkKeypair (box_GenerateKey e').1 (box_GenerateKey e').2.
Proof.
  unfold GenerateKeypair. intros (e' & _ & H)%bind_Ret_inv. exists e'.
  destruct (box_GenerateKey e'). by injection H as <-.
Qed.

(** Reading back a table of keys in hex. *)
Lemma load_entries keys :
  map_Forall (fun _ k => length k = 32%nat) keys ->
  map_fold load_entry ∅ (Hex.EncodeToString <$> keys) = keys.
Proof.
  rewrite map_fold_fmap. intros Hk.
  apply (map_fold_weak_ind (fun r m => map_Forall (fun _ k => length k = 32%nat) m -> r = m)
    (fun p k r => load_entry p (Hex.EncodeToString k) r) ∅); [done | | exact Hk].
  intros p k m r Hp IH Hm. apply map_Forall_insert in Hm as [Hlen Hm]; [| done].
  unfold load_entry. rewrite decode32_encode by done. by rewrite IH.
Qed.

(** Keys in hex can be written as JSON. *)
Lemma keypair_json_ok pub priv :
  json_valid (mkKeypairFile (Hex.EncodeToString pub) (Hex.EncodeToString priv)).
Proof. split; apply hex_utf8. Qed.

Lemma known_json_ok (keys : gmap string bytes) :
  (forall p, is_Some (keys !! p) -> utf8 p) ->
  json_valid (mkKnownKeysFile (Hex.EncodeToString <$> keys)).
Proof.
  intros Hp p x. simpl. rewrite lookup_fmap_Some. intros (k & <- & Hk).
  split; [apply Hp; by exists k | apply hex_utf8].
Qed.
End Keys.

Lemma sample_coherent {N : NaCl} e p k : coherent (sample_manager e p k).
Proof. by intros q k' Hq. Qed.

(** ** Properties *)

Section Properties.
Context {N : NaCl}.

(** C7: what the sender encrypts for a recipient the recipient decrypts: two managers
    that know each other's public keys, with caches that agree with their key tables,
    turn any payload into a message marked as encrypted, with the nonce it was sealed
    with, and back into the original payload with the marks removed. *)
Theorem e2e_roundtrip `{!NaClLaw} ea eb ma mb nonce msg :
  GenerateKeypair ea = Ret (mg_Keypair ma) -> GenerateKeypair eb = Ret (mg_Keypair mb) ->
  knownKeys ma !! Recipient msg = Some (PublicKey (mg_Keypair mb)) ->
  knownKeys mb !! Sender msg = Some (PublicKey (mg_Keypair ma)) ->
  coherent ma -> coherent mb -> length nonce = 24%nat ->
  Recipient msg <> EmptyString -> Sender msg <> EmptyString ->
  exists sealed ma' mb',
    EncryptMessage nonce msg ma = (Ret sealed, ma') /\
    IsEncrypted sealed = true /\ Nonce sealed = Hex.EncodeToString nonce /\
    DecryptMessage id id sealed mb
    = (Ret (set_crypto (Payload msg) EmptyString EmptyString msg), mb').
Proof.
  intros (ea' & Ha)%GenerateKeypair_inv (eb' & Hb)%GenerateKeypair_inv Hka Hkb Hca Hcb Hn Hr Hs.
  assert (blen nonce = NonceSize) as Hbn by (unfold blen; by rewrite Hn).
  destruct (GetSharedKey_coherent (Recipient msg) ma Hca) as (_ & Ha2 & _ & Ha4).
  destruct (GetSharedKey_coherent (Sender msg) mb Hcb) as (_ & _ & _ & Hb4).
  rewrite Hka, Ha, Hb in Ha4. rewrite Hkb, Ha, Hb in Hb4.
  unfold EncryptMessage. rewrite bool_decide_eq_false_2 by done.
  destruct (GetSharedKey (Recipient msg) ma) as [r ma']. simpl in Ha2, Ha4. subst r.
  set (key := SharedSecret _ _). unfold Encrypt. rewrite ReadRandom_exact by done. cbn [mbind outcome_bind].
  rewrite Encrypt_nonce by done. cbn [mbind outcome_bind].
  destruct (KeyID_ok (mg_Keypair ma')) as [kid Hkid]; [rewrite Ha2, Ha; apply key_lengths |].
  unfold MyKeyID. rewrite Hkid. cbn [mbind outcome_bind]. set (sealed := set_crypto _ _ _ msg).
  assert (IsEncrypted sealed = true) as He.
  { unfold IsEncrypted. simpl. rewrite bool_decide_eq_false_2; [done |].
    intros E. apply (f_equal str_bytes) in E. rewrite str_bytes_str in E.
    apply (f_equal length) in E. rewrite Hex.encode_length, Hn in E. done. }
  eexists sealed, _, (decryption_key id id (Sender msg) mb).2.
  split; [reflexivity |]. split; [exact He |]. split; [reflexivity |].
  unfold DecryptMessage. rewrite He. cbn [negb]. change (Sender sealed) with (Sender msg).
  rewrite bool_decide_eq_false_2 by done.
  destruct (decryption_key_coherent (Sender msg) mb Hcb) as [_ Hk]. rewrite Hb4 in Hk.
  destruct (decryption_key id id (Sender msg) mb) as [r mb']. simpl in Hk. subst r.
  match goal with |- context [Decrypt _ ?k] => assert (k = key) as -> by apply ecdh end.
  simpl Payload. rewrite Decrypt_Encrypt by done. simpl. by rewrite bytes_str_bytes.
Qed.

(** C11: the cache of derived keys agrees with the key table.  A new manager's does;
    looking a key up, setting or importing one, a key exchange and encrypting keep it
    so; so does decrypting, if the goroutines that interrupt it do and none of them
    replaces the sender's key in its last gap, and reading the table from disk again,
    unless that changes the key of a cached peer.  A lookup answers from the present
    public key. *)
Theorem cache_coherence m d peer key hex entropy spare msg :
  (forall dataDir e m' d', NewManager dataDir e d = (Ret m', d') -> coherent m') /\
  (coherent m ->
   (coherent (GetSharedKey peer m).2 /\
    forall k, (GetSharedKey peer m).1 = Ret k -> exists pub, knownKeys m !! peer = Some pub /\
      k = SharedSecret (PrivateKey (mg_Keypair m)) pub) /\
   coherent (SetPeerKey peer key m d).1.2 /\
   coherent (ImportKeyFromHex peer hex m d).1.2 /\
   (forall m' d', HandleKeyExchangeMessage spare msg m d = Ret (m', d') -> coherent m') /\
   coherent (EncryptMessage entropy msg m).2 /\
   (forall intr1 intr2, undisturbed (Sender msg) intr1 intr2 ->
      coherent (DecryptMessage intr1 intr2 msg m).2) /\
   ((forall p, is_Some (sharedCache m !! p) -> knownKeys (LoadKnownKeys d m).2 !! p = knownKeys m !! p) ->
      coherent (LoadKnownKeys d m).2)).
Proof.
  split; [intros; by eapply coherent_empty, NewManager_empty |].
  intros Hc. destruct (GetSharedKey_coherent peer m Hc) as (H1 & _ & _ & H4). split_and!.
  - done.
  - rewrite H4. intros k. destruct (knownKeys m !! peer) as [pub|]; [| done].
    intros [= <-]. by exists pub.
  - by apply SetPeerKey_coherent.
  - unfold ImportKeyFromHex. destruct (decode32 _ hex); [by apply SetPeerKey_coherent | done..].
  - intros m' d'. unfold HandleKeyExchangeMessage.
    destruct (json_unmarshal _) as [p|]; [| done]. destruct (Hex.DecodeString _) as [b| |]; try done.
    intros (b' & _ & Hk)%bind_Ret_inv.
    pose proof (SetPeerKey_coherent (Sender msg) (copy32 b') m d Hc) as [Hs _].
    destruct (SetPeerKey _ _ m d) as [[e m2] d2]. by injection Hk as <- <-.
  - unfold EncryptMessage. destruct (bool_decide _); [done |].
    pose proof (GetSharedKey_coherent (Recipient msg) m Hc) as [Hs _].
    by destruct (GetSharedKey (Recipient msg) m) as [[] m'].
  - intros intr1 intr2 Hi. unfold DecryptMessage. destruct (negb _); [done |]. destruct (bool_decide _); [done |].
    pose proof (decryption_key_undisturbed (Sender msg) intr1 intr2 m Hc Hi) as Hs.
    by destruct (decryption_key intr1 intr2 (Sender msg) m) as [[] m'].
  - by apply LoadKnownKeys_coherent.
Qed.

(** C38: except through one interleaving.  [DecryptMessage] derives a key outside the
    lock: if the peer's key appears after its first lookup and is replaced before it
    stores what it derived, the cache keeps the key of the old public key, and every
    later lookup answers with it. *)
Theorem decrypt_race_stale_key m d peer old new :
  sharedCache m !! peer = None -> knownKeys m !! peer = None ->
  SharedSecret (PrivateKey (mg_Keypair m)) old <> SharedSecret (PrivateKey (mg_Keypair m)) new ->
  let intr1 m := (SetPeerKey peer old m d).1.2 in
  let intr2 m := (SetPeerKey peer new m d).1.2 in
  let m' := (decryption_key intr1 intr2 peer m).2 in
  knownKeys m' !! peer = Some new /\ ~ coherent m' /\
  GetSharedKey peer m' = (Ret (SharedSecret (PrivateKey (mg_Keypair m)) old), m').
Proof.
  intros Hc Hk Hne intr1 intr2 m'.
  assert (m' = set_sharedCache
    (<[peer := SharedSecret (PrivateKey (mg_Keypair m)) old]> (sharedCache (intr2 (intr1 m))))
    (intr2 (intr1 m)) /\ mg_Keypair (intr2 (intr1 m)) = mg_Keypair m /\
    knownKeys (intr2 (intr1 m)) !! peer = Some new) as (-> & Hkp & Hkn).
  { subst m'. unfold decryption_key, GetSharedKey. rewrite Hc, Hk. unfold GetPeerKey.
    subst intr1 intr2. unfold SetPeerKey.
    repeat (destruct (saveKnownKeysLocked _ d); simpl). rewrite !lookup_insert_eq. simpl. done. }
  assert (forall c, GetSharedKey peer (set_sharedCache (<[peer := c]> (sharedCache (intr2 (intr1 m))))
    (intr2 (intr1 m))) = (Ret c, set_sharedCache (<[peer := c]> (sharedCache (intr2 (intr1 m))))
    (intr2 (intr1 m)))) as Hget.
  { intros c. unfold GetSharedKey. simpl. by rewrite lookup_insert_eq. }
  split_and!; [done | | apply Hget].
  intros Hco. destruct (Hco peer (SharedSecret (PrivateKey (mg_Keypair m)) old)) as (pub & H1 & H2).
  { simpl. by rewrite lookup_insert_eq. }
  simpl in H1, H2. rewrite Hkn in H1. injection H1 as <-. rewrite Hkp in H2. done.
Qed.

(** C39: the length of a key in a key exchange is not checked.  The handler cuts 32
    bytes from the decoded slice, which Go allows up to its capacity: a shorter key
    from the mesh is a panic when key and spare room are less than 32 bytes, and
    otherwise is stored with whatever lies behind it in memory.  An imported key is
    accepted at 32 bytes only. *)
Theorem key_exchange_unchecked spare msg m d p key hex :
  json_unmarshal (str_bytes (Payload msg)) = Some p ->
  Hex.DecodeString (kx_PublicKeyHex p) = Ret key ->
  (HandleKeyExchangeMessage spare msg m d = Panic <-> blen key + blen spare < 32) /\
  (32 <= blen key + blen spare ->
     exists m' d', HandleKeyExchangeMessage spare msg m d = Ret (m', d') /\
       knownKeys m' = <[Sender msg := take 32 (key ++ spare)]> (knownKeys m)) /\
  ((ImportKeyFromHex (Sender msg) hex m d).1.1 <> Some EInvalidKeyHex ->
     exists b, Hex.DecodeString hex = Ret b /\ blen b = 32).
Proof.
  intros Hp Hk. unfold HandleKeyExchangeMessage. rewrite Hp, Hk. unfold slice_to. rewrite blen_app.
  pose proof (blen_nonneg key). pose proof (blen_nonneg spare). split_and!.
  - case_decide as Hd; cbn [mbind outcome_bind]; [| split; [lia | done]].
    destruct (SetPeerKey _ _ m d) as [[] ?]. split; [done | lia].
  - intros Hlen. rewrite decide_True by lia. cbn [mbind outcome_bind].
    change (Z.to_nat 32) with 32%nat.
    rewrite copy32_id by (rewrite length_take, length_app; unfold blen in *; lia).
    destruct (SetPeerKey (Sender msg) (take 32 (key ++ spare)) m d) as [[e m'] d'] eqn:E.
    exists m', d'. split; [done |]. unfold SetPeerKey in E.
    destruct (saveKnownKeysLocked _ d). by injection E as <- <- <-.
  - unfold ImportKeyFromHex, decode32. destruct (Hex.DecodeString hex) as [b| |]; [| done..].
    destruct (Z.eqb_spec (blen b) 32); [eauto | done].
Qed.

(** C27: keys survive a restart.  The key pair that was loaded or created is the one
    loaded next time, whatever entropy is offered; and a manager whose key table, for
    peers named in UTF-8, was saved without error reads back the same table. *)
Theorem keys_persist `{!NaClLaw} dataDir e1 e2 kp d d' m err :
  unreadable d = ∅ -> keys_32 m -> (forall p, is_Some (knownKeys m !! p) -> utf8 p) ->
  (LoadOrCreateKeypair dataDir e1 d = (Ret kp, d') ->
   LoadOrCreateKeypair dataDir e2 d' = (Ret kp, d')) /\
  (saveKnownKeysLocked m d = (err, d') -> err = None ->
   LoadKnownKeys d' (mkManager (mg_Keypair m) ∅ ∅ (knownKeysPath m))
   = (None, mkManager (mg_Keypair m) (knownKeys m) ∅ (knownKeysPath m))).
Proof.
  intros Hu Hm Hp. split.
  - unfold LoadOrCreateKeypair. set (path := Join _ "keypair.json").
    destruct (LoadKeypair path d) as [kp0|[]|] eqn:El; try done; [by intros [= <- <-]; rewrite El |].
    destruct (GenerateKeypair e1) as [kp1| |] eqn:Eg; [| done..].
    apply GenerateKeypair_inv in Eg as (e' & ->).
    unfold SaveKeypair. destruct (mkdir_ok d); [| done]. cbn [negb].
    set (data := mkKeypairFile _ _). destruct (json_roundtrip data (keypair_json_ok _ _)) as (b & Hb & Hub).
    rewrite Hb. unfold WriteFile. destruct (write_fault d); [done |]. intros [= <- <-].
    unfold LoadKeypair, ReadFile. cbn [files set_files unreadable]. rewrite lookup_insert_eq, Hu.
    rewrite bool_decide_eq_false_2 by set_solver. rewrite Hub. subst data. simpl.
    destruct (key_lengths e') as [H1 H2]. by rewrite !decode32_encode.
  - unfold saveKnownKeysLocked. destruct (mkdir_ok d); [| by intros [= <- <-]]. cbn [negb].
    set (data := mkKnownKeysFile _). destruct (json_roundtrip data (known_json_ok _ Hp)) as (b & Hb & Hub).
    rewrite Hb. unfold WriteFile. destruct (write_fault d); intros [= <- <-]; [done |]. intros _.
    unfold LoadKnownKeys, ReadFile. cbn [files set_files unreadable knownKeysPath]. rewrite lookup_insert_eq, Hu.
    rewrite bool_decide_eq_false_2 by set_solver. rewrite Hub. simpl.
    by rewrite load_entries.
Qed.
End Properties.

(** ** The laws can hold *)

Lemma toy_xor_comm a b : toy_xor a b = toy_xor b a.
Proof.
  unfold toy_xor. revert b. induction a as [|x a IH]; intros [|y b]; simpl; [done.. |].
  by rewrite Z.lxor_comm, IH.
Qed.

Lemma map_Forall_singleton_2 {A} (P : string -> A -> Prop) i (x : A) :
  P i x -> map_Forall P ({[i := x]} : gmap string A).
Proof. by intros; apply map_Forall_singleton. Qed.

Lemma toy_law : @NaClLaw toy_box.
Proof.
  split; simpl.
  - intros text nonce key. rewrite take_app_length, bool_decide_eq_true_2 by done.
    by rewrite drop_app_length.
  - intros e1 e2. apply toy_xor_comm.
  - intros e. by rewrite copy32_length.
Qed.

Lemma e2e_roundtrip_witness :
  let N := toy_box in
  exists sealed ma' mb',
    EncryptMessage (replicate 24 "n"%char) sample_text
      (sample_manager "a" "B" (PublicKey (sample_keypair "b"))) = (Ret sealed, ma') /\
    DecryptMessage id id sealed (sample_manager "b" "A" (PublicKey (sample_keypair "a")))
    = (Ret (set_crypto "hello" EmptyString EmptyString sample_text), mb').
Proof.
  intros N.
  destruct (@e2e_roundtrip toy_box toy_law (noise "a") (noise "b")
    (@sample_manager toy_box "a" "B" (PublicKey (@sample_keypair toy_box "b")))
    (@sample_manager toy_box "b" "A" (PublicKey (@sample_keypair toy_box "a")))
    (replicate 24 "n"%char) sample_text eq_refl eq_refl eq_refl eq_refl
    (sample_coherent _ _ _) (sample_coherent _ _ _) eq_refl ltac:(discriminate) ltac:(discriminate))
    as (sealed & ma' & mb' & H1 & _ & _ & H2).
  exists sealed, ma', mb'. split; [exact H1 | exact H2].
Defined.

Lemma cache_coherence_witness :
  let N := toy_box in
  let m := sample_manager "a" "B" (copy32 []) in
  coherent (EncryptMessage (replicate 24 "n"%char) sample_text m).2 /\
  coherent (DecryptMessage id id sample_text m).2.
Proof.
  intros N m.
  destruct (proj2 (@cache_coherence toy_box m sample_disk "B" [] "00"
    (replicate 24 "n"%char) [] sample_text) (sample_coherent _ _ _)) as (_ & _ & _ & _ & H1 & H2 & _).
  split; [exact H1 |]. apply H2. split; [done |]. intros m' Hm'. split_and!; done.
Defined.

Lemma decrypt_race_stale_key_witness :
  let N := toy_box in
  let m := sample_manager "a" "B" [] in
  let old := copy32 (str_bytes "x") in
  let new := copy32 (str_bytes "y") in
  ~ coherent (decryption_key (fun m => (SetPeerKey "C" old m sample_disk).1.2)
                             (fun m => (SetPeerKey "C" new m sample_disk).1.2) "C" m).2.
Proof.
  intros N m old new.
  exact (proj1 (proj2 (@decrypt_race_stale_key toy_box m sample_disk "C" old new eq_refl eq_refl
    ltac:(vm_compute; discriminate)))).
Defined.

(** The same message with no room behind the key, and with what the hexadecimal text
    it was decoded in place from leaves there. *)
Lemma key_exchange_unchecked_witness :
  let N := toy_box in
  let msg := set_crypto (marshal_string (mkKeyExchangePayload "00ff" "eve" 0)) EmptyString EmptyString sample_text in
  HandleKeyExchangeMessage [] msg (sample_manager "a" "B" []) sample_disk = Panic /\
  exists m' d', HandleKeyExchangeMessage (replicate 30 "0"%char) msg (sample_manager "a" "B" []) sample_disk
    = Ret (m', d').
Proof.
  intros N msg.
  pose proof (fun spare => key_exchange_unchecked spare msg (sample_manager "a" "B" []) sample_disk
    (mkKeyExchangePayload "00ff" "eve" 0) [z2b 0; z2b 255] "00" ltac:(vm_compute; reflexivity) eq_refl) as H.
  split; [apply (proj1 (H [])); reflexivity |].
  destruct (proj1 (proj2 (H (replicate 30 "0"%char)))) as (m' & d' & Hr & _); [by vm_compute |].
  exists m', d'. exact Hr.
Defined.

Lemma keys_persist_witness :
  let N := toy_box in
  let r := LoadOrCreateKeypair "/home/u" (noise "a") sample_disk in
  LoadOrCreateKeypair "/home/u" (noise "b") r.2 = (Ret (sample_keypair "a"), r.2).
Proof.
  intros N r.
  refine (proj1 (@keys_persist toy_box toy_law "/home/u" (noise "a") (noise "b")
    (@sample_keypair toy_box "a") sample_disk r.2 (sample_manager "a" "B" (copy32 [])) None eq_refl
    _ _) _).
  - exact (map_Forall_singleton_2 (fun _ k => length k = 32%nat) "B" (copy32 []) (copy32_length [])).
  - intros p [k Hk]. simpl in Hk. apply lookup_singleton_Some in Hk as [<- _]. reflexivity.
  - vm_compute. reflexivity.
Defined.
