(* ===== verification/Identity.v ===== *)
(** * Node identities (pkg/identity: identity.go and mnemonic.go)

    Generating, saving and loading the node's key pair, and its backup phrase.  The
    keys are libp2p's and the phrase is go-bip39's: an interface with the operations
    the code calls and what it relies on of them.  The disk is that of [Crypto], the
    file's format that of [Pem]. *)

From S2P Require Import Prelude Float64 Json GoJson FileTransfer Pem Crypto FileTransferSpec CryptoSpec.

(** ** Keys *)

Class Keys : Type := {
  PrivKey : Type;
  PubKey : Type;
  (* crypto.GenerateEd25519Key, from the reader's bytes *)
  GenerateEd25519Key : bytes -> option (PrivKey * PubKey);
  Raw : PrivKey -> option bytes;
  UnmarshalEd25519PrivateKey : bytes -> option PrivKey;
  GetPublic : PrivKey -> PubKey;
  IDFromPublicKey : PubKey -> option string;
  Sign : PrivKey -> bytes -> option bytes;
  VerifySignature : PubKey -> bytes -> bytes -> option bool;
  (* ed25519.NewKeyFromSeed(seed).Public() *)
  public_of_seed : bytes -> bytes;
  (* bip39 *)
  NewMnemonic : bytes -> option string;
  EntropyFromMnemonic : string -> option bytes
}.

Class KeysLaw {K : Keys} : Prop := {
  (* a generated key is 64 bytes, its seed and then its public key *)
  generated : forall e k pub, GenerateEd25519Key e = Some (k, pub) ->
    GetPublic k = pub /\
    exists seed, length seed = 32%nat /\ Raw k = Some (seed ++ public_of_seed seed);
  unmarshal_raw : forall k raw, Raw k = Some raw -> UnmarshalEd25519PrivateKey raw = Some k;
  sign_verify : forall k msg, exists sig, Sign k msg = Some sig /\
    VerifySignature (GetPublic k) msg sig = Some true;
  (* 32 bytes have a phrase, without blanks around it, that gives them back *)
  mnemonic : forall seed, length seed = 32%nat ->
    exists phrase, NewMnemonic seed = Some phrase /\ phrase <> EmptyString /\
      bytes_str (TrimSpace (str_bytes phrase)) = phrase /\ EntropyFromMnemonic phrase = Some seed
}.

Record Identity {K : Keys} := mkIdentity { id_PrivKey : PrivKey; id_PubKey : PubKey; id_PeerID : string }.

Inductive IdentityError :=
| EGenerate | EDeriveID | ErrNoIdentity | EReadIdentity | EInvalidPEM | EUnmarshalKey
| ERaw | EIdentityDir | EWriteIdentity | EShortKey | EEncodeMnemonic | ErrInvalidMnemonic.

Definition SeedSize : nat := 32.

Section Identity.
Context {K : Keys}.

(** ** Operations *)

(** [IDFromPublicKey], and the struct. *)
Definition derive (priv : PrivKey) (pub : PubKey) : outcome IdentityError Identity :=
  match IDFromPublicKey pub with
  | Some pid => Ret (mkIdentity _ priv pub pid)
  | None => Fail EDeriveID
  end.

Definition Generate (entropy : bytes) : outcome IdentityError Identity :=
  match GenerateEd25519Key entropy with
  | Some (priv, pub) => derive priv pub
  | None => Fail EGenerate
  end.

Definition Load (path : string) (d : Disk) : outcome IdentityError Identity :=
  match ReadFile path d with
  | NotExist => Fail ErrNoIdentity
  | ReadError => Fail EReadIdentity
  | Content data =>
      match Decode data with
      | Some (type, content) =>
          if bool_decide (type = ripple_type) then
            match UnmarshalEd25519PrivateKey content with
            | Some priv => derive priv (GetPublic priv)
            | None => Fail EUnmarshalKey
            end
          else Fail EInvalidPEM
      | None => Fail EInvalidPEM
      end
  end.

Definition Save (path : string) (id : Identity) (d : Disk) : outcome IdentityError unit * Disk :=
  match Raw (id_PrivKey id) with
  | None => (Fail ERaw, d)
  | Some raw =>
      if negb (mkdir_ok d) then (Fail EIdentityDir, d)
      else
        match WriteFile path (EncodeToMemory ripple_type raw) d with
        | (true, d) => (Ret tt, d)
        | (false, d) => (Fail EWriteIdentity, d)
        end
  end.

Definition LoadOrCreate (path : string) (entropy : bytes) (d : Disk)
    : outcome IdentityError Identity * Disk :=
  match Load path d with
  | Fail ErrNoIdentity =>
      match Generate entropy with
      | Ret id =>
          match Save path id d with
          | (Ret _, d) => (Ret id, d)
          | (Fail e, d) => (Fail e, d)
          | (Panic, d) => (Panic, d)
          end
      | other => (other, d)
      end
  | other => (other, d)
  end.

Definition Verify (id : Identity) : bool :=
  let msg := str_bytes "ripple-identity-verify" in
  match Sign (id_PrivKey id) msg with
  | None => false
  | Some sig => match VerifySignature (id_PubKey id) msg sig with Some ok => ok | None => false end
  end.

Definition ShortID (pid_String : string -> string) (id : Identity) : string :=
  bytes_str (take 8 (str_bytes (pid_String (id_PeerID id)))).

(** ** The backup phrase *)

Definition Seed (id : Identity) : outcome IdentityError bytes :=
  match Raw (id_PrivKey id) with
  | None => Fail ERaw
  | Some raw => if bool_decide (length raw < SeedSize)%nat then Fail EShortKey else Ret (take SeedSize raw)
  end.

Definition ExportMnemonic (id : Identity) : outcome IdentityError string :=
  seed ← Seed id;
  match NewMnemonic seed with
  | Some phrase => Ret phrase
  | None => Fail EEncodeMnemonic
  end.

Definition trimmed (phrase : string) : string := bytes_str (TrimSpace (str_bytes phrase)).

Definition FromMnemonic (phrase : string) : outcome IdentityError Identity :=
  match EntropyFromMnemonic (trimmed phrase) with
  | None => Fail ErrInvalidMnemonic
  | Some entropy =>
      if negb (bool_decide (length entropy = SeedSize)) then Fail ErrInvalidMnemonic
      else
        match UnmarshalEd25519PrivateKey (entropy ++ public_of_seed entropy) with
        | None => Fail EUnmarshalKey
        | Some priv => derive priv (GetPublic priv)
        end
  end.

Definition IsValidMnemonic (phrase : string) : bool :=
  match EntropyFromMnemonic (trimmed phrase) with
  | Some entropy => bool_decide (length entropy = SeedSize)
  | None => false
  end.

End Identity.

(** Keys for the examples: the public half is the seed reversed, the phrase is the
    seed in hexadecimal between two letters. *)
Definition toy_keys : Keys := {|
  PrivKey := bytes;
  PubKey := bytes;
  GenerateEd25519Key e := Some (copy32 e ++ rev (copy32 e), rev (copy32 e));
  Raw k := Some k;
  UnmarshalEd25519PrivateKey raw := Some raw;
  GetPublic k := drop 32 k;
  IDFromPublicKey pub := Some (Hex.EncodeToString pub);
  Sign k msg := Some (drop 32 k ++ msg);
  VerifySignature pub msg sig := Some (bool_decide (sig = pub ++ msg));
  public_of_seed seed := rev seed;
  NewMnemonic seed := Some (bytes_str ("a"%char :: Hex.encode_bytes seed ++ ["z"%char]));
  EntropyFromMnemonic p :=
    let b := drop 1 (str_bytes p) in
    match Hex.decode_bytes (take (length b - 1) b) with Ret e => Some e | _ => None end
|}.

(** ** The properties *)

Section Properties.
Context {K : Keys} `{!KeysLaw}.

Lemma Generate_inv e id : Generate e = Ret id ->
  exists seed, length seed = SeedSize /\ Raw (id_PrivKey id) = Some (seed ++ public_of_seed seed) /\
    id_PubKey id = GetPublic (id_PrivKey id) /\ derive (id_PrivKey id) (id_PubKey id) = Ret id.
Proof.
  unfold Generate, derive. destruct (GenerateEd25519Key e) as [[k pub]|] eqn:Hg; [| done].
  destruct (IDFromPublicKey pub) as [pid|] eqn:Hid; [| done]. intros [= <-].
  destruct (generated _ _ _ Hg) as [Hpub (seed & Hlen & Hraw)].
  exists seed. cbn. rewrite Hid. by split_and!.
Qed.

(** A generated identity signs verifiably; saved, it is loaded as the same
    identity, and from then on [LoadOrCreate] returns it and leaves the disk alone;
    its backup phrase is valid and recreates it. *)
Lemma identity_persists path e id d d' e2 :
  Generate e = Ret id -> Save path id d = (Ret tt, d') -> path ∉ unreadable d ->
  Verify id = true /\
  Load path d' = Ret id /\ LoadOrCreate path e2 d' = (Ret id, d') /\
  exists phrase, ExportMnemonic id = Ret phrase /\ phrase <> EmptyString /\
    IsValidMnemonic phrase = true /\ FromMnemonic phrase = Ret id.
Proof.
  intros Hg Hs Hr. destruct (Generate_inv _ _ Hg) as (seed & Hlen & Hraw & Hpub & Hder).
  assert (Load path d' = Ret id) as HL.
  { unfold Save in Hs. rewrite Hraw in Hs. destruct (mkdir_ok d); [| done].
    unfold WriteFile in Hs. destruct (write_fault d); [done |]. cbn [negb] in Hs.
    injection Hs as <-. unfold Load, ReadFile. cbn [Crypto.files set_files].
    rewrite lookup_insert_eq. cbn [unreadable set_files]. rewrite bool_decide_false by done.
    rewrite pem_roundtrip by (by destruct seed). rewrite bool_decide_true by done.
    rewrite (unmarshal_raw _ _ Hraw). by rewrite <- Hpub. }
  split_and!.
  - unfold Verify. destruct (sign_verify (id_PrivKey id) (str_bytes "ripple-identity-verify")) as (sig & -> & Hv).
    by rewrite Hpub, Hv.
  - done.
  - unfold LoadOrCreate. by rewrite HL.
  - destruct (mnemonic seed Hlen) as (phrase & Hnew & Hne & Htrim & Hent). exists phrase.
    unfold ExportMnemonic, Seed, IsValidMnemonic, FromMnemonic, trimmed.
    rewrite Hraw, Htrim, Hent, (bool_decide_true (length seed = SeedSize)) by done. cbn [negb].
    rewrite (unmarshal_raw _ _ Hraw), <- Hpub, bool_decide_false by (rewrite length_app; lia).
    rewrite <- Hlen, take_app_length. cbn. by rewrite Hnew.
Qed.

Lemma Save_ok path e id d : Generate e = Ret id -> mkdir_ok d = true -> write_fault d = None ->
  exists d', Save path id d = (Ret tt, d').
Proof.
  intros Hg Hm Hw. destruct (Generate_inv _ _ Hg) as (seed & _ & Hraw & _).
  unfold Save, WriteFile. rewrite Hraw, Hm, Hw. by eexists.
Qed.

End Properties.

Lemma TrimSpace_word x : TrimSpace ("a"%char :: x ++ ["z"%char]) = "a"%char :: x ++ ["z"%char].
Proof.
  unfold TrimSpace. rewrite (trim_front_stop _ space_seqs) by reflexivity.
  rewrite trim_front_stop; [apply rev_involutive |]. cbn [rev]. rewrite rev_app_distr. reflexivity.
Qed.

Lemma toy_keys_law : @KeysLaw toy_keys.
Proof.
  constructor.
  - cbn. intros e k pub [= <- <-]. rewrite drop_app_length' by by rewrite copy32_length.
    split; [done |]. exists (copy32 e). split; [by rewrite copy32_length | done].
  - by intros k raw [= ->].
  - cbn. intros k msg. eexists. split; [reflexivity |]. by rewrite bool_decide_true.
  - intros seed _. exists (bytes_str ("a"%char :: Hex.encode_bytes seed ++ ["z"%char])).
    split; [done |]. split; [discriminate |]. unfold EntropyFromMnemonic, toy_keys. rewrite !str_bytes_str, TrimSpace_word.
    split; [done |]. cbv zeta. cbn [drop]. rewrite drop_0. rewrite length_app. cbn [length].
    rewrite take_app_length' by lia. by rewrite Hex.decode_encode_bytes.
Qed.
