(* ===== verification/Mesh.v ===== *)
(** * The mesh node (pkg/mesh/mesh.go)

    One node's state, and its handlers in a state monad: [None] is a run-time panic.
    Whatever a handler asks of its surroundings (the clock, entropy, whether a
    stream or a publication succeeded, the order in which a map is visited) comes
    from an environment, indexed by the number of questions asked so far.  What it
    does to them is appended to a trace.  Messages live in a shared heap: the relay
    goroutine and the application callback hold the pointer the handler holds.

    A [peer.ID] is a Go string; libp2p's conversions to and from its printed form
    are parameters. *)

From S2P Require Import Prelude Float64 Json Message Heap Routing.

(** ** State *)

Abbreviation peerID := string.

Definition ProtocolID : string := "/ripple/chat/1.0.0".
Definition PubSubTopic : string := "ripple-mesh-v1".

Inductive RelayAction := RelayReceived | RelayForwarded | RelayDropped | RelaySent.

#[global] Instance RelayAction_eq_dec : EqDecision RelayAction.
Proof. solve_decision. Defined.

Record RelayEvent := mkRelayEvent {
  re_MessageID : string;
  re_Type : MessageType;
  re_Action : RelayAction;
  re_From : string;
  re_Hops : Z;
  re_TTL : Z;
  re_Copies : Z;
  re_Timestamp : Z
}.

(** The maps of the code that only ever hold [true] are sets here.  [Topic] says
    whether [Start] has joined the topic; [OnMessage] is what the application
    callback does to the message object it is given. *)
Record Node := mkNode {
  HostID : peerID;
  Topic : bool;
  n_peers : gset peerID;
  OnMessage : option (Message -> Message);
  OnPeerJoin : bool;
  OnPeerLeave : bool;
  OnRelay : bool;
  n_Forwarder : option Forwarder;
  seen : gset string;
  encounters : gmap string EncounterStat;
  sprayed : gmap string (gset string);
  n_SprayBudget : Z
}.

Definition set_peers (x : gset peerID) (n : Node) : Node :=
  mkNode (HostID n) (Topic n) x (OnMessage n) (OnPeerJoin n) (OnPeerLeave n) (OnRelay n)
    (n_Forwarder n) (seen n) (encounters n) (sprayed n) (n_SprayBudget n).
Definition set_seen (x : gset string) (n : Node) : Node :=
  mkNode (HostID n) (Topic n) (n_peers n) (OnMessage n) (OnPeerJoin n) (OnPeerLeave n)
    (OnRelay n) (n_Forwarder n) x (encounters n) (sprayed n) (n_SprayBudget n).
Definition set_encounters (x : gmap string EncounterStat) (n : Node) : Node :=
  mkNode (HostID n) (Topic n) (n_peers n) (OnMessage n) (OnPeerJoin n) (OnPeerLeave n)
    (OnRelay n) (n_Forwarder n) (seen n) x (sprayed n) (n_SprayBudget n).
Definition set_sprayed (x : gmap string (gset string)) (n : Node) : Node :=
  mkNode (HostID n) (Topic n) (n_peers n) (OnMessage n) (OnPeerJoin n) (OnPeerLeave n)
    (OnRelay n) (n_Forwarder n) (seen n) (encounters n) x (n_SprayBudget n).
Definition set_Topic (x : bool) (n : Node) : Node :=
  mkNode (HostID n) x (n_peers n) (OnMessage n) (OnPeerJoin n) (OnPeerLeave n)
    (OnRelay n) (n_Forwarder n) (seen n) (encounters n) (sprayed n) (n_SprayBudget n).

(** [WithSprayBudget]. *)
Definition WithSprayBudget (L : Z) (n : Node) : Node :=
  let '(budget, fw) := if L <=? 0 then (0, None) else (L, Some (SprayAndWait L)) in
  mkNode (HostID n) (Topic n) (n_peers n) (OnMessage n) (OnPeerJoin n) (OnPeerLeave n)
    (OnRelay n) fw (seen n) (encounters n) (sprayed n) budget.

(** The node [NewNode] builds, after its options, before [Start]. *)
Definition NewNode (pid : peerID) (opts : list (Node -> Node)) : Node :=
  foldl (fun n opt => opt n)
    (mkNode pid false ∅ None false false false None ∅ ∅ ∅ 0) opts.

(** What the node does to its surroundings: the relay callback, the peer callbacks,
    the message callback (with the message it is given), a stream opened to a peer
    and a publication on the topic, each with its data and outcome. *)
Inductive Event :=
| EvRelay (e : RelayEvent)
| EvPeerJoin (p : peerID)
| EvPeerLeave (p : peerID)
| EvMessage (m : Message)
| EvSend (p : peerID) (data : bytes) (ok : bool)
| EvPublish (data : bytes) (ok : bool).

(** [tasks]: the relay goroutines that have not run yet. *)
Record World := mkWorld {
  node : Node;
  hp : heap;
  tasks : list loc;
  trace : list Event;
  step : nat
}.

Record Env := mkEnv {
  clock : nat -> Z;        (* time.Now().UnixNano() *)
  entropy : nat -> bytes;
  net : nat -> bool;       (* whether a stream or a publication succeeds *)
  range : nat -> gset peerID -> list peerID;
  sched : nat -> bool      (* whether a goroutine runs before its creator goes on *)
}.

(** ** The monad *)

Definition M (A : Type) : Type := World -> option (A * World).

#[global] Instance M_ret : MRet M := fun A a w => Some (a, w).
#[global] Instance M_bind : MBind M := fun A B k m w =>
  match m w with
  | Some (a, w') => k a w'
  | None => None
  end.

Definition panic {A} : M A := fun _ => None.
Definition get : M Node := fun w => Some (node w, w).
Definition update (f : Node -> Node) : M unit :=
  fun w => Some (tt, mkWorld (f (node w)) (hp w) (tasks w) (trace w) (step w)).
Definition emit (e : Event) : M unit :=
  fun w => Some (tt, mkWorld (node w) (hp w) (tasks w) (trace w ++ [e]) (step w)).
(** One question to the environment. *)
Definition ask {A} (f : nat -> A) : M A :=
  fun w => Some (f (step w), mkWorld (node w) (hp w) (tasks w) (trace w) (S (step w))).
(** The object behind a pointer, read and written. *)
Definition read (l : loc) : M Message := fun w => m ← hp w !! l; Some (m, w).
Definition write (l : loc) (f : Message -> Message) : M unit :=
  fun w => Some (tt, mkWorld (node w) (modify f l (hp w)) (tasks w) (trace w) (step w)).
Definition new (m : Message) : M loc :=
  fun w => let '(l, h) := alloc m (hp w) in
           Some (l, mkWorld (node w) h (tasks w) (trace w) (step w)).
Definition spawn (l : loc) : M unit :=
  fun w => Some (tt, mkWorld (node w) (hp w) (tasks w ++ [l]) (trace w) (step w)).

Definition when (b : bool) (m : M unit) : M unit := if b then m else mret tt.

(** ** Operations *)

Inductive SendError := ESerialize | ENet.

Section Mesh.
Context `{!JSON Message, !JSON DeliveryInfo}.
Context (pid_String : peerID -> string) (peer_Decode : string -> option peerID).
Context (E : Env).

(** [time.Now().Unix()]. *)
Definition unix (now : Z) : Z := now / 10 ^ 9.

Definition emitRelay (evt : RelayEvent) : M unit :=
  n ← get; when (OnRelay n) (emit (EvRelay evt)).

(** The event literals of the code: action, origin and hops vary. *)
Definition relay (action : RelayAction) (from : string) (hops : Z) (m : Message) : M unit :=
  t ← ask (clock E);
  emitRelay (mkRelayEvent (ID m) (MType m) action from hops (TTL m) (CopiesMade m) t).

Definition addPeer (pid : peerID) : M unit :=
  n ← get;
  when (bool_decide (pid ∉ n_peers n))
    (update (fun n => set_peers ({[pid]} ∪ n_peers n) n);;
     when (OnPeerJoin n) (emit (EvPeerJoin pid))).

Definition removePeer (pid : peerID) : M unit :=
  n ← get;
  update (fun n => set_peers (n_peers n ∖ {[pid]}) n);;
  when (OnPeerLeave n) (emit (EvPeerLeave pid)).

Definition KnownPeers : M (list peerID) := n ← get; ask (fun k => range E k (n_peers n)).

(** [sort.Slice] by printed identifier. *)
Definition String_le (p q : peerID) : Prop := String.leb (pid_String p) (pid_String q) = true.
#[export] Instance String_le_dec : RelDecision String_le.
Proof. intros p q. unfold String_le. apply _. Defined.

(** The condition of the [continue]. *)
Definition skip (me from : string) (p : peerID) : Prop :=
  pid_String p = me \/ (from <> EmptyString /\ pid_String p = from).
#[export] Instance skip_dec me from p : Decision (skip me from p).
Proof. unfold skip. apply _. Defined.

Definition routingCandidates (from : string) : M (list peerID) :=
  ps ← KnownPeers;
  n ← get;
  mret (merge_sort String_le (filter (fun p => ~ skip (pid_String (HostID n)) from p) ps)).

Definition markSprayed (msgID peer : string) : M unit :=
  update (fun n => set_sprayed
    (<[msgID := {[peer]} ∪ default ∅ (sprayed n !! msgID)]> (sprayed n)) n).

Definition recordEncounter (peerID : string) (now : Z) : M unit :=
  n ← get;
  let stat := default (newStat peerID) (encounters n !! peerID) in
  let stat := AgePredictability (Aging now stat) stat in
  let stat := RecordEncounter now [] stat in
  update (fun n => set_encounters (<[peerID := stat]> (encounters n)) n).

Definition statForDestinationLocked (dst : string) (now : Z) : M EncounterStat :=
  n ← get;
  mret match encounters n !! dst with
       | None => newStat dst
       | Some stat => AgePredictability (Aging now stat) stat
       end.

(** A new stream, and a write on it. *)
Definition sendDirect (pid : peerID) (data : bytes) : M bool :=
  ok ← ask (net E);
  emit (EvSend pid data ok);;
  mret ok.

Definition sendCopy (pid : peerID) (l : loc) : M unit :=
  m ← read l;
  match Serialize m with
  | None => mret tt
  | Some data => sendDirect pid data;; mret tt
  end.

(** The body of the [ActionSpray] and [ActionDeliver]/[ActionHandoff] cases. *)
Definition hand_copy (pid : peerID) (l : loc) (from : string) : M unit :=
  m ← read l;
  markSprayed (ID m) (pid_String pid);;
  relay RelayForwarded from (HopCount m) m;;
  sendCopy pid l.

Definition with_copies (st : MessageState) (c : Z) : MessageState :=
  mkState (st_ID st) (st_Src st) (st_Dst st) (st_Kind st) (st_CreatedAt st) (st_TTL st)
    c (st_DeliveredAt st).

Fixpoint route_loop (f : Forwarder) (me : string) (l : loc) (from : string)
    (state : MessageState) (myStat : EncounterStat) (pids : list peerID) : M unit :=
  match pids with
  | [] => mret tt
  | pid :: pids =>
      let peerStr := pid_String pid in
      m ← read l;
      n ← get;
      let peerHoldsCopy := bool_decide (peerStr ∈ default ∅ (sprayed n !! ID m)) in
      match Decide state me peerStr myStat zeroStat peerHoldsCopy with
      | ActionSpray =>
          let state := with_copies state (wrap64 (st_CopiesMade state + 1)) in
          write l (set_CopiesMade (st_CopiesMade state));;
          hand_copy pid l from;;
          route_loop f me l from state myStat pids
      | ActionDeliver | ActionHandoff =>
          hand_copy pid l from;;
          route_loop f me l from state myStat pids
      | ActionKeep | ActionDup => route_loop f me l from state myStat pids
      end
  end.

Definition routeToPeers (l : loc) (from : string) : M unit :=
  n ← get;
  let f := default (SprayAndWait (n_SprayBudget n)) (n_Forwarder n) in
  m ← read l;
  let me := pid_String (HostID n) in
  let state := mkState (ID m) (Sender m) (Recipient m) KindChat 0 (TTL m) (CopiesMade m) 0 in
  now ← ask (clock E);
  myStat ← statForDestinationLocked (Recipient m) (unix now);
  cands ← routingCandidates from;
  route_loop f me l from state myStat cands.

(** [Publish] on the topic; the nil topic of a node not started panics. *)
Definition topicPublish (data : bytes) : M bool :=
  n ← get;
  if Topic n then ok ← ask (net E); emit (EvPublish data ok);; mret ok else panic.

(** The body of the relay goroutine: it reads the message when it runs. *)
Definition relay_task (l : loc) : M unit :=
  n ← get;
  when (Topic n)
    (m ← read l;
     topicPublish (default [] (Serialize m));; mret tt).

(** The scheduler may run the goroutine at once or leave it for later. *)
Definition forwardMessage (l : loc) (from : string) : M unit :=
  n ← get;
  m ← read l;
  if (0 <? n_SprayBudget n) && negb (bool_decide (Recipient m = EmptyString))
  then routeToPeers l from
  else
    relay RelayForwarded from (HopCount m) m;;
    at_once ← ask (sched E);
    if (at_once : bool) then relay_task l else spawn l.

(** The [k]-th queued relay goroutine runs to its end. *)
Definition runTask (k : nat) : M unit := fun w =>
  match tasks w !! k with
  | None => None
  | Some l =>
      relay_task l
        (mkWorld (node w) (hp w) (list_delete k (tasks w)) (trace w) (step w))
  end.

Definition Publish (l : loc) : M (option SendError) :=
  m ← read l;
  match Serialize m with
  | None => mret (Some ESerialize)
  | Some data => ok ← topicPublish data; mret (if (ok : bool) then None else Some ENet)
  end.

Definition SendMessage (l : loc) : M (option SendError) :=
  m ← read l;
  n ← get;
  match Serialize m with
  | None => mret (Some ESerialize)
  | Some data =>
      if negb (bool_decide (Recipient m = EmptyString)) && (0 <? n_SprayBudget n) then
        when (CopiesMade m <? 1) (write l (set_CopiesMade 1));;
        m ← read l;
        relay RelaySent EmptyString 0 m;;
        routeToPeers l EmptyString;;
        mret None
      else
        relay RelaySent EmptyString 0 m;;
        if negb (bool_decide (Recipient m = EmptyString)) then
          match peer_Decode (Recipient m) with
          | Some recipientPID =>
              ok ← sendDirect recipientPID data;
              if (ok : bool) then mret None else Publish l
          | None => Publish l
          end
        else Publish l
  end.

(** The auto-acknowledgement at the end of [deliverMessage]. *)
Definition ackable (host : string) (m : Message) : bool :=
  bool_decide (Recipient m = host) && negb (bool_decide (Sender m = host)) &&
  (bool_decide (MType m = TypeChat) || bool_decide (MType m = TypeFile) ||
   bool_decide (MType m = TypeSOS)).

Definition autoAck (l : loc) : M unit :=
  m ← read l;
  n ← get;
  let host := pid_String (HostID n) in
  when (ackable host m)
    (e ← ask (entropy E);
     t1 ← ask (clock E);
     t2 ← ask (clock E);
     let ack := NewDeliveryAck e t1 t2 host (ID m) (Sender m) DeliveryReceived 0 EmptyString in
     a ← new (set_TTL 8 ack);
     SendMessage a;;
     mret tt).

(** [senderErr != nil || senderPID != n.Host.ID()]. *)
Definition notOurs (host : peerID) (m : Message) : bool :=
  match peer_Decode (Sender m) with
  | Some p => negb (bool_decide (p = host))
  | None => true
  end.

Definition learnSender (m : Message) : M unit :=
  n ← get;
  match peer_Decode (Sender m) with
  | Some p => when (negb (bool_decide (p = HostID n))) (addPeer p)
  | None => mret tt
  end.

Definition relayOnward (l : loc) (from : string) : M unit :=
  n ← get;
  m ← read l;
  if (0 <? TTL m) && notOurs (HostID n) m then
    write l DecrementTTL;;
    forwardMessage l from
  else when ((TTL m <=? 0) && notOurs (HostID n) m)
         (relay RelayDropped from (HopCount m) m).

Definition deliverMessage (l : loc) (from : string) : M unit :=
  m ← read l;
  n ← get;
  if bool_decide (ID m ∈ seen n) then relay RelayDropped from (HopCount m) m
  else
    update (fun n => set_seen ({[ID m]} ∪ seen n) n);;
    when (negb (bool_decide (from = EmptyString)))
      (now ← ask (clock E); recordEncounter from (unix now));;
    relay RelayReceived from (HopCount m) m;;
    learnSender m;;
    relayOnward l from;;
    match OnMessage n with
    | Some callback =>
        m ← read l;
        emit (EvMessage m);;
        write l callback
    | None => mret tt
    end;;
    autoAck l.

(** ** The entry points *)

(** An incoming stream: [data] is what [io.ReadAll] returned, unless it failed. *)
Definition handleStream (pid : peerID) (data : option bytes) : M unit :=
  addPeer pid;;
  match data with
  | None => mret tt
  | Some data =>
      match DeserializeMessage data with
      | Ret m => l ← new m; deliverMessage l (pid_String pid)
      | _ => mret tt
      end
  end.

(** One iteration of the subscription loop. *)
Definition handlePubSub (relayPeer : peerID) (data : bytes) : M unit :=
  match DeserializeMessage data with
  | Ret m => l ← new m; deliverMessage l (pid_String relayPeer)
  | _ => mret tt
  end.

(** A tick of [StartSeenCleanup]; its two critical sections. *)
Definition cleanupSeen : M unit := update (set_seen ∅).
Definition cleanupSprayed : M unit := update (set_sprayed ∅).
Definition StartSeenCleanup : M unit := cleanupSeen;; cleanupSprayed.

(** A peer found by mDNS; the dial itself runs in a goroutine and only reports
    through the connection callbacks. *)
Definition HandlePeerFound (pid : peerID) : M unit :=
  n ← get; when (negb (bool_decide (pid = HostID n))) (addPeer pid).

Inductive ConnectError := EMultiaddr | EPeerID | EConnect.

(** [target] is the identifier part of the multiaddress, when it parses. *)
Definition ConnectToPeer (target : option string) : M (option ConnectError) :=
  match target with
  | None => mret (Some EMultiaddr)
  | Some pidStr =>
      match peer_Decode pidStr with
      | None => mret (Some EPeerID)
      | Some pid =>
          ok ← ask (net E);
          if (ok : bool) then addPeer pid;; mret None else mret (Some EConnect)
      end
  end.

(** Everything that can happen to a node between two of its locks being free. *)
Inductive Input :=
| InStream (pid : peerID) (data : option bytes)
| InPubSub (relayPeer : peerID) (data : bytes)
| InLocal (m : Message)             (* the application sends *)
| InConnected (pid : peerID)
| InDisconnected (pid : peerID)
| InPeerFound (pid : peerID)
| InTask (k : nat)
| InCleanup.

Definition handle (i : Input) : M unit :=
  match i with
  | InStream pid data => handleStream pid data
  | InPubSub p data => handlePubSub p data
  | InLocal m => l ← new m; SendMessage l;; mret tt
  | InConnected pid => addPeer pid
  | InDisconnected pid => removePeer pid
  | InPeerFound pid => HandlePeerFound pid
  | InTask k => fun w => if decide (k < length (tasks w))%nat then runTask k w else Some (tt, w)
  | InCleanup => StartSeenCleanup
  end.

Fixpoint run (inputs : list Input) : M unit :=
  match inputs with
  | [] => mret tt
  | i :: inputs => handle i;; run inputs
  end.

End Mesh.
