(* ===== verification/MeshSpec.v ===== *)
(** * What a mesh node guarantees

    Total-correctness reasoning on the monad of [Mesh]: [wp m Q w] says that [m] run
    in [w] does not panic and ends in a result and a world that satisfy [Q].  A
    [frame] collects what every operation but [deliverMessage] leaves alone. *)

From S2P Require Import Prelude Float64 Json Message Heap Routing Mesh.

(** ** Weakest preconditions *)

Definition wp {A} (m : M A) (Q : A -> World -> Prop) (w : World) : Prop :=
  match m w with
  | Some (a, w') => Q a w'
  | None => False
  end.

(** ** Specification vocabulary *)

(** The settings no handler changes. *)
Definition config (n : Node) :=
  (HostID n, Topic n, OnMessage n, OnPeerJoin n, OnPeerLeave n, OnRelay n,
   n_Forwarder n, n_SprayBudget n).

(** Two states of one message object: routing metadata may differ, the identity,
    the addressing and the content may not. *)
Definition same_core (m m' : Message) : Prop :=
  ID m' = ID m /\ MType m' = MType m /\ Sender m' = Sender m /\
  Recipient m' = Recipient m /\ Payload m' = Payload m /\ Nonce m' = Nonce m.

Definition valid (w : World) : Prop := Forall (fun l => (l < length (hp w))%nat) (tasks w).

Definition wf_encounters (n : Node) : Prop := map_Forall (fun _ s => wf_stat s) (encounters n).

Definition quiet (e : Event) : Prop := match e with EvMessage _ => False | _ => True end.

Record frame (w w' : World) : Prop := mkFrame {
  fr_config : config (node w') = config (node w);
  fr_seen : seen (node w') = seen (node w);
  fr_heap : forall l m, hp w !! l = Some m ->
            exists m', hp w' !! l = Some m' /\ same_core m m';
  fr_valid : valid w -> valid w';
  fr_enc : wf_encounters (node w) -> wf_encounters (node w');
  fr_trace : exists evs, trace w' = trace w ++ evs /\ Forall quiet evs
}.

(** The streams opened, with their data, and the messages given to the application. *)
Definition sends (tr : list Event) : list (peerID * bytes) :=
  omap (fun e => match e with EvSend p d _ => Some (p, d) | _ => None end) tr.
Definition published (tr : list Event) : list bytes :=
  omap (fun e => match e with EvPublish d _ => Some d | _ => None end) tr.
Definition delivered (tr : list Event) : list Message :=
  omap (fun e => match e with EvMessage m => Some m | _ => None end) tr.
Definition relayed (a : RelayAction) (tr : list Event) : list RelayEvent :=
  omap (fun e => match e with
                 | EvRelay r => if decide (re_Action r = a) then Some r else None
                 | _ => None end) tr.

(** The copies spray-and-wait hands out: peer, and copy count on the wire. *)
Fixpoint spray_plan (str : peerID -> string) (L : Z) (dst : string) (held : gset string)
    (c : Z) (cands : list peerID) : list (peerID * Z) :=
  match cands with
  | [] => []
  | p :: ps =>
      if bool_decide (str p = dst) then (p, c) :: spray_plan str L dst ({[str p]} ∪ held) c ps
      else if bool_decide (str p ∈ held) then spray_plan str L dst held c ps
      else if c <? L then
        (p, c + 1) :: spray_plan str L dst ({[str p]} ∪ held) (c + 1) ps
      else spray_plan str L dst held c ps
  end.

(** A node, an environment and a message for the examples: identifiers print as
    themselves, every transmission succeeds. *)
Definition sample_env : Env :=
  mkEnv Z.of_nat (fun _ => str_bytes "0123456789abcdef") (fun _ => true) (fun _ X => elements X)
    (fun _ => false).
Definition sample_str (p : peerID) : string := p.
Definition sample_decode (s : string) : option peerID := Some s.
Definition sample_chat : Message :=
  set_TTL 3 (set_CopiesMade 1 (set_Recipient "D" (NewChat (str_bytes "id") 7 "S" "sue" "D" "hello"))).
Definition sample_node : Node :=
  set_Topic true (set_peers {["B"; "C"; "D"]} (WithSprayBudget 3 (NewNode "A" []))).
Definition sample_world (n : Node) : World := mkWorld n [sample_chat] [] [] 0.

(** ** The rules of [wp] *)

Lemma wp_ret {A} (a : A) (Q : A -> World -> Prop) (w : World) : Q a w -> wp (mret a) Q w.
Proof. done. Qed.

Lemma wp_bind {A B} (m : M A) (k : A -> M B) (Q : B -> World -> Prop) (w : World) :
  wp m (fun a w' => wp (k a) Q w') w -> wp (m ≫= k) Q w.
Proof. unfold wp, mbind, M_bind. by destruct (m w) as [[a w']|]. Qed.

Lemma wp_mono {A} (m : M A) (P Q : A -> World -> Prop) (w : World) :
  (forall a w', P a w' -> Q a w') -> wp m P w -> wp m Q w.
Proof. unfold wp. destruct (m w) as [[a w']|]; auto. Qed.

Lemma wp_and {A} (m : M A) (P Q : A -> World -> Prop) (w : World) :
  wp m P w -> wp m Q w -> wp m (fun a w' => P a w' /\ Q a w') w.
Proof. unfold wp. by destruct (m w) as [[a w']|]. Qed.

Lemma wp_runs {A} (m : M A) (Q : A -> World -> Prop) w :
  wp m Q w -> exists a w', m w = Some (a, w') /\ Q a w'.
Proof. unfold wp. destruct (m w) as [[a w']|]; [eauto | done]. Qed.

Lemma wp_get (Q : Node -> World -> Prop) (w : World) : Q (node w) w -> wp get Q w.
Proof. done. Qed.
Lemma wp_update f (Q : unit -> World -> Prop) (w : World) :
  Q tt (mkWorld (f (node w)) (hp w) (tasks w) (trace w) (step w)) -> wp (update f) Q w.
Proof. done. Qed.
Lemma wp_emit e (Q : unit -> World -> Prop) (w : World) :
  Q tt (mkWorld (node w) (hp w) (tasks w) (trace w ++ [e]) (step w)) -> wp (emit e) Q w.
Proof. done. Qed.
Lemma wp_ask {A} (f : nat -> A) (Q : A -> World -> Prop) (w : World) :
  (forall a, Q a (mkWorld (node w) (hp w) (tasks w) (trace w) (S (step w)))) ->
  wp (ask f) Q w.
Proof. unfold wp. simpl. auto. Qed.
Lemma wp_ask' {A} (f : nat -> A) (Q : A -> World -> Prop) (w : World) :
  Q (f (step w)) (mkWorld (node w) (hp w) (tasks w) (trace w) (S (step w))) ->
  wp (ask f) Q w.
Proof. done. Qed.
Lemma wp_read l m (Q : Message -> World -> Prop) (w : World) :
  hp w !! l = Some m -> Q m w -> wp (read l) Q w.
Proof. unfold wp, read. by intros ->. Qed.
Lemma wp_write l f (Q : unit -> World -> Prop) (w : World) :
  Q tt (mkWorld (node w) (modify f l (hp w)) (tasks w) (trace w) (step w)) ->
  wp (write l f) Q w.
Proof. done. Qed.
Lemma wp_new m (Q : loc -> World -> Prop) (w : World) :
  Q (length (hp w)) (mkWorld (node w) (hp w ++ [m]) (tasks w) (trace w) (step w)) ->
  wp (new m) Q w.
Proof. done. Qed.
Lemma wp_spawn l (Q : unit -> World -> Prop) (w : World) :
  Q tt (mkWorld (node w) (hp w) (tasks w ++ [l]) (trace w) (step w)) -> wp (spawn l) Q w.
Proof. done. Qed.
Lemma wp_when (b : bool) (m : M unit) (Q : unit -> World -> Prop) (w : World) :
  (if b then wp m Q w else Q tt w) -> wp (when b m) Q w.
Proof. by destruct b. Qed.

Ltac wp_pure :=
  repeat (cbv beta; lazymatch goal with
  | |- wp (_ ≫= _) _ _ => apply wp_bind
  | |- wp (mret _) _ _ => apply wp_ret
  | |- wp get _ _ => apply wp_get
  | |- wp (update _) _ _ => apply wp_update
  | |- wp (emit _) _ _ => apply wp_emit
  | |- wp (write _ _) _ _ => apply wp_write
  | |- wp (new _) _ _ => apply wp_new
  | |- wp (spawn _) _ _ => apply wp_spawn
  | |- wp (when _ _) _ _ => apply wp_when
  | |- wp (ask _) _ _ => apply wp_ask; intros ?
  end).

Lemma published_app t1 t2 : published (t1 ++ t2) = published t1 ++ published t2.
Proof. apply omap_app. Qed.

(** ** Frames *)

Create HintDb framed.

Lemma same_core_refl m : same_core m m.
Proof. by repeat split. Qed.

Lemma same_core_trans m1 m2 m3 : same_core m1 m2 -> same_core m2 m3 -> same_core m1 m3.
Proof. unfold same_core. intuition congruence. Qed.

#[export] Instance frame_refl : Reflexive frame.
Proof.
  intros w. split; [done.. | | done | done |].
  - intros l m Hl. exists m. eauto using same_core_refl.
  - exists []. by rewrite app_nil_r.
Qed.

#[export] Instance frame_trans : Transitive frame.
Proof.
  intros w1 w2 w3 [C1 S1 H1 V1 E1 (e1 & T1 & Q1)] [C2 S2 H2 V2 E2 (e2 & T2 & Q2)].
  split; [congruence.. | | auto | auto |].
  - intros l m Hl. destruct (H1 _ _ Hl) as (m2 & Hl2 & Hc2).
    destruct (H2 _ _ Hl2) as (m3 & Hl3 & Hc3). eauto using same_core_trans.
  - exists (e1 ++ e2). rewrite T2, T1, app_assoc. split; [done |]. by apply Forall_app.
Qed.

(** An operation that runs to its end inside the frame. *)
Definition framed {A} (m : M A) (w : World) : Prop := wp m (fun _ w' => frame w w') w.

Lemma framed_bind {A B} (m : M A) (k : A -> M B) w :
  framed m w -> (forall a w', frame w w' -> m w = Some (a, w') -> framed (k a) w') ->
  framed (m ≫= k) w.
Proof.
  unfold framed, wp, mbind, M_bind. intros Hm Hk. destruct (m w) as [[a w']|]; [| done].
  specialize (Hk a w' Hm eq_refl). destruct (k a w') as [[b w2]|]; [| done].
  by etransitivity.
Qed.

Lemma frame_intro w n h t tr s :
  config n = config (node w) -> seen n = seen (node w) ->
  (wf_encounters (node w) -> wf_encounters n) ->
  (forall l m, hp w !! l = Some m -> exists m', h !! l = Some m' /\ same_core m m') ->
  (valid w -> Forall (fun l => (l < length h)%nat) t) ->
  (exists evs, tr = trace w ++ evs /\ Forall quiet evs) ->
  frame w (mkWorld n h t tr s).
Proof. intros. by split. Qed.

Lemma framed_update f w :
  config (f (node w)) = config (node w) -> seen (f (node w)) = seen (node w) ->
  (wf_encounters (node w) -> wf_encounters (f (node w))) -> framed (update f) w.
Proof.
  intros Hc Hs He. apply frame_intro; [done.. | | done |].
  - intros l m Hl. exists m. eauto using same_core_refl.
  - exists []. by rewrite app_nil_r.
Qed.

Lemma framed_emit e w : quiet e -> framed (emit e) w.
Proof.
  intros He. apply frame_intro; [done.. | | done |].
  - intros l m Hl. exists m. eauto using same_core_refl.
  - exists [e]. split; [done | by constructor].
Qed.

Lemma framed_ask {A} (f : nat -> A) w : framed (ask f) w.
Proof.
  apply frame_intro; [done.. | | done |].
  - intros l m Hl. exists m. eauto using same_core_refl.
  - exists []. by rewrite app_nil_r.
Qed.

Lemma framed_ret {A} (a : A) w : framed (mret a) w.
Proof. unfold framed, wp. simpl. reflexivity. Qed.

Lemma framed_get w : framed get w.
Proof. unfold framed, wp. simpl. reflexivity. Qed.

Lemma framed_read l w : is_Some (hp w !! l) -> framed (read l) w.
Proof. intros [m Hm]. unfold framed, wp, read. rewrite Hm. simpl. reflexivity. Qed.

Lemma framed_write l f w : (forall m, same_core m (f m)) -> framed (write l f) w.
Proof.
  intros Hf. apply frame_intro; [done.. | | |].
  - intros k m Hk. unfold modify. destruct (decide (l = k)) as [->|Hne].
    + exists (f m). by rewrite list_lookup_alter_eq, Hk.
    + exists m. rewrite list_lookup_alter_ne by done. eauto using same_core_refl.
  - unfold valid, modify. by rewrite length_alter.
  - exists []. by rewrite app_nil_r.
Qed.

Lemma framed_new m w : framed (new m) w.
Proof.
  apply frame_intro; [done.. | | |].
  - intros l m' Hl. exists m'. split; [by apply lookup_app_l_Some | apply same_core_refl].
  - unfold valid. intros H. eapply Forall_impl; [done |]. simpl. intros. rewrite length_app. lia.
  - exists []. by rewrite app_nil_r.
Qed.

Lemma framed_spawn l w : is_Some (hp w !! l) -> framed (spawn l) w.
Proof.
  intros Hl%lookup_lt_is_Some. apply frame_intro; [done.. | | |].
  - intros k m Hk. exists m. eauto using same_core_refl.
  - unfold valid. intros H. apply Forall_app. by split; [| constructor].
  - exists []. by rewrite app_nil_r.
Qed.

Lemma framed_when (b : bool) (m : M unit) w : (b = true -> framed m w) -> framed (when b m) w.
Proof. destruct b; [auto | intros; apply framed_ret]. Qed.

Lemma framed_get_bind {A} (k : Node -> M A) w : framed (k (node w)) w -> framed (get ≫= k) w.
Proof. done. Qed.

Lemma framed_read_bind {A} l (k : Message -> M A) w :
  is_Some (hp w !! l) -> (forall m, hp w !! l = Some m -> framed (k m) w) ->
  framed (read l ≫= k) w.
Proof. intros [m Hm] Hk. unfold framed, wp, mbind, M_bind, read. rewrite Hm. by apply Hk. Qed.

Lemma frame_alive w w' l : frame w w' -> is_Some (hp w !! l) -> is_Some (hp w' !! l).
Proof. intros Hf [m Hm]. destruct (fr_heap _ _ Hf _ _ Hm) as (m' & -> & _). eauto. Qed.

Lemma same_core_copies c m : same_core m (set_CopiesMade c m).
Proof. by repeat split. Qed.

Lemma same_core_ttl m : same_core m (DecrementTTL m).
Proof. unfold DecrementTTL. destruct (0 <? TTL m); by repeat split. Qed.

Lemma framed_write_copies l c w : framed (write l (set_CopiesMade c)) w.
Proof. apply framed_write. intros. apply same_core_copies. Qed.

Lemma framed_write_ttl l w : framed (write l DecrementTTL) w.
Proof. apply framed_write. intros. apply same_core_ttl. Qed.

#[export] Hint Resolve framed_write_copies framed_write_ttl framed_emit framed_ask framed_ret framed_get framed_read
  framed_new framed_spawn frame_alive : framed.

(** Sequence, choose and call. *)
Ltac frame_steps :=
  intros;
  repeat match goal with
  | |- framed (get ≫= _) _ => apply framed_get_bind
  | |- framed (read _ ≫= _) _ => apply framed_read_bind; [| intros ? ?]
  | |- framed (_ ≫= _) _ => apply framed_bind; [| intros ? ? ? ?]
  | |- framed (when _ _) _ => apply framed_when; intros ?
  | |- framed (match ?x with _ => _ end) _ => destruct x eqn:?
  | |- framed (let _ := _ in _) _ => intro
  end; eauto 8 with framed.

Section Frames.
Context `{!JSON Message, !JSON DeliveryInfo}.
Context (pid_String : peerID -> string) (peer_Decode : string -> option peerID).
Context (E : Env).

Lemma framed_emitRelay evt w : framed (emitRelay evt) w.
Proof. unfold emitRelay. frame_steps. by apply framed_emit. Qed.
#[local] Hint Resolve framed_emitRelay : framed.

Lemma framed_relay a from hops m w : framed (relay E a from hops m) w.
Proof. unfold relay. frame_steps. Qed.
#[local] Hint Resolve framed_relay : framed.

Lemma framed_addPeer p w : framed (addPeer p) w.
Proof. unfold addPeer. frame_steps; [by apply framed_update | by apply framed_emit]. Qed.

Lemma framed_removePeer p w : framed (removePeer p) w.
Proof. unfold removePeer. frame_steps; [by apply framed_update | by apply framed_emit]. Qed.

Lemma framed_markSprayed i p w : framed (markSprayed i p) w.
Proof. by apply framed_update. Qed.
#[local] Hint Resolve framed_addPeer framed_removePeer framed_markSprayed : framed.

Lemma recordEncounter_wf now s :
  wf_stat s -> wf_stat (RecordEncounter now [] (AgePredictability (Aging now s) s)).
Proof.
  intros Hs. destruct (age_spec (Aging now s) s Hs) as [Ha _].
  unfold RecordEncounter. cbn [foldl]. by apply encounter_update_spec.
Qed.

Lemma framed_recordEncounter p now w : framed (recordEncounter p now) w.
Proof.
  unfold recordEncounter. frame_steps. apply framed_update; [done.. |].
  intros Hw. unfold wf_encounters. simpl. apply map_Forall_insert_2; [| done].
  apply recordEncounter_wf.
  destruct (encounters _ !! p) as [s|] eqn:Es; simpl; [by eapply Hw | apply F64.in_unit_zero].
Qed.

Lemma framed_statFor dst now w : framed (statForDestinationLocked dst now) w.
Proof. unfold statForDestinationLocked. frame_steps. Qed.

Lemma framed_sendDirect p d w : framed (sendDirect E p d) w.
Proof. unfold sendDirect. frame_steps. by apply framed_emit. Qed.
#[local] Hint Resolve framed_recordEncounter framed_statFor framed_sendDirect : framed.

Lemma framed_sendCopy p l w : is_Some (hp w !! l) -> framed (sendCopy E p l) w.
Proof. unfold sendCopy. frame_steps. Qed.
#[local] Hint Resolve framed_sendCopy : framed.

Lemma framed_hand_copy p l from w :
  is_Some (hp w !! l) -> framed (hand_copy pid_String E p l from) w.
Proof. unfold hand_copy. frame_steps. Qed.
#[local] Hint Resolve framed_hand_copy : framed.

Lemma framed_routingCandidates from w : framed (routingCandidates pid_String E from) w.
Proof. unfold routingCandidates, KnownPeers. frame_steps. Qed.
#[local] Hint Resolve framed_routingCandidates : framed.

Lemma framed_route_loop f me l from st my pids w :
  is_Some (hp w !! l) -> framed (route_loop pid_String E f me l from st my pids) w.
Proof.
  revert st w. induction pids as [|p pids IH]; intros st w Hl; cbn [route_loop]; [apply framed_ret |].
  frame_steps.
Qed.
#[local] Hint Resolve framed_route_loop : framed.

Lemma framed_routeToPeers l from w :
  is_Some (hp w !! l) -> framed (routeToPeers pid_String E l from) w.
Proof. unfold routeToPeers. frame_steps. Qed.
#[local] Hint Resolve framed_routeToPeers : framed.

Lemma framed_topicPublish d w : Topic (node w) = true -> framed (topicPublish E d) w.
Proof.
  intros Ht. unfold topicPublish. apply framed_get_bind. rewrite Ht. frame_steps.
  by apply framed_emit.
Qed.

Lemma frame_topic w w' : frame w w' -> Topic (node w) = true -> Topic (node w') = true.
Proof. intros Hf Ht. by injection (fr_config _ _ Hf); intros; congruence. Qed.
#[local] Hint Resolve framed_topicPublish frame_topic : framed.

Lemma framed_relay_task l w : is_Some (hp w !! l) -> framed (relay_task E l) w.
Proof. unfold relay_task. frame_steps. Qed.
#[local] Hint Resolve framed_relay_task : framed.

Lemma framed_forwardMessage l from w :
  is_Some (hp w !! l) -> framed (forwardMessage pid_String E l from) w.
Proof. unfold forwardMessage. frame_steps. Qed.
#[local] Hint Resolve framed_forwardMessage : framed.

Lemma framed_Publish l w :
  is_Some (hp w !! l) -> Topic (node w) = true -> framed (Publish E l) w.
Proof. unfold Publish. frame_steps. Qed.
#[local] Hint Resolve framed_Publish : framed.

Lemma framed_SendMessage l w :
  is_Some (hp w !! l) -> Topic (node w) = true ->
  framed (SendMessage pid_String peer_Decode E l) w.
Proof. unfold SendMessage. frame_steps.
Qed.

End Frames.
