(* ===== verification/MeshProps.v ===== *)
(** * Properties of the mesh node

    Delivery (deduplication, exactly once between two prunings of the caches) and
    freedom from panics, for one started node under every environment. *)

From S2P Require Import Prelude Float64 Json Message MessageJson Heap Routing Mesh MeshSpec.

(** ** Vocabulary *)

Section Vocabulary.
Context `{!JSON Message}.

(** The identifier of the message an input carries to [deliverMessage]. *)
Definition wire_id (i : Input) : list string :=
  let id_of data := match DeserializeMessage data with Ret m => [ID m] | _ => [] end in
  match i with
  | InStream _ (Some data) => id_of data
  | InPubSub _ data => id_of data
  | _ => []
  end.
Definition wire_ids (inputs : list Input) : list string := inputs ≫= wire_id.

(** The inputs between two prunings of the dedup cache. *)
Definition is_cleanup (i : Input) : bool := match i with InCleanup => true | _ => false end.
Fixpoint periods (inputs : list Input) : list (list Input) :=
  match inputs with
  | [] => [[]]
  | i :: inputs =>
      match periods inputs with
      | p :: ps => if is_cleanup i then [] :: p :: ps else (i :: p) :: ps
      | [] => []
      end
  end.

(** What the application is given during a period: each message that a well-formed
    frame carried, once. *)
Definition once (inputs : list Input) (given : list Message) : Prop :=
  NoDup (ID <$> given) /\ forall id, id ∈ ID <$> given <-> id ∈ wire_ids inputs.

End Vocabulary.

(** The world a node starts in. *)
Definition start (n : Node) : World := mkWorld n [] [] [] 0.

Definition sample_inputs (data : bytes) : list Input :=
  [InPubSub "B" data; InStream "C" (Some data); InStream "C" None; InTask 0].

(** What holds between two inputs: no dangling task, the topic joined, and since the
    cache was last pruned (when [old] had been given, and [lost] was marked) the
    application given each identifier that was marked, once. *)
Record running (old : list Message) (lost : gset string) (w : World) : Prop := mkRunning {
  rn_valid : valid w;
  rn_topic : Topic (node w) = true;
  rn_callback : is_Some (OnMessage (node w));
  rn_given : exists given, delivered (trace w) = old ++ given /\ NoDup (ID <$> given) /\
    (forall id, id ∈ ID <$> given -> id ∉ lost) /\
    forall id, id ∈ seen (node w) <-> id ∈ ID <$> given \/ id ∈ lost
}.

(** ** Traces *)

Lemma delivered_app t1 t2 : delivered (t1 ++ t2) = delivered t1 ++ delivered t2.
Proof. apply omap_app. Qed.

Lemma delivered_quiet evs : Forall quiet evs -> delivered evs = [].
Proof. induction 1 as [|e evs He _ IH]; [done |]. by destruct e. Qed.

Lemma frame_delivered w w' : frame w w' -> delivered (trace w') = delivered (trace w).
Proof.
  intros Hf. destruct (fr_trace _ _ Hf) as (evs & -> & Hq).
  by rewrite delivered_app, (delivered_quiet evs Hq), app_nil_r.
Qed.

Lemma frame_running old lost w w' : frame w w' -> running old lost w -> running old lost w'.
Proof.
  intros Hf [H1 H2 H3 H4]. pose proof (fr_config _ _ Hf) as Hc. unfold config in Hc.
  injection Hc as ? ? ? ? ? ? ? ?.
  split; [by apply (fr_valid _ _ Hf) | congruence.. |].
  by rewrite (frame_delivered _ _ Hf), (fr_seen _ _ Hf).
Qed.

(** A framed operation in front of the rest. *)
Lemma wp_framed {A} (m : M A) (Q : A -> World -> Prop) w :
  framed m w -> (forall a w', frame w w' -> Q a w') -> wp m Q w.
Proof. intros Hm HQ. eapply wp_mono; [| exact Hm]. intros a w' Hf. by apply HQ. Qed.

Section Delivery.
Context `{!JSON Message, !JSON DeliveryInfo}.
Context (pid_String : peerID -> string) (peer_Decode : string -> option peerID).
Context (E : Env).

Lemma framed_learnSender m w : framed (learnSender peer_Decode m) w.
Proof. unfold learnSender. frame_steps. apply framed_addPeer. Qed.

Lemma framed_relayOnward l from w :
  is_Some (hp w !! l) -> framed (relayOnward pid_String peer_Decode E l from) w.
Proof.
  intros Hl. unfold relayOnward. frame_steps; [| apply framed_relay].
  apply framed_forwardMessage. by eapply frame_alive.
Qed.

Lemma framed_autoAck l w :
  is_Some (hp w !! l) -> Topic (node w) = true ->
  framed (autoAck pid_String peer_Decode E l) w.
Proof.
  intros Hl Ht. unfold autoAck. frame_steps.
  match goal with H : new _ ?w0 = Some (?l0, ?w1) |- _ =>
    assert (is_Some (hp w1 !! l0)) by (injection H as <- <-; simpl; rewrite list_lookup_middle; eauto) end.
  apply framed_SendMessage; [done |]. eauto 10 using frame_topic.
Qed.

(** A duplicate only reports that it was dropped. *)
Lemma deliver_dup l from m w :
  hp w !! l = Some m -> ID m ∈ seen (node w) ->
  deliverMessage pid_String peer_Decode E l from w = relay E RelayDropped from (HopCount m) m w.
Proof.
  intros Hl Hs. unfold deliverMessage, mbind, M_bind, read. rewrite Hl. simpl.
  by rewrite bool_decide_eq_true_2.
Qed.

Lemma modify_alive f k l h : is_Some (h !! l) -> is_Some (modify f k h !! l).
Proof.
  intros Hl%lookup_lt_is_Some. apply lookup_lt_is_Some. unfold modify. by rewrite length_alter.
Qed.

(** A first arrival is marked, and given to the application once. *)
Lemma deliver_first old lost l from m w :
  hp w !! l = Some m -> ID m ∉ seen (node w) -> running old lost w ->
  wp (deliverMessage pid_String peer_Decode E l from)
    (fun _ w' => running old lost w' /\ seen (node w') = {[ID m]} ∪ seen (node w)) w.
Proof.
  intros Hl Hs Hrun. pose proof Hrun as [H1 H2 [cb Hcb] (given & H4 & H5 & H6 & H7)].
  unfold deliverMessage. apply wp_bind, (wp_read _ m); [done |].
  apply wp_bind, wp_get. rewrite bool_decide_eq_false_2 by done.
  apply wp_bind, wp_update. set (w1 := mkWorld _ _ _ _ _).
  assert (is_Some (hp w1 !! l)) as Hl1 by by exists m.
  apply wp_bind, wp_framed; [frame_steps; apply framed_recordEncounter | intros _ w2 F2].
  apply wp_bind, wp_framed; [apply framed_relay | intros _ w3 F3].
  apply wp_bind, wp_framed; [apply framed_learnSender | intros _ w4 F4].
  apply wp_bind, wp_framed; [apply framed_relayOnward; eauto 8 with framed | intros _ w5 F5].
  assert (frame w1 w5) as F by (do 3 (etransitivity; [eassumption |]); eassumption).
  destruct (fr_heap _ _ F l m Hl) as (m5 & Hl5 & HID & _).
  rewrite Hcb. apply wp_bind. apply wp_bind, (wp_read _ m5); [done |].
  apply wp_bind, wp_emit. apply wp_write. set (w6 := mkWorld _ _ _ _ _).
  assert (running old lost w6 /\ seen (node w6) = {[ID m]} ∪ seen (node w)) as [Hr6 Hs6].
  { pose proof (fr_config _ _ F) as Hc. unfold config in Hc. injection Hc as ? ? ? ? ? ? ? ?.
    assert (seen (node w5) = {[ID m]} ∪ seen (node w)) as Hs5 by by rewrite (fr_seen _ _ F).
    split; [| exact Hs5]. subst w6. split; simpl.
    - unfold valid. simpl. unfold modify. rewrite length_alter. by apply (fr_valid _ _ F).
    - congruence.
    - exists cb. congruence.
    - exists (given ++ [m5]). rewrite delivered_app, (frame_delivered _ _ F), Hs5, fmap_app. simpl.
      rewrite H4, HID. split_and!; [by rewrite <- app_assoc | | |].
      + apply NoDup_app. split_and!; [done | | apply NoDup_singleton].
        intros id Hid ->%list_elem_of_singleton. apply Hs, H7. by left.
      + intros id [Hid | ->%list_elem_of_singleton]%elem_of_app; [by apply H6 |].
        intros Hlost. apply Hs, H7. by right.
      + intros id. rewrite elem_of_union, elem_of_singleton, H7, elem_of_app, list_elem_of_singleton. tauto. }
  apply wp_framed.
  - apply framed_autoAck; [by apply modify_alive; exists m5 | apply Hr6].
  - intros _ w7 F7. split; [by eapply frame_running |]. by rewrite (fr_seen _ _ F7).
Qed.

Lemma deliver_any old lost l from m w :
  hp w !! l = Some m -> running old lost w ->
  wp (deliverMessage pid_String peer_Decode E l from)
    (fun _ w' => running old lost w' /\ seen (node w') = {[ID m]} ∪ seen (node w)) w.
Proof.
  intros Hl Hr. destruct (decide (ID m ∈ seen (node w))) as [Hs|Hs]; [| by apply deliver_first].
  unfold wp. rewrite (deliver_dup l from m w Hl Hs).
  eapply (wp_framed (relay E RelayDropped from (HopCount m) m)); [apply framed_relay |].
  intros _ w' F. split; [by eapply frame_running |]. rewrite (fr_seen _ _ F). set_solver.
Qed.

(** An input that carries no message keeps the frame. *)
Lemma wp_framed_input {A} old lost (m : M A) w :
  framed m w -> running old lost w -> wp m (fun _ w' => running old lost w' /\ seen (node w') = seen (node w)) w.
Proof.
  intros Hm Hr. eapply wp_framed; [done |]. intros _ w' F.
  split; [by eapply frame_running | apply (fr_seen _ _ F)].
Qed.

Lemma framed_runTask old lost k w :
  (k < length (tasks w))%nat -> running old lost w -> framed (runTask E k) w.
Proof.
  intros Hk Hr. unfold runTask. apply lookup_lt_is_Some_2 in Hk as [l Hl].
  unfold framed, wp. rewrite Hl. set (w1 := mkWorld _ _ _ _ _).
  assert (frame w w1) as F1.
  { apply frame_intro; [done.. | | |].
    - intros j m Hj. exists m. eauto using same_core_refl.
    - intros Hv. by apply Forall_delete.
    - exists []. by rewrite app_nil_r. }
  assert (is_Some (hp w1 !! l)) as Hl1.
  { apply lookup_lt_is_Some. exact (Forall_lookup_1 _ _ _ _ (rn_valid _ _ _ Hr) Hl). }
  assert (Topic (node w1) = true) as Ht by apply Hr.
  change (wp (relay_task E l) (fun _ w' => frame w w') w1).
  apply wp_framed; [by apply framed_relay_task |].
  intros _ w2 F2. by etransitivity.
Qed.

Lemma handle_running old lost i w :
  i <> InCleanup -> running old lost w ->
  wp (handle pid_String peer_Decode E i)
    (fun _ w' => running old lost w' /\ seen (node w') = list_to_set (wire_id i) ∪ seen (node w)) w.
Proof.
  intros Hi Hr.
  assert (forall w1 data from, running old lost w1 -> seen (node w1) = seen (node w) ->
    wp (match DeserializeMessage data with
        | Ret m => l ← new m; deliverMessage pid_String peer_Decode E l from
        | _ => mret tt end)
      (fun _ w' => running old lost w' /\ seen (node w') =
         list_to_set (match DeserializeMessage data with Ret m => [ID m] | _ => [] end)
         ∪ seen (node w)) w1) as Hdata.
  { intros w1 data from H1 Hs. destruct (DeserializeMessage data) as [m| |];
      [| apply wp_ret; split; [done | rewrite Hs; set_solver]..].
    pose proof (framed_new m w1) as F2. apply wp_bind, wp_new.
    unfold framed, wp in F2. simpl in F2. set (w2 := mkWorld _ _ _ _ _) in *.
    eapply wp_mono; [| apply (deliver_any old lost _ _ m)]; [| simpl; by rewrite list_lookup_middle |
      by eapply frame_running].
    intros _ w3 [H3 H4]. split; [done |]. rewrite H4, (fr_seen _ _ F2), Hs. set_solver. }
  assert (forall m : M unit, framed m w ->
    wp m (fun _ w' => running old lost w' /\ seen (node w') = list_to_set [] ∪ seen (node w)) w) as Hf.
  { intros m Hm. eapply wp_mono; [| by apply wp_framed_input].
    intros _ w' [H1 H2]. split; [done |]. rewrite H2. set_solver. }
  destruct i as [pid [data|]|p data|m|pid|pid|pid|k|]; simpl.
  - unfold handleStream. apply wp_bind, wp_framed; [apply framed_addPeer |]. intros _ w1 F1.
    apply Hdata; [by eapply frame_running | apply (fr_seen _ _ F1)].
  - apply Hf. unfold handleStream. frame_steps. apply framed_addPeer.
  - by apply Hdata.
  - apply Hf. frame_steps. apply framed_SendMessage.
    + match goal with H : new _ _ = Some _ |- _ => injection H as <- <- end.
      simpl. rewrite list_lookup_middle; eauto.
    + eauto using frame_topic, rn_topic.
  - apply Hf, framed_addPeer.
  - apply Hf, framed_removePeer.
  - apply Hf. unfold HandlePeerFound. frame_steps. apply framed_addPeer.
  - apply Hf. unfold framed, wp. case_decide as Hk; [by eapply framed_runTask | reflexivity].
  - done.
Qed.

Lemma run_running old lost inputs w :
  InCleanup ∉ inputs -> running old lost w ->
  wp (run pid_String peer_Decode E inputs)
    (fun _ w' => running old lost w' /\ seen (node w') = list_to_set (wire_ids inputs) ∪ seen (node w)) w.
Proof.
  revert w. induction inputs as [|i inputs IH]; intros w Hi Hr; simpl.
  - apply wp_ret. split; [done | set_solver].
  - apply not_elem_of_cons in Hi as [Hi Hi']. apply wp_bind.
    eapply wp_mono; [| apply handle_running; [by intros -> | done]].
    intros _ w1 [H1 Hs1]. eapply wp_mono; [| by apply IH].
    intros _ w2 [H2 Hs2]. split; [done |].
    unfold wire_ids in *. simpl. rewrite Hs2, Hs1, list_to_set_app_L. set_solver.
Qed.

(** ** Periods *)

(** Pruning starts a new period. *)
Lemma cleanup_running old lost w :
  running old lost w ->
  wp (handle pid_String peer_Decode E InCleanup)
    (fun _ w' => running (delivered (trace w)) ∅ w' /\ trace w' = trace w /\ seen (node w') = ∅) w.
Proof.
  intros [H1 H2 H3 _]. simpl. unfold StartSeenCleanup. apply wp_bind, wp_update, wp_update.
  split; [| done]. split; [done.. |]. exists []. simpl. rewrite app_nil_r.
  split_and!; [done | constructor | by intros id ?%elem_of_nil | set_solver].
Qed.

(** One period, when [lost] was already marked. *)
Lemma run_period lost inputs w :
  InCleanup ∉ inputs -> running (delivered (trace w)) lost w -> seen (node w) = lost ->
  wp (run pid_String peer_Decode E inputs)
    (fun _ w' => running (delivered (trace w)) lost w' /\
       exists given, delivered (trace w') = delivered (trace w) ++ given /\ NoDup (ID <$> given) /\
         forall id, id ∈ ID <$> given <-> id ∈ wire_ids inputs /\ id ∉ lost) w.
Proof.
  intros Hi Hr Hs. eapply wp_mono; [| by apply run_running]. intros _ w' [Hr' Hs']. split; [done |].
  destruct (rn_given _ _ _ Hr') as (given & H1 & H2 & H3 & H4). exists given. split_and!; [done.. |].
  intros id. specialize (H3 id). specialize (H4 id). rewrite Hs', Hs, elem_of_union, elem_of_list_to_set in H4.
  tauto.
Qed.

Lemma run_app inputs1 inputs2 w Q :
  wp (run pid_String peer_Decode E inputs1) (fun _ w' => wp (run pid_String peer_Decode E inputs2) Q w') w ->
  wp (run pid_String peer_Decode E (inputs1 ++ inputs2)) Q w.
Proof.
  revert w. induction inputs1 as [|i inputs1 IH]; intros w H; [exact H |]. cbn [run app] in *.
  unfold wp, mbind, M_bind in *. destruct (handle _ _ _ i w) as [[? w1]|]; [by apply IH | done].
Qed.

Lemma split_cleanup inputs :
  InCleanup ∉ inputs /\ periods inputs = [inputs] \/
  exists p rest, inputs = p ++ InCleanup :: rest /\ InCleanup ∉ p /\ periods inputs = p :: periods rest.
Proof.
  induction inputs as [|i inputs IH]; [left; split; [apply not_elem_of_nil | done] |].
  destruct (is_cleanup i) eqn:Hi.
  - right. exists [], inputs. destruct i; try done. split_and!; [done | apply not_elem_of_nil |].
    cbn [periods is_cleanup]. destruct IH as [[_ ->] | (p & rest & _ & _ & ->)]; done.
  - assert (InCleanup <> i) as Hne by (by intros <-). cbn [periods]. rewrite Hi.
    destruct IH as [[H1 ->] | (p & rest & -> & H1 & ->)]; [left | right; exists (i :: p), rest];
      rewrite not_elem_of_cons; auto.
Qed.

Lemma run_periods inputs w :
  running (delivered (trace w)) ∅ w -> seen (node w) = ∅ ->
  wp (run pid_String peer_Decode E inputs)
    (fun _ w' => exists given, delivered (trace w') = delivered (trace w) ++ concat given /\
       Forall2 once (periods inputs) given) w.
Proof.
  remember (length inputs) as n eqn:Hn. revert inputs w Hn.
  induction (lt_wf n) as [n _ IH]. intros inputs w Hn Hr Hs.
  destruct (split_cleanup inputs) as [[Hi ->] | (p & rest & -> & Hi & ->)].
  - eapply wp_mono; [| by apply (run_period ∅)]. intros _ w' (_ & given & E1 & E2 & E3). exists [given].
    simpl. rewrite app_nil_r. split; [done |]. constructor; [| constructor]. split; [done |]. intros id. rewrite E3. set_solver.
  - apply run_app. eapply wp_mono; [| by apply (run_period ∅)]. intros _ w1 (Hr1 & given & E1 & E2 & E3).
    cbn [run]. apply wp_bind. eapply wp_mono; [| by eapply cleanup_running]. intros _ w2 (Hr2 & Et & Es).
    rewrite <- Et in Hr2. rewrite length_app in Hn. simpl in Hn.
    eapply wp_mono; [| eapply (IH (length rest)); [lia | done | exact Hr2 | exact Es]].
    intros _ w3 (gs & E4 & E5). exists (given :: gs). rewrite E4, Et, E1. simpl. rewrite <- app_assoc.
    split; [done |]. constructor; [| done]. split; [done |]. intros id. rewrite E3. set_solver.
Qed.

Lemma start_running n :
  Topic n = true -> is_Some (OnMessage n) -> running [] (seen n) (start n).
Proof.
  intros Ht Hcb. split; [constructor | done | done |]. exists []. split_and!; [done | constructor | |].
  - by intros id ?%elem_of_nil.
  - intros id. simpl. set_solver.
Qed.

(** ** Properties *)

(** C1: whatever arrives, in whatever order and over whatever paths, a started node
    never panics; and between two prunings of the dedup cache the application is given
    each message identifier exactly once if a well-formed frame carried it to the node
    during that period, and never otherwise. *)
Theorem exactly_once n inputs :
  Topic n = true -> is_Some (OnMessage n) -> seen n = ∅ ->
  exists w' given, run pid_String peer_Decode E inputs (start n) = Some (tt, w') /\
    delivered (trace w') = concat given /\ Forall2 once (periods inputs) given.
Proof.
  intros Ht Hcb Hs. pose proof (start_running n Ht Hcb) as Hr. rewrite Hs in Hr.
  pose proof (run_periods inputs (start n) Hr Hs) as H. unfold wp in H.
  destruct (run _ _ _ inputs (start n)) as [[[] w']|]; [| done].
  destruct H as (given & H1 & H2). by exists w', given.
Qed.

End Delivery.

Lemma exactly_once_witness :
  let n := mkNode "A" true ∅ (Some (set_crypto "clear" EmptyString EmptyString))
             false false true None ∅ ∅ ∅ 0 in
  let data := default [] (json_marshal sample_chat) in
  let inputs := sample_inputs data ++ InCleanup :: sample_inputs data in
  exists w' given, run sample_str sample_decode sample_env inputs (start n) = Some (tt, w') /\
    delivered (trace w') = concat given /\ Forall2 once [sample_inputs data; sample_inputs data] given.
Proof.
  intros n data inputs.
  apply (exactly_once sample_str sample_decode sample_env n inputs);
    [reflexivity | eexists; reflexivity | reflexivity].
Defined.
