(* ===== verification/MeshRouting.v ===== *)
(** * Where a mesh node sends what it relays

    The destination-aware routing of [routeToPeers] refines the abstract
    [spray_plan]; what follows for the copy budget and for whom a copy goes to; the
    flood; TTL exhaustion; and the candidate list's independence of map order. *)

From S2P Require Import Prelude Float64 Json Message MessageJson Heap Routing Mesh MeshSpec.

(** ** Vocabulary *)

Section Vocabulary.
Context `{!JSON Message}.

(** The stream a copy of [m] travels on; nothing is sent if it cannot be encoded. *)
Definition copy_data (m : Message) (p : peerID) : list (peerID * bytes) :=
  match Serialize m with Some d => [(p, d)] | None => [] end.

Definition plan_data (m : Message) (plan : list (peerID * Z)) : list (peerID * bytes) :=
  plan ≫= fun pc => copy_data (set_CopiesMade pc.2 m) pc.1.

End Vocabulary.

(** The copy count after a plan has run. *)
Definition plan_copies (c : Z) (plan : list (peerID * Z)) : Z :=
  foldl (fun _ pc => pc.2) c plan.

(** The copies that go to someone else than the destination. *)
Definition relays (str : peerID -> string) (dst : string) (plan : list (peerID * Z))
    : list (peerID * Z) := filter (fun pc => str pc.1 <> dst) plan.

(** A node with spray-and-wait routing, as [WithSprayBudget] sets it up, whose
    predictabilities are in range. *)
Record sprays (L : Z) (n : Node) : Prop := mkSprays {
  sp_budget : n_SprayBudget n = L;
  sp_pos : 0 < L;
  sp_int : is_int64 L;
  sp_forwarder : default (SprayAndWait L) (n_Forwarder n) = SprayAndWait L;
  sp_enc : wf_encounters n
}.

(** [range] visits every element of the set once. *)
Definition fair (E : Env) : Prop := forall k X, range E k X ≡ₚ elements X.

(** Whom [routingCandidates] may list. *)
Definition eligible (str : peerID -> string) (n : Node) (from : string) (p : peerID) : Prop :=
  p ∈ n_peers n /\ str p <> str (HostID n) /\ (from <> EmptyString -> str p <> from).

Definition ledger (n : Node) (id : string) : gset string := default ∅ (sprayed n !! id).

(** ** Order *)

Lemma leb_trans s1 s2 s3 :
  String.leb s1 s2 = true -> String.leb s2 s3 = true -> String.leb s1 s3 = true.
Proof.
  unfold String.leb. revert s2 s3.
  induction s1 as [|a s1 IH]; intros [|b s2] [|c s3]; simpl; try done.
  unfold Ascii.compare. specialize (IH s2 s3).
  destruct (N.compare_spec (N_of_ascii a) (N_of_ascii b)) as [Ha|Ha|Ha];
  destruct (N.compare_spec (N_of_ascii b) (N_of_ascii c)) as [Hb|Hb|Hb];
  destruct (N.compare_spec (N_of_ascii a) (N_of_ascii c)) as [Hc|Hc|Hc]; try done; lia.
Qed.

Section Order.
Context (pid_String : peerID -> string).

#[export] Instance String_le_trans : Transitive (String_le pid_String).
Proof. intros p q r. apply leb_trans. Qed.

#[export] Instance String_le_total : Total (String_le pid_String).
Proof. intros p q. apply String.leb_total. Qed.

Lemma String_le_antisymm `{!Inj eq eq pid_String} p q :
  String_le pid_String p q -> String_le pid_String q p -> p = q.
Proof. intros H1 H2. apply (inj pid_String). by apply String.leb_antisym. Qed.

Lemma sort_order_independent `{!Inj eq eq pid_String} l1 l2 :
  l1 ≡ₚ l2 -> merge_sort (String_le pid_String) l1 = merge_sort (String_le pid_String) l2.
Proof.
  intros Hp. apply (StronglySorted_unique_strong (String_le pid_String)).
  - intros. by apply String_le_antisymm.
  - apply StronglySorted_merge_sort; apply _.
  - apply StronglySorted_merge_sort; apply _.
  - by rewrite !merge_sort_Permutation.
Qed.
End Order.

(** ** The plan *)

Section Plan.
Context (str : peerID -> string) (L : Z) (dst : string).

Lemma plan_sublist held c cands : (spray_plan str L dst held c cands).*1 `sublist_of` cands.
Proof.
  revert held c. induction cands as [|p ps IH]; intros held c; simpl; [done |].
  repeat case_match; simpl; by constructor.
Qed.

Lemma plan_copies_bound held c cands :
  c <= plan_copies c (spray_plan str L dst held c cands) <= Z.max c L.
Proof.
  revert held c. induction cands as [|p ps IH]; intros held c; simpl; [unfold plan_copies; simpl; lia |].
  case_bool_decide; [apply IH |]. case_bool_decide; [apply IH |].
  destruct (Z.ltb_spec c L); [| apply IH].
  specialize (IH ({[str p]} ∪ held) (c + 1)). unfold plan_copies in *. simpl. lia.
Qed.

(** Each of them is paid for from the budget. *)
Lemma plan_relays held c cands :
  Z.of_nat (length (relays str dst (spray_plan str L dst held c cands)))
  = plan_copies c (spray_plan str L dst held c cands) - c.
Proof.
  unfold relays. revert held c. induction cands as [|p ps IH]; intros held c; simpl;
    [unfold plan_copies; simpl; lia |].
  case_bool_decide as Hd.
  - rewrite filter_cons, decide_False by tauto. apply IH.
  - case_bool_decide; [apply IH |]. destruct (Z.ltb_spec c L); [| apply IH].
    rewrite filter_cons, decide_True by done. specialize (IH ({[str p]} ∪ held) (c + 1)).
    unfold plan_copies in *. cbn [foldl fst snd length]. lia.
Qed.

(** A peer that holds a copy gets no other, unless it is the destination. *)
Lemma plan_relays_fresh held c cands :
  NoDup ((fun pc => str pc.1) <$> relays str dst (spray_plan str L dst held c cands)) /\
  Forall (fun pc => str pc.1 ∉ held) (relays str dst (spray_plan str L dst held c cands)).
Proof.
  unfold relays. revert held c. induction cands as [|p ps IH]; intros held c; simpl;
    [split; constructor |].
  case_bool_decide as Hd; [| case_bool_decide as Hh; [apply IH | destruct (Z.ltb_spec c L); [| apply IH]]].
  - rewrite filter_cons, decide_False by tauto.
    destruct (IH ({[str p]} ∪ held) c) as [H1 H2]. split; [done |].
    eapply Forall_impl; [done |]. set_solver.
  - rewrite filter_cons, decide_True by done.
    destruct (IH ({[str p]} ∪ held) (c + 1)) as [H1 H2]. split.
    + simpl. constructor; [| done]. intros (pc & Hpc & Hin)%list_elem_of_fmap.
      rewrite list.Forall_forall in H2. specialize (H2 _ Hin). set_solver.
    + constructor; [done |]. eapply Forall_impl; [done |]. set_solver.
Qed.

Lemma filter_held (x : string) (held : gset string) (ps : list peerID) : x ∉ str <$> ps ->
  filter (fun q => str q <> dst /\ str q ∉ {[x]} ∪ held) ps
  = filter (fun q => str q <> dst /\ str q ∉ held) ps.
Proof.
  induction ps as [|q ps IH]; [done |]. cbn [fmap list_fmap]. intros [Hq Hps]%not_elem_of_cons.
  rewrite !filter_cons, IH by done.
  destruct (decide (str q <> dst /\ str q ∉ held)).
  - by rewrite decide_True by set_solver.
  - by rewrite decide_False by set_solver.
Qed.

(** The budget is used up if there are fresh peers enough. *)
Lemma plan_copies_exact held c cands : NoDup (str <$> cands) -> c <= L ->
  plan_copies c (spray_plan str L dst held c cands)
  = Z.min L (c + Z.of_nat (length (filter (fun p => str p <> dst /\ str p ∉ held) cands))).
Proof.
  revert held c. induction cands as [|p ps IH]; intros held c Hnd Hc; [unfold plan_copies; simpl; lia |].
  apply NoDup_cons in Hnd as [Hp Hnd]. cbn [spray_plan]. rewrite filter_cons.
  pose proof (filter_held (str p) held ps Hp) as Hheld.
  case_bool_decide as Hd; [| case_bool_decide as Hh].
  - rewrite decide_False by tauto. rewrite <- Hheld. by apply IH.
  - rewrite decide_False by tauto. by apply IH.
  - rewrite decide_True by done. cbn [length]. destruct (Z.ltb_spec c L).
    + change (plan_copies (c + 1) (spray_plan str L dst ({[str p]} ∪ held) (c + 1) ps)
        = Z.min L (c + Z.of_nat (S (length (filter (fun q => str q <> dst /\ str q ∉ held) ps))))).
      rewrite IH by (done || lia). rewrite Hheld. lia.
    + rewrite IH by done. lia.
Qed.

(** Its copies are numbered on. *)
Lemma plan_relay_counts held c cands :
  (relays str dst (spray_plan str L dst held c cands)).*2
  = seqZ (c + 1) (Z.of_nat (length (relays str dst (spray_plan str L dst held c cands)))).
Proof.
  unfold relays. revert held c. induction cands as [|p ps IH]; intros held c; simpl; [done |].
  case_bool_decide as Hd; [| case_bool_decide; [apply IH |]; destruct (Z.ltb_spec c L); [| apply IH]].
  - rewrite filter_cons, decide_False by tauto. apply IH.
  - rewrite filter_cons, decide_True by done. cbn [fmap list_fmap length snd].
    rewrite IH, (seqZ_cons (c + 1)) by lia. f_equal. f_equal; lia.
Qed.

(** The destination is served whenever it is in view, whatever the budget. *)
Lemma plan_destination held c cands p :
  p ∈ cands -> str p = dst -> p ∈ (spray_plan str L dst held c cands).*1.
Proof.
  intros Hin Hp. revert held c. induction cands as [|q ps IH]; intros held c; simpl; [set_solver |].
  apply elem_of_cons in Hin as [-> | Hin].
  - rewrite bool_decide_eq_true_2 by done. simpl. set_solver.
  - repeat case_match; simpl; rewrite ?elem_of_cons; auto.
Qed.
End Plan.

(** ** Running the plan *)

Lemma sublist_fmap {A B} (f : A -> B) l1 l2 : l1 `sublist_of` l2 -> f <$> l1 `sublist_of` f <$> l2.
Proof. induction 1; simpl; by constructor. Qed.

Lemma fmap_fst {A B C} (f : A -> C) (l : list (A * B)) :
  (fun p => f p.1) <$> l = f <$> l.*1.
Proof. by rewrite <- list_fmap_compose. Qed.

Lemma Forall_sublist {A} (P : A -> Prop) l1 l2 : l1 `sublist_of` l2 -> Forall P l2 -> Forall P l1.
Proof. induction 1; rewrite ?list.Forall_cons; intuition. Qed.

Lemma copy_data_cases `{!JSON Message} m p :
  copy_data m p = [] \/ exists d, copy_data m p = [(p, d)].
Proof. unfold copy_data. destruct (Serialize m); eauto. Qed.

Lemma plan_data_peers `{!JSON Message} m plan : (plan_data m plan).*1 `sublist_of` plan.*1.
Proof.
  unfold plan_data. induction plan as [|[p c] plan IH]; simpl; [done |].
  destruct (copy_data_cases (set_CopiesMade c m) p) as [-> | [d ->]]; simpl; by constructor.
Qed.

Lemma plan_data_relays `{!JSON Message} str m plan :
  (filter (fun pd => str pd.1 <> Recipient m) (plan_data m plan)).*1
  `sublist_of` (relays str (Recipient m) plan).*1.
Proof.
  unfold plan_data, relays. induction plan as [|[p c] plan IH]; simpl; [done |].
  rewrite filter_app, fmap_app, filter_cons. simpl.
  destruct (copy_data_cases (set_CopiesMade c m) p) as [-> | [d ->]]; simpl;
    [| rewrite filter_cons; simpl]; destruct (decide (str p <> Recipient m)); simpl;
    first [exact IH | by constructor].
Qed.

Section Refinement.
Context `{!JSON Message, !JSON DeliveryInfo}.
Context (pid_String : peerID -> string).
Context (E : Env).

(** The state of [w] once a copy has gone to [p], as far as routing is concerned. *)
Lemma sends_app t1 t2 : sends (t1 ++ t2) = sends t1 ++ sends t2.
Proof. apply omap_app. Qed.

Lemma relay_spec a from hops m w :
  wp (relay E a from hops m) (fun _ w' =>
    hp w' = hp w /\ node w' = node w /\ tasks w' = tasks w /\
    sends (trace w') = sends (trace w) /\ delivered (trace w') = delivered (trace w) /\
    published (trace w') = published (trace w)) w.
Proof.
  unfold relay, emitRelay. wp_pure. simpl. destruct (OnRelay (node w)); wp_pure; simpl; [| done].
  split_and!; [done.. | | |]; unfold sends, delivered, published; rewrite omap_app; simpl; by rewrite app_nil_r.
Qed.

Lemma hand_copy_spec p l from m w :
  hp w !! l = Some m ->
  wp (hand_copy pid_String E p l from) (fun _ w' =>
    hp w' = hp w /\ tasks w' = tasks w /\
    node w' = set_sprayed (<[ID m := {[pid_String p]} ∪ ledger (node w) (ID m)]>
                             (sprayed (node w))) (node w) /\
    sends (trace w') = sends (trace w) ++ copy_data m p) w.
Proof.
  intros Hl. unfold hand_copy, markSprayed.
  apply wp_bind, (wp_read _ m); [done |]. apply wp_bind, wp_update.
  apply wp_bind. eapply wp_mono; [| apply relay_spec]. simpl.
  intros _ w1 (H1 & H2 & H3 & H4 & _). unfold sendCopy.
  apply wp_bind, (wp_read _ m); [by rewrite H1 |]. unfold copy_data.
  destruct (Serialize m) as [d|].
  - unfold sendDirect. wp_pure. simpl. rewrite sends_app, H4. by split_and!.
  - apply wp_ret. rewrite app_nil_r. by split_and!.
Qed.

Lemma list_alter_fixed {A} (f : A -> A) (l : list A) i x : l !! i = Some x -> f x = x -> alter f i l = l.
Proof.
  intros Hi Hf. apply list_eq. intros j. destruct (decide (i = j)) as [->|].
  - rewrite list_lookup_alter_eq, Hi. simpl. by rewrite Hf.
  - by rewrite list_lookup_alter_ne.
Qed.

Lemma modify_set_twice c1 c2 l h :
  modify (set_CopiesMade c2) l (modify (set_CopiesMade c1) l h) = modify (set_CopiesMade c2) l h.
Proof. unfold modify. by rewrite list_alter_alter_eq. Qed.

Lemma set_CopiesMade_id m : set_CopiesMade (CopiesMade m) m = m.
Proof. by destruct m. Qed.

Lemma modify_lookup f l h m : h !! l = Some m -> modify f l h !! l = Some (f m).
Proof. intros Hl. unfold modify. by rewrite list_lookup_alter_eq, Hl. Qed.

Lemma no_handoff my : wf_stat my -> F64.flt (Predictability my) (Predictability zeroStat) = false.
Proof. intros (p & -> & Hp & _). apply Z.ltb_ge. lia. Qed.

Lemma ledger_insert n id X : ledger (set_sprayed (<[id := X]> (sprayed n)) n) id = X.
Proof. unfold ledger. simpl. by rewrite lookup_insert_eq. Qed.

(** The loop of [routeToPeers] under spray-and-wait hands out exactly the plan. *)
Lemma route_loop_spec L me l from st my pids m w :
  is_int64 L -> wf_stat my -> hp w !! l = Some m -> is_int64 (CopiesMade m) ->
  st_CopiesMade st = CopiesMade m -> st_Dst st = Recipient m ->
  let plan := spray_plan pid_String L (Recipient m) (ledger (node w) (ID m)) (CopiesMade m) pids in
  wp (route_loop pid_String E (SprayAndWait L) me l from st my pids) (fun _ w' =>
    hp w' = modify (set_CopiesMade (plan_copies (CopiesMade m) plan)) l (hp w) /\
    tasks w' = tasks w /\
    sends (trace w') = sends (trace w) ++ plan_data m plan /\
    ledger (node w') (ID m) = list_to_set (pid_String <$> plan.*1) ∪ ledger (node w) (ID m)) w.
Proof.
  intros HL Hmy. revert st m w.
  induction pids as [|p pids IH]; intros st m w Hl Hc Hst Hdst plan; cbn [route_loop].
  { apply wp_ret. split_and!; [| done | by rewrite app_nil_r | set_solver].
    symmetry. apply list_alter_fixed with m; [done | apply set_CopiesMade_id]. }
  apply wp_bind, (wp_read _ m); [done |]. apply wp_bind, wp_get.
  fold (ledger (node w) (ID m)). subst plan. cbn [spray_plan].
  cbn [Decide SprayAndWait]. unfold SprayAndWait_Decide. rewrite Hdst, Hst, no_handoff by done.
  case_bool_decide as Hp; [| case_bool_decide; [by apply IH |]; destruct (Z.ltb_spec (CopiesMade m) L); [| by apply IH]].
  - apply wp_bind. eapply wp_mono; [| by apply (hand_copy_spec p l from m)].
    intros _ w1 (H1 & H2 & H3 & H4). eapply wp_mono; [| apply (IH st m)]; [| by rewrite ?H1..].
    intros _ w2 (G1 & G2 & G3 & G4). rewrite H3, ledger_insert in *.
    split_and!; [by rewrite G1, H1 | congruence | | rewrite G4; simpl; set_solver].
    rewrite G3, H4. unfold plan_data. simpl. by rewrite set_CopiesMade_id, app_assoc.
  - rewrite wrap64_id by (int_lia). set (m' := set_CopiesMade (CopiesMade m + 1) m).
    apply wp_bind, wp_write. set (w0 := mkWorld _ _ _ _ _).
    assert (hp w0 !! l = Some m') as Hl0 by exact (modify_lookup _ l _ _ Hl).
    apply wp_bind. eapply wp_mono; [| by apply (hand_copy_spec p l from m')].
    intros _ w1 (H1 & H2 & H3 & H4).
    eapply wp_mono; [| apply (IH (with_copies st (CopiesMade m + 1)) m')];
      [| by rewrite ?H1 | simpl; int_lia | done..].
    intros _ w2 (G1 & G2 & G3 & G4). rewrite H3 in *. change (ID m') with (ID m) in *.
    rewrite ledger_insert in *.
    split_and!; [by rewrite G1, H1; apply modify_set_twice | by rewrite G2, H2 | | rewrite G4; simpl; set_solver].
    rewrite G3, H4. unfold plan_data. simpl. by rewrite app_assoc.
Qed.

Definition candidates (from : string) (w : World) : list peerID :=
  merge_sort (String_le pid_String)
    (filter (fun p => ~ skip pid_String (pid_String (HostID (node w))) from p)
       (range E (step w) (n_peers (node w)))).

Lemma routingCandidates_eq from w :
  routingCandidates pid_String E from w
  = Some (candidates from w, mkWorld (node w) (hp w) (tasks w) (trace w) (S (step w))).
Proof. done. Qed.

Lemma candidates_elem from w p :
  fair E -> p ∈ candidates from w <-> eligible pid_String (node w) from p.
Proof.
  intros Hf. unfold candidates, eligible, skip. unfold fair in Hf.
  rewrite merge_sort_Permutation, list_elem_of_filter, Hf, elem_of_elements.
  destruct (decide (from = EmptyString)); intuition.
Qed.

Lemma candidates_NoDup from w : fair E -> NoDup (candidates from w).
Proof.
  intros Hf. unfold candidates. unfold fair in Hf. rewrite merge_sort_Permutation, Hf.
  apply NoDup_filter, NoDup_elements.
Qed.

(** [routeToPeers] refines the plan. *)
Lemma routeToPeers_plan L l from m w :
  sprays L (node w) -> hp w !! l = Some m -> is_int64 (CopiesMade m) ->
  let cands := candidates from (mkWorld (node w) (hp w) (tasks w) (trace w) (S (step w))) in
  let plan := spray_plan pid_String L (Recipient m) (ledger (node w) (ID m)) (CopiesMade m) cands in
  wp (routeToPeers pid_String E l from) (fun _ w' =>
    hp w' = modify (set_CopiesMade (plan_copies (CopiesMade m) plan)) l (hp w) /\
    tasks w' = tasks w /\
    sends (trace w') = sends (trace w) ++ plan_data m plan /\
    ledger (node w') (ID m) = list_to_set (pid_String <$> plan.*1) ∪ ledger (node w) (ID m)) w.
Proof.
  intros [Hb Hp Hi Hf He] Hl Hc cands plan. unfold routeToPeers.
  apply wp_bind, wp_get. apply wp_bind, (wp_read _ m); [done |].
  rewrite Hb, Hf. apply wp_bind, wp_ask'. set (w1 := mkWorld _ _ _ _ _).
  apply wp_bind. unfold statForDestinationLocked. apply wp_bind, wp_get, wp_ret.
  apply wp_bind. unfold wp at 1. rewrite routingCandidates_eq. fold (candidates from w1).
  set (w2 := mkWorld _ _ _ _ (S (step w1))).
  apply (route_loop_spec L _ l from _ _ cands m w2); try done.
  destruct (encounters (node w1) !! Recipient m) as [s|] eqn:Es; [| apply F64.in_unit_zero].
  apply age_spec. by apply (He (Recipient m)).
Qed.
End Refinement.

Lemma sample_sprays : sprays 3 sample_node.
Proof.
  split; [done | lia | int_lia | done |]. by intros p s.
Qed.

Lemma sample_int : is_int64 (CopiesMade sample_chat).
Proof. change (is_int64 1). int_lia. Qed.

Lemma sample_fair : fair sample_env.
Proof. by intros k X. Qed.

(** ** Properties *)

Section Properties.
Context `{!JSON Message, !JSON DeliveryInfo}.
Context (pid_String : peerID -> string).

(** C29: the candidate list is the same however the peer map is iterated: sorted by
    identifier, without repetition, and made of the known peers other than this node
    and the one the message came from. *)
Theorem routingCandidates_deterministic E1 E2 from w :
  Inj eq eq pid_String -> fair E1 -> fair E2 ->
  exists cs,
    fst <$> routingCandidates pid_String E1 from w = Some cs /\
    fst <$> routingCandidates pid_String E2 from w = Some cs /\
    StronglySorted (String_le pid_String) cs /\ NoDup cs /\
    forall p, p ∈ cs <-> eligible pid_String (node w) from p.
Proof.
  intros Hinj H1 H2. unfold fair in *. exists (candidates pid_String E1 from w). split; [done |]. split.
  - rewrite routingCandidates_eq. simpl. f_equal. unfold candidates.
    apply sort_order_independent; [done |]. by rewrite (H1 (step w)), (H2 (step w)).
  - split; [apply StronglySorted_merge_sort; apply _ |].
    split; [by apply candidates_NoDup | intros p; by apply candidates_elem].
Qed.

(** C2: handing an addressed message on under spray-and-wait implements the abstract
    plan over the candidates in order: the destination always, a peer that has had a
    copy never, a fresh one while the message's copy count is below [L].  The plan
    is carried out to the letter: one stream per entry, with the count it has on the
    wire, the object left with the last count, and every peer served in the ledger. *)
Theorem routeToPeers_refines_plan E L l from m w :
  fair E -> sprays L (node w) -> hp w !! l = Some m -> is_int64 (CopiesMade m) ->
  exists cands w',
    (forall p, p ∈ cands <-> eligible pid_String (node w) from p) /\
    routeToPeers pid_String E l from w = Some (tt, w') /\
    let plan := spray_plan pid_String L (Recipient m) (ledger (node w) (ID m))
                  (CopiesMade m) cands in
    hp w' = modify (set_CopiesMade (plan_copies (CopiesMade m) plan)) l (hp w) /\
    tasks w' = tasks w /\
    sends (trace w') = sends (trace w) ++ plan_data m plan /\
    ledger (node w') (ID m) = list_to_set (pid_String <$> plan.*1) ∪ ledger (node w) (ID m).
Proof.
  intros Hfair Hs Hl Hc. pose proof (routeToPeers_plan pid_String E L l from m w Hs Hl Hc) as H.
  unfold wp in H. destruct (routeToPeers _ _ l from w) as [[[] w']|]; [| done].
  eexists _, w'. split; [| split; [done | exact H]].
  intros p. exact (candidates_elem pid_String E from
    (mkWorld (node w) (hp w) (tasks w) (trace w) (S (step w))) p Hfair).
Qed.

(** C3: the copy budget at one carrier.  Whatever it knows and whoever is in view, a
    node never takes a message's copy count above [L], or at all if it is there
    already; it pays one unit for each stream to a peer that is not the destination;
    and such a peer gets at most one copy from it, never if it had one.  Nothing
    goes back to the peer the message came from, or to the node itself. *)
Theorem spray_budget E L l from m w :
  fair E -> sprays L (node w) -> hp w !! l = Some m -> is_int64 (CopiesMade m) ->
  exists w' m' out,
    routeToPeers pid_String E l from w = Some (tt, w') /\
    hp w' !! l = Some m' /\ sends (trace w') = sends (trace w) ++ out /\
    let others := filter (fun pd => pid_String pd.1 <> Recipient m) out in
    CopiesMade m <= CopiesMade m' <= Z.max (CopiesMade m) L /\
    Z.of_nat (length others) <= CopiesMade m' - CopiesMade m /\
    NoDup ((fun pd => pid_String pd.1) <$> others) /\
    Forall (fun pd => pid_String pd.1 ∉ ledger (node w) (ID m)) others /\
    Forall (fun pd => eligible pid_String (node w) from pd.1 /\
                      pid_String pd.1 ∈ ledger (node w') (ID m)) out.
Proof.
  intros Hfair Hs Hl Hc. pose proof (routeToPeers_plan pid_String E L l from m w Hs Hl Hc) as H.
  unfold wp in H. destruct (routeToPeers _ _ l from w) as [[[] w']|]; [| done].
  cbv zeta in H. set (cands := candidates _ _ _ _) in H.
  set (held := ledger (node w) (ID m)) in *. set (plan := spray_plan _ _ _ _ _ _) in H.
  destruct H as (Hh & _ & Hsend & Hled).
  exists w', (set_CopiesMade (plan_copies (CopiesMade m) plan) m), (plan_data m plan).
  split; [done |]. split; [rewrite Hh; by apply modify_lookup |]. split; [done |].
  cbn [CopiesMade set_CopiesMade].
  pose proof (plan_copies_bound pid_String L (Recipient m) held (CopiesMade m) cands) as Hb.
  pose proof (plan_relays pid_String L (Recipient m) held (CopiesMade m) cands) as Hr.
  destruct (plan_relays_fresh pid_String L (Recipient m) held (CopiesMade m) cands) as [Hn Hh'].
  fold plan in Hb, Hr, Hn, Hh'. split; [exact Hb |]. cbv zeta.
  pose proof (plan_data_relays pid_String m plan) as Hsub.
  pose proof (sublist_length _ _ Hsub) as Hlen. rewrite !length_fmap in Hlen.
  rewrite (fmap_fst pid_String) in Hn.
  split; [lia |]. split; [| split].
  - rewrite (fmap_fst pid_String).
    exact (sublist_NoDup _ _ Hn (sublist_fmap pid_String _ _ Hsub)).
  - change (Forall ((fun p => pid_String p ∉ held) ∘ fst)
      (filter (fun pd => pid_String pd.1 <> Recipient m) (plan_data m plan))).
    apply Forall_fmap.
    eapply Forall_sublist; [exact Hsub |]. by apply Forall_fmap.
  - change (Forall ((fun p => eligible pid_String (node w) from p /\
      pid_String p ∈ ledger (node w') (ID m)) ∘ fst) (plan_data m plan)).
    apply Forall_fmap.
    eapply Forall_sublist; [apply plan_data_peers |]. apply list.Forall_forall. intros p Hp. split.
    + apply (candidates_elem pid_String E from (mkWorld (node w) (hp w) (tasks w) (trace w) (S (step w))) p); [done |].
      eapply elem_of_sublist; [| exact (plan_sublist pid_String L (Recipient m) held (CopiesMade m) cands)].
      exact Hp.
    + rewrite Hled, elem_of_union, elem_of_list_to_set. left. by apply list_elem_of_fmap_2.
Qed.
End Properties.

Lemma routingCandidates_deterministic_witness :
  exists cs, fst <$> routingCandidates sample_str sample_env "B" (sample_world sample_node) = Some cs /\
    NoDup cs.
Proof.
  destruct (routingCandidates_deterministic sample_str sample_env sample_env "B"
    (sample_world sample_node) (fun _ _ H => H) sample_fair sample_fair) as (cs & H & _ & _ & Hn & _).
  exists cs. split; [exact H | exact Hn].
Defined.

Lemma routeToPeers_refines_plan_witness :
  exists (cands : list peerID) w', (forall p, p ∈ cands <-> eligible sample_str sample_node "S" p) /\
    routeToPeers sample_str sample_env 0 "S" (sample_world sample_node) = Some (tt, w').
Proof.
  destruct (routeToPeers_refines_plan sample_str sample_env 3 0 "S" sample_chat
    (sample_world sample_node) sample_fair sample_sprays eq_refl sample_int) as (c & w' & H1 & H2 & _).
  exists c, w'. split; [exact H1 | exact H2].
Defined.

Lemma spray_budget_witness :
  exists w' m', routeToPeers sample_str sample_env 0 "S" (sample_world sample_node) = Some (tt, w') /\
    hp w' !! 0%nat = Some m' /\ 1 <= CopiesMade m' <= 3.
Proof.
  destruct (spray_budget sample_str sample_env 3 0 "S" sample_chat
    (sample_world sample_node) sample_fair sample_sprays eq_refl sample_int)
    as (w' & m' & out & H1 & H2 & _ & H3 & _).
  exists w', m'. split; [exact H1 | split; [exact H2 | exact H3]].
Defined.
