(* ===== verification/MeshRelay.v ===== *)
(** * Relaying and acknowledging at a mesh node

    What becomes of a message's TTL; what the relay goroutine publishes; the
    automatic acknowledgement; and a node that is reached before it was started. *)

From S2P Require Import Prelude Float64 Json Message MessageJson Heap Routing Mesh MeshSpec MeshProps MeshRouting.

(** ** Vocabulary *)

(** A node that relays by flooding: no budget, or a broadcast. *)
Definition floods (n : Node) (m : Message) : Prop :=
  n_SprayBudget n <= 0 \/ Recipient m = EmptyString.

(** The steps before the relaying leave the message and the task queue alone. *)
Definition still (w w' : World) : Prop :=
  hp w' = hp w /\ tasks w' = tasks w /\ config (node w') = config (node w) /\
  published (trace w') = published (trace w).

(** The relay goroutine of the object at [l] has run, and published [m] if the node was
    started; or it is queued. *)
Definition flooded (at_once : bool) (l : loc) (m : Message) (w w' : World) : Prop :=
  if at_once then
    tasks w' = tasks w /\
    published (trace w') = published (trace w) ++
      (if Topic (node w) then [default [] (Serialize m)] else [])
  else tasks w' = tasks w ++ [l] /\ published (trace w') = published (trace w).

(** The acknowledgement of [m] by [host]. *)
Definition is_ack_of (host : string) (m a : Message) : Prop :=
  MType a = TypeDeliveryAck /\ Sender a = host /\ Recipient a = Sender m /\ TTL a = 8 /\
  exists t, Payload a =
    marshal_string (mkDeliveryInfo (ID m) DeliveryReceived (Sender m) host t 0 EmptyString).

(** ** Helpers *)

Lemma run_bind {A B} (m : M A) (k : A -> M B) a w w' : m w = Some (a, w') -> (m ≫= k) w = k a w'.
Proof. intros H. unfold mbind, M_bind. by rewrite H. Qed.

Lemma framed_runs {A} (m : M A) w : framed m w -> exists a w', m w = Some (a, w') /\ frame w w'.
Proof. unfold framed, wp. destruct (m w) as [[a w']|]; [eauto | done]. Qed.

Lemma panic_bind {A B} (m : M A) (k : A -> M B) w :
  framed m w -> (forall a w', frame w w' -> k a w' = None) -> (m ≫= k) w = None.
Proof.
  intros Hm Hk. destruct (framed_runs m w Hm) as (a & w' & Hr & Hf).
  rewrite (run_bind _ _ _ _ _ Hr). by apply Hk.
Qed.

Lemma ackable_core host m m' : same_core m m' -> ackable host m' = ackable host m.
Proof. intros (_ & Ht & Hs & Hr & _). unfold ackable. by rewrite Ht, Hs, Hr. Qed.

Lemma TTL_decremented m : 0 < TTL m -> TTL (DecrementTTL m) = TTL m - 1.
Proof. intros H. rewrite DecrementTTL_TTL. by rewrite (proj2 (Z.ltb_lt _ _) H). Qed.

Section Relay.
Context (pid_String : peerID -> string) (peer_Decode : string -> option peerID).
Context (E : Env).

Lemma relay_task_spec l m w : hp w !! l = Some m ->
  wp (relay_task E l) (fun _ w' =>
    hp w' = hp w /\ node w' = node w /\ tasks w' = tasks w /\
    exists ok, trace w' = trace w ++
      (if Topic (node w) then [EvPublish (default [] (Serialize m)) ok] else [])) w.
Proof.
  intros Hl. unfold relay_task. apply wp_bind, wp_get, wp_when.
  destruct (Topic (node w)) eqn:Ht; [| split_and!; [done.. |]; exists true; by rewrite app_nil_r].
  apply wp_bind, (wp_read _ m); [done |]. unfold topicPublish. apply wp_bind, wp_bind, wp_get.
  rewrite Ht. wp_pure. simpl. eauto.
Qed.

Lemma relayOnward_flood l from m w :
  hp w !! l = Some m -> notOurs peer_Decode (HostID (node w)) m = true -> 0 < TTL m ->
  floods (node w) m ->
  wp (relayOnward pid_String peer_Decode E l from) (fun _ w' =>
    hp w' = modify DecrementTTL l (hp w) /\ node w' = node w /\
    sends (trace w') = sends (trace w) /\
    exists k, flooded (sched E k) l (DecrementTTL m) w w') w.
Proof.
  intros Hl Ho Ht Hf. unfold relayOnward. apply wp_bind, wp_get.
  apply wp_bind, (wp_read _ m); [done |]. rewrite Ho, (proj2 (Z.ltb_lt _ _) Ht). simpl.
  apply wp_bind, wp_write. unfold forwardMessage. apply wp_bind, wp_get.
  apply wp_bind, (wp_read _ (DecrementTTL m)); [exact (modify_lookup _ _ _ _ Hl) |].
  cbn [node]. assert ((0 <? n_SprayBudget (node w)) &&
    negb (bool_decide (Recipient (DecrementTTL m) = EmptyString)) = false) as ->.
  { destruct (DecrementTTL_fields m) as (_ & _ & _ & -> & _). destruct Hf as [Hf | ->].
    - by rewrite (proj2 (Z.ltb_ge _ _) Hf).
    - rewrite bool_decide_eq_true_2 by done. apply andb_false_r. }
  apply wp_bind. eapply wp_mono; [| apply relay_spec].
  intros _ w1 (H1 & H2 & H3 & H4 & _ & H5). apply wp_bind, wp_ask'. simpl in H1, H2, H3, H4, H5.
  destruct (sched E (step w1)) eqn:Hk.
  - eapply wp_mono; [| apply (relay_task_spec l (DecrementTTL m))];
      [| cbn [hp]; rewrite H1; exact (modify_lookup _ _ _ _ Hl)].
    intros _ w2 (G1 & G2 & G3 & ok & G4). cbn [hp node tasks trace] in *. rewrite H2 in *.
    split_and!; [congruence.. | |].
    + rewrite G4. unfold sends in *. rewrite omap_app, H4. destruct (Topic (node w)); apply app_nil_r.
    + exists (step w1). unfold flooded. rewrite Hk. split; [congruence |].
      rewrite G4, published_app, H5. f_equal. by destruct (Topic (node w)).
  - apply wp_spawn. cbn [hp node tasks trace]. split_and!; [congruence.. |].
    exists (step w1). unfold flooded. rewrite Hk. cbn [tasks trace]. split; congruence.
Qed.

(** An addressed message of somebody else is routed, with its TTL lowered. *)
Lemma relayOnward_routes L l from m w Q :
  hp w !! l = Some m -> notOurs peer_Decode (HostID (node w)) m = true -> 0 < TTL m ->
  sprays L (node w) -> Recipient m <> EmptyString ->
  (forall w1, node w1 = node w -> tasks w1 = tasks w -> trace w1 = trace w ->
     hp w1 !! l = Some (DecrementTTL m) -> wp (routeToPeers pid_String E l from) Q w1) ->
  wp (relayOnward pid_String peer_Decode E l from) Q w.
Proof.
  intros Hl Ho Ht Hs Hr HQ. unfold relayOnward. apply wp_bind, wp_get.
  apply wp_bind, (wp_read _ m); [done |]. rewrite Ho, (proj2 (Z.ltb_lt _ _) Ht). simpl.
  apply wp_bind, wp_write. unfold forwardMessage. apply wp_bind, wp_get.
  set (w1 := mkWorld _ _ _ _ _).
  assert (hp w1 !! l = Some (DecrementTTL m)) as Hl1 by exact (modify_lookup _ _ _ _ Hl).
  destruct (DecrementTTL_fields m) as (_ & _ & _ & Hr' & _ & Hc' & _).
  apply wp_bind, (wp_read _ (DecrementTTL m)); [done |].
  assert (sprays L (node w1)) as Hs1 by exact Hs.
  rewrite (sp_budget _ _ Hs1), (proj2 (Z.ltb_lt _ _) (sp_pos _ _ Hs)), Hr',
    bool_decide_eq_false_2 by done. simpl. by apply HQ.
Qed.

Lemma relayOnward_spray L l from m w :
  hp w !! l = Some m -> notOurs peer_Decode (HostID (node w)) m = true -> 0 < TTL m ->
  sprays L (node w) -> Recipient m <> EmptyString -> is_int64 (CopiesMade m) ->
  wp (relayOnward pid_String peer_Decode E l from) (fun _ w' =>
    (exists c, hp w' !! l = Some (set_CopiesMade c (DecrementTTL m))) /\
    tasks w' = tasks w /\
    exists plan, sends (trace w') = sends (trace w) ++ plan_data (DecrementTTL m) plan) w.
Proof.
  intros Hl Ho Ht Hs Hr Hc. apply (relayOnward_routes L l from m w _ Hl Ho Ht Hs Hr).
  intros w1 Hn Hk Htr Hl1.
  eapply wp_mono; [| apply (routeToPeers_plan pid_String E L l from (DecrementTTL m) w1); [by rewrite Hn | exact Hl1 |]];
    [| by destruct (DecrementTTL_fields m) as (_ & _ & _ & _ & _ & -> & _)].
  intros _ w2 (H1 & H2 & H3 & _). split_and!; [| congruence | eexists; by rewrite H3, Htr].
  eexists. rewrite H1. exact (modify_lookup _ _ _ _ Hl1).
Qed.

Lemma still_arrival from m w (k : M unit) Q :
  (forall w', still w w' -> wp k Q w') ->
  wp (when (negb (bool_decide (from = EmptyString)))
        (now ← ask (clock E); recordEncounter from (unix now));;
      relay E RelayReceived from (HopCount m) m;;
      learnSender peer_Decode m;; k) Q w.
Proof.
  intros Hk. apply wp_bind, wp_when.
  assert (forall w1, still w w1 ->
    wp (relay E RelayReceived from (HopCount m) m;; learnSender peer_Decode m;; k) Q w1) as H.
  { intros w1 (S1 & S2 & S3 & S4). apply wp_bind. eapply wp_mono; [| apply relay_spec].
    intros _ w2 (H1 & H2 & H3 & _ & _ & H4). apply wp_bind. unfold learnSender. apply wp_bind, wp_get.
    assert (still w w2) as S by (unfold still; rewrite H1, H2, H3, H4; auto).
    destruct (peer_Decode (Sender m)) as [p|]; [| by apply wp_ret, Hk].
    apply wp_when. destruct (negb _); [| by apply Hk]. unfold addPeer. wp_pure.
    destruct (bool_decide _); [| by apply Hk]. wp_pure. simpl.
    destruct (OnPeerJoin (node w2)); wp_pure; apply Hk; [| exact S].
    destruct S as (? & ? & ? & ?). split_and!; [done.. |]. simpl. by rewrite published_app, app_nil_r. }
  destruct (negb _); [| by apply H]. unfold recordEncounter.
  apply wp_bind, wp_ask. intros t. by apply wp_bind, wp_get, wp_update, H.
Qed.

Lemma autoAck_skip l m w :
  hp w !! l = Some m -> ackable (pid_String (HostID (node w))) m = false ->
  wp (autoAck pid_String peer_Decode E l) (fun _ w' => w' = w) w.
Proof.
  intros Hl Ha. unfold autoAck. apply wp_bind, (wp_read _ m); [done |].
  apply wp_bind, wp_get, wp_when. by rewrite Ha.
Qed.

Lemma autoAck_eq l m w :
  hp w !! l = Some m ->
  let host := pid_String (HostID (node w)) in
  autoAck pid_String peer_Decode E l w =
    when (ackable host m)
      (e ← ask (entropy E);
       t1 ← ask (clock E);
       t2 ← ask (clock E);
       a ← new (set_TTL 8 (NewDeliveryAck e t1 t2 host (ID m) (Sender m) DeliveryReceived 0 EmptyString));
       SendMessage pid_String peer_Decode E a;;
       mret tt) w.
Proof. intros Hl. unfold autoAck, mbind at 1, M_bind at 1, read at 1. by rewrite Hl. Qed.

(** Without a topic, a budget or a decodable recipient, sending panics. *)
Lemma SendMessage_panics l m w :
  hp w !! l = Some m -> Topic (node w) = false -> n_SprayBudget (node w) <= 0 ->
  peer_Decode (Recipient m) = None ->
  SendMessage pid_String peer_Decode E l w = None.
Proof.
  intros Hl Ht Hb Hd. unfold SendMessage.
  assert (forall w', hp w' !! l = Some m -> Topic (node w') = false -> Publish E l w' = None) as HP.
  { intros w' Hl' Ht'. unfold Publish. rewrite (run_bind _ _ m w' w') by (unfold read; by rewrite Hl').
    destruct (Serialize_some m) as [d ->]. unfold topicPublish, mbind, M_bind, get. by rewrite Ht'. }
  rewrite (run_bind _ _ m w w) by (unfold read; by rewrite Hl).
  rewrite (run_bind _ _ (node w) w w) by done. destruct (Serialize_some m) as [d ->].
  rewrite (proj2 (Z.ltb_ge _ _) Hb), andb_false_r.
  destruct (wp_runs _ _ _ (relay_spec E RelaySent EmptyString 0 m w)) as (u & w1 & Hr & H1 & H2 & _).
  rewrite (run_bind _ _ _ _ _ Hr), Hd. destruct (negb _); apply HP; congruence.
Qed.

(** A first arrival at a flooding node: the object ends up as the callback left it, and
    the relay goroutine has published what was received, or waits. *)
Lemma deliver_flood l from m w cb :
  hp w !! l = Some m -> ID m ∉ seen (node w) ->
  notOurs peer_Decode (HostID (node w)) m = true -> 0 < TTL m -> floods (node w) m ->
  OnMessage (node w) = Some cb ->
  ackable (pid_String (HostID (node w))) (cb (DecrementTTL m)) = false ->
  wp (deliverMessage pid_String peer_Decode E l from) (fun _ w' =>
    hp w' !! l = Some (cb (DecrementTTL m)) /\ Topic (node w') = Topic (node w) /\
    exists k, flooded (sched E k) l (DecrementTTL m) w w') w.
Proof.
  intros Hl Hs Ho Ht Hf Hcb Ha. unfold deliverMessage.
  apply wp_bind, (wp_read _ m); [done |]. apply wp_bind, wp_get.
  rewrite bool_decide_eq_false_2 by done. apply wp_bind, wp_update.
  apply still_arrival. intros w1 (S1 & S2 & S3 & S4). simpl in S1, S2, S3, S4.
  injection S3 as Eh Et Em _ _ _ _ Eb.
  apply wp_bind. eapply wp_mono;
    [| apply (relayOnward_flood l from m w1); [by rewrite S1 | by rewrite Eh | done |]];
    [| unfold floods; by rewrite Eb].
  intros _ w2 (H1 & H2 & H3 & k & H4). rewrite Hcb.
  assert (hp w2 !! l = Some (DecrementTTL m)) as Hl2.
  { rewrite H1, S1. exact (modify_lookup _ _ _ _ Hl). }
  apply wp_bind, wp_bind, (wp_read _ (DecrementTTL m)); [done |].
  apply wp_bind, wp_emit, wp_write.
  set (w3 := mkWorld _ _ _ _ _).
  assert (hp w3 !! l = Some (cb (DecrementTTL m))) as Hl3 by exact (modify_lookup _ _ _ _ Hl2).
  eapply wp_mono; [| apply (autoAck_skip l _ w3 Hl3)]; [| simpl; by rewrite H2, Eh].
  intros _ ? ->. split_and!; [done | simpl; by rewrite H2, Et |]. exists k.
  unfold flooded in *. simpl. rewrite published_app, app_nil_r. rewrite S2, S4, Et in H4. exact H4.
Qed.
End Relay.

(** ** Properties *)

Section Properties.
Context (pid_String : peerID -> string) (peer_Decode : string -> option peerID).

(** C8: the life of the TTL.  A message of the node itself is not relayed, and one
    whose TTL has run out is not either; any other leaves with its TTL one lower,
    whether flooded (the relay goroutine is queued, or the scheduler ran it at once
    and it published the message with the lower TTL) or routed (every copy on a
    stream carries the lower TTL, whatever its copy count). *)
Theorem relay_ttl E l from m w :
  hp w !! l = Some m -> is_int64 (CopiesMade m) ->
  exists w', relayOnward pid_String peer_Decode E l from w = Some (tt, w') /\
    (notOurs peer_Decode (HostID (node w)) m = false -> w' = w) /\
    (notOurs peer_Decode (HostID (node w)) m = true -> TTL m <= 0 ->
       hp w' = hp w /\ tasks w' = tasks w /\ sends (trace w') = sends (trace w) /\
       published (trace w') = published (trace w)) /\
    (notOurs peer_Decode (HostID (node w)) m = true -> 0 < TTL m -> floods (node w) m ->
       sends (trace w') = sends (trace w) /\
       exists m' k, hp w' !! l = Some m' /\ TTL m' = TTL m - 1 /\ flooded (sched E k) l m' w w') /\
    (forall L, notOurs peer_Decode (HostID (node w)) m = true -> 0 < TTL m ->
       sprays L (node w) -> Recipient m <> EmptyString ->
       tasks w' = tasks w /\
       exists out, sends (trace w') = sends (trace w) ++ out /\
         Forall (fun pd => exists m', Serialize m' = Some pd.2 /\ ID m' = ID m /\
                                      TTL m' = TTL m - 1) out).
Proof.
  intros Hl Hc.
  destruct (framed_runs (relayOnward pid_String peer_Decode E l from) w) as ([] & w' & Hrun & _);
    [by apply framed_relayOnward; exists m |].
  exists w'. split; [done |].
  assert (forall Q, wp (relayOnward pid_String peer_Decode E l from) Q w -> Q tt w') as HQ
    by (unfold wp; rewrite Hrun; auto).
  split_and!.
  - intros Ho. symmetry. apply (HQ (fun _ w' => w = w')). unfold relayOnward.
    apply wp_bind, wp_get. apply wp_bind, (wp_read _ m); [done |].
    rewrite Ho, !andb_false_r. by apply wp_when.
  - intros Ho Ht. apply (HQ (fun _ w' => hp w' = hp w /\ tasks w' = tasks w /\ _)).
    unfold relayOnward. apply wp_bind, wp_get. apply wp_bind, (wp_read _ m); [done |].
    rewrite Ho, (proj2 (Z.ltb_ge _ _) Ht), (proj2 (Z.leb_le _ _) Ht). simpl.
    eapply wp_mono; [| apply relay_spec]. intros _ w1 (? & ? & ? & ? & _ & ?). by split_and!.
  - intros Ho Ht Hf. pose proof (HQ _ (relayOnward_flood _ _ E l from m w Hl Ho Ht Hf))
      as (H1 & _ & H3 & k & H4). split; [done |]. exists (DecrementTTL m), k.
    rewrite H1. split_and!; [exact (modify_lookup _ _ _ _ Hl) | by apply TTL_decremented | done].
  - intros L Ho Ht Hs Hr.
    pose proof (HQ _ (relayOnward_spray _ _ E L l from m w Hl Ho Ht Hs Hr Hc)) as (_ & H2 & plan & H3).
    split; [done |]. eexists. split; [exact H3 |]. unfold plan_data.
    apply list.Forall_forall. intros [p d] (pc & Hin & _)%list_elem_of_bind. simpl.
    unfold copy_data in Hin. destruct (Serialize _) as [d'|] eqn:Ed; [| set_solver].
    apply list_elem_of_singleton in Hin. injection Hin as -> ->. eexists. split; [exact Ed |].
    cbn [TTL ID set_CopiesMade]. rewrite TTL_decremented by done.
    by destruct (DecrementTTL_fields m).
Qed.

(** C35: the relay goroutine and the application share the message object, so what a
    flooding node relays is up to the scheduler.  A goroutine that runs as soon as it
    is started publishes what was received, with its TTL lowered; one that runs after
    the application callback publishes what the callback made of the message (for the
    WebSocket bridge, the decrypted text).  (First arrivals that the node does not
    acknowledge.) *)
Theorem flood_publishes_callback_result E l from m w cb :
  hp w !! l = Some m -> ID m ∉ seen (node w) -> tasks w = [] -> Topic (node w) = true ->
  notOurs peer_Decode (HostID (node w)) m = true -> 0 < TTL m -> floods (node w) m ->
  OnMessage (node w) = Some cb ->
  ackable (pid_String (HostID (node w))) (cb (DecrementTTL m)) = false ->
  exists w1 k, deliverMessage pid_String peer_Decode E l from w = Some (tt, w1) /\
    if sched E k then
      tasks w1 = [] /\
      published (trace w1) = published (trace w) ++ [default [] (Serialize (DecrementTTL m))]
    else
      tasks w1 = [l] /\ published (trace w1) = published (trace w) /\
      exists w2 ok, runTask E 0 w1 = Some (tt, w2) /\ tasks w2 = [] /\
        trace w2 = trace w1 ++ [EvPublish (default [] (Serialize (cb (DecrementTTL m)))) ok].
Proof.
  intros Hl Hs Ht Htop Ho Httl Hf Hcb Ha.
  destruct (wp_runs _ _ _ (deliver_flood pid_String peer_Decode E l from m w cb Hl Hs Ho Httl Hf Hcb Ha))
    as ([] & w1 & Hrun & H1 & H2 & k & H3).
  exists w1, k. split; [done |]. unfold flooded in H3. rewrite Htop in *. rewrite Ht in H3.
  destruct (sched E k); [done |]. destruct H3 as [H3 H4]. split_and!; [done.. |].
  destruct (wp_runs _ _ _ (relay_task_spec E l (cb (DecrementTTL m))
    (mkWorld (node w1) (hp w1) (list_delete 0%nat (tasks w1)) (trace w1) (step w1)) H1))
    as ([] & w2 & Hrun2 & _ & _ & G3 & ok & G4).
  exists w2, ok. unfold runTask. rewrite H3 in *. cbn [lookup list_lookup tasks trace node] in *.
  rewrite H2 in G4. by split_and!.
Qed.

(** C22: acknowledgements.  A message gets one exactly if it is a chat, file or SOS
    message for this node from somebody else; the acknowledgement names the message
    and goes to its sender, and is itself never acknowledged, by anyone. *)
Theorem auto_ack E l m w :
  hp w !! l = Some m ->
  let host := pid_String (HostID (node w)) in
  (ackable host m = true <->
     Recipient m = host /\ Sender m <> host /\
     (MType m = TypeChat \/ MType m = TypeFile \/ MType m = TypeSOS)) /\
  (ackable host m = false -> autoAck pid_String peer_Decode E l w = Some (tt, w)) /\
  (ackable host m = true -> exists a k,
     is_ack_of host m a /\ (forall host', ackable host' a = false) /\
     let w1 := mkWorld (node w) (hp w ++ [a]) (tasks w) (trace w) k in
     autoAck pid_String peer_Decode E l w
     = (SendMessage pid_String peer_Decode E (length (hp w));; mret tt) w1).
Proof.
  intros Hl host.
  pose proof (autoAck_eq pid_String peer_Decode E l m w Hl) as Heq. fold host in Heq.
  split_and!.
  - unfold ackable. rewrite !andb_true_iff, !orb_true_iff, negb_true_iff,
      !bool_decide_eq_true, bool_decide_eq_false. tauto.
  - intros Ha. by rewrite Heq, Ha.
  - intros Ha. rewrite Heq, Ha. simpl.
    eexists _, _. split; [| split; [| reflexivity]].
    + repeat split. by eexists.
    + intros host'. unfold ackable. simpl. by rewrite andb_false_r.
Qed.

(** A node that is reached by a stream before [Start] has joined the topic.  The
    acknowledgement it owes falls back to publishing when the sender's identifier
    does not decode, and publishing on the topic that is not there panics.  (The
    relay goroutine guards against the missing topic; this path does not.) *)
Lemma ack_before_start_panics E l from m w :
  hp w !! l = Some m -> ID m ∉ seen (node w) ->
  Topic (node w) = false -> OnMessage (node w) = None -> n_SprayBudget (node w) <= 0 ->
  ackable (pid_String (HostID (node w))) m = true -> peer_Decode (Sender m) = None ->
  deliverMessage pid_String peer_Decode E l from w = None.
Proof.
  intros Hl Hs Ht Hcb Hb Ha Hd. unfold deliverMessage.
  rewrite (run_bind _ _ m w w) by (unfold read; by rewrite Hl).
  rewrite (run_bind _ _ (node w) w w) by done. rewrite bool_decide_eq_false_2 by done.
  erewrite run_bind by reflexivity. set (w1 := mkWorld _ _ _ _ _).
  apply panic_bind; [frame_steps; apply framed_recordEncounter | intros _ w2 F2].
  apply panic_bind; [apply framed_relay | intros _ w3 F3].
  apply panic_bind; [apply framed_learnSender | intros _ w4 F4].
  assert (frame w1 w4) as F by (do 2 (etransitivity; [eassumption |]); eassumption).
  destruct (fr_heap _ _ F l m Hl) as (m4 & Hl4 & Hc4).
  apply panic_bind; [apply framed_relayOnward; by exists m4 | intros _ w5 F5].
  rewrite Hcb. erewrite run_bind by reflexivity.
  destruct (fr_heap _ _ F5 l m4 Hl4) as (m5 & Hl5 & Hc5).
  assert (frame w1 w5) as F' by (by etransitivity). clear F F2 F3 F4 F5.
  pose proof (fr_config _ _ F') as Hc. unfold config in Hc. simpl in Hc.
  injection Hc as Eh Et _ _ _ _ _ Eb.
  rewrite (autoAck_eq _ _ E l m5 w5 Hl5), Eh, (ackable_core _ _ _ Hc5), (ackable_core _ _ _ Hc4), Ha.
  cbn [when]. unfold ask, new, mbind, M_bind. simpl.
  erewrite SendMessage_panics; [done | by apply list_lookup_middle | simpl; congruence |
    simpl; lia |].
  destruct Hc4 as (_ & _ & Hs4 & _), Hc5 as (_ & _ & Hs5 & _). simpl. congruence.
Qed.

End Properties.

Lemma relay_ttl_witness :
  exists w', relayOnward sample_str sample_decode sample_env 0 "B" (sample_world sample_node) = Some (tt, w').
Proof.
  destruct (relay_ttl sample_str sample_decode sample_env 0 "B" sample_chat
    (sample_world sample_node) eq_refl sample_int) as (w' & H & _).
  exists w'. exact H.
Defined.

(** A flooding node whose callback decrypts in place, under either scheduler. *)
Lemma flood_publishes_callback_result_witness :
  let cb := set_crypto "clear" EmptyString EmptyString in
  let w := sample_world (mkNode "A" true ∅ (Some cb) false false true None ∅ ∅ ∅ 0) in
  let env at_once := mkEnv (clock sample_env) (entropy sample_env) (net sample_env) (range sample_env)
                       (fun _ => at_once) in
  (exists w1, deliverMessage sample_str sample_decode (env true) 0 "B" w = Some (tt, w1) /\
     published (trace w1) = [default [] (Serialize (DecrementTTL sample_chat))]) /\
  (exists w1 w2 ok, deliverMessage sample_str sample_decode (env false) 0 "B" w = Some (tt, w1) /\
     runTask (env false) 0 w1 = Some (tt, w2) /\
     trace w2 = trace w1 ++ [EvPublish (default [] (Serialize (cb (DecrementTTL sample_chat)))) ok]).
Proof.
  intros cb w env.
  pose proof (fun at_once => flood_publishes_callback_result sample_str sample_decode (env at_once) 0 "B"
    sample_chat w cb eq_refl (not_elem_of_empty _) eq_refl eq_refl eq_refl eq_refl
    (or_introl (Z.le_refl 0)) eq_refl eq_refl) as H. split.
  - destruct (H true) as (w1 & k & Hrun & _ & Hp). exists w1. split; [exact Hrun | exact Hp].
  - destruct (H false) as (w1 & k & Hrun & _ & _ & w2 & ok & H2 & _ & H3).
    exists w1, w2, ok. split; [exact Hrun | split; [exact H2 | exact H3]].
Defined.

Lemma auto_ack_witness :
  let n := NewNode "D" [] in
  exists a k, is_ack_of "D" sample_chat a /\
    autoAck sample_str sample_decode sample_env 0 (sample_world n)
    = (SendMessage sample_str sample_decode sample_env 1;; mret tt)
        (mkWorld n [sample_chat; a] [] [] k).
Proof.
  intros n.
  destruct (proj2 (proj2 (auto_ack sample_str sample_decode sample_env 0 sample_chat
    (sample_world n) eq_refl)) eq_refl) as (a & k & H1 & _ & H2).
  exists a, k. split; [exact H1 | exact H2].
Defined.

Lemma ack_before_start_panics_witness :
  deliverMessage sample_str (fun _ => None) sample_env 0 "B" (sample_world (NewNode "D" [])) = None.
Proof.
  apply (ack_before_start_panics sample_str (fun _ => None) sample_env 0 "B" sample_chat
    (sample_world (NewNode "D" []))); try reflexivity.
  apply not_elem_of_empty.
Defined.
