(* ===== verification/Lifecycle.v ===== *)
(** * The life of a mesh node (pkg/mesh/mesh.go: NewNode, Start, Close)

    Which inputs can reach a node depends on what has been set up: streams and
    connections from [NewNode] on, the topic's messages, peers found by mDNS and the
    pruning of the caches from [Start] on, until [Close].  In between, the daemon sets
    the callbacks.  What libp2p answers to each call is an argument. *)

From S2P Require Import Prelude Float64 Json Message MessageJson Heap Routing Mesh MeshSpec MeshProps MeshRelay.

(** ** State *)

(** The answers of libp2p while a node is built and started. *)
Record Answers := mkAnswers {
  an_peerID : bool;
  an_connmgr : bool;
  an_host : bool;
  an_pubsub : bool;
  an_join : bool;
  an_subscribe : bool;
  an_mdns : bool
}.

Inductive NewError := EDerivePeerID | EConnectionManager | ECreateHost.
Inductive StartError := ECreatePubSub | EJoinTopic | ESubscribe.

(** The node and what runs for it: the host, the context, the reader of the topic, the
    mDNS service and the pruning of the caches. *)
Record Life := mkLife {
  lf_world : World;
  lf_MDNSDisabled : bool;
  lf_host : bool;
  lf_ctx : bool;
  lf_reader : bool;
  lf_notifee : bool;
  lf_ticker : bool
}.

Definition on_node (f : Node -> Node) (w : World) : World :=
  mkWorld (f (node w)) (hp w) (tasks w) (trace w) (step w).
Definition set_world (w : World) (lf : Life) : Life :=
  mkLife w (lf_MDNSDisabled lf) (lf_host lf) (lf_ctx lf) (lf_reader lf) (lf_notifee lf) (lf_ticker lf).

(** [WithMDNS] sets [MDNSDisabled]; the other options act on the node. *)
Definition open_node (an : Answers) (pid : peerID) (mdns : bool) (opts : list (Node -> Node))
    : outcome NewError Life :=
  if negb (an_peerID an) then Fail EDerivePeerID
  else
    let n := NewNode pid opts in
    if negb (an_connmgr an) then Fail EConnectionManager
    else if negb (an_host an) then Fail ECreateHost
    else Ret (mkLife (start n) (negb mdns) true true false false false).

Definition start_node (an : Answers) (lf : Life) : Life * option StartError :=
  if negb (an_pubsub an) then (lf, Some ECreatePubSub)
  else if negb (an_join an) then (lf, Some EJoinTopic)
  else
    let lf := set_world (on_node (set_Topic true) (lf_world lf)) lf in
    if negb (an_subscribe an) then (lf, Some ESubscribe)
    else
      (mkLife (lf_world lf) (lf_MDNSDisabled lf) (lf_host lf) (lf_ctx lf) true
         (negb (lf_MDNSDisabled lf) && an_mdns an) true, None).

(** The context is cancelled and the host closed. *)
Definition close_node (lf : Life) : Life :=
  mkLife (lf_world lf) (lf_MDNSDisabled lf) false false (lf_reader lf) (lf_notifee lf) (lf_ticker lf).

(** The assignments of the daemon. *)
Definition set_callbacks (cb : Message -> Message) (n : Node) : Node :=
  mkNode (HostID n) (Topic n) (n_peers n) (Some cb) true true (OnRelay n)
    (n_Forwarder n) (seen n) (encounters n) (sprayed n) (n_SprayBudget n).

(** Whether an input can reach the node. *)
Definition can_arrive (lf : Life) (i : Input) : bool :=
  match i with
  | InStream _ _ | InConnected _ => lf_host lf
  | InPubSub _ _ => lf_reader lf && lf_ctx lf
  | InPeerFound _ => lf_notifee lf
  | InCleanup => lf_ticker lf && lf_ctx lf
  | InLocal _ | InDisconnected _ | InTask _ => true
  end.

Inductive Op := OpStart (an : Answers) | OpCallbacks (cb : Message -> Message) | OpClose | OpInput (i : Input).

Section Life.
Context `{!JSON Message, !JSON DeliveryInfo}.
Context (pid_String : peerID -> string) (peer_Decode : string -> option peerID).
Context (E : Env).

(** One operation; what cannot arrive does not, and [None] is a panic. *)
Definition live (o : Op) (lf : Life) : option Life :=
  match o with
  | OpStart an => Some (start_node an lf).1
  | OpCallbacks cb => Some (set_world (on_node (set_callbacks cb) (lf_world lf)) lf)
  | OpClose => Some (close_node lf)
  | OpInput i =>
      if can_arrive lf i
      then '(_, w) ← handle pid_String peer_Decode E i (lf_world lf); Some (set_world w lf)
      else Some lf
  end.

Fixpoint live_all (os : list Op) (lf : Life) : option Life :=
  match os with
  | [] => Some lf
  | o :: os => lf ← live o lf; live_all os lf
  end.

(** The multiaddresses a node prints, from those of its host. *)
Definition AddrList (addrs : list string) (host : peerID) : list string :=
  (fun a => a +:+ "/p2p/" +:+ pid_String host) <$> addrs.
Definition MultiaddrString (addrs : list string) (host : peerID) : string :=
  match addrs with
  | [] => EmptyString
  | a :: _ => a +:+ "/p2p/" +:+ pid_String host
  end.

End Life.

(** The options that act on the node. *)
Definition options (spray : option Z) : list (Node -> Node) :=
  match spray with Some L => [WithSprayBudget L] | None => [] end.

(** What happens to a node after its start. *)
Definition later (o : Op) : Prop := match o with OpInput _ | OpClose => True | _ => False end.

(** The inputs that reach the node. *)
Fixpoint reaching (os : list Op) (lf : Life) : list Input :=
  match os with
  | OpInput i :: os => if can_arrive lf i then i :: reaching os lf else reaching os lf
  | OpClose :: os => reaching os (close_node lf)
  | _ :: os => reaching os lf
  | [] => []
  end.

Definition all_well : Answers := mkAnswers true true true true true true true.

(** An operation that ends with [Q], or panics, and then [P]; and one that ends inside
    the frame. *)
Definition wp_or {A} (P : Prop) (m : M A) (Q : A -> World -> Prop) (w : World) : Prop :=
  match m w with Some (a, w') => Q a w' | None => P end.
Definition sound {A} (P : Prop) (m : M A) (w : World) : Prop := wp_or P m (fun _ w' => frame w w') w.

(** ** After the start *)

Section Lives.
Context (pid_String : peerID -> string) (peer_Decode : string -> option peerID).
Context (E : Env).
Abbreviation live_all := (live_all pid_String peer_Decode E).
Abbreviation run := (run pid_String peer_Decode E).

(** Whether an input can arrive does not depend on the node's own state. *)
Lemma can_arrive_world w lf i : can_arrive (set_world w lf) i = can_arrive lf i.
Proof. done. Qed.

Lemma reaching_world w lf os : reaching os (set_world w lf) = reaching os lf.
Proof.
  revert lf. induction os as [|[an|cb| |i] os IH]; intros lf; cbn [reaching]; [done | apply IH.. | |].
  - exact (IH (close_node lf)).
  - by rewrite can_arrive_world, !IH.
Qed.

Lemma reaching_in i os lf : i ∈ reaching os lf -> OpInput i ∈ os.
Proof.
  revert lf. induction os as [|o os IH]; intros lf; [by intros ?%elem_of_nil |].
  rewrite elem_of_cons. destruct o as [an|cb| |j]; cbn [reaching]; eauto.
  destruct (can_arrive lf j); [| eauto]. intros [-> | Hi]%elem_of_cons; eauto.
Qed.

Lemma run_cons i inputs w :
  run (i :: inputs) w =
    match handle pid_String peer_Decode E i w with Some (_, w') => run inputs w' | None => None end.
Proof. done. Qed.

(** From the start on, a life is the run of the inputs that reach the node. *)
Lemma live_run os lf :
  Forall later os ->
  live_all os lf =
    ('(_, w) ← run (reaching os lf) (lf_world lf);
     Some (set_world w (foldl (fun lf o => match o with OpClose => close_node lf | _ => lf end) lf os))).
Proof.
  intros Hos. revert lf. induction Hos as [|o os Ho _ IH]; intros lf; [by destruct lf |].
  destruct o as [an|cb| |i]; try done; cbn [Lifecycle.live_all live reaching foldl mbind option_bind].
  - rewrite IH. done.
  - destruct (can_arrive lf i); cbn [mbind option_bind]; [| by rewrite IH].
    rewrite run_cons. destruct (handle _ _ _ i (lf_world lf)) as [[u w]|]; cbn [mbind option_bind]; [| done].
    rewrite IH, reaching_world. cbn [lf_world set_world].
    destruct (run (reaching os lf) w) as [[? w2]|]; cbn [mbind option_bind]; [| done]. f_equal.
    clear. revert lf. induction os as [|[| | |] os IHo]; intros lf; cbn [foldl]; try done; try apply IHo.
    exact (IHo (close_node lf)).
Qed.

(** ** Before the callbacks are set *)

Lemma wp_or_bind {A B} P (m : M A) (k : A -> M B) Q w :
  wp_or P m (fun a w' => wp_or P (k a) Q w') w -> wp_or P (m ≫= k) Q w.
Proof. unfold wp_or, mbind, M_bind. by destruct (m w) as [[a w']|]. Qed.

Lemma wp_or_mono {A} (P P' : Prop) (m : M A) (Q Q' : A -> World -> Prop) w :
  (P -> P') -> (forall a w', Q a w' -> Q' a w') -> wp_or P m Q w -> wp_or P' m Q' w.
Proof. unfold wp_or. destruct (m w) as [[a w']|]; auto. Qed.

Lemma sound_bind {A B} P (m : M A) (k : A -> M B) w :
  sound P m w -> (forall a w', frame w w' -> sound P (k a) w') -> sound P (m ≫= k) w.
Proof.
  unfold sound, wp_or, mbind, M_bind. intros Hm Hk. destruct (m w) as [[a w']|]; [| done].
  specialize (Hk a w' Hm). destruct (k a w') as [[b w2]|]; [by etransitivity | done].
Qed.

Lemma sound_framed {A} P (m : M A) w : framed m w -> sound P m w.
Proof. unfold sound, wp_or, framed, wp. by destruct (m w) as [[a w']|]. Qed.

Lemma sound_get {A} P (k : Node -> M A) w : sound P (k (node w)) w -> sound P (get ≫= k) w.
Proof. done. Qed.

Lemma sound_Publish P l w : P -> is_Some (hp w !! l) -> sound P (Publish E l) w.
Proof.
  intros HP Hl. destruct (Topic (node w)) eqn:Ht; [by apply sound_framed, framed_Publish |].
  destruct Hl as [m Hl]. unfold sound, wp_or, Publish, mbind, M_bind, read. rewrite Hl.
  cbn [mbind option_bind]. destruct (Serialize m); [| exact (frame_refl w)].
  unfold topicPublish, mbind, M_bind, get. by rewrite Ht.
Qed.

(** Sending on a node that may not be started. *)
Lemma sound_SendMessage P l w : P -> is_Some (hp w !! l) -> sound P (SendMessage pid_String peer_Decode E l) w.
Proof.
  intros HP Hl. unfold SendMessage. apply sound_bind; [by apply sound_framed, framed_read | intros m w1 F1].
  apply sound_get. destruct (Serialize m) as [d|]; [| by apply sound_framed, framed_ret].
  assert (is_Some (hp w1 !! l)) as Hl1 by by eapply frame_alive. destruct (_ && _).
  - apply sound_framed. frame_steps; eauto using framed_relay, framed_routeToPeers, frame_alive with framed.
  - apply sound_bind; [apply sound_framed, framed_relay | intros _ w2 F2].
    assert (is_Some (hp w2 !! l)) as Hl2 by by eapply frame_alive.
    destruct (negb _); [| by apply sound_Publish]. destruct (peer_Decode _); [| by apply sound_Publish].
    apply sound_bind; [apply sound_framed, framed_sendDirect | intros [] w3 F3].
    + by apply sound_framed, framed_ret.
    + apply sound_Publish; [done |]. by eapply frame_alive.
Qed.

Lemma sound_eq {A} P (m m' : M A) w : m w = m' w -> sound P m' w -> sound P m w.
Proof. unfold sound, wp_or. by intros ->. Qed.

Lemma sound_new P m (k : loc -> M unit) w :
  (forall w', frame w w' -> is_Some (hp w' !! length (hp w)) -> sound P (k (length (hp w))) w') ->
  sound P (new m ≫= k) w.
Proof.
  intros Hk. pose proof (framed_new m w) as Hf. unfold framed, wp, new, alloc in Hf. cbn in Hf.
  match type of Hf with frame _ ?w1 => set (w1' := w1) in Hf; specialize (Hk w1' Hf) end.
  assert (is_Some (hp w1' !! length (hp w))) as Hnew by (exists m; by apply list_lookup_middle).
  specialize (Hk Hnew). unfold sound, wp_or in *. rewrite (run_bind _ _ (length (hp w)) w w1') by done.
  destruct (k _ w1') as [[[] w2]|]; [by etransitivity | done].
Qed.

Lemma sound_autoAck l m w : hp w !! l = Some m ->
  sound (ackable (pid_String (HostID (node w))) m = true) (autoAck pid_String peer_Decode E l) w.
Proof.
  intros Hl. eapply sound_eq; [exact (autoAck_eq _ _ _ l m w Hl) |].
  destruct (ackable _ m) eqn:Ha; cbn [when]; [| by apply sound_framed, framed_ret].
  do 3 (apply sound_bind; [apply sound_framed, framed_ask | intros ? ? _]).
  apply sound_new. intros w4 _ Hnew. apply sound_bind; [by apply sound_SendMessage | intros _ w5 _].
  by apply sound_framed, framed_ret.
Qed.

(** A first arrival at a node without callbacks is marked, and given to nobody; the
    acknowledgement it may ask for is all that can panic. *)
Lemma deliver_unheard l from m w :
  hp w !! l = Some m -> ID m ∉ seen (node w) -> OnMessage (node w) = None ->
  wp_or (ackable (pid_String (HostID (node w))) m = true)
    (deliverMessage pid_String peer_Decode E l from)
    (fun _ w' => seen (node w') = {[ID m]} ∪ seen (node w) /\
       delivered (trace w') = delivered (trace w) /\ (valid w -> valid w')) w.
Proof.
  intros Hl Hs Hcb. set (w1 := mkWorld (set_seen ({[ID m]} ∪ seen (node w)) (node w)) (hp w) (tasks w) (trace w) (step w)).
  enough (sound (ackable (pid_String (HostID (node w))) m = true)
    (when (negb (bool_decide (from = EmptyString)))
       (now ← ask (clock E); recordEncounter from (unix now));;
     relay E RelayReceived from (HopCount m) m;;
     learnSender peer_Decode m;;
     relayOnward pid_String peer_Decode E l from;;
     mret tt;;
     autoAck pid_String peer_Decode E l) w1) as H.
  { unfold deliverMessage, wp_or. rewrite (run_bind _ _ m w w) by (unfold read; by rewrite Hl).
    rewrite (run_bind _ _ (node w) w w) by done. rewrite bool_decide_eq_false_2 by done.
    erewrite run_bind by reflexivity. rewrite Hcb. unfold sound, wp_or in H.
    change (mkWorld (set_seen ({[ID m]} ∪ seen (node w)) (node w)) (hp w) (tasks w) (trace w) (step w)) with w1.
    match type of H with match ?o with _ => _ end => destruct o as [[u w']|] end; [| done].
    rewrite (fr_seen _ _ H), (frame_delivered _ _ H). split_and!; [done.. | apply (fr_valid _ _ H)]. }
  assert (is_Some (hp w1 !! l)) as Hl1 by by exists m.
  apply sound_bind; [apply sound_framed; frame_steps; apply framed_recordEncounter | intros _ w2 F2].
  apply sound_bind; [apply sound_framed, framed_relay | intros _ w3 F3].
  apply sound_bind; [apply sound_framed, framed_learnSender | intros _ w4 F4].
  apply sound_bind; [apply sound_framed, framed_relayOnward; eauto 8 with framed | intros _ w5 F5].
  assert (frame w1 w5) as F by (do 3 (etransitivity; [eassumption |]); eassumption).
  destruct (fr_heap _ _ F l m Hl) as (m5 & Hl5 & Hcore). pose proof (fr_config _ _ F) as Hc.
  unfold config in Hc. injection Hc as Hh _. cbn [node HostID set_seen w1] in Hh.
  rewrite <- Hh, <- (ackable_core _ _ _ Hcore). by apply sound_autoAck.
Qed.

(** The same for a frame that comes over a stream. *)
Lemma stream_unheard pid data m w :
  DeserializeMessage data = Ret m -> ID m ∉ seen (node w) -> OnMessage (node w) = None ->
  wp_or (ackable (pid_String (HostID (node w))) m = true)
    (handleStream pid_String peer_Decode E pid (Some data))
    (fun _ w' => seen (node w') = {[ID m]} ∪ seen (node w) /\
       delivered (trace w') = delivered (trace w) /\ (valid w -> valid w')) w.
Proof.
  intros Hd Hs Hcb. unfold handleStream. apply wp_or_bind.
  pose proof (framed_addPeer pid w) as F1. unfold framed, wp in F1. unfold wp_or at 1.
  destruct (addPeer pid w) as [[[] w1]|]; [| done].
  rewrite Hd. apply wp_or_bind. unfold wp_or at 1, new, alloc. set (w2 := mkWorld _ _ _ _ _).
  assert (frame w w2) as F by (etransitivity; [exact F1 | exact (framed_new m w1)]).
  pose proof (fr_config _ _ F) as Hc. unfold config in Hc. injection Hc as Hid _ Hon _ _ _ _ _.
  eapply wp_or_mono; [| | apply (deliver_unheard _ _ m w2)].
  - by replace (HostID (node w2)) with (HostID (node w)).
  - intros _ w3 (H1 & H3 & H4). rewrite H1, H3, (fr_seen _ _ F), (frame_delivered _ _ F).
    split_and!; [done.. |]. intros Hv. apply H4, (fr_valid _ _ F), Hv.
  - by apply list_lookup_middle.
  - by rewrite (fr_seen _ _ F).
  - exact (eq_trans Hon Hcb).
Qed.

(** C34: a message that reaches the node before the daemon has set its callbacks is lost
    to the application.  [NewNode] already serves streams; a frame that arrives then is
    marked as seen and given to nobody, and after the callbacks and a successful start
    every other identifier that reaches the node is given exactly once, but this one
    never, however often it is sent again, as long as the cache is not pruned.  If it
    is a message the node acknowledges, it may not come that far: the node is not
    started, and may panic over the acknowledgement. *)
Theorem early_arrival_lost pid spray mdns lf0 p data m cb os :
  open_node all_well pid mdns (options spray) = Ret lf0 ->
  DeserializeMessage data = Ret m ->
  Forall later os -> OpInput InCleanup ∉ os ->
  let arrival := OpInput (InStream p (Some data)) in
  (live pid_String peer_Decode E arrival lf0 = None /\ ackable (pid_String pid) m = true) \/
  exists lf, live_all (arrival :: OpCallbacks cb :: OpStart all_well :: os) lf0 = Some lf /\
    let given := delivered (trace (lf_world lf)) in
    NoDup (ID <$> given) /\
    forall id, id ∈ ID <$> given <->
      id ∈ wire_ids (reaching os (start_node all_well lf0).1) /\ id <> ID m.
Proof.
  intros Ho Hd Hos Hc arrival. injection Ho as <-. set (w0 := start (NewNode pid (options spray))).
  assert (seen (node w0) = ∅ /\ OnMessage (node w0) = None /\ HostID (node w0) = pid) as (Hs0 & Hm0 & Hp0)
    by (unfold w0; destruct spray as [L|]; [| done]; simpl; unfold WithSprayBudget; by destruct (L <=? 0)).
  pose proof (stream_unheard p data m w0) as H. unfold wp_or in H.
  rewrite Hs0, Hp0 in H. specialize (H Hd (not_elem_of_empty _) Hm0).
  cbn [Lifecycle.live_all live arrival can_arrive lf_host lf_world handle mbind option_bind].
  destruct (handleStream _ _ _ p (Some data) w0) as [[u w1]|]; [right | by left]. destruct H as (H1 & H2 & H3).
  cbn [mbind option_bind]. rewrite live_run by done. cbn [lf_world set_world start_node fst].
  set (w2 := on_node (set_Topic true) (on_node (set_callbacks cb) w1)).
  assert (running (delivered (trace w2)) {[ID m]} w2) as Hr.
  { split; [apply H3; constructor | done | by eexists |]. exists []. rewrite app_nil_r.
    split_and!; [done | constructor | by intros id ?%elem_of_nil |].
    intros id. unfold w2. simpl. rewrite H1, union_empty_r_L, elem_of_singleton. split; [by right |].
    by intros [?%elem_of_nil | ?]. }
  set (lf1 := mkLife _ _ _ _ _ _ _).
  change (start_node all_well (set_world _ _)).1 with (set_world w2 (start_node all_well lf1).1).
  rewrite reaching_world. cbn [lf_world set_world]. set (inputs := reaching os _).
  assert (InCleanup ∉ inputs) as Hi by by intros Hin%reaching_in.
  assert (seen (node w2) = {[ID m]}) as Hs by (unfold w2; simpl; by rewrite H1, union_empty_r_L).
  assert (delivered (trace w2) = []) as Hd2 by (unfold w2; simpl; by rewrite H2).
  pose proof (run_period pid_String peer_Decode E {[ID m]} inputs w2 Hi Hr Hs) as H. unfold wp in H.
  destruct (run inputs w2) as [[? w3]|]; [| done]. destruct H as (_ & given & E1 & E2 & E3).
  eexists. split; [reflexivity |]. rewrite Hd2 in E1. cbn [lf_world set_world]. rewrite E1. split; [done |].
  intros id. rewrite E3, elem_of_singleton. done.
Qed.
End Lives.

Lemma early_arrival_lost_witness :
  let data := default [] (json_marshal sample_chat) in
  let arrival := OpInput (InStream "B" (Some data)) in
  exists lf, live_all sample_str sample_decode sample_env
      [arrival; OpCallbacks id; OpStart all_well; arrival; OpInput (InPubSub "C" data); OpClose]
      (mkLife (start (NewNode "A" (options (Some 3)))) true true true false false false) = Some lf /\
    ID sample_chat ∉ ID <$> delivered (trace (lf_world lf)).
Proof.
  intros data arrival.
  destruct (early_arrival_lost sample_str sample_decode sample_env "A" (Some 3) false
    (mkLife (start (NewNode "A" (options (Some 3)))) true true true false false false) "B" data sample_chat id
    [arrival; OpInput (InPubSub "C" data); OpClose])
    as [[_ Hack] | (lf & H & _ & Hg)]; [reflexivity | vm_compute; reflexivity | by repeat constructor | | |].
  - intros Hin. repeat (apply elem_of_cons in Hin as [Hin | Hin]; [discriminate |]). by apply elem_of_nil in Hin.
  - discriminate Hack.
  - exists lf. split; [exact H |]. intros [_ Hne]%Hg. by apply Hne.
Defined.
