(* ===== verification/Network.v ===== *)
(** * Several mesh nodes

    The nodes of [Mesh] connected by streams: what one node sends to a peer becomes a
    flight, and a delivery hands a flight's bytes to the stream handler of the node
    it is for.  Shows what the per-node accounting of the spray budget means for the
    network as a whole: it bounds what one carrier hands on, not the copies there are. *)

From S2P Require Import Prelude Float64 Json GoJson Message MessageJson Heap Routing Mesh MeshSpec.
From S2P Require Import MeshProps MeshRouting MeshRelay.

Record Flight := mkFlight { fl_from : peerID; fl_to : peerID; fl_data : bytes }.

Record Net := mkNet {
  nodes : gmap peerID World;
  flights : list Flight
}.

Section Network.
Context `{!JSON Message, !JSON DeliveryInfo}.
Context (pid_String : peerID -> string) (peer_Decode : string -> option peerID).
Context (E : Env).

(** A node handles an input; the streams it opens are new flights. *)
Definition net_handle (me : peerID) (i : Input) (net : Net) : option Net :=
  w ← nodes net !! me;
  '(_, w') ← handle pid_String peer_Decode E i w;
  let out := drop (length (sends (trace w))) (sends (trace w')) in
  Some (mkNet (<[me := w']> (nodes net))
          (flights net ++ map (fun pd => mkFlight me pd.1 pd.2) out)).

(** The oldest flight arrives; a flight to nobody is lost. *)
Definition net_deliver (net : Net) : option Net :=
  match flights net with
  | [] => Some net
  | f :: rest =>
      let net := mkNet (nodes net) rest in
      match nodes net !! fl_to f with
      | None => Some net
      | Some _ => net_handle (fl_to f) (InStream (fl_from f) (Some (fl_data f))) net
      end
  end.

Fixpoint net_deliver_all (fuel : nat) (net : Net) : option Net :=
  match fuel with
  | O => Some net
  | S fuel => net ← net_deliver net; net_deliver_all fuel net
  end.

(** The nodes that hold a copy of a message: its originator and every node it
    reached. *)
Definition carriers (origin : peerID) (id : string) (net : Net) : list peerID :=
  (filter (fun kw => kw.1 = origin \/ id ∈ seen (node kw.2)) (map_to_list (nodes net))).*1.

End Network.

(** Seven nodes with budget [L] = 4 and their contacts; the destination "Z" is not in
    view of any. *)
Definition carrier (L : Z) (me : peerID) (contacts : gset peerID) : World :=
  mkWorld (set_Topic true (set_peers contacts (WithSprayBudget L (NewNode me [])))) [] [] [] 0.

Definition crowd : Net := mkNet
  (list_to_map
     [("A"%string, carrier 4 "A" {["B"; "C"; "D"]}); ("B"%string, carrier 4 "B" {["A"; "E"; "F"]});
      ("C"%string, carrier 4 "C" {["A"; "G"]}); ("D"%string, carrier 4 "D" {["A"]});
      ("E"%string, carrier 4 "E" {["B"]}); ("F"%string, carrier 4 "F" {["B"]});
      ("G"%string, carrier 4 "G" {["C"]})]) [].

Definition crowd_msg : Message := NewChat (str_bytes "id") 7 "A" "ann" "Z" "hello".

(** The state of [crowd] once "A" has sent the message and nothing is in flight. *)
Definition crowd_settled : option Net :=
  net ← net_handle sample_str sample_decode sample_env "A" (InLocal crowd_msg) crowd;
  net_deliver_all sample_str sample_decode sample_env 10 net.

(** What is claimed of the settled crowd, as a decidable check. *)
Definition settled_check (o : option Net) : Prop :=
  match o with
  | None => False
  | Some net =>
      flights net = [] /\ map_Forall (fun _ w => n_SprayBudget (node w) = 4) (nodes net) /\
      length (carriers "A" (ID crowd_msg) net) = 7%nat /\
      NoDup (carriers "A" (ID crowd_msg) net)
  end.
#[export] Instance Flight_eq_dec : EqDecision Flight.
Proof. solve_decision. Defined.
#[export] Instance settled_check_dec o : Decision (settled_check o).
Proof. destruct o; simpl; apply _. Defined.

(** ** What a carrier hands on *)

(** The bytes of a message with a copy count. *)
Definition wire_bytes (c : Z) (m : Message) : bytes := default [] (Serialize (set_CopiesMade c m)).

(** A carrier that has not handed on [m] yet, with [room] peers in view that could take
    a copy of it. *)
Record ready (str : peerID -> string) (L : Z) (n : Node) (from : string) (m : Message) (room : Z) : Prop := mkReady {
  rd_sprays : sprays L n;
  rd_ledger : ledger n (ID m) = ∅;
  rd_view : exists ps, NoDup ps /\ room <= Z.of_nat (length ps) /\
              Forall (fun p => eligible str n from p /\ str p <> Recipient m) ps
}.

(** The streams to somebody else than the destination. *)
Definition others (str : peerID -> string) (m : Message) (out : list (peerID * bytes))
    : list (peerID * bytes) := filter (fun pd => str pd.1 <> Recipient m) out.

(** The copies of [m] up to number [L], one for each of some peers in view. *)
Definition copies_to (str : peerID -> string) (L : Z) (n : Node) (from : string) (m : Message)
    (out : list (peerID * bytes)) : Prop :=
  exists rs : list (peerID * Z),
    others str m out = (fun pc => (pc.1, wire_bytes pc.2 m)) <$> rs /\
    rs.*2 = seqZ (CopiesMade m + 1) (L - CopiesMade m) /\
    NoDup (str <$> rs.*1) /\
    Forall (fun p => eligible str n from p /\ str p <> Recipient m) rs.*1.

(** What an arrival over a stream from [from] does to a node before it relays. *)
Record calm (from : peerID) (w w' : World) : Prop := mkCalm {
  cl_heap : hp w' = hp w;
  cl_config : config (node w') = config (node w);
  cl_sprayed : sprayed (node w') = sprayed (node w);
  cl_sends : sends (trace w') = sends (trace w);
  cl_enc : wf_encounters (node w) -> wf_encounters (node w');
  cl_more : n_peers (node w) ⊆ n_peers (node w');
  cl_less : n_peers (node w') ⊆ {[from]} ∪ n_peers (node w)
}.

Lemma plan_data_others str m plan :
  others str m (plan_data m plan) = (fun pc => (pc.1, wire_bytes pc.2 m)) <$> relays str (Recipient m) plan.
Proof.
  unfold others, relays. induction plan as [|[p c] plan IH]; [done |].
  change (plan_data m ((p, c) :: plan)) with (copy_data (set_CopiesMade c m) p ++ plan_data m plan).
  rewrite filter_app, IH. unfold copy_data.
  destruct (Serialize_some (set_CopiesMade c m)) as [d Hd]. rewrite Hd, !filter_cons. cbn [fst].
  destruct (decide (str p <> Recipient m)); cbn [app fmap list_fmap fst snd]; [| done].
  assert (wire_bytes c m = d) as -> by (unfold wire_bytes; by rewrite Hd). done.
Qed.

#[export] Instance calm_refl from : Reflexive (calm from).
Proof. intros w. by constructor; try set_solver. Qed.

#[export] Instance calm_trans from : Transitive (calm from).
Proof.
  intros w1 w2 w3 [] []. constructor; [congruence.. | auto | set_solver | set_solver].
Qed.

Section Carriers.
Context (pid_String : peerID -> string) (peer_Decode : string -> option peerID).
Context (E : Env).

(** A carrier in a crowd uses its budget up. *)
Lemma spray_full L l from m w :
  Inj eq eq pid_String -> fair E -> ready pid_String L (node w) from m (L - CopiesMade m) ->
  hp w !! l = Some m -> 0 <= CopiesMade m <= L ->
  wp (routeToPeers pid_String E l from) (fun _ w' => exists out,
    sends (trace w') = sends (trace w) ++ out /\ copies_to pid_String L (node w) from m out) w.
Proof.
  intros Hinj Hfair [Hs Hled (ps & Hps & Hlen & Hview)] Hl Hc.
  pose proof (sp_int _ _ Hs) as HL.
  eapply wp_mono; [| apply (routeToPeers_plan pid_String E L l from m w Hs Hl); int_lia].
  intros _ w' (_ & _ & Hsend & _). set (cands := candidates _ _ _ _) in Hsend.
  rewrite Hled in Hsend. set (plan := spray_plan _ _ _ _ _ _) in Hsend.
  exists (plan_data m plan). split; [exact Hsend |]. exists (relays pid_String (Recipient m) plan).
  assert (NoDup cands) as Hnd by by apply candidates_NoDup.
  assert (Z.of_nat (length (relays pid_String (Recipient m) plan)) = L - CopiesMade m) as Hcount.
  { unfold plan. rewrite plan_relays, plan_copies_exact; [| by apply NoDup_fmap_2 | lia].
    match goal with |- context [length ?fresh] => assert (ps ⊆+ fresh) as Hsub%submseteq_length end; [| lia].
    apply NoDup_submseteq; [done |]. intros p Hp. rewrite list.Forall_forall in Hview.
    destruct (Hview p Hp). apply list_elem_of_filter. split; [set_solver |].
    by apply (candidates_elem pid_String E from (mkWorld (node w) (hp w) (tasks w) (trace w) (S (step w)))). }
  destruct (plan_relays_fresh pid_String L (Recipient m) ∅ (CopiesMade m) cands) as [Hfresh _].
  fold plan in Hfresh. split_and!.
  - apply plan_data_others.
  - unfold plan. rewrite plan_relay_counts. fold plan. by rewrite Hcount.
  - by rewrite <- (fmap_fst pid_String).
  - apply list.Forall_forall. intros p (pc & -> & Hpc)%list_elem_of_fmap.
    apply list_elem_of_filter in Hpc as [Hne Hpc]. split; [| done].
    apply (candidates_elem pid_String E from (mkWorld (node w) (hp w) (tasks w) (trace w) (S (step w))) pc.1); [done |].
    eapply elem_of_sublist; [| apply (plan_sublist pid_String L (Recipient m) ∅ (CopiesMade m) cands)].
    by apply list_elem_of_fmap_2.
Qed.

Lemma calm_addPeer from w : wp (addPeer from) (fun _ w' => calm from w w') w.
Proof.
  unfold addPeer. wp_pure. destruct (bool_decide _); [| by apply reflexivity].
  wp_pure. simpl. destruct (OnPeerJoin (node w)); wp_pure; constructor; simpl; try done; try set_solver.
  rewrite sends_app. apply app_nil_r.
Qed.

Lemma calm_relay from a f hops m w : wp (relay E a f hops m) (fun _ w' => calm from w w') w.
Proof.
  eapply wp_mono; [| apply relay_spec]. intros _ w' (H1 & H2 & H3 & H4 & _).
  constructor; rewrite ?H2; (congruence || done || set_solver).
Qed.

Lemma calm_recordEncounter from p t w : wp (recordEncounter p t) (fun _ w' => calm from w w') w.
Proof.
  pose proof (framed_recordEncounter p t w) as Hf. unfold framed in Hf.
  constructor; try done; try set_solver. exact (fr_enc _ _ Hf).
Qed.

(** What a first arrival does before the relaying. *)
Lemma calm_arrival origin from m w (k : M unit) Q :
  peer_Decode (Sender m) = Some origin ->
  (forall w', calm origin w w' -> wp k Q w') ->
  wp (when (negb (bool_decide (from = EmptyString)))
        (now ← ask (clock E); recordEncounter from (unix now));;
      relay E RelayReceived from (HopCount m) m;;
      learnSender peer_Decode m;; k) Q w.
Proof.
  intros Hd Hk.
  assert (forall w1, calm origin w w1 ->
    wp (relay E RelayReceived from (HopCount m) m;; learnSender peer_Decode m;; k) Q w1) as Hrest.
  { intros w1 C1. apply wp_bind. eapply wp_mono; [| apply (calm_relay origin)]. intros ? w2 C2.
    apply wp_bind. unfold learnSender. apply wp_bind, wp_get. rewrite Hd. apply wp_when.
    assert (calm origin w w2) as C by (transitivity w1; assumption).
    destruct (negb _); [| by apply Hk].
    eapply wp_mono; [| apply calm_addPeer]. intros ? w3 C3. apply Hk. transitivity w2; assumption. }
  apply wp_bind, wp_when. destruct (negb _); [| by apply Hrest].
  apply wp_bind, wp_ask. intros t. eapply wp_mono; [| apply (calm_recordEncounter origin)].
  intros ? w1 C1. apply Hrest. transitivity (mkWorld (node w) (hp w) (tasks w) (trace w) (S (step w))); [| exact C1].
  by constructor; try set_solver.
Qed.
Lemma calm_eligible origin w w' p : calm origin w w' ->
  pid_String origin <> EmptyString ->
  eligible pid_String (node w') (pid_String origin) p <-> eligible pid_String (node w) (pid_String origin) p.
Proof.
  intros C Hne. pose proof (cl_config _ _ _ C) as Hc. unfold config in Hc. injection Hc as Hh _.
  pose proof (cl_more _ _ _ C p). pose proof (cl_less _ _ _ C p). unfold eligible. rewrite Hh.
  destruct (decide (p = origin)) as [-> |]; [tauto | set_solver].
Qed.

Lemma calm_ready origin L m room w w' : calm origin w w' -> pid_String origin <> EmptyString ->
  ready pid_String L (node w) (pid_String origin) m room ->
  ready pid_String L (node w') (pid_String origin) m room.
Proof.
  intros C Hne [[S1 S2 S3 S4 S5] Hl (ps & H1 & H2 & H3)].
  pose proof (cl_config _ _ _ C) as Hc. unfold config in Hc. injection Hc as _ _ _ _ _ _ Hf Hb.
  constructor.
  - constructor; rewrite ?Hf, ?Hb; [done.. |]. by apply (cl_enc _ _ _ C).
  - unfold ledger in *. by rewrite (cl_sprayed _ _ _ C).
  - exists ps. split_and!; [done.. |]. eapply Forall_impl; [exact H3 |]. intros p [? ?].
    by rewrite (calm_eligible origin w w').
Qed.

(** A message as it leaves after an arrival: same identity, same addressee. *)
Lemma ready_same L n from m m' room :
  ID m' = ID m -> Recipient m' = Recipient m ->
  ready pid_String L n from m room -> ready pid_String L n from m' room.
Proof. intros Hi Hr [H1 H2 H3]. constructor; [done | by rewrite Hi | by rewrite Hr]. Qed.

(** Relaying uses the budget up, and leaves the object addressed as it was. *)
Lemma relay_full L l from m w :
  Inj eq eq pid_String -> fair E -> ready pid_String L (node w) from m (L - CopiesMade m) ->
  hp w !! l = Some m -> 0 <= CopiesMade m <= L -> Recipient m <> EmptyString ->
  notOurs peer_Decode (HostID (node w)) m = true -> 0 < TTL m ->
  wp (relayOnward pid_String peer_Decode E l from) (fun _ w' =>
    config (node w') = config (node w) /\
    (exists m', hp w' !! l = Some m' /\ Recipient m' = Recipient m) /\
    exists out, sends (trace w') = sends (trace w) ++ out /\
      copies_to pid_String L (node w) from (DecrementTTL m) out) w.
Proof.
  intros Hinj Hf Hr Hl Hc Hne Ho Ht.
  pose proof (framed_relayOnward pid_String peer_Decode E l from w (ex_intro _ m Hl)) as Hfr.
  assert (wp (relayOnward pid_String peer_Decode E l from) (fun _ w' =>
    exists out, sends (trace w') = sends (trace w) ++ out /\
      copies_to pid_String L (node w) from (DecrementTTL m) out) w) as Hout.
  { destruct (DecrementTTL_fields m) as (Hi & _ & _ & Hrc & _ & Hcm & _).
    apply (relayOnward_routes _ _ E L l from m w _ Hl Ho Ht (rd_sprays _ _ _ _ _ _ Hr) Hne).
    intros w1 Hn _ Htr Hl1. rewrite <- Hn, <- Htr.
    apply spray_full; [done.. | | done | by rewrite Hcm].
    rewrite Hcm, Hn. by apply (ready_same L _ from m). }
  unfold framed, wp in *. destruct (relayOnward _ _ _ _ _ w) as [[[] w']|]; [| done].
  split_and!; [apply Hfr | | done]. destruct (fr_heap _ _ Hfr l m Hl) as (m' & Hl' & Hcore).
  exists m'. split; [done | apply Hcore].
Qed.

(** A first arrival at a carrier in a crowd. *)
Lemma deliver_full L l origin m w :
  Inj eq eq pid_String -> fair E -> pid_String origin <> EmptyString ->
  ready pid_String L (node w) (pid_String origin) m (L - CopiesMade m) ->
  hp w !! l = Some m -> ID m ∉ seen (node w) -> 0 <= CopiesMade m <= L ->
  Recipient m <> EmptyString -> Recipient m <> pid_String (HostID (node w)) ->
  peer_Decode (Sender m) = Some origin -> origin <> HostID (node w) -> 0 < TTL m ->
  (forall cb, OnMessage (node w) = Some cb -> forall m, Recipient (cb m) = Recipient m) ->
  wp (deliverMessage pid_String peer_Decode E l (pid_String origin)) (fun _ w' =>
    exists out, sends (trace w') = sends (trace w) ++ out /\
      copies_to pid_String L (node w) (pid_String origin) (DecrementTTL m) out) w.
Proof.
  intros Hinj Hf Hne Hr Hl Hs Hc Hrec Hhost Hd Ho Ht Hcb. unfold deliverMessage.
  apply wp_bind, (wp_read _ m); [done |]. apply wp_bind, wp_get.
  rewrite bool_decide_eq_false_2 by done. apply wp_bind, wp_update. set (w0 := mkWorld _ _ _ _ _).
  apply (calm_arrival origin); [done |]. intros w1 C.
  pose proof (cl_config _ _ _ C) as Hcf. unfold config in Hcf. injection Hcf as Eh _ Em _ _ _ _ _.
  cbn [node HostID OnMessage set_seen w0] in Eh, Em.
  apply wp_bind. eapply wp_mono; [| apply (relay_full L l (pid_String origin) m w1); try done].
  2: { apply (calm_ready origin L m _ w0 w1 C Hne). destruct Hr as [[] ? ?]. by constructor. }
  2: { by rewrite (cl_heap _ _ _ C). }
  2: { unfold notOurs. by rewrite Hd, Eh, bool_decide_eq_false_2. }
  intros _ w2 (Hc2 & (m' & Hl2 & Hr2) & out & Hsend & rs & H1 & H2 & H3 & H4).
  unfold config in Hc2. injection Hc2 as Eh2 _.
  assert (sends (trace w2) = sends (trace w) ++ out) as Hsend' by by rewrite Hsend, (cl_sends _ _ _ C).
  assert (copies_to pid_String L (node w) (pid_String origin) (DecrementTTL m) out) as Hcopies.
  { exists rs. split_and!; [done.. |]. eapply Forall_impl; [exact H4 |]. intros p [Hp ?]. split; [| done].
    by apply (calm_eligible origin w0 w1 p C Hne) in Hp. }
  assert (forall w3 m3, sends (trace w3) = sends (trace w2) -> node w3 = node w2 -> hp w3 !! l = Some m3 ->
    Recipient m3 = Recipient m ->
    wp (autoAck pid_String peer_Decode E l) (fun _ w' => exists out, sends (trace w') = sends (trace w) ++ out /\
      copies_to pid_String L (node w) (pid_String origin) (DecrementTTL m) out) w3) as Hack.
  { intros w3 m3 Ht3 Hn3 Hl3 Hrm3. eapply wp_mono; [| apply (autoAck_skip _ _ _ l m3 w3 Hl3)].
    - intros _ ? ->. exists out. split; [congruence | done].
    - unfold ackable. rewrite Hn3, Eh2, Eh, Hrm3. by rewrite bool_decide_eq_false_2. }
  destruct (OnMessage (node w)) as [cb|] eqn:Hcbw; [| by apply wp_bind, wp_ret, (Hack w2 m')].
  apply wp_bind, wp_bind, (wp_read _ m'); [done |]. apply wp_bind, wp_emit, wp_write.
  apply (Hack _ (cb m')); [| done | exact (modify_lookup _ _ _ _ Hl2) | by rewrite (Hcb cb)].
  cbn [trace]. rewrite sends_app. apply app_nil_r.
Qed.

(** A message of the node's own, in a crowd. *)
Lemma send_full L m w :
  Inj eq eq pid_String -> fair E -> ready pid_String L (node w) EmptyString m (L - 1) ->
  CopiesMade m = 0 -> Recipient m <> EmptyString ->
  wp (handle pid_String peer_Decode E (InLocal m)) (fun _ w' =>
    exists out, sends (trace w') = sends (trace w) ++ out /\
      copies_to pid_String L (node w) EmptyString (set_CopiesMade 1 m) out) w.
Proof.
  intros Hinj Hf Hr Hc Hrec. pose proof (rd_sprays _ _ _ _ _ _ Hr) as Hs.
  pose proof (sp_pos _ _ Hs) as HL. cbn [handle]. apply wp_bind, wp_new.
  set (l := length (hp w)). assert ((hp w ++ [m]) !! l = Some m) as Hl by by apply list_lookup_middle.
  apply wp_bind. unfold SendMessage. apply wp_bind, (wp_read _ m); [done |]. apply wp_bind, wp_get.
  destruct (Serialize_some m) as [d ->]. cbn [node].
  rewrite (sp_budget _ _ Hs), (proj2 (Z.ltb_lt _ _) HL), bool_decide_eq_false_2 by done. cbn [negb andb].
  apply wp_bind, wp_when. rewrite Hc. cbn [Z.ltb Z.compare]. apply wp_write.
  set (w1 := mkWorld _ _ _ _ _).
  assert (hp w1 !! l = Some (set_CopiesMade 1 m)) as Hl1 by exact (modify_lookup _ _ _ _ Hl).
  apply wp_bind, (wp_read _ (set_CopiesMade 1 m)); [done |].
  apply wp_bind. eapply wp_mono; [| apply relay_spec]. intros _ w2 (H1 & H2 & _ & H4 & _).
  apply wp_bind. eapply wp_mono; [| apply (spray_full L l EmptyString (set_CopiesMade 1 m) w2); try done].
  - intros _ w3 (out & Hout & Hcopies). apply wp_ret, wp_ret. exists out. rewrite H2 in Hcopies.
    split; [by rewrite Hout, H4 | exact Hcopies].
  - rewrite H2. by apply (ready_same L _ EmptyString m).
  - by rewrite H1.
  - cbn [CopiesMade set_CopiesMade]. lia.
Qed.

Lemma wire_decodes c m : Message_ok m -> ID m <> EmptyString -> is_int64 c ->
  DeserializeMessage (wire_bytes c m) = Ret (set_CopiesMade c m).
Proof.
  intros Hm Hid Hc. unfold wire_bytes.
  assert (Message_ok (set_CopiesMade c m)) as Hok by (destruct m; unfold Message_ok in *; cbn in *; tauto).
  destruct (@json_roundtrip _ _ Message_json_law _ Hok) as (b & Hb & Hu).
  assert (Serialize (set_CopiesMade c m) = Some b) as -> by exact Hb.
  change (default [] (Some b)) with b. unfold DeserializeMessage. rewrite Hu. by rewrite bool_decide_eq_false_2 by by destruct m.
Qed.

(** A copy on the wire arrives at a carrier in a crowd. *)
Lemma stream_full L origin c m w :
  Inj eq eq pid_String -> fair E -> pid_String origin <> EmptyString ->
  Message_ok m -> ID m <> EmptyString -> 0 <= c <= L ->
  ready pid_String L (node w) (pid_String origin) m (L - c) ->
  ID m ∉ seen (node w) -> Recipient m <> EmptyString -> Recipient m <> pid_String (HostID (node w)) ->
  peer_Decode (Sender m) = Some origin -> origin <> HostID (node w) -> 0 < TTL m ->
  (forall cb, OnMessage (node w) = Some cb -> forall m, Recipient (cb m) = Recipient m) ->
  wp (handle pid_String peer_Decode E (InStream origin (Some (wire_bytes c m)))) (fun _ w' =>
    exists out, sends (trace w') = sends (trace w) ++ out /\
      copies_to pid_String L (node w) (pid_String origin) (DecrementTTL (set_CopiesMade c m)) out) w.
Proof.
  intros Hinj Hf Hne Hok Hid Hc Hr Hs Hrec Hhost Hd Ho Ht Hcb. cbn [handle]. unfold handleStream.
  pose proof (framed_addPeer origin w) as Hfr. pose proof (calm_addPeer origin w) as HC.
  apply wp_bind. unfold framed, wp at 1 in Hfr. unfold wp at 1 in HC. unfold wp at 1.
  destruct (addPeer origin w) as [[[] w1]|]; [| done].
  pose proof (cl_config _ _ _ HC) as Hcf. unfold config in Hcf. injection Hcf as Eh _ Em _ _ _ _ _.
  pose proof (sp_int _ _ (rd_sprays _ _ _ _ _ _ Hr)).
  rewrite wire_decodes by (done || int_lia). apply wp_bind, wp_new. set (w2 := mkWorld _ _ _ _ _).
  eapply wp_mono; [| apply (deliver_full L _ origin (set_CopiesMade c m) w2); try done].
  - intros _ w3 (out & Hout & rs & H1 & H2 & H3 & H4). exists out.
    split; [rewrite Hout; cbn [trace w2]; by rewrite (cl_sends _ _ _ HC) |].
    exists rs. split_and!; [done.. |]. eapply Forall_impl; [exact H4 |]. intros p [Hp ?]. split; [| done].
    by apply (calm_eligible origin w w1 p HC Hne) in Hp.
  - apply (ready_same L _ _ m); [done.. |].
    cbn [CopiesMade set_CopiesMade node w2]. by apply (calm_ready origin L m _ w w1).
  - by apply list_lookup_middle.
  - cbn [node w2]. by rewrite (fr_seen _ _ Hfr).
  - cbn [node w2]. by rewrite Eh.
  - cbn [node w2]. by rewrite Eh.
  - cbn [node w2]. by rewrite Em.
Qed.
End Carriers.

(** How many copies there are, and for whom. *)
Lemma copies_to_length str L n from m out : CopiesMade m <= L -> copies_to str L n from m out ->
  Z.of_nat (length (others str m out)) = L - CopiesMade m.
Proof.
  intros Hc (rs & -> & H2 & _). rewrite length_fmap, <- (length_fmap snd), H2, length_seqZ. lia.
Qed.

Lemma copies_to_peers str L n from m out : copies_to str L n from m out ->
  NoDup (str <$> (others str m out).*1) /\
  Forall (fun p => eligible str n from p /\ str p <> Recipient m) (others str m out).*1.
Proof.
  intros (rs & -> & _ & H3 & H4).
  assert (((fun pc => (pc.1, wire_bytes pc.2 m)) <$> rs).*1 = rs.*1) as -> by by rewrite <- list_fmap_compose.
  done.
Qed.

Lemma copies_to_first str L n from m out : CopiesMade m < L -> copies_to str L n from m out ->
  exists p, (p, wire_bytes (CopiesMade m + 1) m) ∈ others str m out /\ eligible str n from p /\ str p <> Recipient m.
Proof.
  intros Hc (rs & -> & H2 & _ & H4). rewrite seqZ_cons in H2 by lia.
  destruct rs as [|[p c] rs]; [done |]. injection H2 as -> _. exists p.
  split; [by left |]. by apply Forall_cons in H4 as [? _].
Qed.

Lemma others_same str m m' out : Recipient m' = Recipient m -> others str m' out = others str m out.
Proof. intros Hr. unfold others. by rewrite Hr. Qed.

(** The nodes of two carriers' copies. *)
Lemma receivers_distinct str (nA nB : Node) m outA outB :
  str (HostID nA) <> EmptyString ->
  NoDup (str <$> (others str m outA).*1) -> NoDup (str <$> (others str m outB).*1) ->
  Forall (fun p => eligible str nA EmptyString p) (others str m outA).*1 ->
  Forall (fun p => eligible str nB (str (HostID nA)) p) (others str m outB).*1 ->
  (forall p q, eligible str nA EmptyString p -> eligible str nB (str (HostID nA)) q -> str p <> str q) ->
  NoDup (str (HostID nA) :: (str <$> (others str m outA ++ others str m outB).*1)).
Proof.
  intros Hne HA HB FA FB Hdis. rewrite list.Forall_forall in FA, FB. apply NoDup_cons. split.
  - intros (p & Hp & Hin)%list_elem_of_fmap. rewrite fmap_app in Hin.
    apply elem_of_app in Hin as [Hin | Hin]; [destruct (FA p Hin) as (_ & ? & _) | destruct (FB p Hin) as (_ & _ & Hfr)].
    + congruence.
    + by apply Hfr.
  - rewrite !fmap_app. apply NoDup_app. split_and!; [done | | done].
    intros x (p & -> & Hp)%list_elem_of_fmap (q & Hq & Hin)%list_elem_of_fmap.
    by apply (Hdis p q); auto.
Qed.

(** ** Properties *)


(** The crowd above: all seven nodes end up with a copy, under a budget of 4. *)
Lemma crowd_copies :
  exists net, crowd_settled = Some net /\ flights net = [] /\
    (forall me w, nodes net !! me = Some w -> n_SprayBudget (node w) = 4) /\
    length (carriers "A" (ID crowd_msg) net) = 7%nat /\
    NoDup (carriers "A" (ID crowd_msg) net).
Proof.
  assert (bool_decide (settled_check crowd_settled) = true) as H by (vm_compute; reflexivity).
  apply bool_decide_eq_true in H. destruct crowd_settled as [net|]; [| done].
  destruct H as (H1 & H2 & H3 & H4). exists net. split_and!; [done.. | | done | done].
  intros me w Hw. by apply (H2 me).
Qed.

(** A carrier of the examples can hand on to its contacts. *)
Lemma carrier_ready me from contacts room :
  room <= Z.of_nat (size contacts) -> "Z"%string ∉ contacts -> me ∉ contacts -> from ∉ contacts ->
  ready sample_str 4 (node (carrier 4 me contacts)) from crowd_msg room.
Proof.
  intros Hroom HZ Hme Hfrom. constructor.
  - split; [done | done | int_lia | done |]. by intros p s.
  - done.
  - exists (elements contacts). split_and!; [apply NoDup_elements | exact Hroom |].
    apply list.Forall_forall. intros p Hp%elem_of_elements. unfold eligible, sample_str.
    change (n_peers (node (carrier 4 me contacts))) with contacts.
    change (HostID (node (carrier 4 me contacts))) with me.
    change (Recipient crowd_msg) with "Z"%string. set_solver.
Qed.

