(* ===== verification/Sos.v ===== *)
(** * SOS alerts (pkg/sos/sos.go)

    The manager of emergency alerts on top of a mesh node: its state is added to the
    node's world, its callbacks and acknowledgement goroutines are recorded.
    Between the two critical sections of [HandleIncomingSOS] other goroutines may
    run ([intr]). *)

From S2P Require Import Prelude Float64 Json Message Heap Mesh.

Definition MaxTTL : Z := 64.
(** In nanoseconds. *)
Definition ReBroadcastEvery : Z := 30 * 10 ^ 9.
Definition ActiveDuration : Z := 60 * 60 * 10 ^ 9.

Record ActiveAlert := mkAlert {
  al_Message : loc;
  al_Payload : SOSPayload;
  al_StartedAt : Z;
  al_ExpiresAt : Z;
  al_AckCount : Z;
  al_ReceivedAt : Z;
  al_SenderPeer : peerID
}.

Definition set_ReceivedAt (t : Z) (a : ActiveAlert) : ActiveAlert :=
  mkAlert (al_Message a) (al_Payload a) (al_StartedAt a) (al_ExpiresAt a) (al_AckCount a) t
    (al_SenderPeer a).
Definition set_AckCount (n : Z) (a : ActiveAlert) : ActiveAlert :=
  mkAlert (al_Message a) (al_Payload a) (al_StartedAt a) (al_ExpiresAt a) n (al_ReceivedAt a)
    (al_SenderPeer a).

(** The callbacks towards the bridge. *)
Inductive SosNote :=
| OnSOSReceived (id : string)
| OnSOSExpired (id : string)
| OnSOSAck (id : string) (peer : string).

(** [acks]: the acknowledgement goroutines that have not run. *)
Record Sos := mkSos {
  alerts : gmap string ActiveAlert;
  sos_notes : list SosNote;
  acks : list (peerID * Message);
  base : World
}.

Definition set_alerts (a : gmap string ActiveAlert) (s : Sos) : Sos :=
  mkSos a (sos_notes s) (acks s) (base s).

(** ** The monad *)

Definition SM (A : Type) : Type := Sos -> option (A * Sos).

#[global] Instance SM_ret : MRet SM := fun A a s => Some (a, s).
#[global] Instance SM_bind : MBind SM := fun A B k m s =>
  match m s with
  | Some (a, s') => k a s'
  | None => None
  end.

Definition lift {A} (m : M A) : SM A := fun s =>
  match m (base s) with
  | Some (a, w) => Some (a, mkSos (alerts s) (sos_notes s) (acks s) w)
  | None => None
  end.
Definition sget : SM (gmap string ActiveAlert) := fun s => Some (alerts s, s).
Definition supdate (f : gmap string ActiveAlert -> gmap string ActiveAlert) : SM unit :=
  fun s => Some (tt, set_alerts (f (alerts s)) s).
Definition snote (n : SosNote) : SM unit :=
  fun s => Some (tt, mkSos (alerts s) (sos_notes s ++ [n]) (acks s) (base s)).
Definition sspawn (p : peerID) (m : Message) : SM unit :=
  fun s => Some (tt, mkSos (alerts s) (sos_notes s) (acks s ++ [(p, m)]) (base s)).

Inductive SosError := EParse (e : ParseError) | EDecodeSender | ESend (e : SendError).

Section SOS.
Context `{!JSON Message, !JSON DeliveryInfo, !JSON SOSPayload}.
Context (pid_String : peerID -> string) (peer_Decode : string -> option peerID).
Context (E : Env).

Definition now : SM Z := lift (ask (clock E)).

(** [&ActiveAlert{...}]; the three readings of the clock. *)
Definition new_alert (l : loc) (p : SOSPayload) (sender : peerID) : SM ActiveAlert :=
  t1 ← now;
  t2 ← now;
  t3 ← now;
  mret (mkAlert l p t1 (t2 + ActiveDuration) 0 t3 sender).

Definition SendAlert (sender senderNick text : string) (urgency : SOSUrgency)
    (lat lon accuracy : F64.f64) : SM (outcome SosError string) :=
  let urgency := if bool_decide (urgency = EmptyString) then SOSUrgencyHigh else urgency in
  e ← lift (ask (entropy E));
  t_ms ← now;
  t ← now;
  let msg := NewSOS e (t_ms / 10 ^ 6) t sender senderNick text urgency lat lon accuracy in
  match ParseSOSPayload msg with
  | Fail err => mret (Fail (EParse err))
  | Panic => mret Panic
  | Ret payload =>
      l ← lift (new msg);
      n ← lift get;
      alert ← new_alert l payload (HostID n);
      supdate (<[ID msg := alert]>);;
      r ← lift (SendMessage pid_String peer_Decode E l);
      match r with
      | Some err => supdate (delete (ID msg));; mret (Fail (ESend err))
      | None => snote (OnSOSReceived (ID msg));; mret (Ret (ID msg))
      end
  end.

Definition HandleIncomingSOS (intr : gmap string ActiveAlert -> gmap string ActiveAlert)
    (l : loc) : SM (option SosError) :=
  msg ← lift (read l);
  match ParseSOSPayload msg with
  | Fail err => mret (Some (EParse err))
  | Panic => mret None
  | Ret payload =>
      match peer_Decode (Sender msg) with
      | None => mret (Some EDecodeSender)
      | Some senderPID =>
          existing ← sget;
          match existing !! ID msg with
          | Some alert =>
              t ← now;
              supdate (alter (set_ReceivedAt t) (ID msg));;
              mret None
          | None =>
              alert ← new_alert l payload senderPID;
              supdate intr;;
              supdate (<[ID msg := alert]>);;
              (if sos_AckRequired payload then
                 e ← lift (ask (entropy E));
                 t1 ← now;
                 t2 ← now;
                 n ← lift get;
                 sspawn senderPID (NewDeliveryAck e t1 t2 (pid_String (HostID n)) (ID msg)
                                     (Sender msg) DeliveryReceived (HopCount msg) EmptyString)
               else mret tt);;
              snote (OnSOSReceived (ID msg));;
              mret None
          end
      end
  end.

(** The oldest acknowledgement goroutine runs. *)
Definition run_ack : SM unit := fun s =>
  match acks s with
  | [] => Some (tt, s)
  | (p, m) :: rest =>
      lift (sendDirect E p (default [] (Serialize m));; mret tt)
        (mkSos (alerts s) (sos_notes s) rest (base s))
  end.

Definition CancelAlert (alertID : string) : SM unit :=
  a ← sget;
  match a !! alertID with
  | None => mret tt
  | Some _ => supdate (delete alertID);; snote (OnSOSExpired alertID)
  end.

Definition ActiveAlerts : SM (gmap string ActiveAlert) := sget.
Definition GetAlert (alertID : string) : SM (option ActiveAlert) :=
  a ← sget; mret (a !! alertID).

Definition HandleDeliveryAck (ack : Message) : SM unit :=
  match json_unmarshal (str_bytes (Payload ack)) with
  | None => mret tt
  | Some info =>
      a ← sget;
      match a !! di_MessageID info with
      | None => mret tt
      | Some alert =>
          supdate (alter (fun a => set_AckCount (wrap64 (al_AckCount a + 1)) a) (di_MessageID info));;
          snote (OnSOSAck (di_MessageID info) (Sender ack))
      end
  end.

(** The rebroadcast of one alert; an error of [Publish] only skips it. *)
Definition rebroadcast_msg (t : Z) (m : Message) : Message :=
  mkMessage (ID m) TypeSOS (Sender m) (SenderNick m) EmptyString (Payload m) t
    (wrap64 (TTL m - 1)) (wrap64 (HopCount m + 1)) 0 0 EmptyString EmptyString.

Definition rebroadcast_one (t_now : Z) (alert : ActiveAlert) : SM unit :=
  if al_ExpiresAt alert <? t_now then mret tt
  else
    m ← lift (read (al_Message alert));
    t ← now;
    let r := rebroadcast_msg t m in
    if TTL r <=? 0 then mret tt
    else
      l ← lift (new r);
      lift (Publish E l);;
      mret tt.

Fixpoint rebroadcast_loop (t_now : Z) (l : list ActiveAlert) : SM unit :=
  match l with
  | [] => mret tt
  | a :: l => rebroadcast_one t_now a;; rebroadcast_loop t_now l
  end.

(** [order]: how the map was visited. *)
Definition reBroadcastActive (order : gmap string ActiveAlert -> list ActiveAlert) : SM unit :=
  a ← sget;
  t ← now;
  rebroadcast_loop t (order a).

Fixpoint note_expired (ids : list string) : SM unit :=
  match ids with
  | [] => mret tt
  | id :: ids => snote (OnSOSExpired id);; note_expired ids
  end.

(** Whether [time.Now().After(alert.ExpiresAt)]. *)
Definition expired (t : Z) (a : ActiveAlert) : Prop := al_ExpiresAt a < t.
#[export] Instance expired_dec t a : Decision (expired t a).
Proof. unfold expired. apply _. Defined.

Definition checkExpiry (order : gmap string ActiveAlert -> list string) : SM unit :=
  t ← now;
  a ← sget;
  let gone := filter (fun kv => expired t kv.2) a in
  supdate (filter (fun kv => ~ expired t kv.2));;
  note_expired (order gone).

End SOS.
