(* ===== verification/SosSpec.v ===== *)
(** * Properties of the SOS manager

    When an alert is active, what a rebroadcast sends, what an incoming alert does on
    every branch, and what its two critical sections let slip. *)

From S2P Require Import Prelude Utf8 Float64 Json JsonText FloatText GoJson Message MessageJson.
From S2P Require Import Heap Routing Mesh MeshSpec MeshRouting Sos.

(** ** Vocabulary *)

Definition swp {A} (m : SM A) (Q : A -> Sos -> Prop) (s : Sos) : Prop :=
  match m s with
  | Some (a, s') => Q a s'
  | None => False
  end.

(** The visiting order of a map's entries. *)
Definition visits_values (order : gmap string ActiveAlert -> list ActiveAlert) : Prop :=
  forall m, order m ≡ₚ (map_to_list m).*2.
Definition visits_keys (order : gmap string ActiveAlert -> list string) : Prop :=
  forall m, order m ≡ₚ (map_to_list m).*1.

(** Every alert points to a message. *)
Definition alive (s : Sos) : Prop :=
  map_Forall (fun _ a => is_Some (hp (base s) !! al_Message a)) (alerts s).

(** An alert that a rebroadcast at [t_now] sends, given the messages [h]. *)
Definition due (t_now : Z) (h : heap) (a : ActiveAlert) : Prop :=
  t_now <= al_ExpiresAt a /\
  match h !! al_Message a with Some m => 1 < TTL m | None => False end.
#[export] Instance due_dec t_now h a : Decision (due t_now h a).
Proof. unfold due. destruct (h !! al_Message a); apply _. Defined.

(** What it sends for it. *)
Definition rebroadcasts (h : heap) (a : ActiveAlert) (d : bytes) : Prop :=
  exists m t, h !! al_Message a = Some m /\ Serialize (rebroadcast_msg t m) = Some d.

(** An alert and a manager for the examples. *)

Definition sos_alert_msg : Message :=
  mkMessage "a1" TypeSOS "S" "sue" EmptyString
    (marshal_string (mkSOSPayload "high" "help" F64.zero F64.zero F64.zero 5 60 true))
    7 64 0 0 0 EmptyString EmptyString.
Definition sample_alert : ActiveAlert :=
  mkAlert 0 (mkSOSPayload "high" "help" F64.zero F64.zero F64.zero 5 60 true) 1 100 0 1 "S".
Definition sample_sos (a : gmap string ActiveAlert) : Sos :=
  mkSos a [] [] (mkWorld sample_node [sos_alert_msg] [] [] 0).

Definition still_env : Env := mkEnv (fun _ => 5) (entropy sample_env) (net sample_env) (range sample_env) (sched sample_env).

(** ** Rules *)

Lemma swp_bind {A B} (m : SM A) (k : A -> SM B) (Q : B -> Sos -> Prop) s :
  swp m (fun a s' => swp (k a) Q s') s -> swp (m ≫= k) Q s.
Proof. unfold swp, mbind, SM_bind. by destruct (m s) as [[a s']|]. Qed.

Lemma swp_mono {A} (m : SM A) (P Q : A -> Sos -> Prop) s :
  (forall a s', P a s' -> Q a s') -> swp m P s -> swp m Q s.
Proof. unfold swp. destruct (m s) as [[a s']|]; auto. Qed.

Lemma swp_runs {A} (m : SM A) (Q : A -> Sos -> Prop) s :
  swp m Q s -> exists a s', m s = Some (a, s') /\ Q a s'.
Proof. unfold swp. destruct (m s) as [[a s']|]; [eauto | done]. Qed.

Lemma swp_ret {A} (a : A) (Q : A -> Sos -> Prop) s : Q a s -> swp (mret a) Q s.
Proof. done. Qed.
Lemma swp_get (Q : _ -> Sos -> Prop) s : Q (alerts s) s -> swp sget Q s.
Proof. done. Qed.
Lemma swp_update f (Q : unit -> Sos -> Prop) s :
  Q tt (set_alerts (f (alerts s)) s) -> swp (supdate f) Q s.
Proof. done. Qed.
Lemma swp_note n (Q : unit -> Sos -> Prop) s :
  Q tt (mkSos (alerts s) (sos_notes s ++ [n]) (acks s) (base s)) -> swp (snote n) Q s.
Proof. done. Qed.
Lemma swp_spawn p m (Q : unit -> Sos -> Prop) s :
  Q tt (mkSos (alerts s) (sos_notes s) (acks s ++ [(p, m)]) (base s)) -> swp (sspawn p m) Q s.
Proof. done. Qed.
Lemma swp_lift {A} (m : M A) (Q : A -> Sos -> Prop) s :
  wp m (fun a w => Q a (mkSos (alerts s) (sos_notes s) (acks s) w)) (base s) -> swp (lift m) Q s.
Proof. unfold swp, wp, lift. by destruct (m (base s)) as [[a w]|]. Qed.

(** One reading of the clock: only the question counter moves. *)
Definition tick (s : Sos) : Sos :=
  mkSos (alerts s) (sos_notes s) (acks s)
    (mkWorld (node (base s)) (hp (base s)) (tasks (base s)) (trace (base s)) (S (step (base s)))).
Lemma swp_now E (Q : Z -> Sos -> Prop) s :
  Q (clock E (step (base s))) (tick s) -> swp (now E) Q s.
Proof. done. Qed.

(** ** Expiry *)

Lemma note_expired_eq ids s :
  note_expired ids s
  = Some (tt, mkSos (alerts s) (sos_notes s ++ (OnSOSExpired <$> ids)) (acks s) (base s)).
Proof.
  revert s. induction ids as [|id ids IH]; intros s; cbn [note_expired].
  - unfold mret, SM_ret. simpl. rewrite app_nil_r. by destruct s.
  - unfold mbind, SM_bind, snote. rewrite IH. simpl. by rewrite <- app_assoc.
Qed.

(** ** Rebroadcast *)

Section Rebroadcast.

Lemma due_at t_now h a m : h !! al_Message a = Some m -> due t_now h a <-> t_now <= al_ExpiresAt a /\ 1 < TTL m.
Proof. unfold due. by intros ->. Qed.

Lemma rebroadcast_one_spec E t_now a m s :
  hp (base s) !! al_Message a = Some m -> Topic (node (base s)) = true ->
  is_int64 (TTL m) -> - two63 < TTL m ->
  swp (rebroadcast_one E t_now a) (fun _ s' =>
    alerts s' = alerts s /\ node (base s') = node (base s) /\ hp (base s) `prefix_of` hp (base s') /\
    if decide (due t_now (hp (base s)) a)
    then exists d, published (trace (base s')) = published (trace (base s)) ++ [d] /\
           rebroadcasts (hp (base s)) a d
    else published (trace (base s')) = published (trace (base s))) s.
Proof.
  intros Hm Ht Hi Hlow. unfold rebroadcast_one. pose proof (due_at t_now _ _ _ Hm) as Hdue.
  destruct (Z.ltb_spec (al_ExpiresAt a) t_now) as [He|He].
  { apply swp_ret. rewrite decide_False by (rewrite Hdue; lia). done. }
  apply swp_bind, swp_lift, (wp_read _ m); [done |]. apply swp_bind, swp_now.
  set (t := clock E _). cbn [TTL rebroadcast_msg]. rewrite wrap64_id by (int_lia).
  destruct (Z.leb_spec (TTL m - 1) 0) as [Hz|Hz].
  { apply swp_ret. rewrite decide_False by (rewrite Hdue; lia). done. }
  apply swp_bind, swp_lift, wp_new. apply swp_bind, swp_lift. unfold Publish.
  apply wp_bind, (wp_read _ (rebroadcast_msg t m)); [simpl; by rewrite list_lookup_middle |].
  assert (hp (base s) `prefix_of` hp (base s) ++ [rebroadcast_msg t m]) as Hpre by by eexists.
  destruct (Serialize_some (rebroadcast_msg t m)) as [d Ed]. rewrite Ed.
  unfold topicPublish. apply wp_bind, wp_bind, wp_get. cbn [node]. simpl Topic. rewrite Ht.
  wp_pure. apply swp_ret. rewrite decide_True by (rewrite Hdue; lia). simpl. split_and!; try done.
  exists d. rewrite published_app. split; [done |]. by exists m, t.
Qed.

(** The alerts of [l] that are due, in order, each once; [h] are the messages when the
    round begins. *)
Lemma rebroadcast_loop_spec E t_now h l s :
  Topic (node (base s)) = true -> h `prefix_of` hp (base s) ->
  Forall (fun a => exists m, h !! al_Message a = Some m /\ is_int64 (TTL m) /\ - two63 < TTL m) l ->
  swp (rebroadcast_loop E t_now l) (fun _ s' =>
    alerts s' = alerts s /\ hp (base s) `prefix_of` hp (base s') /\
    exists ds, published (trace (base s')) = published (trace (base s)) ++ ds /\
      Forall2 (rebroadcasts h) (filter (due t_now h) l) ds) s.
Proof.
  intros Ht Hh Hl. revert s Ht Hh. induction Hl as [|a l (m & Hm & Hi & Hlow) _ IH];
    intros s Ht Hh; cbn [rebroadcast_loop].
  { apply swp_ret. split_and!; [done.. |]. exists []. by rewrite app_nil_r. }
  pose proof (prefix_lookup_Some _ _ _ _ Hm Hh) as Hm'.
  apply swp_bind. eapply swp_mono; [| by apply (rebroadcast_one_spec E t_now a m s)].
  intros _ s1 (A1 & N1 & P1 & D1).
  eapply swp_mono; [| apply IH; [by rewrite N1 | by etransitivity]].
  intros _ s2 (A2 & P2 & ds & E2 & F2). split; [congruence |]. split; [by etransitivity |].
  rewrite filter_cons. pose proof (due_at t_now _ _ _ Hm) as H1. pose proof (due_at t_now _ _ _ Hm') as H2.
  destruct (decide (due t_now (hp (base s)) a)) as [Hd|Hd];
    [rewrite decide_True by tauto | rewrite decide_False by tauto].
  - destruct D1 as (d & D1 & m' & t & Hmt & Hd'). exists (d :: ds). rewrite E2, D1, <- app_assoc.
    split; [done |]. constructor; [| done]. exists m', t. rewrite Hm' in Hmt. by simplify_eq.
  - exists ds. by rewrite E2, D1.
Qed.
End Rebroadcast.

(** ** The payload of an alert *)

Lemma alert_payload_ok urgency text lat lon accuracy t :
  utf8 text -> utf8 urgency ->
  printable lat = true -> printable lon = true -> printable accuracy = true -> is_int64 t ->
  json_valid (mkSOSPayload (if bool_decide (urgency = EmptyString) then SOSUrgencyHigh else urgency)
    text lat lon accuracy (t `div` 10 ^ 6) 60 true).
Proof.
  intros Ht Hu H1 H2 H3 Hc.
  assert (is_int64 60 /\ is_int64 (t `div` 10 ^ 6)) as [H60 Hms]
    by (split; int_lia; Z.to_euclidean_division_equations; lia).
  assert (utf8 (if bool_decide (urgency = EmptyString) then SOSUrgencyHigh else urgency))
    by (case_bool_decide; [reflexivity | done]).
  change (SOSPayload_ok (mkSOSPayload (if bool_decide (urgency = EmptyString) then SOSUrgencyHigh
    else urgency) text lat lon accuracy (t `div` 10 ^ 6) 60 true)).
  unfold SOSPayload_ok. simpl sos_Urgency. tauto.
Qed.

(** ** Properties *)

Section Properties.
Context (pid_String : peerID -> string) (peer_Decode : string -> option peerID).
Context (E : Env).

(** C26: a rebroadcast sends exactly one message for each alert that has not expired
    and whose TTL allows another hop, with the alert's identifier and its TTL less one,
    and nothing for the others: what it publishes matches, one for one, the due alerts
    in some order.  It changes neither the alerts nor their messages, so every round
    sends the same TTL: the comment says the TTL is decremented on rebroadcast, but
    never twice. *)
Theorem rebroadcast_spec order s :
  visits_values order -> Topic (node (base s)) = true ->
  map_Forall (fun _ a => exists m, hp (base s) !! al_Message a = Some m /\
                                   is_int64 (TTL m) /\ - two63 < TTL m) (alerts s) ->
  exists s' sent ds, reBroadcastActive E order s = Some (tt, s') /\
    alerts s' = alerts s /\ hp (base s) `prefix_of` hp (base s') /\
    published (trace (base s')) = published (trace (base s)) ++ ds /\
    Forall2 (rebroadcasts (hp (base s))) sent ds /\
    sent ≡ₚ filter (due (clock E (step (base s))) (hp (base s))) (map_to_list (alerts s)).*2.
Proof.
  intros Ho Ht Ha. set (t_now := clock E (step (base s))).
  enough (swp (reBroadcastActive E order) (fun _ s' =>
    alerts s' = alerts s /\ hp (base s) `prefix_of` hp (base s') /\
    exists ds, published (trace (base s')) = published (trace (base s)) ++ ds /\
      Forall2 (rebroadcasts (hp (base s))) (filter (due t_now (hp (base s))) (order (alerts s))) ds) s) as Hw.
  { apply swp_runs in Hw as ([] & s' & E1 & A & P & ds & E2 & F).
    exists s', (filter (due t_now (hp (base s))) (order (alerts s))), ds. split_and!; try done.
    by rewrite (Ho (alerts s)). }
  unfold reBroadcastActive. apply swp_bind, swp_get. apply swp_bind, swp_now.
  refine (rebroadcast_loop_spec E t_now (hp (base s)) _ (tick s) Ht ltac:(done) _).
  apply list.Forall_forall. intros a Hin.
  rewrite (Ho (alerts s)) in Hin. apply list_elem_of_fmap in Hin as ([i b] & -> & Hb).
  apply elem_of_map_to_list in Hb. exact (Ha i b Hb).
Qed.

(** C25: an expiry check at time [t] ends exactly the alerts whose 60 minutes have run
    out: they are removed and each is reported once; the others stay as they were. *)
Theorem checkExpiry_spec order s :
  visits_keys order ->
  let t := clock E (step (base s)) in
  exists s' ids, checkExpiry E order s = Some (tt, s') /\
    sos_notes s' = sos_notes s ++ (OnSOSExpired <$> ids) /\ NoDup ids /\
    (forall id, id ∈ ids <-> exists a, alerts s !! id = Some a /\ al_ExpiresAt a < t) /\
    (forall id a, alerts s' !! id = Some a <-> alerts s !! id = Some a /\ t <= al_ExpiresAt a).
Proof.
  intros Ho t. set (gone := filter (fun kv => expired t kv.2) (alerts s)).
  exists (mkSos (filter (fun kv => ~ expired t kv.2) (alerts s))
    (sos_notes s ++ (OnSOSExpired <$> order gone)) (acks s) (base (tick s))), (order gone).
  split_and!.
  - unfold checkExpiry, mbind, SM_bind, sget, supdate. unfold now, lift, ask. simpl.
    fold t gone. by rewrite note_expired_eq.
  - done.
  - rewrite (Ho gone). apply NoDup_fst_map_to_list.
  - intros id. rewrite (Ho gone), list_elem_of_fmap. split.
    + intros ([i a] & -> & Hi). apply elem_of_map_to_list in Hi.
      apply map_lookup_filter_Some in Hi as [Hi He]. by exists a.
    + intros (a & Ha & He). exists (id, a). split; [done |].
      apply elem_of_map_to_list, map_lookup_filter_Some. done.
  - intros id a. simpl. rewrite map_lookup_filter_Some. unfold expired. simpl.
    split; intros [? ?]; (split; [done | lia]).
Qed.

(** C23: an incoming alert on every branch.  One that does not parse, or whose sender
    does not decode, changes nothing; one already tracked only has its receipt time
    refreshed; a new one is tracked for 60 minutes from a clock reading, reported
    once, and acknowledged to its sender if it asks for that.  The lookup and the
    insertion are two critical sections: an alert another handler inserts in between
    ([intr]) is overwritten, with the acknowledgements counted for it. *)
Theorem HandleIncomingSOS_spec intr l m s :
  hp (base s) !! l = Some m ->
  exists r s', HandleIncomingSOS pid_String peer_Decode E intr l s = Some (r, s') /\
  match ParseSOSPayload m, peer_Decode (Sender m), alerts s !! ID m with
  | Ret p, Some sender, Some a =>
      r = None /\ sos_notes s' = sos_notes s /\ acks s' = acks s /\
      exists t, alerts s' = <[ID m := set_ReceivedAt t a]> (alerts s)
  | Ret p, Some sender, None =>
      r = None /\ sos_notes s' = sos_notes s ++ [OnSOSReceived (ID m)] /\
      (exists a k, alerts s' = <[ID m := a]> (intr (alerts s)) /\ al_Message a = l /\
         al_Payload a = p /\ al_AckCount a = 0 /\ al_SenderPeer a = sender /\
         al_ExpiresAt a = clock E k + ActiveDuration) /\
      exists out, acks s' = acks s ++ out /\
        if sos_AckRequired p
        then exists a, out = [(sender, a)] /\ MType a = TypeDeliveryAck /\ Recipient a = Sender m
        else out = []
  | _, _, _ => s' = s /\ is_Some r
  end.
Proof.
  intros Hm. destruct (ParseSOSPayload m) as [p|e|] eqn:Ep.
  - destruct (peer_Decode (Sender m)) as [sender|] eqn:Es.
    + destruct (alerts s !! ID m) as [a|] eqn:Ea.
      * enough (swp (HandleIncomingSOS pid_String peer_Decode E intr l) (fun r s' =>
          r = None /\ sos_notes s' = sos_notes s /\ acks s' = acks s /\
          exists t, alerts s' = <[ID m := set_ReceivedAt t a]> (alerts s)) s) as H by by apply swp_runs in H.
        unfold HandleIncomingSOS. apply swp_bind, swp_lift, (wp_read _ m); [done |].
        rewrite Ep, Es. apply swp_bind, swp_get. simpl. rewrite Ea.
        apply swp_bind, swp_now, swp_bind, swp_update, swp_ret. simpl. split_and!; [done.. |].
        eexists. apply map_eq. intros j. destruct (decide (j = ID m)) as [->|].
        -- by rewrite lookup_alter_eq, lookup_insert_eq, Ea.
        -- by rewrite lookup_alter_ne, lookup_insert_ne.
      * match goal with |- exists r s', _ /\ @?P r s' =>
          enough (swp (HandleIncomingSOS pid_String peer_Decode E intr l) P s) as H
            by by apply swp_runs in H end. cbv beta.
        unfold HandleIncomingSOS. apply swp_bind, swp_lift, (wp_read _ m); [done |].
        rewrite Ep, Es. apply swp_bind, swp_get. simpl. rewrite Ea. unfold new_alert.
        apply swp_bind, swp_bind, swp_now, swp_bind, swp_now, swp_bind, swp_now, swp_ret.
        apply swp_bind, swp_update, swp_bind, swp_update, swp_bind.
        destruct (sos_AckRequired p).
        -- apply swp_bind, swp_lift, wp_ask'. apply swp_bind, swp_now, swp_bind, swp_now.
           apply swp_bind, swp_lift, wp_get, swp_spawn, swp_bind, swp_note, swp_ret. simpl.
           split_and!; [done.. | |].
           ++ eexists _, _. split; [reflexivity |]. done.
           ++ eexists. split; [reflexivity |]. by eexists.
        -- apply swp_ret, swp_bind, swp_note, swp_ret. simpl. split_and!; [done.. | |].
           ++ eexists _, _. split; [reflexivity |]. done.
           ++ exists []. by rewrite app_nil_r.
    + exists (Some EDecodeSender), s. split; [| done].
      unfold HandleIncomingSOS, mbind, SM_bind, lift, read. rewrite Hm. simpl. rewrite Ep, Es.
      by destruct s.
  - exists (Some (EParse e)), s. split; [| done].
    unfold HandleIncomingSOS, mbind, SM_bind, lift, read. rewrite Hm. simpl. rewrite Ep. by destruct s.
  - exfalso. unfold ParseSOSPayload in Ep. destruct (negb _); [done |].
    by destruct (json_unmarshal _).
Qed.


(** C24: an alert sent from here, with its texts in UTF-8 and finite coordinates that
    print exactly.  Its payload is read back from the message itself;
    if the mesh accepts the message the alert is tracked and reported under the
    message's identifier, with the message as it went out; if not, nothing of it is
    left tracked and nothing is reported. *)
Theorem SendAlert_spec sender nick text urgency lat lon accuracy s :
  Topic (node (base s)) = true -> utf8 text -> utf8 urgency ->
  printable lat = true -> printable lon = true -> printable accuracy = true ->
  (forall k, is_int64 (clock E k)) ->
  exists r s', SendAlert pid_String peer_Decode E sender nick text urgency lat lon accuracy s = Some (r, s') /\
  match r with
  | Ret id =>
      sos_notes s' = sos_notes s ++ [OnSOSReceived id] /\
      exists a k m, alerts s' = <[id := a]> (alerts s) /\
        al_ExpiresAt a = clock E k + ActiveDuration /\ al_AckCount a = 0 /\
        hp (base s') !! al_Message a = Some m /\ ID m = id /\ MType m = TypeSOS /\
        Sender m = sender /\ ParseSOSPayload m = Ret (al_Payload a)
  | Fail (ESend _) => sos_notes s' = sos_notes s /\ exists id, alerts s' = delete id (alerts s)
  | _ => False
  end.
Proof.
  intros Ht Htext Hurg Hlat Hlon Hacc Hclock.
  match goal with |- exists r s', _ /\ @?P r s' =>
    enough (swp (SendAlert pid_String peer_Decode E sender nick text urgency lat lon accuracy) P s) as H
      by by apply swp_runs in H end. cbv beta.
  unfold SendAlert. apply swp_bind, swp_lift, wp_ask'.
  apply swp_bind, swp_now, swp_bind, swp_now. set (m := NewSOS _ _ _ _ _ _ _ _ _ _).
  assert (exists p, ParseSOSPayload m = Ret p) as [p Hp].
  { unfold ParseSOSPayload, m, NewSOS, marshal_string. cbn [MType Payload].
    rewrite bool_decide_eq_true_2 by done. cbn [negb].
    match goal with |- context [json_marshal ?q] => destruct (json_roundtrip q) as (b & -> & Hb) end.
    { apply alert_payload_ok; [done.. |]. apply Hclock. }
    unfold default, id. rewrite str_bytes_str, Hb. eauto. }
  rewrite Hp. apply swp_bind, swp_lift, wp_new. apply swp_bind, swp_lift, wp_get.
  unfold new_alert. apply swp_bind, swp_bind, swp_now, swp_bind, swp_now, swp_bind, swp_now, swp_ret.
  apply swp_bind, swp_update, swp_bind, swp_lift.
  match goal with |- wp (SendMessage _ _ _ ?l0) _ ?w0 => set (l := l0); set (w := w0) end.
  assert (hp w !! l = Some m) as Hl
    by exact (list_lookup_middle (hp (base s)) [] m _ eq_refl).
  assert (framed (SendMessage pid_String peer_Decode E l) w) as Hf
    by (apply framed_SendMessage; [by exists m | done]).
  eapply wp_mono; [| exact Hf]. intros [err|] w' F.
  - apply swp_bind, swp_update, swp_ret. simpl. split; [done |]. exists (ID m).
    by rewrite delete_insert_eq.
  - apply swp_bind, swp_note, swp_ret. split; [done |]. simpl.
    destruct (fr_heap _ _ F l m Hl) as (m' & Hm' & Hid & Hty & Hse & Hre & Hpa & Hno).
    eexists _, _, m'. split; [reflexivity |]. split; [reflexivity |]. split_and!; try done.
    unfold ParseSOSPayload. rewrite Hty, Hpa. exact Hp.
Qed.

End Properties.


Lemma rebroadcast_spec_witness :
  exists s' ds, reBroadcastActive sample_env (fun m => (map_to_list m).*2)
    (sample_sos {["a1"%string := sample_alert]}) = Some (tt, s') /\
    published (trace (base s')) = ds.
Proof.
  destruct (rebroadcast_spec sample_env (fun m => (map_to_list m).*2)
    (sample_sos {["a1"%string := sample_alert]}) (fun m => reflexivity _) eq_refl)
    as (s' & sent & ds & H & _ & _ & Hp & _).
  - apply map_Forall_singleton. exists sos_alert_msg. split; [reflexivity |].
    change (is_int64 64 /\ - two63 < 64). split; int_lia.
  - exists s', ds. split; [exact H | exact Hp].
Defined.

Lemma checkExpiry_spec_witness :
  exists s' ids, checkExpiry sample_env (fun m => (map_to_list m).*1)
    (sample_sos {["a1"%string := sample_alert]}) = Some (tt, s') /\
    sos_notes s' = OnSOSExpired <$> ids.
Proof.
  destruct (checkExpiry_spec sample_env (fun m => (map_to_list m).*1)
    (sample_sos {["a1"%string := sample_alert]}) (fun m => reflexivity _)) as (s' & ids & H1 & H2 & _).
  exists s', ids. split; [exact H1 | exact H2].
Defined.

Lemma HandleIncomingSOS_spec_witness :
  exists r s', HandleIncomingSOS sample_str sample_decode sample_env id 0 (sample_sos ∅) = Some (r, s').
Proof.
  destruct (HandleIncomingSOS_spec sample_str sample_decode sample_env id 0 sos_alert_msg
    (sample_sos ∅) eq_refl) as (r & s' & H & _).
  exists r, s'. exact H.
Defined.

Lemma still_clock_ok k : is_int64 (clock still_env k).
Proof. simpl. int_lia. Qed.

Lemma SendAlert_spec_witness :
  exists r s', SendAlert sample_str sample_decode still_env "A" "ann" "help" "high"
    F64.zero F64.zero F64.zero (sample_sos ∅) = Some (r, s').
Proof.
  destruct (SendAlert_spec sample_str sample_decode still_env "A" "ann" "help" "high"
    F64.zero F64.zero F64.zero (sample_sos ∅) eq_refl eq_refl eq_refl eq_refl eq_refl eq_refl
    still_clock_ok) as (r & s' & H & _).
  exists r, s'. exact H.
Defined.
