(* ===== verification/Bridge.v ===== *)
(** * The WebSocket bridge (pkg/wsbridge/bridge.go)

    The set of connected clients, the frames the bridge writes to them, what it does
    with the mesh's callbacks, and what it does with the frames clients send.  A
    client is an index into a list of channels: the map [clients] holds those that
    are registered.  The bridge's state contains the SOS manager's (and with it the
    mesh node's world), the encryption manager's and the file manager's; callbacks
    those make while the bridge runs an operation of theirs are played right after it.

    [None] is a run-time panic: a send on a closed channel, a close of one, or a
    panic of a component.  The texts of error values come from the libraries, so
    they are a parameter. *)

From S2P Require Import Prelude Utf8 Float64 Json JsonText FloatText GoJson Message MessageJson.
From S2P Require Import Heap Routing FileTransfer Crypto WireJson Mesh Sos.

(** ** Untyped JSON values

    [map[string]interface{}]: what [Marshal] writes and [Unmarshal] leaves. *)

(** [json.Marshal] of a map: the keys in order. *)
Definition any_le (a b : string * json) : Prop := String.leb a.1 b.1 = true.
#[export] Instance any_le_dec : RelDecision any_le.
Proof. intros a b. unfold any_le. apply _. Defined.

Definition any_object (m : gmap string json) : json :=
  JObj (map (fun '(k, v) => (str_bytes k, v)) (merge_sort any_le (map_to_list m))).
Definition marshal_any (m : gmap string json) : bytes := print compact 0 (any_object m).

Definition any_string (s : string) : json := JStr (str_bytes s).
Definition any_int (z : Z) : json := JNum (format_int z).

(** A value decoded into an [interface{}] and encoded again: every number goes
    through a float64, and of equal keys the last one counts. *)
Fixpoint any_value (j : json) : option json :=
  match j with
  | JNum lit => x ← parse_float lit; JNum <$> format_float x
  | JArr l =>
      JArr <$> (fix go (l : list json) : option (list json) :=
        match l with
        | [] => Some []
        | j :: l => j ← any_value j; cons j <$> go l
        end) l
  | JObj kvs =>
      any_object <$> (fix go (kvs : list (bytes * json)) (m : gmap string json) : option (gmap string json) :=
        match kvs with
        | [] => Some m
        | (k, j) :: kvs => j ← any_value j; go kvs (<[bytes_str k := j]> m)
        end) kvs ∅
  | other => Some other
  end.

(** The same for the members of an object. *)
Fixpoint any_members (kvs : list (bytes * json)) (m : gmap string json) : option (gmap string json) :=
  match kvs with
  | [] => Some m
  | (k, j) :: kvs => j ← any_value j; any_members kvs (<[bytes_str k := j]> m)
  end.

(** [json.Unmarshal] into a [map[string]interface{}]. *)
Definition unmarshal_any (data : bytes) : option (gmap string json) :=
  j ← parse data;
  match j with
  | JObj kvs => any_members kvs ∅
  | _ => None   (* [null] leaves the map nil; the code only reads objects it wrote *)
  end.

(** What [Unmarshal] leaves in a struct of scalar fields even when it reports an
    error: fields of the wrong type stay as they were. *)
Fixpoint dec_lenient {S} (fs : list (field S)) (kvs : list (bytes * json)) (s : S) : S :=
  match kvs with
  | [] => s
  | (k, j) :: kvs =>
      dec_lenient fs kvs
        (match find_field fs k with Some f => default s (f_dec f j s) | None => s end)
  end.
Definition unmarshal_lenient {S} (fs : list (field S)) (zero : S) (data : bytes) : S :=
  match parse data with
  | Some (JObj kvs) => dec_lenient fs kvs zero
  | _ => zero
  end.

(** ** Constants and frames *)

Definition DefaultPort : Z := 9876.
Definition maxMessageSize : Z := 65536.
Definition sendBufSize : nat := 256.

Record identityMessage := mkIdentityMessage {
  im_Type : string;
  im_PeerID : string;
  im_Nickname : string;
  im_PublicKey : string
}.
Definition identityMessage_fields : list (field identityMessage) := [
  mkField string_value "type" false im_Type (fun x '(mkIdentityMessage _ b c d) => mkIdentityMessage x b c d);
  mkField string_value "peer_id" false im_PeerID (fun x '(mkIdentityMessage a _ c d) => mkIdentityMessage a x c d);
  mkField string_value "nickname" false im_Nickname (fun x '(mkIdentityMessage a b _ d) => mkIdentityMessage a b x d);
  mkField string_value "public_key" true im_PublicKey (fun x '(mkIdentityMessage a b c _) => mkIdentityMessage a b c x)
].

Record peerInfo := mkPeerInfo { pi_PeerID : string; pi_Nickname : string; pi_IsOnline : bool }.
Record peerEvent := mkPeerEvent { pe_Type : string; pe_Peer : peerInfo }.
Definition peerInfo_fields : list (field peerInfo) := [
  mkField string_value "peer_id" false pi_PeerID (fun x '(mkPeerInfo _ b c) => mkPeerInfo x b c);
  mkField string_value "nickname" false pi_Nickname (fun x '(mkPeerInfo a _ c) => mkPeerInfo a x c);
  mkField bool_value "is_online" false pi_IsOnline (fun x '(mkPeerInfo a b _) => mkPeerInfo a b x)
].
Definition peerInfo_value : GoValue peerInfo :=
  struct_value (mkPeerInfo EmptyString EmptyString false) peerInfo_fields.
Definition peerEvent_fields : list (field peerEvent) := [
  mkField string_value "type" false pe_Type (fun x '(mkPeerEvent _ b) => mkPeerEvent x b);
  mkField peerInfo_value "peer" false pe_Peer (fun x '(mkPeerEvent a _) => mkPeerEvent a x)
].

Record relayEvent := mkWsRelay {
  wr_Type : string;
  wr_MsgID : string;
  wr_MsgType : string;
  wr_Action : string;
  wr_From : string;
  wr_Hops : Z;
  wr_TTL : Z;
  wr_Copies : Z;
  wr_TS : Z
}.
Definition relayEvent_fields : list (field relayEvent) := [
  mkField string_value "type" false wr_Type (fun x '(mkWsRelay _ b c d e f g h i) => mkWsRelay x b c d e f g h i);
  mkField string_value "msg_id" false wr_MsgID (fun x '(mkWsRelay a _ c d e f g h i) => mkWsRelay a x c d e f g h i);
  mkField string_value "msg_type" false wr_MsgType (fun x '(mkWsRelay a b _ d e f g h i) => mkWsRelay a b x d e f g h i);
  mkField string_value "action" false wr_Action (fun x '(mkWsRelay a b c _ e f g h i) => mkWsRelay a b c x e f g h i);
  mkField string_value "from" true wr_From (fun x '(mkWsRelay a b c d _ f g h i) => mkWsRelay a b c d x f g h i);
  mkField int_value "hops" false wr_Hops (fun x '(mkWsRelay a b c d e _ g h i) => mkWsRelay a b c d e x g h i);
  mkField int_value "ttl" false wr_TTL (fun x '(mkWsRelay a b c d e f _ h i) => mkWsRelay a b c d e f x h i);
  mkField int_value "copies" false wr_Copies (fun x '(mkWsRelay a b c d e f g _ i) => mkWsRelay a b c d e f g x i);
  mkField int_value "ts" false wr_TS (fun x '(mkWsRelay a b c d e f g h _) => mkWsRelay a b c d e f g h x)
].

(** A frame from a client. *)
Record wsIncoming := mkWsIncoming {
  wi_Type : string;
  wi_ID : string;
  wi_Sender : string;
  wi_SenderNick : string;
  wi_Recipient : string;
  wi_Payload : string;
  wi_Timestamp : Z
}.
Definition wsIncoming_fields : list (field wsIncoming) := [
  mkField string_value "type" false wi_Type (fun x '(mkWsIncoming _ b c d e f g) => mkWsIncoming x b c d e f g);
  mkField string_value "id" false wi_ID (fun x '(mkWsIncoming a _ c d e f g) => mkWsIncoming a x c d e f g);
  mkField string_value "sender" false wi_Sender (fun x '(mkWsIncoming a b _ d e f g) => mkWsIncoming a b x d e f g);
  mkField string_value "sender_nick" false wi_SenderNick (fun x '(mkWsIncoming a b c _ e f g) => mkWsIncoming a b c x e f g);
  mkField string_value "recipient" false wi_Recipient (fun x '(mkWsIncoming a b c d _ f g) => mkWsIncoming a b c d x f g);
  mkField string_value "payload" false wi_Payload (fun x '(mkWsIncoming a b c d e _ g) => mkWsIncoming a b c d e x g);
  mkField int_value "ts" false wi_Timestamp (fun x '(mkWsIncoming a b c d e f _) => mkWsIncoming a b c d e f x)
].

(** The payload of a file frame. *)
Record filePayload := mkFilePayload { fp_FilePath : string }.
Definition filePayload_fields : list (field filePayload) := [
  mkField string_value "file_path" false fp_FilePath (fun x (_ : filePayload) => mkFilePayload x)
].

#[export] Instance identityMessage_json : JSON identityMessage :=
  go_json compact (struct_value (mkIdentityMessage EmptyString EmptyString EmptyString EmptyString) identityMessage_fields).
#[export] Instance peerEvent_json : JSON peerEvent :=
  go_json compact (struct_value (mkPeerEvent EmptyString (mkPeerInfo EmptyString EmptyString false)) peerEvent_fields).
#[export] Instance relayEvent_json : JSON relayEvent :=
  go_json compact (struct_value (mkWsRelay EmptyString EmptyString EmptyString EmptyString EmptyString 0 0 0 0) relayEvent_fields).
#[export] Instance wsIncoming_json : JSON wsIncoming :=
  go_json compact (struct_value (mkWsIncoming EmptyString EmptyString EmptyString EmptyString EmptyString EmptyString 0) wsIncoming_fields).
#[export] Instance filePayload_json : JSON filePayload :=
  go_json compact (struct_value (mkFilePayload EmptyString) filePayload_fields).

(** ** State *)

(** A client: its [send] channel (whether it is open, and what is buffered), the text
    frames its writer has put on the connection, whether its writer and its reader
    still run, and whether [handleWS] has registered it but not greeted it yet. *)
Record Chan := mkChan {
  ch_open : bool;
  ch_queue : list bytes;
  ch_written : list bytes;
  ch_writing : bool;
  ch_reading : bool;
  ch_pending : bool
}.

Definition newChan : Chan := mkChan true [] [] false false true.
Definition close (ch : Chan) : Chan :=
  mkChan false (ch_queue ch) (ch_written ch) (ch_writing ch) (ch_reading ch) (ch_pending ch).
Definition set_queue (q : list bytes) (ch : Chan) : Chan :=
  mkChan (ch_open ch) q (ch_written ch) (ch_writing ch) (ch_reading ch) (ch_pending ch).
Definition set_written (w : list bytes) (ch : Chan) : Chan :=
  mkChan (ch_open ch) (ch_queue ch) w (ch_writing ch) (ch_reading ch) (ch_pending ch).
Definition set_pumps (writing reading : bool) (ch : Chan) : Chan :=
  mkChan (ch_open ch) (ch_queue ch) (ch_written ch) writing reading (ch_pending ch).
Definition start_pumps (ch : Chan) : Chan :=
  mkChan (ch_open ch) (ch_queue ch) (ch_written ch) true true false.

(** [br_sosSet] and [br_filesSet] say whether the managers have been set; their
    states, and the mesh node's under the SOS manager's, are there in any case.
    [br_sends]: the sending goroutines of file transfers that have not run. *)
Record Bridge := mkBridge {
  br_peerID : string;
  br_nickname : string;
  br_e2e : option Crypto.Manager;
  br_disk : Disk;
  br_identity : option (option string);  (* nil, or what ExportMnemonic answers *)
  br_sosSet : bool;
  br_sos : Sos;
  br_filesSet : bool;
  br_files : St;
  br_sends : list (string * nat * FileMetadata);
  br_clients : gset nat;
  br_chans : list Chan;
  br_nicks : gmap peerID string;
  br_started : bool;
  br_closed : bool                       (* closeCh *)
}.

Definition set_e2e (m : option Crypto.Manager) (d : Disk) (b : Bridge) : Bridge :=
  mkBridge (br_peerID b) (br_nickname b) m d (br_identity b) (br_sosSet b) (br_sos b)
    (br_filesSet b) (br_files b) (br_sends b) (br_clients b) (br_chans b) (br_nicks b)
    (br_started b) (br_closed b).
Definition set_sos (s : Sos) (b : Bridge) : Bridge :=
  mkBridge (br_peerID b) (br_nickname b) (br_e2e b) (br_disk b) (br_identity b) (br_sosSet b) s
    (br_filesSet b) (br_files b) (br_sends b) (br_clients b) (br_chans b) (br_nicks b)
    (br_started b) (br_closed b).
Definition set_files (s : St) (sends : list (string * nat * FileMetadata)) (b : Bridge) : Bridge :=
  mkBridge (br_peerID b) (br_nickname b) (br_e2e b) (br_disk b) (br_identity b) (br_sosSet b) (br_sos b)
    (br_filesSet b) s sends (br_clients b) (br_chans b) (br_nicks b) (br_started b) (br_closed b).
Definition set_clients (c : gset nat) (h : list Chan) (b : Bridge) : Bridge :=
  mkBridge (br_peerID b) (br_nickname b) (br_e2e b) (br_disk b) (br_identity b) (br_sosSet b) (br_sos b)
    (br_filesSet b) (br_files b) (br_sends b) c h (br_nicks b) (br_started b) (br_closed b).
Definition set_nicks (n : gmap peerID string) (b : Bridge) : Bridge :=
  mkBridge (br_peerID b) (br_nickname b) (br_e2e b) (br_disk b) (br_identity b) (br_sosSet b) (br_sos b)
    (br_filesSet b) (br_files b) (br_sends b) (br_clients b) (br_chans b) n (br_started b) (br_closed b).
Definition set_flags (started closed : bool) (b : Bridge) : Bridge :=
  mkBridge (br_peerID b) (br_nickname b) (br_e2e b) (br_disk b) (br_identity b) (br_sosSet b) (br_sos b)
    (br_filesSet b) (br_files b) (br_sends b) (br_clients b) (br_chans b) (br_nicks b) started closed.

(** [NewBridge], over a node that is part of [sos]. *)
Definition NewBridge (sos : Sos) (files : St) (peerID nickname : string)
    (e2e : option Crypto.Manager) (d : Disk) (identity : option (option string)) : Bridge :=
  mkBridge peerID nickname e2e d identity false sos false files [] ∅ [] ∅ false false.

Definition SetSOSManager (b : Bridge) : Bridge :=
  mkBridge (br_peerID b) (br_nickname b) (br_e2e b) (br_disk b) (br_identity b) true (br_sos b)
    (br_filesSet b) (br_files b) (br_sends b) (br_clients b) (br_chans b) (br_nicks b)
    (br_started b) (br_closed b).
Definition SetFileManager (b : Bridge) : Bridge :=
  mkBridge (br_peerID b) (br_nickname b) (br_e2e b) (br_disk b) (br_identity b) (br_sosSet b) (br_sos b)
    true (br_files b) (br_sends b) (br_clients b) (br_chans b) (br_nicks b) (br_started b) (br_closed b).

(** ** The monad *)

Definition BM (A : Type) : Type := Bridge -> option (A * Bridge).

#[global] Instance BM_ret : MRet BM := fun A a b => Some (a, b).
#[global] Instance BM_bind : MBind BM := fun A B k m b =>
  match m b with
  | Some (a, b') => k a b'
  | None => None
  end.

Definition bpanic {A} : BM A := fun _ => None.
Definition bget : BM Bridge := fun b => Some (b, b).
Definition bupdate (f : Bridge -> Bridge) : BM unit := fun b => Some (tt, f b).
Definition bwhen (c : bool) (m : BM unit) : BM unit := if c then m else mret tt.
Fixpoint bfor {A} (l : list A) (f : A -> BM unit) : BM unit :=
  match l with
  | [] => mret tt
  | a :: l => f a;; bfor l f
  end.

(** ** Clients *)

Definition update_chan (c : nat) (f : Chan -> Chan) : BM unit :=
  bupdate (fun b => set_clients (br_clients b) (alter f c (br_chans b)) b).

(** [select { case client.send <- data: default: }]: a closed channel panics, a full
    one is skipped. *)
Definition try_send (c : nat) (data : bytes) : BM unit :=
  b ← bget;
  match br_chans b !! c with
  | None => bpanic
  | Some ch =>
      if negb (ch_open ch) then bpanic
      else bwhen (bool_decide (length (ch_queue ch) < sendBufSize)%nat)
             (update_chan c (set_queue (ch_queue ch ++ [data])))
  end.

(** [close(client.send)]: closing twice panics. *)
Definition close_chan (c : nat) : BM unit :=
  b ← bget;
  match br_chans b !! c with
  | None => bpanic
  | Some ch => if ch_open ch then update_chan c close else bpanic
  end.

Definition forget (c : nat) : BM unit :=
  bupdate (fun b => set_clients (br_clients b ∖ {[c]}) (br_chans b) b).

(** Every client is sent to once, so the order of the map's iteration is immaterial. *)
Definition broadcast (data : bytes) : BM unit :=
  b ← bget; bfor (elements (br_clients b)) (fun c => try_send c data).

Definition broadcast_opt (data : option bytes) : BM unit :=
  match data with Some data => broadcast data | None => mret tt end.

Definition unregisterClient (c : nat) : BM unit :=
  b ← bget;
  bwhen (bool_decide (c ∈ br_clients b)) (forget c;; close_chan c).

Definition Stop : BM unit :=
  b ← bget;
  if br_closed b then bpanic
  else
    bupdate (fun b => set_flags (br_started b) true b);;
    bfor (elements (br_clients b)) (fun c => forget c;; close_chan c).

(** [bytes] of [map[string]string{...}]. *)
Definition reply (kvs : list (string * string)) : bytes :=
  marshal_any (list_to_map (prod_map id any_string <$> kvs)).

Definition sendError (c : nat) (text : string) : BM unit :=
  try_send c (reply [("type", "error"); ("payload", text)]%string).
Definition sendPong (c : nat) : BM unit := try_send c (reply [("type", "pong")]%string).

Definition sendIdentity (c : nat) : BM unit :=
  b ← bget;
  let pubKey := match br_e2e b with Some m => MyPublicKeyHex m | None => EmptyString end in
  match json_marshal (mkIdentityMessage "identity" (br_peerID b) (br_nickname b) pubKey) with
  | Some data => try_send c data
  | None => mret tt
  end.

(** [handleWS] gives the clients' lock back between the registration and the greeting,
    so it is two steps.  [upgraded]: whether the HTTP connection became a WebSocket. *)
Definition handleWS (upgraded : bool) : BM unit :=
  if negb upgraded then mret tt
  else
    b ← bget;
    let c := length (br_chans b) in
    bupdate (fun b => set_clients ({[c]} ∪ br_clients b) (br_chans b ++ [newChan]) b).

(** The rest of [handleWS], for a client it has registered.  (A panic here is one of an
    HTTP handler, which the server would recover.) *)
Definition greet (c : nat) : BM unit :=
  b ← bget;
  match br_chans b !! c with
  | Some ch =>
      bwhen (ch_pending ch) (sendIdentity c;; update_chan c start_pumps)
  | None => mret tt
  end.

(** The body of the response. *)
Definition handleHealth (b : Bridge) : bytes :=
  marshal_any (list_to_map [
    ("status", any_string "ok"); ("peer_id", any_string (br_peerID b));
    ("nickname", any_string (br_nickname b));
    ("clients", any_int (Z.of_nat (size (br_clients b))))]%string) ++ [nl].

(** ** Frames towards the clients *)

(** [format_float], as the value of a key. *)
Definition any_float (x : F64.f64) : option json := JNum <$> format_float x.

Definition action_string (a : RelayAction) : string :=
  match a with
  | RelayReceived => "received"
  | RelayForwarded => "forwarded"
  | RelayDropped => "dropped"
  | RelaySent => "sent"
  end.

Definition broadcastRelay (evt : RelayEvent) : BM unit :=
  broadcast_opt (json_marshal
    (mkWsRelay "relay" (re_MessageID evt) (re_Type evt) (action_string (re_Action evt))
       (re_From evt) (re_Hops evt) (re_TTL evt) (re_Copies evt) (re_Timestamp evt))).

Definition sendPeerEvent (evt : peerEvent) : BM unit := broadcast_opt (json_marshal evt).

(** The event of a delivery receipt; [error] only when there is one. *)
Definition receipt_event (info : DeliveryInfo) : gmap string json :=
  let m := list_to_map [
    ("type", any_string "delivery_ack"); ("msg_id", any_string (di_MessageID info));
    ("status", any_string (di_Status info));
    ("original_sender", any_string (di_OriginalSender info));
    ("ts", any_int (di_Timestamp info)); ("hops", any_int (di_HopCount info))]%string in
  if bool_decide (di_Error info = EmptyString) then m
  else <["error"%string := any_string (di_Error info)]> m.

Definition BroadcastDeliveryReceipt (msg : Message) : BM unit :=
  match json_unmarshal (str_bytes (Payload msg)) with
  | None => mret tt
  | Some info => broadcast (marshal_any (receipt_event info))
  end.

(** The event of a file message, by status; [None] when its progress does not encode. *)
Definition file_event (msg : Message) (f : FileMessagePayload) : option (gmap string json) :=
  let base : gmap string json := list_to_map [
    ("type", any_string "file"); ("file_id", any_string (fm_FileID f));
    ("status", any_string (fm_Status f))]%string in
  if bool_decide (fm_Status f = "started"%string) then
    Some (list_to_map [
      ("filename", any_string (fm_FileName f)); ("file_size", any_int (fm_FileSize f));
      ("mime_type", any_string (fm_MimeType f)); ("chunk_count", any_int (fm_ChunkCount f));
      ("sender", any_string (Sender msg)); ("sender_nick", any_string (SenderNick msg));
      ("ts", any_int (Timestamp msg))]%string ∪ base)
  else if bool_decide (fm_Status f = "progress"%string) then
    p ← any_float (fm_Progress f);
    Some (list_to_map [
      ("progress", p); ("chunk_idx", any_int (fm_ChunkIdx f));
      ("chunk_size", any_int (fm_ChunkSize f))]%string ∪ base)
  else if bool_decide (fm_Status f = "complete"%string) then
    let m := <["filename"%string := any_string (fm_FileName f)]> base in
    Some (if bool_decide (fm_OutputPath f = EmptyString) then m
          else <["output_path"%string := any_string (fm_OutputPath f)]> m)
  else if bool_decide (fm_Status f = "failed"%string) then
    Some (list_to_map [("sender", any_string (Sender msg));
                       ("sender_nick", any_string (SenderNick msg))]%string ∪ base)
  else Some base.

Definition BroadcastFileNotification (msg : Message) : BM unit :=
  match json_unmarshal (str_bytes (Payload msg)) with
  | None => mret tt
  | Some f => broadcast_opt (marshal_any <$> file_event msg f)
  end.

(** A payload that does not parse leaves its fields at what was read of them. *)
Definition sos_event (msg : Message) : option (gmap string json) :=
  let p := unmarshal_lenient SOSPayload_fields
             (mkSOSPayload EmptyString EmptyString F64.zero F64.zero F64.zero 0 0 false)
             (str_bytes (Payload msg)) in
  lat ← any_float (sos_Latitude p);
  lon ← any_float (sos_Longitude p);
  accuracy ← any_float (sos_Accuracy p);
  Some (list_to_map [
    ("type", any_string "sos"); ("id", any_string (ID msg)); ("sender", any_string (Sender msg));
    ("sender_nick", any_string (SenderNick msg)); ("payload", any_string (Payload msg));
    ("ts", any_int (Timestamp msg)); ("ttl", any_int (TTL msg)); ("hops", any_int (HopCount msg));
    ("sos", JBool true); ("urgency", any_string (sos_Urgency p));
    ("message", any_string (sos_Message p)); ("lat", lat); ("lon", lon);
    ("accuracy", accuracy); ("expire_min", any_int (sos_AutoExpire p));
    ("ack_required", JBool (sos_AckRequired p))]%string).

Definition BroadcastSOS (msg : Message) : BM unit :=
  broadcast_opt (marshal_any <$> sos_event msg).

(** The default frame: the message's own JSON with the flag [encrypted] added. *)
Definition forward_frame (msg : Message) (encrypted : bool) : option bytes :=
  data ← Serialize msg;
  m ← unmarshal_any data;
  Some (marshal_any (<["encrypted"%string := JBool encrypted]> m)).

(** What the bridge asks of its surroundings: the mesh's environment, what other
    goroutines do between two critical sections of the SOS and the encryption
    manager, and the files of this host. *)
Record BEnv := mkBEnv {
  be_mesh : Env;
  be_sos : gmap string ActiveAlert -> gmap string ActiveAlert;
  be_key1 : Crypto.Manager -> Crypto.Manager;
  be_key2 : Crypto.Manager -> Crypto.Manager;
  be_spare : string -> bytes;                  (* by payload: what lies behind a decoded key *)
  be_file : string -> FEnv * string * bytes   (* by path: answers, name, content *)
}.

Inductive WriterCase := WSend (ok : bool) | WTick (ok : bool) | WClose.

Section Bridge.
Context {N : NaCl}.
Context (pid_String pid_ShortString : peerID -> string) (peer_Decode : string -> option peerID).
Context (send_text : SendError -> string) (sos_text : SosError -> string)
        (file_text : TransferError -> string).
Context (E : BEnv).

Definition getPeerNickname (pid : peerID) (b : Bridge) : string :=
  match br_nicks b !! pid with
  | Some nick => if bool_decide (nick = EmptyString) then pid_ShortString pid else nick
  | None => pid_ShortString pid
  end.

Definition handlePeerJoin (pid : peerID) : BM unit :=
  b ← bget;
  sendPeerEvent (mkPeerEvent "peer_join" (mkPeerInfo (pid_String pid) (getPeerNickname pid b) true)).
Definition handlePeerLeave (pid : peerID) : BM unit :=
  b ← bget;
  sendPeerEvent (mkPeerEvent "peer_leave" (mkPeerInfo (pid_String pid) (getPeerNickname pid b) false)).

(** The callbacks [Start] wraps, played for the events of the node; those of the
    daemon's wiring (cmd/rippled/main.go) for the notes of the two managers. *)
Definition play_event (e : Event) : BM unit :=
  b ← bget;
  bwhen (br_started b)
    match e with
    | EvRelay r => broadcastRelay r
    | EvPeerJoin p => handlePeerJoin p
    | EvPeerLeave p => handlePeerLeave p
    | _ => mret tt
    end.

Definition on_mesh {A} (m : M A) : BM A := fun b =>
  let w := base (br_sos b) in
  match m w with
  | None => None
  | Some (a, w') =>
      (bfor (drop (length (trace w)) (trace w')) play_event;; mret a)
        (set_sos (mkSos (alerts (br_sos b)) (sos_notes (br_sos b)) (acks (br_sos b)) w') b)
  end.

Definition play_sos_note (n : SosNote) : BM unit :=
  b ← bget;
  match n with
  | OnSOSReceived id =>
      match alerts (br_sos b) !! id with
      | Some alert => msg ← on_mesh (read (al_Message alert)); BroadcastSOS msg
      | None => mret tt
      end
  | _ => mret tt
  end.

Definition on_sos {A} (m : SM A) : BM A := fun b =>
  let s := br_sos b in
  match m s with
  | None => None
  | Some (a, s') =>
      (bfor (drop (length (trace (base s))) (trace (base s'))) play_event;;
       bfor (drop (length (sos_notes s)) (sos_notes s')) play_sos_note;;
       mret a) (set_sos s' b)
  end.

Definition play_file_note (n : Note) : BM unit :=
  match n with
  | OnFileNotification msg => BroadcastFileNotification msg
  | _ => mret tt
  end.

Definition on_files (f : St -> St) (sends : list (string * nat * FileMetadata)) : BM unit :=
  b ← bget;
  let s := f (br_files b) in
  bupdate (set_files s sends);;
  bfor (drop (length (notes (br_files b))) (notes s)) play_file_note.

(** The hooks of the node.  The message hook is [handleMeshMessage] itself, on the
    object the node holds: it is an input of its own below. *)
Definition hook (n : Node) : Node :=
  mkNode (HostID n) (Topic n) (n_peers n) (OnMessage n) true true true
    (n_Forwarder n) (seen n) (encounters n) (sprayed n) (n_SprayBudget n).

(** Whether it succeeds. *)
Definition Start : BM bool :=
  b ← bget;
  if br_started b then mret false
  else
    bupdate (fun b => set_flags true (br_closed b) b);;
    on_mesh (update hook);;
    mret true.

(** ** From the mesh *)

Definition learn_nick (msg : Message) : BM unit :=
  match peer_Decode (Sender msg) with
  | Some pid =>
      bwhen (negb (bool_decide (Sender msg = EmptyString)) &&
             negb (bool_decide (SenderNick msg = EmptyString)))
        (bupdate (fun b => set_nicks (<[pid := SenderNick msg]> (br_nicks b)) b))
  | None => mret tt
  end.

(** [DecryptMessage] writes to the object; whether it succeeded. *)
Definition decrypt (l : loc) : BM bool :=
  b ← bget;
  msg ← on_mesh (read l);
  match br_e2e b with
  | Some m =>
      if IsEncrypted msg then
        let '(r, m) := DecryptMessage (be_key1 E) (be_key2 E) msg m in
        bupdate (fun b => set_e2e (Some m) (br_disk b) b);;
        match r with
        | Ret plain => on_mesh (write l (fun _ => plain));; mret true
        | Fail _ => mret false
        | Panic => bpanic
        end
      else mret true
  | None => mret true
  end.

Definition key_exchange_event (msg : Message) (p : KeyExchangePayload) : gmap string json :=
  list_to_map [
    ("type", any_string "key_exchange"); ("peer_id", any_string (Sender msg));
    ("peer_nick", any_string (kx_Nickname p)); ("public_key", any_string (kx_PublicKeyHex p));
    ("ts", any_int (Timestamp msg))]%string.

Definition handleKeyExchange (msg : Message) : BM unit :=
  b ← bget;
  match br_e2e b with
  | None => mret tt
  | Some m =>
      match HandleKeyExchangeMessage (be_spare E (Payload msg)) msg m (br_disk b) with
      | Panic => bpanic
      | Fail _ => mret tt
      | Ret (m, d) =>
          bupdate (set_e2e (Some m) d);;
          match json_unmarshal (str_bytes (Payload msg)) with
          | None => mret tt
          | Some payload => broadcast (marshal_any (key_exchange_event msg payload))
          end
      end
  end.

(** The cases of the message's type. *)
Definition present (l : loc) (msg : Message) (encrypted : bool) : BM unit :=
  b ← bget;
  if bool_decide (MType msg = TypeFile) then BroadcastFileNotification msg
  else if bool_decide (MType msg = TypeSOS) then
    bwhen (br_sosSet b)
      (on_sos (HandleIncomingSOS pid_String peer_Decode (be_mesh E) (be_sos E) l);; mret tt);;
    BroadcastSOS msg
  else if bool_decide (MType msg = TypeDeliveryAck) then
    bwhen (br_sosSet b) (on_sos (HandleDeliveryAck msg));;
    BroadcastDeliveryReceipt msg
  else if bool_decide (MType msg = TypeKeyExchange) then handleKeyExchange msg
  else broadcast_opt (forward_frame msg encrypted).

Definition handleMeshMessage (l : loc) : BM unit :=
  original ← on_mesh (read l);
  learn_nick original;;
  let encrypted := IsEncrypted original in
  ok ← decrypt l;
  if negb ok then mret tt
  else
    msg ← on_mesh (read l);
    present l msg encrypted.

(** ** From a client *)

Definition send_on_mesh (l : loc) : BM (option SendError) :=
  on_mesh (SendMessage pid_String peer_Decode (be_mesh E) l).

Definition send_or_error (c : nat) (l : loc) : BM unit :=
  r ← send_on_mesh l;
  match r with
  | Some err => sendError c ("send failed: " ++ send_text err)
  | None => mret tt
  end.

(** [message.NewChat] and [message.NewKeyExchange], with readings of the environment. *)
Definition newChat (recipient text : string) : BM Message :=
  b ← bget;
  e ← on_mesh (ask (entropy (be_mesh E)));
  t ← on_mesh (ask (clock (be_mesh E)));
  mret (NewChat e t (br_peerID b) (br_nickname b) recipient text).

Definition handleIncomingKeyExchange (c : nat) (incoming : wsIncoming) : BM unit :=
  b ← bget;
  match br_e2e b with
  | None => sendError c "E2E not available on this node"
  | Some m =>
      if bool_decide (wi_Recipient incoming = EmptyString)
      then sendError c "key_exchange requires a recipient"
      else
        t1 ← on_mesh (ask (clock (be_mesh E)));
        e ← on_mesh (ask (entropy (be_mesh E)));
        t2 ← on_mesh (ask (clock (be_mesh E)));
        let msg := NewKeyExchange e t1 t2 (br_peerID b) (br_nickname b) (MyPublicKeyHex m) in
        l ← on_mesh (new (set_Recipient (wi_Recipient incoming) msg));
        send_or_error c l
  end.

(** The panic is that of [alertID[:8]]. *)
Definition handleIncomingSOS (c : nat) (incoming : wsIncoming) : BM unit :=
  b ← bget;
  if negb (br_sosSet b) then sendError c "SOS not available on this node"
  else
    match json_unmarshal (str_bytes (wi_Payload incoming)) with
    | None => sendError c "invalid SOS payload"
    | Some p =>
        if bool_decide (sos_Message p = EmptyString) then sendError c "SOS requires a message"
        else
          let urgency := if bool_decide (sos_Urgency p = EmptyString) then SOSUrgencyHigh
                         else sos_Urgency p in
          r ← on_sos (SendAlert pid_String peer_Decode (be_mesh E) (br_peerID b) (br_nickname b)
                 (sos_Message p) urgency (sos_Latitude p) (sos_Longitude p) (sos_Accuracy p));
          match r with
          | Fail err => sendError c ("send failed: " ++ sos_text err)
          | Panic => bpanic
          | Ret alertID =>
              if bool_decide (blen (str_bytes alertID) < 8) then bpanic else mret tt
          end
    end.

Definition handleIncomingFile (c : nat) (incoming : wsIncoming) : BM unit :=
  b ← bget;
  if negb (br_filesSet b) then sendError c "file transfer not available on this node"
  else if bool_decide (wi_Recipient incoming = EmptyString)
  then sendError c "file transfer requires a recipient"
  else
    match json_unmarshal (str_bytes (wi_Payload incoming)) with
    | None => sendError c "invalid file payload"
    | Some meta =>
        if bool_decide (fp_FilePath meta = EmptyString)
        then sendError c "file transfer requires file_path"
        else if bool_decide (wi_ID incoming = EmptyString)
        then sendError c "file transfer requires an id"
        else
          let '(fenv, name, content) := be_file E (fp_FilePath meta) in
          match SendFile fenv name content (wi_Recipient incoming) (br_nickname b)
                  (wi_ID incoming) (br_files b) with
          | Fail err => sendError c ("file transfer failed: " ++ file_text err)
          | Panic => bpanic
          | Ret (l, transferred, s) =>
              on_files (fun _ => s) (br_sends b ++ [(fp_FilePath meta, l, transferred)])
          end
    end.

(** The [k]-th sending goroutine runs to its end. *)
Definition run_send (k : nat) : BM unit :=
  b ← bget;
  match br_sends b !! k with
  | None => mret tt
  | Some (path, l, meta) =>
      let '(fenv, _, content) := be_file E path in
      on_files (sendFileStream fenv content meta l) (list_delete k (br_sends b))
  end.

(** [EncryptMessage], whose error is only logged; the message is then sent as it is. *)
Definition encrypt (msg : Message) : BM Message :=
  b ← bget;
  match br_e2e b with
  | None => mret msg
  | Some m =>
      if bool_decide (Recipient msg = EmptyString) then mret msg
      else
        nonce ← on_mesh (ask (entropy (be_mesh E)));
        let '(r, m) := EncryptMessage nonce msg m in
        bupdate (fun b => set_e2e (Some m) (br_disk b) b);;
        match r with
        | Ret msg => mret msg
        | Fail _ => mret msg
        | Panic => bpanic
        end
  end.

Definition handleIncomingChat (c : nat) (incoming : wsIncoming) : BM unit :=
  b ← bget;
  ts ← (if wi_Timestamp incoming =? 0 then on_mesh (ask (clock (be_mesh E)))
        else mret (wi_Timestamp incoming));
  msg ← (if bool_decide (wi_ID incoming = EmptyString)
         then newChat (wi_Recipient incoming) (wi_Payload incoming)
         else mret (mkMessage (wi_ID incoming) TypeChat (br_peerID b) (br_nickname b)
                      (wi_Recipient incoming) (wi_Payload incoming) ts 16 0 0 0
                      EmptyString EmptyString));
  msg ← encrypt msg;
  l ← on_mesh (new msg);
  send_or_error c l.

Definition handleSeedExport (c : nat) : BM unit :=
  b ← bget;
  match br_identity b with
  | None => sendError c "identity not available"
  | Some None => sendError c "seed export failed"
  | Some (Some phrase) =>
      try_send c (reply [("type", "seed_export_reply"); ("mnemonic", phrase)]%string)
  end.

Definition dispatch (c : nat) (incoming : wsIncoming) : BM unit :=
  let typed t := bool_decide (wi_Type incoming = t) in
  if typed "chat"%string then handleIncomingChat c incoming
  else if typed "key_exchange"%string then handleIncomingKeyExchange c incoming
  else if typed "sos"%string then handleIncomingSOS c incoming
  else if typed "file"%string then handleIncomingFile c incoming
  else if typed "seed_export"%string then handleSeedExport c
  else if typed "ping"%string then sendPong c
  else sendError c ("unknown message type: " ++ wi_Type incoming).

Definition handleIncoming (c : nat) (data : bytes) : BM unit :=
  match json_unmarshal data with
  | None => sendError c "malformed message"
  | Some incoming => dispatch c incoming
  end.

(** ** The pumps *)

(** One iteration of the reader: a frame, or an error of [ReadMessage], which a frame
    over the limit is. *)
Definition readPump (c : nat) (frame : option bytes) : BM unit :=
  b ← bget;
  match br_chans b !! c with
  | None => mret tt
  | Some ch =>
      bwhen (ch_reading ch)
        match frame with
        | Some data =>
            if blen data <=? maxMessageSize then handleIncoming c data
            else
              update_chan c (fun ch => set_pumps (ch_writing ch) false ch);;
              unregisterClient c
        | None =>
            update_chan c (fun ch => set_pumps (ch_writing ch) false ch);;
            unregisterClient c
        end
  end.

(** One iteration of the writer, by the case of its [select]; a case that is not ready
    does nothing. *)
Definition writer_stops (ch : Chan) : Chan := set_pumps false (ch_reading ch) ch.
Definition writer_step (w : WriterCase) (closing : bool) (ch : Chan) : Chan :=
  match w with
  | WSend ok =>
      match ch_queue ch with
      | data :: q =>
          if ok then set_written (ch_written ch ++ [data]) (set_queue q ch)
          else writer_stops (set_queue q ch)
      | [] => if ch_open ch then ch else writer_stops ch
      end
  | WTick ok => if ok then ch else writer_stops ch
  | WClose => if closing then writer_stops ch else ch
  end.
Definition writePump (c : nat) (w : WriterCase) : BM unit :=
  b ← bget;
  update_chan c (fun ch => if ch_writing ch then writer_step w (br_closed b) ch else ch).

(** ** Everything that can happen *)

Inductive BInput :=
| InConnect (upgraded : bool)
| InGreet (c : nat)
| InRead (c : nat) (frame : option bytes)
| InWrite (c : nat) (w : WriterCase)
| InMessage (l : loc)                (* the node calls OnMessage *)
| InJoin (p : peerID)
| InLeave (p : peerID)
| InRelay (e : RelayEvent)
| InFileStream (path : string) (input : bytes)
| InSend (k : nat)
| InStart
| InSetSOSManager                    (* the daemon's wiring *)
| InSetFileManager
| InStop.

Definition bstep (i : BInput) : BM unit :=
  match i with
  | InConnect upgraded => handleWS upgraded
  | InGreet c => greet c
  | InRead c frame => readPump c frame
  | InWrite c w => writePump c w
  | InMessage l => handleMeshMessage l
  | InJoin p => handlePeerJoin p
  | InLeave p => handlePeerLeave p
  | InRelay e => broadcastRelay e
  | InFileStream path input =>
      let '(fenv, _, _) := be_file E path in
      b ← bget; on_files (FileTransfer.handleStream fenv input) (br_sends b)
  | InSend k => run_send k
  | InStart => Start;; mret tt
  | InSetSOSManager => bupdate SetSOSManager
  | InSetFileManager => bupdate SetFileManager
  | InStop => Stop
  end.

(** The states the bridge can be in. *)
Inductive reachable (b0 : Bridge) : Bridge -> Prop :=
| reach_here : reachable b0 b0
| reach_step b b' i : reachable b0 b -> bstep i b = Some (tt, b') -> reachable b0 b'.

End Bridge.
