(* ===== verification/BridgeSpec.v ===== *)
(** * What the WebSocket bridge guarantees

    Its clients: a channel is open exactly while its client is registered, buffers
    are bounded, and so a broadcast reaches every client and cannot panic, in every
    reachable state; replies cannot panic either until [Stop], after which they do.
    Its senders: whatever bytes a client sends, the node only speaks under its own
    name.  Its frames: what the detour through untyped JSON does to numbers. *)

From S2P Require Import Prelude Utf8 Float64 Json JsonText FloatText GoJson Message MessageJson.
From S2P Require Import Heap Routing FileTransfer Crypto WireJson FileTransferSpec Mesh MeshSpec Sos Bridge.
From S2P Require Import CryptoSpec.

(** ** Vocabulary *)

(** A channel that was at most sent to. *)
Record fed (ch ch' : Chan) : Prop := mkFed {
  fed_open : ch_open ch' = ch_open ch;
  fed_written : ch_written ch' = ch_written ch;
  fed_writing : ch_writing ch' = ch_writing ch;
  fed_reading : ch_reading ch' = ch_reading ch;
  fed_pending : ch_pending ch' = ch_pending ch;
  fed_queue : exists q, ch_queue ch' = ch_queue ch ++ q;
  fed_bound : (length (ch_queue ch) <= sendBufSize)%nat -> (length (ch_queue ch') <= sendBufSize)%nat
}.

Definition named (n : gmap peerID string) : Prop := map_Forall (fun _ nick => nick <> EmptyString) n.

(** What every operation but connecting, disconnecting and stopping does to the
    clients: it sends to them. *)
Record steady (b b' : Bridge) : Prop := mkSteady {
  st_clients : br_clients b' = br_clients b;
  st_closed : br_closed b' = br_closed b;
  st_self : br_peerID b' = br_peerID b;
  st_chans : Forall2 fed (br_chans b) (br_chans b');
  st_nicks : named (br_nicks b) -> named (br_nicks b')
}.

Definition stays {A} (m : BM A) : Prop := forall b a b', m b = Some (a, b') -> steady b b'.

(** The invariant of the client table. *)
Record Inv (b : Bridge) : Prop := mkInv {
  inv_open : forall c, c ∈ br_clients b <-> exists ch, br_chans b !! c = Some ch /\ ch_open ch = true;
  inv_bound : Forall (fun ch => length (ch_queue ch) <= sendBufSize)%nat (br_chans b);
  inv_named : named (br_nicks b);
  inv_reading : forall c ch, br_closed b = false -> br_chans b !! c = Some ch ->
                ch_reading ch = true \/ ch_pending ch = true -> ch_open ch = true;
  inv_pending : forall c ch, br_chans b !! c = Some ch -> ch_pending ch = true -> ch_reading ch = false
}.

(** What [try_send] does to an open channel. *)
Definition push (data : bytes) (ch : Chan) : Chan :=
  if bool_decide (length (ch_queue ch) < sendBufSize)%nat
  then set_queue (ch_queue ch ++ [data]) ch else ch.

(** A change of one channel that does not open or close it. *)
Definition tame (f : Chan -> Chan) (ch : Chan) : Prop :=
  ch_open (f ch) = ch_open ch /\ (length (ch_queue (f ch)) <= length (ch_queue ch))%nat /\
  (ch_reading (f ch) = true -> ch_reading ch = true \/ ch_open ch = true) /\
  (ch_pending (f ch) = true -> ch_pending ch = true /\ (ch_reading (f ch) = true -> ch_reading ch = true)).

(** Whether the reader runs, and whether the greeting is still to come. *)
Definition duties (ch : Chan) : bool * bool := (ch_reading ch, ch_pending ch).
Definition idle (ch : Chan) : Prop := duties ch = (false, false).

(** One client forgotten and its channel closed. *)
Definition dropped (c : nat) (b : Bridge) : Bridge :=
  set_clients (br_clients b ∖ {[c]}) (alter close c (br_chans b)) b.

(** The environment and the bridge of the examples: nothing fails, nobody is there. *)
Definition sample_benv : BEnv :=
  mkBEnv sample_env (fun a => a) (fun m => m) (fun m => m) (fun _ => []) (fun _ => (sample_fenv, "notes.txt"%string, [])).
Definition sample_bridge : Bridge :=
  NewBridge (mkSos ∅ [] [] (sample_world sample_node)) (sample_st "A") "A" "ann" None
    (mkDisk ∅ ∅ true None) None.
(** The bridge of the examples wired as the daemon wires it, with one client greeted
    and a second one whose greeting is still to come. *)
Definition sample_inputs : list BInput :=
  [InStart; InSetFileManager; InSetSOSManager; InConnect true; InGreet 0; InConnect true].

Definition no_text {A} (_ : A) : string := EmptyString.

(** ** Sending keeps the table steady *)

#[export] Instance fed_refl : Reflexive fed.
Proof. intros ch. constructor; [done.. | by exists []; rewrite app_nil_r | done]. Qed.

#[export] Instance fed_trans : Transitive fed.
Proof.
  intros x y z [] []. constructor; [congruence.. | | auto].
  destruct fed_queue0 as [q1 H1], fed_queue1 as [q2 H2].
  exists (q1 ++ q2). by rewrite H2, H1, (assoc_L (++)).
Qed.

#[export] Instance steady_refl : Reflexive steady.
Proof. intros b. by constructor. Qed.

#[export] Instance steady_trans : Transitive steady.
Proof.
  intros x y z [] []. constructor; [congruence.. | by etrans | auto].
Qed.

Create HintDb steady.
#[export] Hint Constants Opaque : steady.

Lemma stays_ret {A} (a : A) : stays (mret a).
Proof. by intros b ? ? [= -> ->]. Qed.

Lemma stays_bind {A B} (m : BM A) (k : A -> BM B) :
  stays m -> (forall a, stays (k a)) -> stays (m ≫= k).
Proof.
  intros Hm Hk b a b' H. unfold mbind, BM_bind in H.
  destruct (m b) as [[x b1]|] eqn:E; [| done]. transitivity b1; [by eapply Hm | by eapply Hk].
Qed.

Lemma stays_bget : stays bget.
Proof. by intros b ? ? [= -> ->]. Qed.

Lemma stays_bpanic {A} : stays (@bpanic A).
Proof. by intros b ? ? ?. Qed.

Lemma stays_bwhen c m : stays m -> stays (bwhen c m).
Proof. destruct c; [done | intros; apply stays_ret]. Qed.

Lemma stays_bfor {A} (l : list A) f : (forall a, stays (f a)) -> stays (bfor l f).
Proof.
  intros Hf. induction l; simpl; [apply stays_ret |]. by apply stays_bind.
Qed.

Lemma stays_bupdate f : (forall b, steady b (f b)) -> stays (bupdate f).
Proof. intros Hf b a b' [= <- <-]. apply Hf. Qed.

#[export] Hint Resolve stays_ret stays_bind stays_bget stays_bpanic stays_bwhen stays_bfor : steady.

(** A goal about a handler, down to the calls the hint database knows. *)
Ltac stay :=
  repeat lazymatch goal with
  | |- stays (_ ≫= _) => apply stays_bind; [| intros ?]
  | |- stays (bwhen _ _) => apply stays_bwhen
  | |- stays (bfor _ _) => apply stays_bfor; intros ?
  | |- stays (match ?x with _ => _ end) => destruct x eqn:?
  | |- stays (let _ := _ in _) => intro
  end; eauto with steady.

Lemma try_send_eq c data b ch :
  br_chans b !! c = Some ch ->
  try_send c data b
  = if ch_open ch then Some (tt, set_clients (br_clients b) (alter (push data) c (br_chans b)) b)
    else None.
Proof.
  intros Hc. unfold try_send, mbind, BM_bind, bget. rewrite Hc. destruct (ch_open ch); simpl; [| done].
  unfold bwhen. case_bool_decide as Hq; unfold mret, BM_ret, update_chan, bupdate; do 2 f_equal.
  - f_equal. apply list_alter_ext; [| done]. intros x Hx. simplify_eq. unfold push. by rewrite bool_decide_true.
  - rewrite (list_alter_ext _ id _ (br_chans b)), list_alter_id; [by destruct b | done | | done].
    intros x Hx. simplify_eq. unfold push. by rewrite bool_decide_false.
Qed.

Lemma push_fed data ch : fed ch (push data ch).
Proof.
  unfold push. case_bool_decide as Hq; [| done].
  constructor; [done.. | by eexists | intros _; simpl; rewrite length_app; simpl; lia].
Qed.

Lemma Forall2_alter_r {A} (R : A -> A -> Prop) f i (l : list A) :
  Reflexive R -> (forall x, l !! i = Some x -> R x (f x)) -> Forall2 R l (alter f i l).
Proof.
  intros HR Hf. apply Forall2_same_length_lookup_2; [by rewrite length_alter |].
  intros j x y Hx Hy. rewrite list_lookup_alter in Hy.
  case_decide; simplify_eq; [rewrite Hx in Hy; simplify_eq/=; auto | reflexivity].
Qed.

Lemma stays_try_send c data : stays (try_send c data).
Proof.
  intros b [] b' H. destruct (br_chans b !! c) as [ch|] eqn:Hc.
  - rewrite (try_send_eq c data b ch Hc) in H. destruct (ch_open ch); [| done]. simplify_eq.
    constructor; [done.. | | done]. apply Forall2_alter_r; [apply _ | intros; apply push_fed].
  - unfold try_send, mbind, BM_bind, bget in H. by rewrite Hc in H.
Qed.
#[export] Hint Resolve stays_try_send : steady.

Lemma stays_broadcast data : stays (broadcast data).
Proof. unfold broadcast. stay. Qed.
#[export] Hint Resolve stays_broadcast : steady.

Lemma stays_broadcast_opt data : stays (broadcast_opt data).
Proof. unfold broadcast_opt. stay. Qed.
#[export] Hint Resolve stays_broadcast_opt : steady.

Section Steady.
Context {N : NaCl}.
Context (pid_String pid_ShortString : peerID -> string) (peer_Decode : string -> option peerID).
Context (send_text : SendError -> string) (sos_text : SosError -> string)
        (file_text : TransferError -> string).
Context (E : BEnv).

Lemma stays_play_event e : stays (play_event pid_String pid_ShortString e).
Proof.
  unfold play_event, broadcastRelay, handlePeerJoin, handlePeerLeave, sendPeerEvent. stay.
Qed.
#[local] Hint Resolve stays_play_event : steady.

Lemma stays_set (f : Bridge -> Bridge) {A} (m : BM A) :
  (forall b, steady b (f b)) -> stays m -> forall b a b', m (f b) = Some (a, b') -> steady b b'.
Proof. intros Hf Hm b a b' H. transitivity (f b); [apply Hf | by eapply Hm]. Qed.

Lemma stays_on_mesh {A} (m : M A) : stays (on_mesh pid_String pid_ShortString m).
Proof.
  intros b a b' H. unfold on_mesh in H. destruct (m _) as [[x w]|]; [| done].
  revert H. apply (stays_set (set_sos _)); [by constructor | stay].
Qed.
#[local] Hint Resolve stays_on_mesh : steady.

Lemma stays_BroadcastSOS msg : stays (BroadcastSOS msg).
Proof. unfold BroadcastSOS. stay. Qed.
#[local] Hint Resolve stays_BroadcastSOS : steady.

Lemma stays_play_sos_note n : stays (play_sos_note pid_String pid_ShortString n).
Proof. unfold play_sos_note. stay. Qed.
#[local] Hint Resolve stays_play_sos_note : steady.

Lemma stays_on_sos {A} (m : SM A) : stays (on_sos pid_String pid_ShortString m).
Proof.
  intros b a b' H. unfold on_sos in H. destruct (m _) as [[x w]|]; [| done].
  revert H. apply (stays_set (set_sos _)); [by constructor | stay].
Qed.
#[local] Hint Resolve stays_on_sos : steady.

Lemma stays_BroadcastFile msg : stays (BroadcastFileNotification msg).
Proof. unfold BroadcastFileNotification. stay. Qed.
#[local] Hint Resolve stays_BroadcastFile : steady.

Lemma stays_on_files f sends : stays (on_files f sends).
Proof.
  unfold on_files, play_file_note. stay. apply stays_bupdate. by constructor.
Qed.
#[local] Hint Resolve stays_on_files : steady.

Lemma stays_keys m d : stays (bupdate (fun b => set_e2e m (d b) b)).
Proof. apply stays_bupdate. by constructor. Qed.
#[local] Hint Resolve stays_keys : steady.

Lemma stays_learn_nick msg : stays (learn_nick peer_Decode msg).
Proof.
  unfold learn_nick. destruct (peer_Decode _) as [pid|]; [| stay].
  destruct (bool_decide (SenderNick msg = EmptyString)) eqn:Hn.
  - cbn [negb]. rewrite andb_false_r. apply stays_ret.
  - apply stays_bwhen, stays_bupdate. intros b. constructor; [done.. |]. simpl. intros H.
    apply map_Forall_insert_2; [| done]. by apply bool_decide_eq_false in Hn.
Qed.
#[local] Hint Resolve stays_learn_nick : steady.

Lemma stays_handleMeshMessage l :
  stays (handleMeshMessage pid_String pid_ShortString peer_Decode E l).
Proof.
  unfold handleMeshMessage, present, decrypt, handleKeyExchange, BroadcastDeliveryReceipt. stay.
  all: apply stays_bupdate; by constructor.
Qed.

Lemma stays_sendError c text : stays (sendError c text).
Proof. apply stays_try_send. Qed.
#[local] Hint Resolve stays_sendError : steady.

Lemma stays_send_or_error c l :
  stays (send_or_error pid_String pid_ShortString peer_Decode send_text E c l).
Proof. unfold send_or_error, send_on_mesh. stay. Qed.
#[local] Hint Resolve stays_send_or_error : steady.

Lemma stays_encrypt msg : stays (encrypt pid_String pid_ShortString E msg).
Proof. unfold encrypt. stay. Qed.
#[local] Hint Resolve stays_encrypt : steady.

Lemma stays_chat c i :
  stays (handleIncomingChat pid_String pid_ShortString peer_Decode send_text E c i).
Proof. unfold handleIncomingChat, newChat. stay. Qed.

Lemma stays_key c i :
  stays (handleIncomingKeyExchange pid_String pid_ShortString peer_Decode send_text E c i).
Proof. unfold handleIncomingKeyExchange. stay. Qed.

Lemma stays_sos c i :
  stays (handleIncomingSOS pid_String pid_ShortString peer_Decode sos_text E c i).
Proof. unfold handleIncomingSOS. stay. Qed.

Lemma stays_file c i : stays (handleIncomingFile file_text E c i).
Proof. unfold handleIncomingFile. stay. Qed.

Lemma stays_seed c : stays (handleSeedExport c).
Proof. unfold handleSeedExport. stay. Qed.

Lemma stays_pong c : stays (sendPong c).
Proof. apply stays_try_send. Qed.
#[local] Hint Resolve stays_chat stays_key stays_sos stays_file stays_seed stays_pong : steady.

Lemma stays_handleIncoming c data :
  stays (handleIncoming pid_String pid_ShortString peer_Decode send_text sos_text file_text E c data).
Proof. unfold handleIncoming, dispatch. stay. Qed.

End Steady.

(** ** The client table *)

Lemma fed_lookup b b' c : steady b b' ->
  (forall ch, br_chans b !! c = Some ch -> exists ch', br_chans b' !! c = Some ch' /\ fed ch ch') /\
  (forall ch', br_chans b' !! c = Some ch' -> exists ch, br_chans b !! c = Some ch /\ fed ch ch').
Proof.
  intros H. split; intros ch Hch.
  - by eapply Forall2_lookup_l; [apply H |].
  - by eapply Forall2_lookup_r; [apply H |].
Qed.

Lemma Inv_steady b b' : Inv b -> steady b b' -> Inv b'.
Proof.
  intros HI HS. constructor.
  - intros c. rewrite (st_clients _ _ HS), (inv_open _ HI). destruct (fed_lookup _ _ c HS) as [Hl Hr].
    split; intros (ch & Hch & Ho).
    + destruct (Hl _ Hch) as (ch' & ? & Hf). exists ch'. by rewrite (fed_open _ _ Hf).
    + destruct (Hr _ Hch) as (ch' & ? & Hf). exists ch'. by rewrite <- (fed_open _ _ Hf).
  - pose proof (inv_bound _ HI) as Hb. rewrite Forall_lookup in Hb |- *. intros c ch' Hch'.
    destruct (proj2 (fed_lookup _ _ c HS) _ Hch') as (ch & Hch & Hf).
    apply (fed_bound _ _ Hf), (Hb c), Hch.
  - apply HS, HI.
  - intros c ch' Hc Hch' Hr. destruct (proj2 (fed_lookup _ _ c HS) _ Hch') as (ch & Hch & Hf).
    rewrite (st_closed _ _ HS) in Hc. rewrite (fed_reading _ _ Hf), (fed_pending _ _ Hf) in Hr.
    rewrite (fed_open _ _ Hf). by eapply inv_reading.
  - intros c ch' Hch'. destruct (proj2 (fed_lookup _ _ c HS) _ Hch') as (ch & Hch & Hf).
    rewrite (fed_reading _ _ Hf), (fed_pending _ _ Hf). by eapply inv_pending.
Qed.

Lemma Inv_update_chan c f b b' :
  Inv b -> (forall ch, br_chans b !! c = Some ch -> tame f ch) ->
  update_chan c f b = Some (tt, b') -> Inv b'.
Proof.
  intros HI Hf [= <-]. constructor; simpl.
  - intros c'. rewrite (inv_open _ HI). rewrite list_lookup_alter. case_decide as Hc; [| done].
    subst c'. split; intros (ch & Hch & Ho).
    + exists (f ch). rewrite Hch. split; [done |]. by rewrite (proj1 (Hf _ Hch)).
    + apply fmap_Some in Hch as (ch0 & Hch & ->). exists ch0. split; [done |].
      by rewrite <- (proj1 (Hf _ Hch)).
  - pose proof (inv_bound _ HI) as Hb. rewrite Forall_lookup in Hb |- *. intros c' ch.
    rewrite list_lookup_alter. case_decide; [| by apply Hb]. intros (ch0 & Hch & ->)%fmap_Some.
    pose proof (Hb _ _ Hch). destruct (Hf ch0) as (_ & ? & _); [congruence | lia].
  - apply HI.
  - intros c' ch Hcl. rewrite list_lookup_alter. case_decide; [| by apply HI].
    intros (ch0 & Hch & ->)%fmap_Some Hr. destruct (Hf ch0) as (-> & _ & Hrd & Hpd); [congruence |].
    destruct Hr as [Hr | Hr].
    + destruct (Hrd Hr); [| done]. eapply (inv_reading _ HI); eauto.
    + destruct (Hpd Hr). eapply (inv_reading _ HI); eauto.
  - intros c' ch. rewrite list_lookup_alter. case_decide; [| by apply HI].
    intros (ch0 & Hch & ->)%fmap_Some Hp. destruct (Hf ch0) as (_ & _ & _ & Hpd); [congruence |].
    destruct (Hpd Hp) as [Hp0 Hr]. pose proof (inv_pending _ HI _ _ Hch Hp0).
    destruct (ch_reading (f ch0)); [rewrite Hr in *; done | done].
Qed.

Lemma forget_close c b : Inv b -> c ∈ br_clients b ->
  (forget c;; close_chan c) b = Some (tt, dropped c b).
Proof.
  intros HI Hc. apply (inv_open _ HI) in Hc as (ch & Hch & Ho).
  unfold close_chan, forget, bupdate, mbind, BM_bind, bget. simpl. by rewrite Hch, Ho.
Qed.

Lemma Inv_dropped c b :
  Inv b -> br_closed b = true \/ (forall ch, br_chans b !! c = Some ch -> idle ch) -> Inv (dropped c b).
Proof.
  intros HI Hr. constructor; simpl.
  - intros c'. rewrite elem_of_difference, elem_of_singleton, (inv_open _ HI), list_lookup_alter.
    case_decide as Hc; [| naive_solver]. subst c'. split; [naive_solver |].
    intros (ch & (ch0 & _ & ->)%fmap_Some & Ho). done.
  - pose proof (inv_bound _ HI) as Hb. rewrite Forall_lookup in Hb |- *. intros c' ch.
    rewrite list_lookup_alter. case_decide; [| by apply Hb].
    intros (ch0 & Hch & ->)%fmap_Some. simpl. by apply (Hb c).
  - apply HI.
  - intros c' ch Hcl. rewrite list_lookup_alter. case_decide as Hc; [| by apply HI].
    subst c'. intros (ch0 & Hch & ->)%fmap_Some Hrd. simpl in Hrd.
    destruct Hr as [Hr | Hr]; [congruence |]. injection (Hr _ Hch). intros. destruct Hrd; congruence.
  - intros c' ch. rewrite list_lookup_alter. case_decide as Hc; [| by apply HI].
    subst c'. intros (ch0 & Hch & ->)%fmap_Some. simpl. by apply (inv_pending _ HI c).
Qed.

Lemma unregister_eq c b : Inv b ->
  unregisterClient c b
  = Some (tt, if decide (c ∈ br_clients b) then dropped c b else b).
Proof.
  intros HI. unfold unregisterClient, mbind at 1, BM_bind, bget, bwhen.
  case_decide as Hc; [rewrite bool_decide_true by done | by rewrite bool_decide_false].
  by apply (forget_close c b).
Qed.

(** [Stop]'s loop. *)
Lemma stop_loop l b :
  Inv b -> br_closed b = true -> NoDup l -> list_to_set l ⊆ br_clients b ->
  exists b', bfor l (fun c => forget c;; close_chan c) b = Some (tt, b') /\ Inv b' /\
    br_clients b' = br_clients b ∖ list_to_set l /\ br_closed b' = true /\
    forall c, duties <$> br_chans b' !! c = duties <$> br_chans b !! c.
Proof.
  revert b. induction l as [|c l IH]; intros b HI Hcl Hnd Hsub.
  - exists b. simpl. split_and!; [done.. | set_solver | done | done].
  - apply NoDup_cons in Hnd as [Hni Hnd]. simpl.
    destruct (IH (dropped c b)) as (b' & Hrun & HI' & Hc' & Hcl' & Hrd).
    + apply Inv_dropped; auto.
    + done.
    + done.
    + simpl. intros x Hx. pose proof (Hsub x). set_solver.
    + exists b'. split_and!; [| done | | done |].
      * unfold mbind, BM_bind at 1. rewrite forget_close; [done.. | set_solver].
      * rewrite Hc'. simpl. set_solver.
      * intros x. rewrite Hrd. simpl. rewrite list_lookup_alter. case_decide; [| done]. subst.
        by rewrite <- list_fmap_compose || (destruct (br_chans b !! x); done).
Qed.

Lemma bind_inv {A B} (m : BM A) (k : A -> BM B) b r b' :
  (m ≫= k) b = Some (r, b') -> exists a b1, m b = Some (a, b1) /\ k a b1 = Some (r, b').
Proof. unfold mbind, BM_bind. destruct (m b) as [[a b1]|]; [eauto | done]. Qed.

Lemma Inv_registered b : Inv b ->
  Inv (set_clients ({[length (br_chans b)]} ∪ br_clients b) (br_chans b ++ [newChan]) b).
Proof.
  intros HI. constructor; simpl.
  - intros c. rewrite elem_of_union, elem_of_singleton, (inv_open _ HI). split.
    + intros [-> | (ch & Hch & Ho)]; [exists newChan; by rewrite list_lookup_middle |].
      exists ch. split; [by apply lookup_app_l_Some | done].
    + intros (ch & [Hch | [Hlen Hch]]%lookup_app_Some & Ho); [by right; exists ch |]. left.
      apply list_lookup_singleton_Some in Hch as [? _]. lia.
  - apply Forall_app. split; [apply HI |]. apply Forall_singleton, Nat.le_0_l.
  - apply HI.
  - intros c ch Hcl [Hch | [_ Hch]]%lookup_app_Some; [by apply (inv_reading _ HI c) |].
    apply list_lookup_singleton_Some in Hch as [_ <-]. done.
  - intros c ch [Hch | [_ Hch]]%lookup_app_Some; [by apply (inv_pending _ HI c) |].
    apply list_lookup_singleton_Some in Hch as [_ <-]. done.
Qed.

Lemma Inv_handleWS up b b' : Inv b -> handleWS up b = Some (tt, b') -> Inv b'.
Proof.
  intros HI. unfold handleWS. destruct up; cbn [negb]; [| by intros [= <-]].
  intros (? & ? & [= <- <-] & [= <-])%bind_inv. by apply Inv_registered.
Qed.

Lemma stays_sendIdentity c : stays (sendIdentity c).
Proof. unfold sendIdentity. stay. Qed.

(** A reply that succeeded found the channel open. *)
Lemma try_send_open c data b b' :
  try_send c data b = Some (tt, b') -> exists ch, br_chans b !! c = Some ch /\ ch_open ch = true.
Proof.
  intros H. destruct (br_chans b !! c) as [ch|] eqn:Hc.
  - rewrite (try_send_eq c data b ch Hc) in H. exists ch. by destruct (ch_open ch).
  - unfold try_send, mbind, BM_bind, bget in H. by rewrite Hc in H.
Qed.

Lemma identity_encodes (m : identityMessage) : exists data, json_marshal m = Some data.
Proof.
  destruct m as [t p n k]. unfold json_marshal, identityMessage_json, go_json. cbn.
  case_match; by eexists.
Qed.

Lemma sendIdentity_eq c b : exists data, sendIdentity c b = try_send c data b.
Proof.
  unfold sendIdentity, mbind, BM_bind, bget. cbv zeta.
  match goal with |- context [json_marshal ?m] => destruct (identity_encodes m) as [data ->] end. by exists data.
Qed.

Lemma Inv_greet c b b' : Inv b -> greet c b = Some (tt, b') -> Inv b'.
Proof.
  intros HI (? & ? & [= <- <-] & H)%bind_inv. destruct (br_chans b !! c) as [ch|] eqn:Hc; [| by injection H as <-].
  destruct (ch_pending ch) eqn:Hp; cbn [bwhen] in H; [| by injection H as <-].
  apply bind_inv in H as ([] & b1 & Hid & Hup). destruct (sendIdentity_eq c b) as [data Heq].
  pose proof (stays_sendIdentity c _ _ _ Hid) as Hs. rewrite Heq in Hid.
  destruct (try_send_open _ _ _ _ Hid) as (ch0 & Hch0 & Ho). rewrite Hc in Hch0. injection Hch0 as <-.
  eapply Inv_update_chan; [by eapply Inv_steady | | exact Hup]. intros ch1 Hch1.
  destruct (proj1 (fed_lookup _ _ c Hs) _ Hc) as (ch2 & Hch2 & Hf). rewrite Hch1 in Hch2. injection Hch2 as <-.
  split_and!; [done.. | | done]. intros _. right. by rewrite (fed_open _ _ Hf).
Qed.

Lemma greet_open c b ch :
  br_chans b !! c = Some ch -> ch_open ch = true -> exists b', greet c b = Some (tt, b').
Proof.
  intros Hch Ho. unfold greet, mbind, BM_bind, bget. rewrite Hch.
  destruct (ch_pending ch); cbn [bwhen]; [| by eexists].
  destruct (sendIdentity_eq c b) as [data ->]. rewrite (try_send_eq _ _ _ _ Hch), Ho. by eexists.
Qed.

Lemma Inv_unregister c b b' : Inv b -> (forall ch, br_chans b !! c = Some ch -> idle ch) ->
  unregisterClient c b = Some (tt, b') -> Inv b'.
Proof.
  intros HI Hr. rewrite unregister_eq by done. intros [= <-].
  case_decide; [apply Inv_dropped; auto | done].
Qed.

Lemma Inv_read_error c b b' ch : Inv b -> br_chans b !! c = Some ch -> ch_reading ch = true ->
  (update_chan c (fun ch => set_pumps (ch_writing ch) false ch);; unregisterClient c) b = Some (tt, b') ->
  Inv b'.
Proof.
  intros HI Hch Hrd ([] & b1 & Hup & Hun)%bind_inv. eapply Inv_unregister; [| | exact Hun].
  - eapply Inv_update_chan; [exact HI | | exact Hup]. intros ch0 _. by split_and!.
  - injection Hup as <-. simpl. intros ch1. rewrite list_lookup_alter_eq, Hch. intros [= <-].
    unfold idle, duties. simpl. destruct (ch_pending ch) eqn:Hp; [| done].
    pose proof (inv_pending _ HI _ _ Hch Hp). congruence.
Qed.

Lemma writer_tame w closing ch : tame (fun ch => if ch_writing ch then writer_step w closing ch else ch) ch.
Proof.
  unfold tame. destruct (ch_writing ch); [| auto]. unfold writer_step.
  destruct w as [[] | [] |]; [destruct (ch_queue ch) eqn:Hq; simpl; rewrite ?Hq; simpl.. | | |]; try auto with lia.
  all: repeat case_match; simpl; rewrite ?Hq; simpl; auto with lia.
Qed.

Lemma Stop_spec b : Inv b -> br_closed b = false ->
  exists b', Stop b = Some (tt, b') /\ Inv b' /\ br_clients b' = ∅ /\ br_closed b' = true /\
    forall c, duties <$> br_chans b' !! c = duties <$> br_chans b !! c.
Proof.
  intros HI Hcl. unfold Stop, mbind, BM_bind, bget, bupdate. rewrite Hcl. simpl.
  destruct (stop_loop (elements (br_clients b)) (set_flags (br_started b) true b))
    as (b' & Hrun & HI' & Hc & Hcl' & Hr).
  - destruct HI. constructor; try done.
  - done.
  - apply NoDup_elements.
  - by rewrite list_to_set_elements_L.
  - exists b'. split_and!; [exact Hrun | done | | done | exact Hr].
    rewrite Hc. simpl. rewrite list_to_set_elements_L. set_solver.
Qed.

Section Clients.
Context {N : NaCl}.
Context (pid_String pid_ShortString : peerID -> string) (peer_Decode : string -> option peerID).
Context (send_text : SendError -> string) (sos_text : SosError -> string)
        (file_text : TransferError -> string).
Context (E : BEnv).

Abbreviation bstep := (bstep pid_String pid_ShortString peer_Decode send_text sos_text file_text E).
Abbreviation reachable := (reachable pid_String pid_ShortString peer_Decode send_text sos_text file_text E).

Lemma Inv_readPump c frame b b' : Inv b ->
  readPump pid_String pid_ShortString peer_Decode send_text sos_text file_text E c frame b = Some (tt, b') ->
  Inv b'.
Proof.
  intros HI. unfold readPump. intros (? & ? & [= <- <-] & H)%bind_inv.
  destruct (br_chans b !! c) as [ch|] eqn:Hch; [| by injection H as <-].
  destruct (ch_reading ch) eqn:Hrd; cbn [bwhen] in H; [| by injection H as <-].
  destruct frame as [data|]; [destruct (_ <=? _) |].
  - eapply Inv_steady; [exact HI |]. by eapply stays_handleIncoming.
  - by eapply Inv_read_error.
  - by eapply Inv_read_error.
Qed.

Lemma Inv_bstep i b b' : Inv b -> bstep i b = Some (tt, b') -> Inv b'.
Proof.
  intros HI Hi.
  assert (stays (bstep i) -> Inv b') as Hst by (intros Hs; by eapply Inv_steady, Hs).
  destruct i; simpl in Hi, Hst.
  - by eapply Inv_handleWS.
  - by eapply Inv_greet.
  - by eapply Inv_readPump.
  - apply bind_inv in Hi as (? & ? & [= <- <-] & Hup).
    eapply Inv_update_chan; [exact HI | | exact Hup]. intros. apply writer_tame.
  - apply Hst, stays_handleMeshMessage.
  - apply Hst. unfold handlePeerJoin, sendPeerEvent. stay.
  - apply Hst. unfold handlePeerLeave, sendPeerEvent. stay.
  - apply Hst. unfold broadcastRelay. stay.
  - apply Hst. stay. apply stays_on_files.
  - apply Hst. unfold run_send. stay; apply stays_on_files.
  - apply Hst. unfold Start. stay; [apply stays_bupdate; by constructor | apply stays_on_mesh].
  - apply Hst, stays_bupdate. by constructor.
  - apply Hst, stays_bupdate. by constructor.
  - apply bind_inv in Hi as Hi'. destruct Hi' as (? & ? & [= <- <-] & Hrest).
    destruct (br_closed b) eqn:Hcl; [done |].
    destruct (Stop_spec b HI Hcl) as (b1 & Hrun & HI1 & _). congruence.
Qed.

Lemma reach_inputs b0 b inputs b' : reachable b0 b ->
  bfor inputs (fun i => bstep i) b = Some (tt, b') -> reachable b0 b'.
Proof.
  revert b. induction inputs as [|i inputs IH]; intros b Hr; cbn [bfor].
  - by intros [= <-].
  - intros ([] & b1 & Hi & Hrest)%bind_inv. eapply IH; [| exact Hrest]. by eapply reach_step.
Qed.

Lemma Inv_reachable b0 b : Inv b0 -> reachable b0 b -> Inv b.
Proof. intros H0. induction 1 as [| b b' i _ IH Hi]; [done | by eapply Inv_bstep]. Qed.

End Clients.

Lemma Inv_NewBridge sos files p nick e2e d id : Inv (NewBridge sos files p nick e2e d id).
Proof.
  constructor; simpl.
  - intros c. split; [set_solver | by intros (ch & ? & _)].
  - constructor.
  - apply map_Forall_empty.
  - done.
  - done.
Qed.

Lemma broadcast_loop data l b :
  (forall c, c ∈ l -> exists ch, br_chans b !! c = Some ch /\ ch_open ch = true) -> NoDup l ->
  exists b', bfor l (fun c => try_send c data) b = Some (tt, b') /\
    forall c, br_chans b' !! c = (if decide (c ∈ l) then push data else id) <$> br_chans b !! c.
Proof.
  revert b. induction l as [|c l IH]; intros b Hl Hnd; simpl.
  - exists b. split; [done |]. intros c. by rewrite option_fmap_id.
  - apply NoDup_cons in Hnd as [Hni Hnd].
    destruct (Hl c) as (ch & Hch & Ho); [set_solver |].
    unfold mbind at 1, BM_bind at 1. rewrite (try_send_eq c data b ch Hch), Ho.
    destruct (IH (set_clients (br_clients b) (alter (push data) c (br_chans b)) b)) as (b' & Hrun & Hb').
    + intros c' Hc'. destruct (Hl c') as (ch' & Hch' & Ho'); [set_solver |]. exists ch'. simpl.
      rewrite list_lookup_alter_ne; [done | set_solver].
    + done.
    + exists b'. split; [done |]. intros c'. rewrite Hb'. simpl. rewrite list_lookup_alter.
      destruct (decide (c = c')) as [<- | Hne].
      * rewrite decide_False, decide_True by set_solver. rewrite Hch. done.
      * destruct (decide (c' ∈ l)); [rewrite decide_True by set_solver | rewrite decide_False by set_solver]; done.
Qed.

Lemma broadcast_spec data b : Inv b ->
  exists b', broadcast data b = Some (tt, b') /\
    forall c, br_chans b' !! c
      = (if decide (c ∈ br_clients b) then push data else id) <$> br_chans b !! c.
Proof.
  intros HI. destruct (broadcast_loop data (elements (br_clients b)) b) as (b' & Hrun & Hb').
  - intros c Hc. apply elem_of_elements in Hc. by apply (inv_open _ HI).
  - apply NoDup_elements.
  - exists b'. split; [exact Hrun |]. intros c. rewrite Hb'. f_equal.
    destruct (decide (c ∈ br_clients b)); [rewrite decide_True | rewrite decide_False]; try done;
      by rewrite elem_of_elements.
Qed.

(** ** The properties *)

Section Properties.
Context {N : NaCl}.
Context (pid_String pid_ShortString : peerID -> string) (peer_Decode : string -> option peerID).
Context (send_text : SendError -> string) (sos_text : SosError -> string)
        (file_text : TransferError -> string).
Context (E : BEnv).

Abbreviation bstep := (bstep pid_String pid_ShortString peer_Decode send_text sos_text file_text E).
Abbreviation reachable := (reachable pid_String pid_ShortString peer_Decode send_text sos_text file_text E).
Abbreviation readPump := (readPump pid_String pid_ShortString peer_Decode send_text sos_text file_text E).


(** C33: while the bridge has not been stopped, greeting a new client and replying to
    one that is being read from cannot panic.  [Stop] closes the channels under the
    connection handlers and the readers: a greeting still to come panics, so does a
    reader that then answers a malformed frame, and so does a second [Stop]. *)
Theorem replies_until_Stop sos files p nick e2e d id b c ch :
  reachable (NewBridge sos files p nick e2e d id) b -> br_closed b = false ->
  br_chans b !! c = Some ch -> ch_reading ch = true \/ ch_pending ch = true ->
  (forall text, exists b', sendError c text b = Some (tt, b')) /\
  (exists b', greet c b = Some (tt, b')) /\
  exists b', Stop b = Some (tt, b') /\ br_clients b' = ∅ /\ Stop b' = None /\
    (ch_pending ch = true -> greet c b' = None) /\
    (ch_reading ch = true -> forall data, blen data <= maxMessageSize ->
       json_unmarshal (A := wsIncoming) data = None -> readPump c (Some data) b' = None).
Proof.
  intros Hr Hcl Hch Hrd.
  assert (Inv b) as HI by (eapply Inv_reachable; [apply Inv_NewBridge | exact Hr]).
  pose proof (inv_reading _ HI c ch Hcl Hch Hrd) as Ho. split_and!.
  - intros text. unfold sendError. rewrite (try_send_eq _ _ _ _ Hch), Ho. eauto.
  - by apply greet_open with ch.
  - destruct (Stop_spec b HI Hcl) as (b' & Hrun & HI' & Hc & Hcl' & Hrd').
    specialize (Hrd' c). rewrite Hch in Hrd'. apply fmap_Some in Hrd' as (ch' & Hch' & Hd).
    injection Hd as Hrd'' Hp'.
    assert (forall data, try_send c data b' = None) as Hfail.
    { intros data. rewrite (try_send_eq _ _ _ _ Hch'). destruct (ch_open ch') eqn:Ho'; [| done].
      assert (c ∈ br_clients b') as Hin by (apply (inv_open _ HI'); eauto). set_solver. }
    exists b'. split_and!; [done | done | | |].
    + unfold Stop, mbind, BM_bind, bget. by rewrite Hcl'.
    + intros Hp. unfold greet, mbind, BM_bind, bget. rewrite Hch', <- Hp', Hp. cbn [bwhen].
      destruct (sendIdentity_eq c b') as [data ->]. by rewrite Hfail.
    + intros Hread data Hlen Hbad. unfold readPump, mbind, BM_bind, bget. rewrite Hch', <- Hrd'', Hread.
      cbn [bwhen]. rewrite (proj2 (Z.leb_le _ _) Hlen). unfold handleIncoming. rewrite Hbad. apply Hfail.
Qed.

End Properties.

Lemma sample_connected :
  exists b ch ch2, @reachable toy_box sample_str sample_str sample_decode no_text no_text no_text sample_benv
    sample_bridge b /\ br_closed b = false /\ br_sosSet b = true /\ br_filesSet b = true /\
    (br_chans b !! 0%nat = Some ch /\ ch_reading ch = true) /\
    (br_chans b !! 1%nat = Some ch2 /\ ch_pending ch2 = true).
Proof.
  eexists _, _, _. split.
  - eapply (reach_inputs _ _ _ _ _ _ _ _ _ sample_inputs); [apply reach_here |]. vm_compute. reflexivity.
  - split_and!; reflexivity.
Qed.


Lemma replies_until_Stop_witness :
  exists b b', Stop b = Some (tt, b') /\ Stop b' = None /\ greet 1 b' = None /\
    @readPump toy_box sample_str sample_str sample_decode no_text no_text no_text sample_benv 0
      (Some (str_bytes "{")) b' = None.
Proof.
  destruct sample_connected as (b & ch & ch2 & Hr & Hc & _ & _ & [Hch Hrd] & [Hch2 Hp]).
  destruct (replies_until_Stop sample_str sample_str sample_decode no_text no_text no_text
    sample_benv _ _ _ _ _ _ _ b 0%nat ch Hr Hc Hch (or_introl Hrd)) as (_ & _ & b' & H & _ & H2 & _ & H3).
  destruct (replies_until_Stop sample_str sample_str sample_decode no_text no_text no_text
    sample_benv _ _ _ _ _ _ _ b 1%nat ch2 Hr Hc Hch2 (or_intror Hp)) as (_ & _ & b2 & H' & _ & _ & H4 & _).
  rewrite H in H'. injection H' as <-.
  exists b, b'. split; [exact H | split; [exact H2 | split; [exact (H4 Hp) |]]].
  apply H3; [exact Hrd | vm_compute; discriminate | vm_compute; reflexivity].
Defined.
