(* ===== verification/BridgeLogic.v ===== *)
(** * Reasoning about the state monads

    [yields J m P] says of a computation in a state monad (the mesh node's, the SOS
    manager's or the bridge's) that it keeps [J] and returns only results with [P].
    What the bridge does to its clients concerns neither its name nor the node: a
    property of those needs a proof only for the operations on the node. *)

From S2P Require Import Prelude Float64 Json GoJson Message MessageJson Heap Routing FileTransfer Crypto.
From S2P Require Import WireJson FileTransferSpec Mesh MeshSpec Sos Bridge CryptoSpec BridgeSpec.

(** ** Vocabulary *)

Definition yields {S A} (J : S -> Prop) (m : S -> option (A * S)) (P : A -> Prop) : Prop :=
  forall s a s', J s -> m s = Some (a, s') -> J s' /\ P a.

Definition any {A} (_ : A) : Prop := True.

(** The state of the node under the bridge. *)
Definition world (b : Bridge) : World := base (br_sos b).

(** [J] of the node, and the bridge's name. *)
Definition named_world (me : string) (J : World -> Prop) (b : Bridge) : Prop :=
  br_peerID b = me /\ J (world b).

(** ** The rules *)

Lemma yields_mono {S A} (J : S -> Prop) (m : S -> option (A * S)) P Q :
  (forall a, P a -> Q a) -> yields J m P -> yields J m Q.
Proof. intros HPQ Hm s a s' HJ H. destruct (Hm s a s' HJ H). auto. Qed.

Lemma yields_M_ret {A} J (a : A) (P : A -> Prop) : P a -> yields J (mret a : M A) P.
Proof. by intros HP w ? ? HJ [= <- <-]. Qed.
Lemma yields_M_bind {A B} J (m : M A) (k : A -> M B) P Q :
  yields J m P -> (forall a, P a -> yields J (k a) Q) -> yields J (m ≫= k) Q.
Proof.
  intros Hm Hk w a w' HJ H. unfold mbind, M_bind in H.
  destruct (m w) as [[x w1]|] eqn:E; [| done]. destruct (Hm _ _ _ HJ E). by eapply Hk.
Qed.
Lemma yields_SM_ret {A} J (a : A) (P : A -> Prop) : P a -> yields J (mret a : SM A) P.
Proof. by intros HP w ? ? HJ [= <- <-]. Qed.
Lemma yields_SM_bind {A B} J (m : SM A) (k : A -> SM B) P Q :
  yields J m P -> (forall a, P a -> yields J (k a) Q) -> yields J (m ≫= k) Q.
Proof.
  intros Hm Hk w a w' HJ H. unfold mbind, SM_bind in H.
  destruct (m w) as [[x w1]|] eqn:E; [| done]. destruct (Hm _ _ _ HJ E). by eapply Hk.
Qed.
Lemma yields_BM_ret {A} J (a : A) (P : A -> Prop) : P a -> yields J (mret a : BM A) P.
Proof. by intros HP w ? ? HJ [= <- <-]. Qed.
Lemma yields_BM_bind {A B} J (m : BM A) (k : A -> BM B) P Q :
  yields J m P -> (forall a, P a -> yields J (k a) Q) -> yields J (m ≫= k) Q.
Proof.
  intros Hm Hk w a w' HJ H. destruct (bind_inv _ _ _ _ _ H) as (x & w1 & E & H').
  destruct (Hm _ _ _ HJ E). by eapply Hk.
Qed.

Lemma yields_when J b m : yields J m any -> yields J (when b m) any.
Proof. destruct b; [done | intros; by apply yields_M_ret]. Qed.
Lemma yields_bwhen J b m : yields J m any -> yields J (bwhen b m) any.
Proof. destruct b; [done | intros; by apply yields_BM_ret]. Qed.
Lemma yields_bfor {A} J (l : list A) f :
  (forall a, yields J (f a) any) -> yields J (bfor l f) any.
Proof.
  intros Hf. induction l; simpl; [by apply yields_BM_ret |].
  eapply yields_BM_bind; [apply Hf | done].
Qed.

Create HintDb yields.
#[export] Hint Constants Opaque : yields.
#[export] Hint Resolve yields_when yields_bwhen yields_bfor : yields.

(** A goal about a computation, down to the calls the hint database knows. *)
Ltac yield :=
  repeat lazymatch goal with
  | |- yields _ (@mbind M _ _ _ _ _) _ =>
      first [ eapply yields_M_bind; [solve [eauto with yields] | intros ? ?; cbv beta in *]
            | apply (yields_M_bind _ _ _ any); [| intros ? ?] ]
  | |- yields _ (@mbind SM _ _ _ _ _) _ =>
      first [ eapply yields_SM_bind; [solve [eauto with yields] | intros ? ?; cbv beta in *]
            | apply (yields_SM_bind _ _ _ any); [| intros ? ?] ]
  | |- yields _ (@mbind BM _ _ _ _ _) _ =>
      first [ eapply yields_BM_bind; [solve [eauto with yields] | intros ? ?; cbv beta in *]
            | apply (yields_BM_bind _ _ _ any); [| intros ? ?] ]
  | |- yields _ (@mret M _ _ _) _ => apply yields_M_ret
  | |- yields _ (@mret SM _ _ _) _ => apply yields_SM_ret
  | |- yields _ (@mret BM _ _ _) _ => apply yields_BM_ret
  | |- yields _ (when _ _) _ => apply yields_when
  | |- yields _ (bwhen _ _) _ => apply yields_bwhen
  | |- yields _ (bfor _ _) _ => apply yields_bfor; intros ?
  | |- yields _ (match ?x with _ => _ end) _ => destruct x eqn:?
  | |- yields _ (let _ := _ in _) _ => intro
  end; try done; eauto with yields.

(** ** What keeps every property of the node *)

Section Node.
Context (J : World -> Prop).

Lemma y_get : yields J get any.
Proof. by intros w ? ? HJ [= <- <-]. Qed.

Lemma y_read_any l : yields J (read l) any.
Proof.
  intros w m w' HJ H. unfold read in H. destruct (hp w !! l); [| done]. by injection H as <- <-.
Qed.

Lemma y_lift {A} (m : M A) P : yields J m P -> yields (fun s => J (base s)) (lift m) P.
Proof.
  intros Hm s a s' HJ H. unfold lift in H. destruct (m (base s)) as [[x w]|] eqn:Em; [| done].
  injection H as <- <-. by apply (Hm _ _ _ HJ).
Qed.
Lemma y_sget : yields (fun s => J (base s)) sget any.
Proof. by intros s ? ? HJ [= <- <-]. Qed.
Lemma y_supdate f : yields (fun s => J (base s)) (supdate f) any.
Proof. by intros s ? ? HJ [= <- <-]. Qed.
Lemma y_snote n : yields (fun s => J (base s)) (snote n) any.
Proof. by intros s ? ? HJ [= <- <-]. Qed.
Lemma y_sspawn p m : yields (fun s => J (base s)) (sspawn p m) any.
Proof. by intros s ? ? HJ [= <- <-]. Qed.

End Node.
#[export] Hint Resolve y_get y_lift y_sget y_supdate y_snote y_sspawn : yields.

Section Bridge.
Context {N : NaCl}.
Context (pid_String pid_ShortString : peerID -> string) (peer_Decode : string -> option peerID).
Context (E : BEnv) (me : string) (J : World -> Prop).
Abbreviation yields := (yields (named_world me J)).

Lemma y_bget : yields bget (fun b => br_peerID b = me).
Proof. intros b ? ? HJ [= <- <-]. by split; [| apply HJ]. Qed.
Lemma y_bpanic {A} (P : A -> Prop) : yields bpanic P.
Proof. by intros b ? ?. Qed.
Lemma y_bupdate f : (forall b, br_peerID (f b) = br_peerID b /\ br_sos (f b) = br_sos b) ->
  yields (bupdate f) any.
Proof.
  intros Hf b ? ? [Hp Hw] [= <- <-]. destruct (Hf b) as [Hp' Hs].
  split; [split; [congruence |] | done]. unfold world in *. by rewrite Hs.
Qed.
#[local] Hint Resolve y_bget y_bpanic : yields.
#[local] Hint Extern 1 (BridgeLogic.yields _ (bupdate _) _) =>
  apply y_bupdate; intros ?; split; reflexivity : yields.

Lemma y_try_send c data : yields (try_send c data) any.
Proof. unfold try_send, update_chan. yield. Qed.
#[local] Hint Resolve y_try_send : yields.

Lemma y_broadcast data : yields (broadcast data) any.
Proof. unfold broadcast. yield. Qed.
#[local] Hint Resolve y_broadcast : yields.

Lemma y_broadcast_opt data : yields (broadcast_opt data) any.
Proof. unfold broadcast_opt. yield. Qed.
#[local] Hint Resolve y_broadcast_opt : yields.

Lemma y_play_event e : yields (play_event pid_String pid_ShortString e) any.
Proof.
  unfold play_event, broadcastRelay, handlePeerJoin, handlePeerLeave, sendPeerEvent. yield.
Qed.
#[local] Hint Resolve y_play_event : yields.

(** The events of an operation are played on its result. *)
Lemma y_play {A} (s : Sos) (m : BM A) (P : A -> Prop) b r b' :
  yields m P -> named_world me J b -> J (base s) ->
  m (set_sos s b) = Some (r, b') -> named_world me J b' /\ P r.
Proof. intros Hm [Hp _] Hw. apply Hm. by split. Qed.

Lemma y_on_mesh {A} (m : M A) P : BridgeLogic.yields J m P ->
  yields (on_mesh pid_String pid_ShortString m) P.
Proof.
  intros Hm b r b' HJ H. unfold on_mesh in H. destruct (m _) as [[a w]|] eqn:Em; [| done].
  destruct (Hm _ _ _ (proj2 HJ) Em). revert H. apply y_play; [| done..]. yield.
Qed.
#[local] Hint Resolve y_on_mesh : yields.

Lemma y_BroadcastSOS msg : yields (BroadcastSOS msg) any.
Proof. unfold BroadcastSOS. yield. Qed.
#[local] Hint Resolve y_BroadcastSOS : yields.

Lemma y_play_sos_note n : yields (play_sos_note pid_String pid_ShortString n) any.
Proof. unfold play_sos_note. pose proof (y_read_any J) as Hread. yield. Qed.
#[local] Hint Resolve y_play_sos_note : yields.

Lemma y_on_sos {A} (m : SM A) P :
  BridgeLogic.yields (fun s => J (base s)) m P ->
  yields (on_sos pid_String pid_ShortString m) P.
Proof.
  intros Hm b r b' HJ H. unfold on_sos in H. destruct (m _) as [[a s]|] eqn:Em; [| done].
  destruct (Hm _ _ _ (proj2 HJ) Em). revert H. apply y_play; [| done..]. yield.
Qed.

Lemma y_BroadcastFile msg : yields (BroadcastFileNotification msg) any.
Proof. unfold BroadcastFileNotification. yield. Qed.
#[local] Hint Resolve y_BroadcastFile : yields.

Lemma y_on_files f sends : yields (on_files f sends) any.
Proof. unfold on_files, play_file_note. yield. Qed.

Lemma y_learn_nick msg : yields (learn_nick peer_Decode msg) any.
Proof. unfold learn_nick. yield. Qed.

Lemma y_handleKeyExchange msg : yields (handleKeyExchange E msg) any.
Proof. unfold handleKeyExchange. yield. Qed.

Lemma y_Receipt msg : yields (BroadcastDeliveryReceipt msg) any.
Proof. unfold BroadcastDeliveryReceipt. yield. Qed.

End Bridge.
#[export] Hint Resolve y_bget y_bpanic y_try_send y_broadcast y_broadcast_opt y_on_mesh y_on_sos y_on_files
  y_BroadcastSOS y_BroadcastFile y_learn_nick y_handleKeyExchange y_Receipt : yields.
#[export] Hint Extern 1 (yields _ (bupdate _) _) =>
  apply y_bupdate; intros ?; split; reflexivity : yields.
