(* ===== verification/BridgeSender.v ===== *)
(** * Under whose name a client speaks

    Whatever bytes a client sends, the node it is connected to allocates, opens
    streams and publishes under its own name only. *)

From S2P Require Import Prelude Utf8 Float64 Json JsonText FloatText GoJson Message MessageJson.
From S2P Require Import Heap Routing FileTransfer Crypto WireJson FileTransferSpec Mesh MeshSpec Sos.
From S2P Require Import Bridge CryptoSpec BridgeSpec BridgeLogic.

(** ** Vocabulary *)

(** A transmission of a message whose sender is [me]. *)
Definition own (me : string) (e : Event) : Prop :=
  match e with
  | EvSend _ data _ | EvPublish data _ =>
      exists m, Sender m = me /\ Serialize m = Some data
  | _ => True
  end.

(** Since [w0], only messages of [me] were allocated and transmitted; older ones were
    not touched. *)
Definition speaks (me : string) (w0 w : World) : Prop :=
  (exists ms, hp w = hp w0 ++ ms /\ Forall (fun m => Sender m = me) ms) /\
  (exists evs, trace w = trace w0 ++ evs /\ Forall (own me) evs).

(** ** The mesh node *)

Section Node.
Context (pid_String : peerID -> string) (peer_Decode : string -> option peerID) (E : Env).
Context (me : string) (w0 : World).
Abbreviation yields := (yields (speaks me w0)).

Lemma y_update f : yields (update f) any.
Proof. by intros w ? ? HJ [= <- <-]. Qed.
Lemma y_ask {A} (f : nat -> A) : yields (ask f) any.
Proof. by intros w ? ? HJ [= <- <-]. Qed.

Lemma y_emit e : own me e -> yields (emit e) any.
Proof.
  intros He w ? ? [Hh (evs & Ht & Ho)] [= <- <-]. split; [split; [done |] | done].
  exists (evs ++ [e]). simpl. rewrite Ht, (assoc_L (++)). split; [done |].
  apply Forall_app. split; [done | by apply Forall_singleton].
Qed.

Lemma y_new m : Sender m = me -> yields (new m) (fun l => length (hp w0) <= l)%nat.
Proof.
  intros Hm w ? ? [(ms & Hh & Hs) Ht] [= <- <-]. split; [split; [| done] |].
  - exists (ms ++ [m]). simpl. rewrite Hh, (assoc_L (++)). split; [done |].
    apply Forall_app. split; [done | by apply Forall_singleton].
  - rewrite Hh, length_app. lia.
Qed.

Lemma y_read l : (length (hp w0) <= l)%nat -> yields (read l) (fun m => Sender m = me).
Proof.
  intros Hl w m w' HJ H. unfold read in H. destruct (hp w !! l) as [m0|] eqn:Hm; [| done].
  injection H as <- <-. split; [done |]. destruct HJ as [(ms & Hh & Hs) _].
  rewrite Hh, lookup_app_r in Hm by done.
  by apply (Forall_lookup_1 (fun m => Sender m = me) ms (l - length (hp w0))%nat).
Qed.

Lemma y_write l f : (length (hp w0) <= l)%nat -> (forall m, Sender (f m) = Sender m) ->
  yields (write l f) any.
Proof.
  intros Hl Hf w ? ? [(ms & Hh & Hs) Ht] [= <- <-]. split; [split; [| done] | done].
  exists (alter f (l - length (hp w0))%nat ms). simpl. unfold modify. rewrite Hh. split.
  - by apply alter_app_r_alt.
  - apply Forall_alter; [done |]. intros m _ Hm. by rewrite Hf.
Qed.

#[local] Hint Resolve y_update y_ask y_new y_read : yields.

Lemma y_relay a from hops m : yields (relay E a from hops m) any.
Proof. unfold relay, emitRelay. yield. by apply y_emit. Qed.
#[local] Hint Resolve y_relay : yields.

Lemma y_sendDirect p m data : Sender m = me -> Serialize m = Some data ->
  yields (sendDirect E p data) any.
Proof.
  intros Hm Hd. unfold sendDirect. eapply yields_M_bind; [apply y_ask | intros ok _].
  eapply yields_M_bind; [apply y_emit; by exists m | intros ? _]. by apply yields_M_ret.
Qed.

Lemma y_topicPublish m data : Sender m = me -> Serialize m = Some data ->
  yields (topicPublish E data) any.
Proof.
  intros Hm Hd. unfold topicPublish. eapply yields_M_bind; [apply y_get | intros n _].
  destruct (Topic n); [| by intros ? ? ? ?].
  eapply yields_M_bind; [apply y_ask | intros ok _].
  eapply yields_M_bind; [apply y_emit; by exists m | intros ? _]. by apply yields_M_ret.
Qed.
#[local] Hint Resolve y_sendDirect y_topicPublish : yields.

Lemma y_Publish l : (length (hp w0) <= l)%nat -> yields (Publish E l) any.
Proof. intros Hl. unfold Publish. yield. Qed.

Lemma y_hand_copy p l from : (length (hp w0) <= l)%nat ->
  yields (hand_copy pid_String E p l from) any.
Proof. intros Hl. unfold hand_copy, sendCopy, markSprayed. yield. Qed.
#[local] Hint Resolve y_Publish y_hand_copy : yields.

Lemma y_copies l c : (length (hp w0) <= l)%nat -> yields (write l (set_CopiesMade c)) any.
Proof. intros Hl. by apply y_write. Qed.
#[local] Hint Resolve y_copies : yields.

Lemma y_route_loop f self l from state stat pids : (length (hp w0) <= l)%nat ->
  yields (route_loop pid_String E f self l from state stat pids) any.
Proof.
  intros Hl. revert state. induction pids as [|p pids IH]; intros state; simpl; yield.
Qed.
#[local] Hint Resolve y_route_loop : yields.

Lemma y_statFor dst now : yields (statForDestinationLocked dst now) any.
Proof. unfold statForDestinationLocked. yield. Qed.

Lemma y_KnownPeers : yields (KnownPeers E) any.
Proof. unfold KnownPeers. yield. Qed.
#[local] Hint Resolve y_KnownPeers : yields.

Lemma y_candidates from : yields (routingCandidates pid_String E from) any.
Proof. unfold routingCandidates. yield. Qed.
#[local] Hint Resolve y_statFor y_candidates : yields.

Lemma y_routeToPeers l from : (length (hp w0) <= l)%nat ->
  yields (routeToPeers pid_String E l from) any.
Proof. intros Hl. unfold routeToPeers. yield. Qed.
#[local] Hint Resolve y_routeToPeers : yields.

Lemma y_SendMessage l : (length (hp w0) <= l)%nat ->
  yields (SendMessage pid_String peer_Decode E l) any.
Proof. intros Hl. unfold SendMessage. yield. Qed.

End Node.

(** ** The SOS manager *)

Section Alerts.
Context (pid_String : peerID -> string) (peer_Decode : string -> option peerID) (E : Env).
Context (me : string) (w0 : World).
Abbreviation yields := (yields (fun s => speaks me w0 (base s))).
#[local] Hint Resolve y_ask y_new y_SendMessage : yields.

Lemma y_now : yields (now E) any.
Proof. unfold now. auto with yields. Qed.
#[local] Hint Resolve y_now : yields.

Lemma y_new_alert l p q : yields (new_alert E l p q) any.
Proof. unfold new_alert. yield. Qed.
#[local] Hint Resolve y_new_alert : yields.

Lemma y_SendAlert nick text urgency lat lon accuracy :
  yields (SendAlert pid_String peer_Decode E me nick text urgency lat lon accuracy) any.
Proof. unfold SendAlert. yield. Qed.

End Alerts.

(** ** The bridge *)

Section Client.
Context {N : NaCl}.
Context (pid_String pid_ShortString : peerID -> string) (peer_Decode : string -> option peerID).
Context (send_text : SendError -> string) (sos_text : SosError -> string)
        (file_text : TransferError -> string).
Context (E : BEnv) (b0 : Bridge).
Abbreviation me := (br_peerID b0).
Abbreviation yields := (yields (named_world me (speaks me (world b0)))).
#[local] Hint Resolve y_ask y_new y_SendMessage y_SendAlert : yields.

Lemma y_sendError c text : yields (sendError c text) any.
Proof. apply y_try_send. Qed.
#[local] Hint Resolve y_sendError : yields.

Lemma y_send_or_error c l : (length (hp (world b0)) <= l)%nat ->
  yields (send_or_error pid_String pid_ShortString peer_Decode send_text E c l) any.
Proof. intros Hl. unfold send_or_error, send_on_mesh. yield. Qed.
#[local] Hint Resolve y_send_or_error : yields.

Lemma EncryptMessage_Sender nonce msg m r m' :
  EncryptMessage nonce msg m = (Ret r, m') -> Sender r = Sender msg.
Proof.
  unfold EncryptMessage. case_bool_decide; [by intros [= <- <-] |].
  destruct (GetSharedKey _ m) as [[key | |] m1]; [| done..]. intros [= H1 _].
  repeat (apply bind_Ret_inv in H1 as (? & _ & H1)). by injection H1 as <-.
Qed.

Lemma y_encrypt msg : Sender msg = me ->
  yields (encrypt pid_String pid_ShortString E msg) (fun m => Sender m = me).
Proof.
  intros Hs. unfold encrypt. yield.
  match goal with H : EncryptMessage _ _ _ = _ |- _ => apply EncryptMessage_Sender in H end. congruence.
Qed.

Lemma y_newChat recipient text :
  yields (newChat pid_String pid_ShortString E recipient text) (fun m => Sender m = me).
Proof. unfold newChat. yield. Qed.
#[local] Hint Resolve y_encrypt y_newChat : yields.

Lemma y_chat c i :
  yields (handleIncomingChat pid_String pid_ShortString peer_Decode send_text E c i) any.
Proof.
  unfold handleIncomingChat. eapply yields_BM_bind; [apply y_bget | intros b Hb].
  eapply (yields_BM_bind _ _ _ any); [yield | intros ts _].
  eapply (yields_BM_bind _ _ _ (fun m => Sender m = me)); [yield | intros msg Hm]. yield.
Qed.

Lemma y_key c i :
  yields (handleIncomingKeyExchange pid_String pid_ShortString peer_Decode send_text E c i) any.
Proof. unfold handleIncomingKeyExchange. yield. Qed.

Lemma y_sos c i :
  yields (handleIncomingSOS pid_String pid_ShortString peer_Decode sos_text E c i) any.
Proof.
  unfold handleIncomingSOS. eapply yields_BM_bind; [apply y_bget | intros b Hb]. rewrite Hb. yield.
Qed.

Lemma y_file c i : yields (handleIncomingFile file_text E c i) any.
Proof. unfold handleIncomingFile. yield. Qed.

Lemma y_seed c : yields (handleSeedExport c) any.
Proof. unfold handleSeedExport. yield. Qed.
#[local] Hint Resolve y_chat y_key y_sos y_file y_seed : yields.

Lemma y_handleIncoming c data :
  yields (handleIncoming pid_String pid_ShortString peer_Decode send_text sos_text file_text E c data) any.
Proof. unfold handleIncoming, dispatch, sendPong. yield. Qed.

End Client.

(** C17: whatever bytes a client sends, handling them leaves every message object that
    existed as it was, gives every new one the node's own identifier as its sender,
    and every stream the node opens or publication it makes meanwhile carries the
    JSON of a message whose sender is the node: a client cannot speak for anyone
    else. *)
Theorem client_cannot_spoof {N : NaCl} pid_String pid_ShortString peer_Decode
    send_text sos_text file_text E c data b b' :
  handleIncoming pid_String pid_ShortString peer_Decode send_text sos_text file_text E c data b
    = Some (tt, b') ->
  (exists new, hp (world b') = hp (world b) ++ new /\
     Forall (fun m => Sender m = br_peerID b) new) /\
  (exists evs, trace (world b') = trace (world b) ++ evs /\ Forall (own (br_peerID b)) evs).
Proof.
  intros H.
  assert (named_world (br_peerID b) (speaks (br_peerID b) (world b)) b) as H0
    by (split; [done |]; split; exists []; by rewrite app_nil_r).
  eapply y_handleIncoming in H; [| exact H0]. apply H.
Qed.

Lemma client_cannot_spoof_witness :
  exists b' new,
    @handleIncoming toy_box sample_str sample_str sample_decode no_text no_text no_text sample_benv 0
      (default [] (json_marshal (mkWsIncoming "chat" "m1" "EVE" "eve" "B" "hi" 5))) sample_bridge
    = Some (tt, b') /\
    hp (world b') = hp (world sample_bridge) ++ new /\ Forall (fun m => Sender m = "A"%string) new.
Proof.
  match goal with |- exists b' _, ?m = _ /\ _ =>
    assert (exists b', m = Some (tt, b')) as [b' H] by (eexists; vm_compute; reflexivity) end.
  destruct (proj1 (client_cannot_spoof _ _ _ _ _ _ _ _ _ _ _ H)) as (new & Hnew & Hs).
  exists b', new. split; [exact H | split; [exact Hnew | exact Hs]].
Defined.
