(* ===== verification/BridgeFrames.v ===== *)
(** * What the clients of the bridge are shown

    With an encryption manager, encrypted messages are handled decrypted or not at
    all; the detour of a forwarded message through untyped JSON rounds its integers to
    binary64; a new alert is shown twice. *)

From S2P Require Import Prelude Utf8 Float64 Json JsonText FloatText GoJson Message MessageJson.
From S2P Require Import Heap Routing FileTransfer Crypto WireJson FileTransferSpec Mesh MeshSpec Sos.
From S2P Require Import Bridge CryptoSpec BridgeSpec BridgeLogic.

(** ** Vocabulary *)

(** The message types with a handling of their own. *)
Definition special (t : MessageType) : Prop :=
  t = TypeFile \/ t = TypeSOS \/ t = TypeDeliveryAck \/ t = TypeKeyExchange.

(** The object at [l] overwritten. *)
Definition put_message (l : loc) (m : Message) (b : Bridge) : Bridge :=
  let s := br_sos b in
  let w := base s in
  set_sos (mkSos (alerts s) (sos_notes s) (acks s)
    (mkWorld (node w) (modify (fun _ => m) l (hp w)) (tasks w) (trace w) (step w))) b.

(** A bridge with a client, its writer slow, and an alert that has just arrived. *)
Definition sample_alert_msg : Message :=
  NewSOS (str_bytes "0123456789abcdef") 1 1 "B" "bob" "help" "high" F64.zero F64.zero F64.zero.
Definition sample_alerted : Bridge :=
  SetSOSManager (set_clients {[0%nat]} [newChan]
    (NewBridge (mkSos ∅ [] [] (mkWorld sample_node [sample_alert_msg] [] [] 0)) (sample_st "A")
       "A" "ann" None (mkDisk ∅ ∅ true None) None)).

Definition sample_stamped : Message :=
  mkMessage "m1" TypeChat "B" "bob" "A" "hi" 1700000000123456789 16 0 0 0 EmptyString EmptyString.

(** A message from A, encrypted for B, in the heap of B's node. *)
Definition sealed : Message :=
  default zeroMessage (match (@EncryptMessage toy_box (str_bytes "0123456789abcdef01234567")
    sample_text (@sample_manager toy_box "a" "B" (PublicKey (@sample_keypair toy_box "b")))).1 with
  | Ret m => Some m | _ => None end).
Definition sample_receiver : Crypto.Manager :=
  @sample_manager toy_box "b" "A" (PublicKey (@sample_keypair toy_box "a")).
Definition sample_sealed : Bridge :=
  set_clients {[0%nat]} [newChan]
    (NewBridge (mkSos ∅ [] [] (mkWorld sample_node [sealed] [] [] 0)) (sample_st "B")
       "B" "bob" (Some sample_receiver)
       (mkDisk ∅ ∅ true None) None).

(** ** Steps of [handleMeshMessage] *)

Section Frames.
Context {N : NaCl}.
Context (pid_String pid_ShortString : peerID -> string) (peer_Decode : string -> option peerID).
Context (E : BEnv).

Abbreviation handleMeshMessage := (handleMeshMessage pid_String pid_ShortString peer_Decode E).
Abbreviation present := (present pid_String pid_ShortString peer_Decode E).
Abbreviation heap_of b := (hp (base (br_sos b))).

Lemma on_mesh_read l b m : heap_of b !! l = Some m ->
  on_mesh pid_String pid_ShortString (read l) b = Some (m, b).
Proof.
  intros Hl. unfold on_mesh, read. rewrite Hl. unfold mbind at 1, option_bind.
  rewrite drop_all. destruct b as [? ? ? ? ? ? [? ? ? ?] ? ? ? ? ? ? ? ?]. reflexivity.
Qed.

Lemma brun_bind {A B} (m : BM A) (k : A -> BM B) b a b1 :
  m b = Some (a, b1) -> (m ≫= k) b = k a b1.
Proof. intros H. unfold mbind, BM_bind. by rewrite H. Qed.

Lemma learn_nick_eq msg b : exists nicks, learn_nick peer_Decode msg b = Some (tt, set_nicks nicks b).
Proof.
  unfold learn_nick. destruct (peer_Decode _) as [p|]; [| exists (br_nicks b); by destruct b].
  destruct (_ && _); [by eexists | exists (br_nicks b); by destruct b].
Qed.

Lemma DecryptMessage_type i1 i2 msg m plain m' :
  DecryptMessage i1 i2 msg m = (Ret plain, m') -> MType plain = MType msg.
Proof.
  unfold DecryptMessage. case_match; [done |]. case_match; [done |].
  destruct (decryption_key _ _ _ _) as [[key | |] m1]; [| done..]. intros [= H1 _].
  apply bind_Ret_inv in H1 as (? & _ & [= <-]). done.
Qed.

Lemma on_mesh_write l m b :
  on_mesh pid_String pid_ShortString (write l (fun _ => m)) b = Some (tt, put_message l m b).
Proof. unfold on_mesh, write. cbn [trace]. rewrite drop_all. reflexivity. Qed.

Lemma decrypt_eq l msg b m : heap_of b !! l = Some msg -> br_e2e b = Some m ->
  IsEncrypted msg = true ->
  decrypt pid_String pid_ShortString E l b =
  match DecryptMessage (be_key1 E) (be_key2 E) msg m with
  | (Ret plain, m') => Some (true, put_message l plain (set_e2e (Some m') (br_disk b) b))
  | (Fail _, m') => Some (false, set_e2e (Some m') (br_disk b) b)
  | (Panic, _) => None
  end.
Proof.
  intros Hl He Henc. unfold decrypt. erewrite brun_bind by reflexivity.
  erewrite brun_bind by by apply on_mesh_read. rewrite He, Henc.
  destruct (DecryptMessage _ _ _ _) as [[plain | |] m']; (erewrite brun_bind by reflexivity); [| done..].
  erewrite brun_bind by apply on_mesh_write. done.
Qed.

Lemma put_message_heap l plain msg b : heap_of b !! l = Some msg ->
  heap_of (put_message l plain b) = <[l := plain]> (heap_of b).
Proof.
  intros Hl. simpl. unfold modify. apply list_eq. intros i. rewrite list_lookup_alter. case_decide.
  - subst i. by rewrite Hl, list_lookup_insert_eq by (by eapply lookup_lt_Some).
  - by rewrite list_lookup_insert_ne.
Qed.

(** What the handling of a message has left of the clients when it comes to its type. *)
Lemma handleMeshMessage_eq l msg b (out : option (bool * Bridge)) :
  heap_of b !! l = Some msg ->
  (forall nicks, decrypt pid_String pid_ShortString E l (set_nicks nicks b)
     = match out with Some (ok, b1) => Some (ok, set_nicks nicks b1) | None => None end) ->
  exists nicks, handleMeshMessage l b =
    match out with
    | Some (true, b1) => (msg' ← on_mesh pid_String pid_ShortString (read l); present l msg' (IsEncrypted msg)) (set_nicks nicks b1)
    | Some (false, b1) => Some (tt, set_nicks nicks b1)
    | None => None
    end.
Proof.
  intros Hl Hd. destruct (learn_nick_eq msg b) as [nicks Hn]. exists nicks.
  unfold Bridge.handleMeshMessage. erewrite brun_bind by by apply on_mesh_read.
  erewrite brun_bind by exact Hn. cbv zeta. specialize (Hd nicks).
  destruct out as [[[] b1] |]; [by erewrite brun_bind by exact Hd.. |].
  unfold mbind at 1, BM_bind at 1. by rewrite Hd.
Qed.


End Frames.

(** The clock reading of a chat message does not survive the way to the client:
    the bridge decodes the message into an untyped map, where numbers are binary64,
    and nanosecond times need more than 53 bits. *)
Theorem forwarded_timestamp_rounded :
  exists data m, forward_frame sample_stamped false = Some data /\
    json_unmarshal data = Some m /\
    Timestamp sample_stamped = 1700000000123456789 /\ Timestamp m = 1700000000123456800.
Proof.
  eexists _, _. split; [vm_compute; reflexivity |].
  split; [vm_compute; reflexivity |]. split; reflexivity.
Qed.

(** A new alert: [HandleIncomingSOS] reports it through the callback the daemon wires
    to [BroadcastSOS], and [handleMeshMessage] then broadcasts it again. *)
Lemma new_alert_shown_twice :
  exists b' ch frame,
    @handleMeshMessage toy_box sample_str sample_str sample_decode sample_benv 0 sample_alerted
      = Some (tt, b') /\
    br_chans b' = [ch] /\ ch_queue ch = [frame; frame].
Proof.
  eexists _, _, _. split; [vm_compute; reflexivity |]. split; reflexivity.
Qed.

Lemma sealed_opens : exists plain m',
  @DecryptMessage toy_box (be_key1 sample_benv) (be_key2 sample_benv) sealed sample_receiver = (Ret plain, m') /\
  Payload plain = "hello"%string.
Proof. eexists _, _. split; [vm_compute; reflexivity | reflexivity]. Qed.

Lemma sealed_handled : exists b',
  @handleMeshMessage toy_box sample_str sample_str sample_decode sample_benv 0 sample_sealed = Some (tt, b').
Proof. eexists. vm_compute. reflexivity. Qed.

Lemma sealed_plain_type : ~ special (MType sealed).
Proof.
  assert (MType sealed = TypeChat) as -> by (vm_compute; reflexivity).
  unfold special. intros [? | [? | [? | ?]]]; discriminate.
Qed.

Lemma sealed_encrypted : IsEncrypted sealed = true.
Proof. vm_compute. reflexivity. Qed.

