(* ===== verification/Daemon.v ===== *)
(** * The daemon (cmd/rippled/main.go)

    What the terminal user types, and what is done with messages from the mesh: the
    handlers of main.go over the state of the bridge (with the node, the managers and
    the shared messages in it) and of the store.  The store keeps pointers into the
    same heap.  Terminal output is a list of lines by their content; their wording is
    not modelled. *)

From S2P Require Import Prelude Float64 Json GoJson Message MessageJson Heap Routing Store.
From S2P Require Import FileTransfer Crypto WireJson Mesh Sos Bridge.

(** ** State *)

Inductive Line :=
| LHelp
| LMe (peerID nickname : string)
| LAlone
| LPeers (short : list string)
| LAddrs
| LUsage (command : string)
| LNick (nickname : string)
| LConnecting (addr : string)
| LNotConnected (addr : string) (e : ConnectError)
| LNoPeer (short : string)
| LNotSent (e : SendError)
| LSentDM (short text : string)
| LSent (peers : nat) (text : string)
| LStats (peers : list string) (messages chats : nat) (peerID nickname : string)
| LClear
| LQuit
| LUnknown (command : string)
| LDirect (sender : string) (hops delay : option Z) (text : string)
| LChat (sender : string) (hops delay : option Z) (text : string)
| LConfirmed (text : string)
| LAlert (sender : string) (hops : option Z) (text : string)
| LOther (sender : string) (type : MessageType) (text : string)
| LPeerJoin (short : string)
| LPeerLeave (short : string).

Record Daemon := mkDaemon {
  d_peerID : string;
  d_nickname : string;
  d_store : Store;
  d_bridge : Bridge;
  d_out : list Line;
  d_running : bool
}.

Definition set_store (s : Store) (d : Daemon) : Daemon :=
  mkDaemon (d_peerID d) (d_nickname d) s (d_bridge d) (d_out d) (d_running d).
Definition set_bridge (b : Bridge) (d : Daemon) : Daemon :=
  mkDaemon (d_peerID d) (d_nickname d) (d_store d) b (d_out d) (d_running d).
Definition set_nickname (n : string) (d : Daemon) : Daemon :=
  mkDaemon (d_peerID d) n (d_store d) (d_bridge d) (d_out d) (d_running d).
Definition print_lines (x : list Line) (d : Daemon) : Daemon :=
  mkDaemon (d_peerID d) (d_nickname d) (d_store d) (d_bridge d) (d_out d ++ x) (d_running d).
Definition stopped (d : Daemon) : Daemon :=
  mkDaemon (d_peerID d) (d_nickname d) (d_store d) (d_bridge d) (d_out d) false.

(** The shared messages. *)
Definition d_heap (d : Daemon) : heap := hp (base (br_sos (d_bridge d))).

(** ** The monad *)

Definition DM (A : Type) : Type := Daemon -> option (A * Daemon).

#[global] Instance DM_ret : MRet DM := fun A a d => Some (a, d).
#[global] Instance DM_bind : MBind DM := fun A B k m d =>
  match m d with
  | Some (a, d') => k a d'
  | None => None
  end.

Definition dpanic {A} : DM A := fun _ => None.
Definition dget : DM Daemon := fun d => Some (d, d).
Definition dupdate (f : Daemon -> Daemon) : DM unit := fun d => Some (tt, f d).
Definition on_bridge {A} (m : BM A) : DM A := fun d =>
  match m (d_bridge d) with
  | Some (a, b) => Some (a, set_bridge b d)
  | None => None
  end.
Definition out (x : Line) : DM unit := dupdate (print_lines [x]).

(** ** Text *)

(** [strings.Fields]: [cur] is the field being read. *)
Fixpoint fields_loop (fuel : nat) (b cur : bytes) (acc : list string) : list string :=
  match fuel with
  | O => acc
  | S fuel =>
      let flushed := match cur with [] => acc | _ => acc ++ [bytes_str cur] end in
      match b with
      | [] => flushed
      | c :: r =>
          match List.find (fun s => has_prefix s b) space_seqs with
          | Some s => fields_loop fuel (drop (length s) b) [] flushed
          | None => fields_loop fuel r (cur ++ [c]) acc
          end
      end
  end.
Definition Fields (s : string) : list string :=
  fields_loop (S (length (str_bytes s))) (str_bytes s) [] [].

(** [strings.Join] with a blank. *)
Fixpoint join_blank (l : list string) : string :=
  match l with
  | [] => EmptyString
  | [x] => x
  | x :: l => (x ++ " " ++ join_blank l)%string
  end.

Definition Second : Z := 10 ^ 9.

(** The sender's name or identifier, cut after 16 bytes. *)
Definition shown_sender (msg : Message) : string :=
  let sender := if bool_decide (SenderNick msg = EmptyString) then Sender msg else SenderNick msg in
  if bool_decide (16 < length (str_bytes sender))%nat
  then (bytes_str (take 16 (str_bytes sender)) ++ "…")%string else sender.

Definition display (now : Z) (msg : Message) : Line :=
  let sender := shown_sender msg in
  let delay := if 0 <? Timestamp msg then wrap64 (now - Timestamp msg) else 0 in
  let hops := if 0 <? HopCount msg then Some (HopCount msg) else None in
  let delayed := if Second <? delay then Some delay else None in
  if bool_decide (MType msg = TypeChat) then
    if bool_decide (Recipient msg = EmptyString)
    then LChat sender hops delayed (Payload msg) else LDirect sender hops delayed (Payload msg)
  else if bool_decide (MType msg = TypeDeliveryAck) then LConfirmed (Payload msg)
  else if bool_decide (MType msg = TypeSOS) then LAlert sender hops (Payload msg)
  else LOther sender (MType msg) (Payload msg).

Section Daemon.
Context {N : NaCl}.
Context (pid_String pid_ShortString : peerID -> string) (peer_Decode : string -> option peerID).
Context (multiaddr_peer : string -> option string).   (* the identifier in a multiaddress *)
Context (E : BEnv).

(** What the hooks for peers print. *)
Definition handlePeerJoin (pid : peerID) : Line := LPeerJoin (pid_ShortString pid).
Definition handlePeerLeave (pid : peerID) : Line := LPeerLeave (pid_ShortString pid).
Definition hook_lines (evs : list Event) : list Line :=
  omap (fun e => match e with
                 | EvPeerJoin p => Some (handlePeerJoin p)
                 | EvPeerLeave p => Some (handlePeerLeave p)
                 | _ => None end) evs.

(** An operation on the node, with its hooks: the daemon's, which the bridge wraps. *)
Definition on_node {A} (m : M A) : DM A := fun d =>
  match on_mesh pid_String pid_ShortString m (d_bridge d) with
  | Some (a, b) =>
      let evs := drop (length (trace (base (br_sos (d_bridge d))))) (trace (base (br_sos b))) in
      Some (a, print_lines (hook_lines evs) (set_bridge b d))
  | None => None
  end.

(** ** From the mesh *)

Definition handleIncomingMessage (l : loc) : DM unit :=
  msg ← on_node (read l);
  d ← dget;
  match HasMessage (d_heap d) (ID msg) (d_store d) with
  | None => dpanic
  | Some true => mret tt
  | Some false =>
      dupdate (set_store (SaveMessage (Some l) (d_store d)));;
      now ← (if 0 <? Timestamp msg then on_node (ask (clock (be_mesh E))) else mret 0);
      out (display now msg)
  end.

(** The node's OnMessage: the daemon's handler, which the bridge wraps when started. *)
Definition OnMessage (l : loc) : DM unit :=
  handleIncomingMessage l;;
  d ← dget;
  if br_started (d_bridge d)
  then on_bridge (handleMeshMessage pid_String pid_ShortString peer_Decode E l)
  else mret tt.

(** ** From the terminal *)

Definition send_and_save (recipient text : string) : DM (option SendError) :=
  d ← dget;
  e ← on_node (ask (entropy (be_mesh E)));
  t ← on_node (ask (clock (be_mesh E)));
  l ← on_node (new (NewChat e t (d_peerID d) (d_nickname d) recipient text));
  r ← on_node (SendMessage pid_String peer_Decode (be_mesh E) l);
  match r with
  | Some err => mret (Some err)
  | None => dupdate (fun d => set_store (SaveMessage (Some l) (d_store d)) d);; mret None
  end.

Definition broadcastMessage (text : string) : DM unit :=
  r ← send_and_save EmptyString text;
  match r with
  | Some err => out (LNotSent err)
  | None =>
      peers ← on_node (KnownPeers (be_mesh E));
      out (LSent (length peers) text)
  end.

Fixpoint count_chats (h : heap) (msgs : list ptr) : option nat :=
  match msgs with
  | [] => Some 0%nat
  | p :: msgs =>
      m ← deref h p;
      n ← count_chats h msgs;
      Some (if bool_decide (MType m = TypeChat) then S n else n)
  end.

Definition stats : DM unit :=
  peers ← on_node (KnownPeers (be_mesh E));
  d ← dget;
  let msgs := Messages (d_store d) in
  match count_chats (d_heap d) msgs with
  | None => dpanic
  | Some n =>
      out (LStats (map pid_ShortString peers) (length msgs) n (d_peerID d) (d_nickname d))
  end.

Definition sendDM (targetShort text : string) : DM unit :=
  peers ← on_node (KnownPeers (be_mesh E));
  let targetID :=
    match List.find (fun p => has_prefix (str_bytes targetShort) (str_bytes (pid_ShortString p))) peers with
    | Some p => pid_String p
    | None => EmptyString
    end in
  if bool_decide (targetID = EmptyString) then out (LNoPeer targetShort)
  else
    r ← send_and_save targetID text;
    match r with
    | Some err => out (LNotSent err)
    | None => out (LSentDM targetShort text)
    end.

Definition handleCommand (cmd : string) : DM unit :=
  match Fields cmd with
  | [] => mret tt
  | c :: args =>
      let typed t := bool_decide (c = t) in
      if typed "/help"%string then out LHelp
      else if typed "/me"%string then d ← dget; out (LMe (d_peerID d) (d_nickname d))
      else if typed "/peers"%string then
        peers ← on_node (KnownPeers (be_mesh E));
        out (match peers with [] => LAlone | _ => LPeers (map pid_ShortString peers) end)
      else if typed "/addrs"%string then out LAddrs
      else if typed "/nick"%string then
        match args with
        | [] => out (LUsage "/nick")
        | _ => dupdate (set_nickname (join_blank args));; out (LNick (join_blank args))
        end
      else if typed "/connect"%string then
        match args with
        | [] => out (LUsage "/connect")
        | addr :: _ =>
            out (LConnecting addr);;
            r ← on_node (ConnectToPeer peer_Decode (be_mesh E) (multiaddr_peer addr));
            match r with
            | Some err => out (LNotConnected addr err)
            | None => mret tt
            end
        end
      else if typed "/msg"%string then
        match args with
        | targetShort :: (_ :: _) as text => sendDM targetShort (join_blank (tail text))
        | _ => out (LUsage "/msg")
        end
      else if typed "/stats"%string then stats
      else if typed "/clear"%string then out LClear
      else if typed "/quit"%string then out LQuit;; dupdate stopped
      else out (LUnknown c)
  end.

(** One line of input. *)
Definition handleLine (text : string) : DM unit :=
  let line := TrimSpace (str_bytes text) in
  if bool_decide (line = []) then mret tt
  else if has_prefix ["/"%char] line then handleCommand (bytes_str line)
  else broadcastMessage (bytes_str line).

(** [handleInput] over the lines the scanner delivers, until the process exits. *)
Fixpoint handleInput (lines : list string) : DM unit :=
  match lines with
  | [] => mret tt
  | line :: lines =>
      handleLine line;;
      d ← dget;
      if d_running d then handleInput lines else mret tt
  end.

End Daemon.
