(* ===== verification/DaemonSpec.v ===== *)
(** * What the daemon keeps of the messages it receives

    An incoming message is stored once, whatever the bridge then does with the shared
    object; and since the object is shared, what the bridge decrypts is what the next
    backup writes. *)

From S2P Require Import Prelude Float64 Json GoJson Message MessageJson Heap Routing Store StoreSpec.
From S2P Require Import FileTransfer Crypto WireJson FileTransferSpec Mesh MeshSpec Sos.
From S2P Require Import Bridge CryptoSpec BridgeSpec BridgeLogic BridgeFrames Daemon.

(** ** Vocabulary *)

(** The identifiers of the shared messages, in order of creation. *)
Definition ids_are (ids : list string) (w : World) : Prop := ID <$> hp w = ids.

(** The stored messages. *)
Definition stored (d : Daemon) : option (list Message) := mapM (deref (d_heap d)) (messages (d_store d)).

Definition sample_daemon (b : Bridge) : Daemon := mkDaemon "B" "bob" New b [] true.

(** ** The bridge keeps identifiers *)

Section Handlers.
Context {N : NaCl}.
Context (pid_String pid_ShortString : peerID -> string) (peer_Decode : string -> option peerID).
Context (E : BEnv).

Section Ids.
Context (me : string) (ids : list string).
Abbreviation J := (ids_are ids).

Lemma y_read_id l : yields J (read l) (fun m => ids !! l = Some (ID m)).
Proof.
  intros w m w' HJ H. unfold read in H. destruct (hp w !! l) as [m0|] eqn:Hm; [| done].
  injection H as <- <-. split; [done |]. unfold ids_are in HJ. by rewrite <- HJ, list_lookup_fmap, Hm.
Qed.

Lemma y_overwrite l m : ids !! l = Some (ID m) -> yields J (write l (fun _ => m)) any.
Proof.
  intros Hl w ? ? HJ [= <- <-]. split; [| done]. unfold ids_are in *. cbn [hp]. rewrite <- HJ.
  apply list_eq. intros i. unfold modify. rewrite !list_lookup_fmap, list_lookup_alter.
  case_decide as Hi; [subst i | done]. rewrite <- HJ, list_lookup_fmap in Hl.
  destruct (hp w !! l) as [m0|]; [| done]. cbn in *. congruence.
Qed.

Lemma y_ask_ids {A} (f : nat -> A) : yields J (ask f) any.
Proof. by intros w ? ? HJ [= <- <-]. Qed.

Lemma DecryptMessage_ID i1 i2 msg m plain m' :
  DecryptMessage i1 i2 msg m = (Ret plain, m') -> ID plain = ID msg.
Proof.
  unfold DecryptMessage. case_match; [done |]. case_match; [done |].
  destruct (decryption_key _ _ _ _) as [[key | |] m1]; [| done..]. intros [= H1 _].
  apply bind_Ret_inv in H1 as (? & _ & [= <-]). done.
Qed.
#[local] Hint Resolve y_read_id y_overwrite y_ask_ids : yields.

Lemma y_HandleIncomingSOS intr l :
  yields (fun s => J (base s)) (HandleIncomingSOS pid_String peer_Decode (be_mesh E) intr l) any.
Proof. unfold HandleIncomingSOS, new_alert, now. yield. Qed.

Lemma y_HandleDeliveryAck msg : yields (fun s => J (base s)) (HandleDeliveryAck msg) any.
Proof. unfold HandleDeliveryAck. yield. Qed.
#[local] Hint Resolve y_HandleIncomingSOS y_HandleDeliveryAck : yields.

Lemma y_decrypt l : yields (named_world me J) (decrypt pid_String pid_ShortString E l) any.
Proof.
  unfold decrypt. yield.
  match goal with H : DecryptMessage _ _ _ _ = _ |- _ => apply DecryptMessage_ID in H end.
  match goal with H : ID _ = ID _ |- _ => rewrite <- H in * end. eauto with yields.
Qed.
#[local] Hint Resolve y_decrypt : yields.

Lemma y_handleMeshMessage l :
  yields (named_world me J) (handleMeshMessage pid_String pid_ShortString peer_Decode E l) any.
Proof. unfold handleMeshMessage, present. yield. Qed.

End Ids.

Lemma handleMeshMessage_ids l b b' :
  handleMeshMessage pid_String pid_ShortString peer_Decode E l b = Some (tt, b') ->
  ID <$> hp (world b') = ID <$> hp (world b).
Proof.
  intros H. assert (named_world (br_peerID b) (ids_are (ID <$> hp (world b))) b) as H0 by done.
  eapply y_handleMeshMessage in H; [| exact H0]. apply H.
Qed.

Lemma deref_ids (h h' : list Message) (ps : list ptr) (ms : list Message) : ID <$> h' = ID <$> h -> mapM (deref h) ps = Some ms ->
  exists ms', mapM (deref h') ps = Some ms' /\ ID <$> (ms' : list Message) = ID <$> ms.
Proof.
  intros Hids. revert ms. induction ps as [|p ps IH]; intros ms; cbn; [intros [= <-]; by exists [] |].
  destruct (deref h p) as [m|] eqn:Hm; [| done]. cbn.
  destruct (mapM (deref h) ps) as [ms0|] eqn:Hps; [| done]. intros [= <-].
  destruct (IH ms0 eq_refl) as (ms1 & -> & Heq). destruct p as [l|]; [| done]. cbn in Hm |- *.
  assert ((ID <$> h') !! l = Some (ID m)) as Hl by (by rewrite Hids, list_lookup_fmap, Hm).
  rewrite list_lookup_fmap in Hl. destruct (h' !! l) as [m'|]; [| done]. cbn in *.
  exists (m' :: ms1). split; [done |]. cbn. congruence.
Qed.

(** ** The daemon's handler *)

Lemma on_mesh_ask {A} (f : nat -> A) b : exists a b',
  on_mesh pid_String pid_ShortString (ask f) b = Some (a, b') /\
  world b' = mkWorld (node (world b)) (hp (world b)) (tasks (world b)) (trace (world b)) (S (Mesh.step (world b))) /\
  br_started b' = br_started b /\ br_e2e b' = br_e2e b.
Proof.
  unfold on_mesh, ask. cbn [trace]. rewrite drop_all. by eexists _, _.
Qed.

(** The bridge after a handler of the daemon: only the node's clock was read. *)
Record same_bridge (b b' : Bridge) : Prop := mkSame {
  sb_heap : hp (world b') = hp (world b);
  sb_started : br_started b' = br_started b;
  sb_e2e : br_e2e b' = br_e2e b
}.

Lemma handleIncoming_spec l msg ms d :
  d_heap d !! l = Some msg -> stored d = Some ms ->
  exists d', handleIncomingMessage pid_String pid_ShortString E l d = Some (tt, d') /\
    same_bridge (d_bridge d) (d_bridge d') /\
    d_store d' = (if decide (ID msg ∈ ID <$> ms) then d_store d else SaveMessage (Some l) (d_store d)).
Proof.
  intros Hl Hms.
  assert (on_node pid_String pid_ShortString (read l) d = Some (msg, d)) as Hread.
  { unfold on_node. rewrite (on_mesh_read _ _ l _ msg Hl), drop_all. destruct d. unfold print_lines. cbn.
    by rewrite app_nil_r. }
  unfold handleIncomingMessage, mbind, DM_bind. rewrite Hread. cbn [dget].
  unfold HasMessage. rewrite (has_loop_spec _ _ _ _ Hms).
  destruct (decide (ID msg ∈ ID <$> ms)) as [Hin | Hin];
    [rewrite bool_decide_true by done | rewrite bool_decide_false by done].
  - exists d. by split_and!.
  - cbn [dupdate]. destruct (0 <? Timestamp msg).
    + unfold on_node. cbn [d_bridge set_store].
      destruct (on_mesh_ask (clock (be_mesh E)) (d_bridge d)) as (t & b' & -> & Hw & Hst & He).
      eexists. split; [reflexivity |]. split; [| done].
      split; [change (hp (world b') = hp (world (d_bridge d))); by rewrite Hw | done | done].
    + eexists. split; [reflexivity |]. by split.
Qed.

(** C20: a message from the mesh is stored exactly if none with its identifier is:
    whatever the bridge does with the object afterwards, the stored messages keep
    their identifiers, and if those were distinct they stay so. *)
Theorem incoming_stored_once l msg ms d d' :
  d_heap d !! l = Some msg -> stored d = Some ms ->
  OnMessage pid_String pid_ShortString peer_Decode E l d = Some (tt, d') ->
  exists ms', stored d' = Some ms' /\
    ID <$> ms' = (ID <$> ms) ++ (if decide (ID msg ∈ ID <$> ms) then [] else [ID msg]) /\
    messages (d_store d')
      = messages (d_store d) ++ (if decide (ID msg ∈ ID <$> ms) then [] else [Some l]) /\
    (NoDup (ID <$> ms) -> NoDup (ID <$> ms')).
Proof.
  intros Hl Hms H. destruct (handleIncoming_spec l msg ms d Hl Hms) as (d1 & Hin & Hb & Hs).
  unfold OnMessage, mbind, DM_bind in H. rewrite Hin in H. cbn [dget] in H.
  assert (ID <$> d_heap d' = ID <$> d_heap d /\ d_store d' = d_store d1) as [Hids Hst].
  { unfold d_heap. change (ID <$> hp (world (d_bridge d')) = ID <$> hp (world (d_bridge d)) /\ d_store d' = d_store d1).
    rewrite <- (sb_heap _ _ Hb). destruct (br_started (d_bridge d1)); [| by injection H as <-].
    unfold on_bridge in H. destruct (handleMeshMessage _ _ _ _ _ _) as [[[] b']|] eqn:Hm; [| done].
    injection H as <-. split; [by eapply handleMeshMessage_ids | done]. }
  unfold stored. rewrite Hst, Hs.
  destruct (deref_ids (d_heap d) (d_heap d') _ _ Hids Hms) as (ms' & Hms' & Heq).
  assert (forall x : string, x ∉ ID <$> ms -> NoDup (ID <$> ms) -> NoDup ((ID <$> ms) ++ [x])) as Hnd.
  { intros x Hx Hn. apply NoDup_app. split_and!; [done | set_solver | apply NoDup_singleton]. }
  case_decide as Hdup; cbn [messages SaveMessage].
  - exists ms'. rewrite !app_nil_r. split_and!; [done.. |]. by rewrite Heq.
  - assert ((ID <$> d_heap d') !! l = Some (ID msg)) as Hid by (rewrite Hids, list_lookup_fmap; unfold d_heap in *; by rewrite Hl).
    rewrite list_lookup_fmap in Hid. destruct (d_heap d' !! l) as [m'|] eqn:Hl'; [| done].
    exists (ms' ++ [m']). cbn in Hid. injection Hid as Hid. rewrite fmap_app, Heq. cbn [fmap list_fmap].
    split_and!; [| by rewrite Hid | done | rewrite Hid; auto].
    apply mapM_Some. apply mapM_Some in Hms'. apply Forall2_app; [done |]. by constructor.
Qed.

End Handlers.

Lemma sample_incoming : exists d',
  @OnMessage toy_box sample_str sample_str sample_decode sample_benv 0
    (sample_daemon (set_flags true false sample_sealed)) = Some (tt, d').
Proof. eexists. vm_compute. reflexivity. Qed.

Lemma incoming_stored_once_witness : exists d' ms',
  @OnMessage toy_box sample_str sample_str sample_decode sample_benv 0
    (sample_daemon (set_flags true false sample_sealed)) = Some (tt, d') /\
  stored d' = Some ms' /\ ID <$> ms' = [ID sealed].
Proof.
  destruct sample_incoming as [d' H].
  destruct (@incoming_stored_once toy_box sample_str sample_str sample_decode sample_benv 0 sealed []
    (sample_daemon (set_flags true false sample_sealed)) d' eq_refl eq_refl H) as (ms' & Hms & Hids & _).
  exists d', ms'. split; [exact H | split; [exact Hms | exact Hids]].
Defined.
