(* ===== verification/Startup.v ===== *)
(** * Starting and stopping the daemon (cmd/rippled/main.go, main)

    From the configuration to a running daemon, or to an exit: the two backup modes,
    the identity, the store, the node with its routing option, the encryption manager
    with its fallback, the peers to connect to, and the wiring of the bridge. *)

From S2P Require Import Prelude Float64 Json GoJson Message MessageJson Heap Routing Paths Config Store.
From S2P Require Import FileTransfer Crypto WireJson Mesh Sos Bridge Identity Daemon.
From S2P Require Import Pem FileTransferSpec CryptoSpec MeshSpec BridgeSpec.

(** What starting asks of the machine: entropy for a new identity and a new key pair,
    and whether libp2p, its publish-subscribe and the bridge's port come up. *)
Record Machine := mkMachine {
  mc_identity : bytes;
  mc_keys : bytes;
  mc_host : bool;
  mc_pubsub : bool
}.

Inductive Boot :=
| Exited (code : Z) (shown : option string)
| Running (d : Daemon).

(** The hooks the daemon sets on the node. *)
Definition daemon_hooks (n : Node) : Node :=
  mkNode (HostID n) (Topic n) (n_peers n) (Mesh.OnMessage n) true true (OnRelay n)
    (n_Forwarder n) (seen n) (encounters n) (sprayed n) (n_SprayBudget n).

(** [nodeOpts], as far as they bear on the node's behaviour. *)
Definition nodeOpts (cfg : Config) : list (Node -> Node) :=
  if bool_decide (RoutingMode cfg = "spray"%string) then [WithSprayBudget (c_SprayBudget cfg)] else [].

(** The store of the daemon, and the heap with the messages of the backup. *)
Definition open_store (cfg : Config) (fs : FS) : heap * Store :=
  if bool_decide (DBPath cfg = EmptyString) then ([], New) else NewWithDB (DBPath cfg) fs [].

Section Startup.
Context {K : Keys} {N : NaCl}.
Context (pid_String pid_ShortString : peerID -> string) (peer_Decode : string -> option peerID).
Context (multiaddr_peer : string -> option string).
Context (E : BEnv) (mc : Machine).

Definition export_seed (cfg : Config) (d : Disk) : Boot * Disk :=
  match LoadOrCreate (IdentityPath cfg) (mc_identity mc) d with
  | (Ret id, d) =>
      match ExportMnemonic id with
      | Ret phrase => (Exited 0 (Some phrase), d)
      | _ => (Exited 1 None, d)
      end
  | (_, d) => (Exited 1 None, d)
  end.

Definition import_seed (cfg : Config) (d : Disk) : Boot * Disk :=
  match FromMnemonic (ImportSeed cfg) with
  | Ret restored =>
      match Save (IdentityPath cfg) restored d with
      | (Ret _, d) => (Exited 0 (Some (pid_String (id_PeerID restored))), d)
      | (_, d) => (Exited 1 None, d)
      end
  | _ => (Exited 1 None, d)
  end.

Definition connect_one (addr : string) : DM unit :=
  out (LConnecting addr);;
  r ← on_node pid_String pid_ShortString (ConnectToPeer peer_Decode (be_mesh E) (multiaddr_peer addr));
  match r with
  | Some err => out (LNotConnected addr err)
  | None => mret tt
  end.
Fixpoint connect_all (addrs : list string) : DM unit :=
  match addrs with
  | [] => mret tt
  | addr :: addrs => connect_one addr;; connect_all addrs
  end.

(** The bridge over the started node; the managers are set after it has started. *)
Definition wire : DM unit :=
  on_bridge (Start pid_String pid_ShortString);;
  on_bridge (bupdate SetFileManager);;
  on_bridge (bupdate SetSOSManager).

(** The daemon's state before it connects to anyone. *)
Definition assemble (cfg : Config) (fs : FS) (id : Identity) (e2e : option Crypto.Manager) (d : Disk) : Daemon :=
  let self := pid_String (id_PeerID id) in
  let n := set_Topic true (daemon_hooks (NewNode (id_PeerID id) (nodeOpts cfg))) in
  let '(h, store) := open_store cfg fs in
  let files := mkSt (FileTransfer.mkManager self ∅ [] (Join (DataDir cfg) "files/incoming")) [] ∅ [] in
  let phrase := match ExportMnemonic id with Ret p => Some p | _ => None end in
  mkDaemon self (c_Nickname cfg) store
    (NewBridge (mkSos ∅ [] [] (mkWorld n h [] [] 0)) files self (c_Nickname cfg) e2e d (Some phrase))
    [] true.

Definition start_daemon (cfg : Config) (fs : FS) (d : Disk) : option (Boot * Disk) :=
  match LoadOrCreate (IdentityPath cfg) (mc_identity mc) d with
  | (Ret id, d) =>
      if negb (Verify id) || negb (mc_host mc) then Some (Exited 1 None, d)
      else
        match Crypto.NewManager (DataDir cfg) (mc_keys mc) d with
        | (Panic, _) => None
        | (r, d) =>
            if negb (mc_pubsub mc) then Some (Exited 1 None, d)
            else
              let e2e := match r with Ret m => Some m | _ => None end in
              match (connect_all (RelayPeers cfg);; wire) (assemble cfg fs id e2e d) with
              | Some (_, daemon) => Some (Running daemon, d)
              | None => None
              end
        end
  | (_, d) => Some (Exited 1 None, d)
  end.

Definition main (cfg : Config) (fs : FS) (d : Disk) : option (Boot * Disk) :=
  if ExportSeed cfg then Some (export_seed cfg d)
  else if negb (bool_decide (ImportSeed cfg = EmptyString)) then Some (import_seed cfg d)
  else start_daemon cfg fs d.

End Startup.

(** A tick of the autosave loop, and the end of [main]. *)
Definition autosave_tick (ft : Faults) (d : Daemon) (fs : FS) : list FS * option Store.SaveError :=
  Autosave (d_heap d) ft (d_store d) fs.
Definition shutdown (ft : Faults) (d : Daemon) (fs : FS) : list FS * option Store.SaveError :=
  Close (d_heap d) ft (d_store d) fs.

(** ** Moving an identity to another device *)

(** The configurations of the examples: printing the backup phrase, and reading it. *)
Definition export_cfg : Config :=
  Parse (mkFlags 0 9876 EmptyString EmptyString EmptyString false false true EmptyString "epidemic" 4 "/a" EmptyString)
    None "host".
Definition import_cfg (phrase : string) : Config :=
  Parse (mkFlags 0 9876 EmptyString EmptyString EmptyString false false false phrase "epidemic" 4 "/b" EmptyString)
    None "host".

(** The identity a device comes up with: the one in its file, which some device once
    generated, or else the one it generates now and can save. *)
Definition comes_up_as {K : Keys} (mc : Machine) (cfg : Config) (d : Disk) (id : Identity) : Prop :=
  IdentityPath cfg ∉ unreadable d /\
  match files d !! IdentityPath cfg with
  | Some _ => Load (IdentityPath cfg) d = Ret id /\ exists e, Generate e = Ret id
  | None => Generate (mc_identity mc) = Ret id /\ mkdir_ok d = true /\ write_fault d = None
  end.

(** The backup phrase of a generated identity recreates it, on any disk. *)
Lemma phrase_of {K : Keys} `{!KeysLaw} e id : Generate e = Ret id ->
  exists phrase, ExportMnemonic id = Ret phrase /\ phrase <> EmptyString /\ FromMnemonic phrase = Ret id.
Proof.
  intros Hg. destruct (Save_ok EmptyString _ _ (mkDisk ∅ ∅ true None) Hg eq_refl eq_refl) as [d' Hs].
  destruct (identity_persists _ _ _ _ _ [] Hg Hs ltac:(set_solver)) as (_ & _ & _ & phrase & H1 & H2 & _ & H3).
  by exists phrase.
Qed.

Lemma loaded {K : Keys} path d id : Load path d = Ret id ->
  path ∉ unreadable d /\ is_Some (files d !! path).
Proof.
  unfold Load, Crypto.ReadFile. destruct (files d !! path); [| done].
  case_bool_decide; [done | eauto].
Qed.

Lemma comes_up {K : Keys} `{!KeysLaw} mc cfg d id : comes_up_as mc cfg d id ->
  (exists e, Generate e = Ret id) /\
  exists d', LoadOrCreate (IdentityPath cfg) (mc_identity mc) d = (Ret id, d') /\
    Load (IdentityPath cfg) d' = Ret id /\ (is_Some (files d !! IdentityPath cfg) -> d' = d).
Proof.
  intros [Hr Hid]. destruct (files d !! IdentityPath cfg) eqn:Hf.
  - destruct Hid as [HL He]. split; [done |]. exists d. unfold LoadOrCreate. by rewrite HL.
  - destruct Hid as (Hg & Hm & Hw). split; [by eexists |].
    destruct (Save_ok (IdentityPath cfg) _ _ d Hg Hm Hw) as [d' Hs]. exists d'. split_and!.
    + unfold LoadOrCreate, Load, Crypto.ReadFile. by rewrite Hf, Hg, Hs.
    + by destruct (identity_persists _ _ _ _ _ [] Hg Hs Hr) as (_ & HL & _).
    + by intros [].
Qed.

(** C19: a device asked for its backup phrase prints that of the identity it has, which
    it leaves as it is; one that has none yet creates, saves and prints one.  Any
    other device started with that phrase takes over the same peer identifier, and
    from then on both load that identity at every start. *)
Theorem seed_moves_identity {K : Keys} {N : NaCl} `{!KeysLaw} pid_String pid_ShortString peer_Decode
    multiaddr_peer E mc cfgA fsA dA id :
  ExportSeed cfgA = true -> comes_up_as mc cfgA dA id ->
  let boot := main pid_String pid_ShortString peer_Decode multiaddr_peer E mc in
  exists phrase dA', boot cfgA fsA dA = Some (Exited 0 (Some phrase), dA') /\
    (is_Some (files dA !! IdentityPath cfgA) -> dA' = dA) /\
    Load (IdentityPath cfgA) dA' = Ret id /\
    (forall e, LoadOrCreate (IdentityPath cfgA) e dA' = (Ret id, dA')) /\
    forall cfgB fsB dB,
      ExportSeed cfgB = false -> ImportSeed cfgB = phrase ->
      mkdir_ok dB = true -> write_fault dB = None -> IdentityPath cfgB ∉ unreadable dB ->
      exists dB', boot cfgB fsB dB = Some (Exited 0 (Some (pid_String (id_PeerID id))), dB') /\
        forall e, LoadOrCreate (IdentityPath cfgB) e dB' = (Ret id, dB').
Proof.
  intros HeA HA boot. destruct (comes_up _ _ _ _ HA) as [[e0 Hg] (dA' & Hup & HLA & Hsame)].
  destruct (phrase_of _ _ Hg) as (phrase & Hexp & Hne & Himp).
  exists phrase, dA'. split_and!; [| done | done | |].
  - unfold boot, main, export_seed. by rewrite HeA, Hup, Hexp.
  - intros e. unfold LoadOrCreate. by rewrite HLA.
  - intros cfgB fsB dB HeB Hphrase HmB HwB HrB.
    destruct (Save_ok (IdentityPath cfgB) _ _ dB Hg HmB HwB) as [dB' HsB]. exists dB'. split.
    + unfold boot, main, import_seed. rewrite HeB, Hphrase, bool_decide_false by done.
      cbn [negb]. by rewrite Himp, HsB.
    + intros e. by destruct (identity_persists _ _ _ _ _ e Hg HsB HrB) as (_ & _ & HL & _).
Qed.

(** A device without an identity, and the same device asked again. *)
Lemma seed_moves_identity_witness :
  let mc := mkMachine (str_bytes "seed") [] true true in
  let run := @main toy_keys toy_box sample_str sample_str sample_decode (fun _ => None) sample_benv mc in
  let empty := mkDisk ∅ ∅ true None in
  exists phrase dA' dB' name phrase2,
    run export_cfg sample_fs empty = Some (Exited 0 (Some phrase), dA') /\
    run (import_cfg phrase) sample_fs empty = Some (Exited 0 (Some name), dB') /\
    run export_cfg sample_fs dA' = Some (Exited 0 (Some phrase2), dA').
Proof.
  intros mc run empty.
  assert (exists id, @Generate toy_keys (mc_identity mc) = Ret id) as [id Hg] by (eexists; reflexivity).
  assert (@comes_up_as toy_keys mc export_cfg empty id) as HA.
  { split; [unfold empty; cbn [unreadable]; set_solver |]. split; [exact Hg | split; reflexivity]. }
  destruct (@seed_moves_identity toy_keys toy_box toy_keys_law sample_str sample_str sample_decode (fun _ => None)
    sample_benv mc export_cfg sample_fs empty id eq_refl HA) as (phrase & dA' & Hrun & _ & HL & _ & Hnext).
  destruct (Hnext (import_cfg phrase) sample_fs empty eq_refl eq_refl eq_refl eq_refl
    ltac:(set_solver)) as (dB' & HB & _).
  destruct (loaded _ _ _ HL) as [Hr Hfile].
  assert (@comes_up_as toy_keys mc export_cfg dA' id) as HA2.
  { split; [exact Hr |]. destruct Hfile as [data Hf]. rewrite Hf. split; [exact HL | exists (mc_identity mc); exact Hg]. }
  destruct (@seed_moves_identity toy_keys toy_box toy_keys_law sample_str sample_str sample_decode (fun _ => None)
    sample_benv mc export_cfg sample_fs dA' id eq_refl HA2) as (phrase2 & dA2 & Hrun2 & Hsame & _).
  rewrite (Hsame Hfile) in Hrun2.
  exists phrase, dA', dB'. eexists. exists phrase2. split; [exact Hrun | split; [exact HB | exact Hrun2]].
Defined.
